(** * linkme: the extraction rule engine of [src/linkme.ts]

    A shallow embedding of the bookmarklet's core: the string and regular
    expression operations the rules rely on, the DOM search primitives, the
    content accessors, the generic title/URL resolver, the rule set and the
    dispatcher [getDocInfo].

    Conventions.
    - A JavaScript string is the list of its UTF-16 code units ([str]).
    - A function that can throw returns a [result].
    - The append-only [Logger] buffer is not part of the model: [logger.log]
      only pushes onto a private array, never throws and is read by no
      function of the core. *)

From Stdlib Require Import String Ascii.
From Stdlib Require Import List NArith Bool Arith Lia.
Import ListNotations.


(* ================================================================== *)
(** * Strings *)
(* ================================================================== *)

Module Str.

(** A UTF-16 code unit. *)
Definition char := N.

(** A JavaScript string value. *)
Definition str := list N.

(** ASCII literals: [lit "abc"] is the string of the three code units. *)
Definition lit (s : string) : str := map N_of_ascii (list_ascii_of_string s).
Arguments lit s%_string.

Fixpoint eqb (a b : str) : bool :=
  match a, b with
  | [], [] => true
  | x :: a', y :: b' => N.eqb x y && eqb a' b'
  | _, _ => false
  end.

(** ECMAScript [WhiteSpace] and [LineTerminator] code points: the set that
    [\s] matches and that [String.prototype.trim] strips. *)
Definition isWhiteSpace (c : char) : bool :=
  (N.eqb c 9 || N.eqb c 10 || N.eqb c 11 || N.eqb c 12 || N.eqb c 13
   || N.eqb c 32 || N.eqb c 160 || N.eqb c 5760
   || (N.leb 8192 c && N.leb c 8202)
   || N.eqb c 8232 || N.eqb c 8233 || N.eqb c 8239 || N.eqb c 8287
   || N.eqb c 12288 || N.eqb c 65279)%bool.

(** ECMAScript [LineTerminator]: what [.] refuses to match. *)
Definition isLineTerminator (c : char) : bool :=
  (N.eqb c 10 || N.eqb c 13 || N.eqb c 8232 || N.eqb c 8233)%bool.

Definition isDigit (c : char) : bool := (N.leb 48 c && N.leb c 57)%bool.

(** [s.startsWith(p)] *)
Fixpoint startsWith (p s : str) : bool :=
  match p, s with
  | [], _ => true
  | x :: p', y :: s' => N.eqb x y && startsWith p' s'
  | _ :: _, [] => false
  end.

(** [s.endsWith(p)] *)
Definition endsWith (p s : str) : bool := startsWith (rev p) (rev s).

(** [s.includes(p)] *)
Fixpoint includes (p s : str) : bool :=
  startsWith p s ||
  match s with
  | [] => false
  | _ :: t => includes p t
  end.

(** [s.indexOf(p)]; [None] stands for [-1]. *)
Fixpoint indexOf (p s : str) : option nat :=
  if startsWith p s then Some 0
  else match s with
       | [] => None
       | _ :: t => option_map S (indexOf p t)
       end.

(** [s.lastIndexOf(p)]; [None] stands for [-1]. *)
Fixpoint lastIndexOf (p s : str) : option nat :=
  match s with
  | [] => if startsWith p s then Some 0 else None
  | _ :: t =>
      match lastIndexOf p t with
      | Some i => Some (S i)
      | None => if startsWith p s then Some 0 else None
      end
  end.

(** [s.substring(a, b)] for [a <= b] and [s.substring(a)]. *)
Definition substring (a b : nat) (s : str) : str := firstn (b - a) (skipn a s).
Definition substringFrom (a : nat) (s : str) : str := skipn a s.

Fixpoint dropWhile (f : char -> bool) (s : str) : str :=
  match s with
  | [] => []
  | c :: t => if f c then dropWhile f t else s
  end.

Definition trimStart (s : str) : str := dropWhile isWhiteSpace s.
Definition trimEnd (s : str) : str := rev (dropWhile isWhiteSpace (rev s)).

(** [s.trim()] *)
Definition trim (s : str) : str := trimEnd (trimStart s).

(** [s.split(sep)] for a one-unit separator. *)
Fixpoint splitOn (sep : char) (s : str) : list str :=
  match s with
  | [] => [[]]
  | c :: t =>
      if N.eqb c sep then [] :: splitOn sep t
      else match splitOn sep t with
           | [] => [[c]]
           | w :: ws => (c :: w) :: ws
           end
  end.

Arguments splitOn sep%_N s.

(** [parts.join(sep)] *)
Fixpoint join (sep : str) (parts : list str) : str :=
  match parts with
  | [] => []
  | [p] => p
  | p :: ps => p ++ sep ++ join sep ps
  end.

End Str.
Import Str.

(* ================================================================== *)
(** * Regular expressions *)
(* ================================================================== *)

(** The regular expressions of [linkme.ts] are sequences of literals,
    one-unit classes, quantified one-unit classes ([x*], [x+], [x*?]),
    capture groups and the anchors [^] and [$]; none carries the [i], [m],
    [s] or [u] flag.  [Re] is a backtracking matcher for exactly this fragment,
    with ECMAScript's priorities: a greedy quantifier tries the longest
    repetition first, a lazy one the shortest. *)
Module Re.

Inductive item :=
| Chr (c : char)                              (* a literal code unit *)
| Cls (f : char -> bool)                       (* a class: [.], [\s], [[^}]] *)
| Rep (f : char -> bool) (min : nat) (greedy : bool)  (* f* f+ f*? *)
| Open                                         (* ( *)
| Close                                        (* ) *)
| Bos                                          (* ^ *)
| Eos.                                         (* $ *)

Arguments Chr c%_N.

Definition regex := list item.

(** The literal [s] as a pattern. *)
Definition chars (s : str) : regex := map Chr s.

Definition dot (c : char) : bool := negb (isLineTerminator c).
Definition notChr (x : char) (c : char) : bool := negb (N.eqb c x).
Arguments notChr x%_N c%_N.

Section Quantifiers.
Variable R : Type.
Variable f : char -> bool.
Variable k : nat -> str -> option R.

  (** [f{n,}] greedy, then [k]: position [i], remaining input [s]. *)
Fixpoint greedy (n i : nat) (s : str) : option R :=
    match s with
    | c :: t =>
        if f c then
          match greedy (pred n) (S i) t with
          | Some r => Some r
          | None => if n =? 0 then k i s else None
          end
        else if n =? 0 then k i s else None
    | [] => if n =? 0 then k i s else None
    end.

  (** [f{n,}?] lazy, then [k]. *)
Fixpoint lazy (n i : nat) (s : str) : option R :=
    match s with
    | c :: t =>
        if n =? 0 then
          match k i s with
          | Some r => Some r
          | None => if f c then lazy 0 (S i) t else None
          end
        else if f c then lazy (pred n) (S i) t else None
    | [] => if n =? 0 then k i s else None
    end.
End Quantifiers.

(** [run pat i s opens caps]: match [pat] at position [i], where [s] is the
    input from [i] on.  [opens] holds the input at each open group, [caps]
    the groups closed so far (latest first).  The result is the captures in
    order and the input left after the match. *)
Fixpoint run (pat : regex) (i : nat) (s : str) (opens : list str)
  (caps : list str) : option (list str * str) :=
  match pat with
  | [] => Some (rev caps, s)
  | Chr c :: p =>
      match s with
      | x :: t => if N.eqb x c then run p (S i) t opens caps else None
      | [] => None
      end
  | Cls f :: p =>
      match s with
      | x :: t => if f x then run p (S i) t opens caps else None
      | [] => None
      end
  | Rep f n g :: p =>
      (if g then greedy else lazy) _ f (fun i' s' => run p i' s' opens caps) n i s
  | Open :: p => run p i s (s :: opens) caps
  | Close :: p =>
      match opens with
      | o :: opens' =>
          run p i s opens' (firstn (length o - length s) o :: caps)
      | [] => None
      end
  | Bos :: p => if i =? 0 then run p i s opens caps else None
  | Eos :: p =>
      match s with
      | [] => run p i s opens caps
      | _ :: _ => None
      end
  end.

(** One match attempt at position [i]. *)
Definition matchAt (pat : regex) (i : nat) (s : str) : option (list str * str) :=
  run pat i s [] [].

(** A successful match: start index, matched text, captures, input left. *)
Record found := { index : nat; matched : str; groups : list str; rest : str }.

(** The leftmost match at or after position [i]. *)
Fixpoint searchFrom (pat : regex) (i : nat) (s : str) : option found :=
  match matchAt pat i s with
  | Some (caps, r) =>
      Some {| index := i; matched := firstn (length s - length r) s;
              groups := caps; rest := r |}
  | None =>
      match s with
      | [] => None
      | _ :: t => searchFrom pat (S i) t
      end
  end.

(** [regex.exec(s)] / [s.match(regex)] without the [g] flag. *)
Definition exec (pat : regex) (s : str) : option found := searchFrom pat 0 s.

(** [regex.test(s)] *)
Definition test (pat : regex) (s : str) : bool :=
  match exec pat s with Some _ => true | None => false end.

(** [s.replace(regex, rep)] without the [g] flag: the first match only. *)
Definition replace (pat : regex) (rep : str) (s : str) : str :=
  match exec pat s with
  | Some m => firstn (index m) s ++ rep ++ rest m
  | None => s
  end.

(** The scan of a [g] regex over [s] from position [i]: [skip] counts the
    units of the current match still to pass over.  An empty match advances
    by one unit, as [lastIndex] does. *)
Fixpoint matchAllFrom (pat : regex) (skip i : nat) (s : str) : list str :=
  match skip with
  | S n =>
      match s with
      | [] => []
      | _ :: t => matchAllFrom pat n (S i) t
      end
  | O =>
      match matchAt pat i s with
      | Some (_, r) =>
          let len := length s - length r in
          firstn len s ::
            match s with
            | [] => []
            | _ :: t => matchAllFrom pat (pred len) (S i) t
            end
      | None =>
          match s with
          | [] => []
          | _ :: t => matchAllFrom pat 0 (S i) t
          end
      end
  end.

(** [s.match(regex)] with the [g] flag: every match, left to right (the
    caller's [|| []] turns [null] into the empty list). *)
Definition matchAll (pat : regex) (s : str) : list str := matchAllFrom pat 0 0 s.

(** [s.replace(regex, rep)] with the [g] flag. *)
Fixpoint replaceAllFrom (pat : regex) (rep : str) (skip i : nat) (s : str) : str :=
  match skip with
  | S n =>
      match s with
      | [] => []
      | _ :: t => replaceAllFrom pat rep n (S i) t
      end
  | O =>
      match matchAt pat i s with
      | Some (_, r) =>
          match length s - length r with
          | O =>
              rep ++ match s with
                     | [] => []
                     | c :: t => c :: replaceAllFrom pat rep 0 (S i) t
                     end
          | S n =>
              rep ++ match s with
                     | [] => []
                     | _ :: t => replaceAllFrom pat rep n (S i) t
                     end
          end
      | None =>
          match s with
          | [] => []
          | c :: t => c :: replaceAllFrom pat rep 0 (S i) t
          end
      end
  end.

Definition replaceAll (pat : regex) (rep : str) (s : str) : str :=
  replaceAllFrom pat rep 0 0 s.

(** [/\s+/] *)
Definition ws_plus : regex := [Rep isWhiteSpace 1 true].

End Re.
Import Re.

(* ================================================================== *)
(** * Content accessors: text normalisation *)
(* ================================================================== *)

(** [result] of a call that may throw; the payload of [Throw] is the
    message of the [Error]. *)
Inductive result (A : Type) :=
| Ok (a : A)
| Throw (message : str).
Arguments Ok {A} a.
Arguments Throw {A} message.

(** The named character references of the HTML standard (its section
    "Named character references"): the name as it follows the ampersand,
    with its semicolon where the standard lists it, and the code units it
    stands for.  Longer names come first, so that the first name of the
    table that starts a text is the longest one that does. *)
Definition namedReferences : list (str * str) :=
  [
   (lit "CounterClockwiseContourIntegral;", [8755%N]);
   (lit "ClockwiseContourIntegral;", [8754%N]);
   (lit "DoubleLongLeftRightArrow;", [10234%N]);
   (lit "NotNestedGreaterGreater;", [10914%N; 824%N]);
   (lit "DiacriticalDoubleAcute;", [733%N]);
   (lit "NotSquareSupersetEqual;", [8931%N]);
   (lit "CloseCurlyDoubleQuote;", [8221%N]);
   (lit "DoubleContourIntegral;", [8751%N]);
   (lit "FilledVerySmallSquare;", [9642%N]);
   (lit "NegativeVeryThinSpace;", [8203%N]);
   (lit "NotPrecedesSlantEqual;", [8928%N]);
   (lit "NotRightTriangleEqual;", [8941%N]);
   (lit "NotSucceedsSlantEqual;", [8929%N]);
   (lit "CapitalDifferentialD;", [8517%N]);
   (lit "DoubleLeftRightArrow;", [8660%N]);
   (lit "DoubleLongRightArrow;", [10233%N]);
   (lit "EmptyVerySmallSquare;", [9643%N]);
   (lit "NestedGreaterGreater;", [8811%N]);
   (lit "NotDoubleVerticalBar;", [8742%N]);
   (lit "NotGreaterSlantEqual;", [10878%N; 824%N]);
   (lit "NotLeftTriangleEqual;", [8940%N]);
   (lit "NotSquareSubsetEqual;", [8930%N]);
   (lit "OpenCurlyDoubleQuote;", [8220%N]);
   (lit "ReverseUpEquilibrium;", [10607%N]);
   (lit "DoubleLongLeftArrow;", [10232%N]);
   (lit "DownLeftRightVector;", [10576%N]);
   (lit "LeftArrowRightArrow;", [8646%N]);
   (lit "NegativeMediumSpace;", [8203%N]);
   (lit "NotGreaterFullEqual;", [8807%N; 824%N]);
   (lit "NotRightTriangleBar;", [10704%N; 824%N]);
   (lit "RightArrowLeftArrow;", [8644%N]);
   (lit "SquareSupersetEqual;", [8850%N]);
   (lit "leftrightsquigarrow;", [8621%N]);
   (lit "DownRightTeeVector;", [10591%N]);
   (lit "DownRightVectorBar;", [10583%N]);
   (lit "LongLeftRightArrow;", [10231%N]);
   (lit "Longleftrightarrow;", [10234%N]);
   (lit "NegativeThickSpace;", [8203%N]);
   (lit "NotLeftTriangleBar;", [10703%N; 824%N]);
   (lit "PrecedesSlantEqual;", [8828%N]);
   (lit "ReverseEquilibrium;", [8651%N]);
   (lit "RightDoubleBracket;", [10215%N]);
   (lit "RightDownTeeVector;", [10589%N]);
   (lit "RightDownVectorBar;", [10581%N]);
   (lit "RightTriangleEqual;", [8885%N]);
   (lit "SquareIntersection;", [8851%N]);
   (lit "SucceedsSlantEqual;", [8829%N]);
   (lit "blacktriangleright;", [9656%N]);
   (lit "longleftrightarrow;", [10231%N]);
   (lit "DoubleUpDownArrow;", [8661%N]);
   (lit "DoubleVerticalBar;", [8741%N]);
   (lit "DownLeftTeeVector;", [10590%N]);
   (lit "DownLeftVectorBar;", [10582%N]);
   (lit "FilledSmallSquare;", [9724%N]);
   (lit "GreaterSlantEqual;", [10878%N]);
   (lit "LeftDoubleBracket;", [10214%N]);
   (lit "LeftDownTeeVector;", [10593%N]);
   (lit "LeftDownVectorBar;", [10585%N]);
   (lit "LeftTriangleEqual;", [8884%N]);
   (lit "NegativeThinSpace;", [8203%N]);
   (lit "NotGreaterGreater;", [8811%N; 824%N]);
   (lit "NotLessSlantEqual;", [10877%N; 824%N]);
   (lit "NotNestedLessLess;", [10913%N; 824%N]);
   (lit "NotReverseElement;", [8716%N]);
   (lit "NotSquareSuperset;", [8848%N; 824%N]);
   (lit "NotTildeFullEqual;", [8775%N]);
   (lit "RightAngleBracket;", [10217%N]);
   (lit "RightUpDownVector;", [10575%N]);
   (lit "SquareSubsetEqual;", [8849%N]);
   (lit "VerticalSeparator;", [10072%N]);
   (lit "blacktriangledown;", [9662%N]);
   (lit "blacktriangleleft;", [9666%N]);
   (lit "leftrightharpoons;", [8651%N]);
   (lit "rightleftharpoons;", [8652%N]);
   (lit "twoheadrightarrow;", [8608%N]);
   (lit "DiacriticalAcute;", [180%N]);
   (lit "DiacriticalGrave;", [96%N]);
   (lit "DiacriticalTilde;", [732%N]);
   (lit "DoubleRightArrow;", [8658%N]);
   (lit "DownArrowUpArrow;", [8693%N]);
   (lit "EmptySmallSquare;", [9723%N]);
   (lit "GreaterEqualLess;", [8923%N]);
   (lit "GreaterFullEqual;", [8807%N]);
   (lit "LeftAngleBracket;", [10216%N]);
   (lit "LeftUpDownVector;", [10577%N]);
   (lit "LessEqualGreater;", [8922%N]);
   (lit "NonBreakingSpace;", [160%N]);
   (lit "NotPrecedesEqual;", [10927%N; 824%N]);
   (lit "NotRightTriangle;", [8939%N]);
   (lit "NotSucceedsEqual;", [10928%N; 824%N]);
   (lit "NotSucceedsTilde;", [8831%N; 824%N]);
   (lit "NotSupersetEqual;", [8841%N]);
   (lit "RightTriangleBar;", [10704%N]);
   (lit "RightUpTeeVector;", [10588%N]);
   (lit "RightUpVectorBar;", [10580%N]);
   (lit "UnderParenthesis;", [9181%N]);
   (lit "UpArrowDownArrow;", [8645%N]);
   (lit "circlearrowright;", [8635%N]);
   (lit "downharpoonright;", [8642%N]);
   (lit "ntrianglerighteq;", [8941%N]);
   (lit "rightharpoondown;", [8641%N]);
   (lit "rightrightarrows;", [8649%N]);
   (lit "twoheadleftarrow;", [8606%N]);
   (lit "vartriangleright;", [8883%N]);
   (lit "CloseCurlyQuote;", [8217%N]);
   (lit "ContourIntegral;", [8750%N]);
   (lit "DoubleDownArrow;", [8659%N]);
   (lit "DoubleLeftArrow;", [8656%N]);
   (lit "DownRightVector;", [8641%N]);
   (lit "LeftRightVector;", [10574%N]);
   (lit "LeftTriangleBar;", [10703%N]);
   (lit "LeftUpTeeVector;", [10592%N]);
   (lit "LeftUpVectorBar;", [10584%N]);
   (lit "LowerRightArrow;", [8600%N]);
   (lit "NotGreaterEqual;", [8817%N]);
   (lit "NotGreaterTilde;", [8821%N]);
   (lit "NotHumpDownHump;", [8782%N; 824%N]);
   (lit "NotLeftTriangle;", [8938%N]);
   (lit "NotSquareSubset;", [8847%N; 824%N]);
   (lit "OverParenthesis;", [9180%N]);
   (lit "RightDownVector;", [8642%N]);
   (lit "ShortRightArrow;", [8594%N]);
   (lit "UpperRightArrow;", [8599%N]);
   (lit "bigtriangledown;", [9661%N]);
   (lit "circlearrowleft;", [8634%N]);
   (lit "curvearrowright;", [8631%N]);
   (lit "downharpoonleft;", [8643%N]);
   (lit "leftharpoondown;", [8637%N]);
   (lit "leftrightarrows;", [8646%N]);
   (lit "nLeftrightarrow;", [8654%N]);
   (lit "nleftrightarrow;", [8622%N]);
   (lit "ntrianglelefteq;", [8940%N]);
   (lit "rightleftarrows;", [8644%N]);
   (lit "rightsquigarrow;", [8605%N]);
   (lit "rightthreetimes;", [8908%N]);
   (lit "straightepsilon;", [1013%N]);
   (lit "trianglerighteq;", [8885%N]);
   (lit "vartriangleleft;", [8882%N]);
   (lit "DiacriticalDot;", [729%N]);
   (lit "DoubleRightTee;", [8872%N]);
   (lit "DownLeftVector;", [8637%N]);
   (lit "GreaterGreater;", [10914%N]);
   (lit "HorizontalLine;", [9472%N]);
   (lit "InvisibleComma;", [8291%N]);
   (lit "InvisibleTimes;", [8290%N]);
   (lit "LeftDownVector;", [8643%N]);
   (lit "LeftRightArrow;", [8596%N]);
   (lit "Leftrightarrow;", [8660%N]);
   (lit "LessSlantEqual;", [10877%N]);
   (lit "LongRightArrow;", [10230%N]);
   (lit "Longrightarrow;", [10233%N]);
   (lit "LowerLeftArrow;", [8601%N]);
   (lit "NestedLessLess;", [8810%N]);
   (lit "NotGreaterLess;", [8825%N]);
   (lit "NotLessGreater;", [8824%N]);
   (lit "NotSubsetEqual;", [8840%N]);
   (lit "NotVerticalBar;", [8740%N]);
   (lit "OpenCurlyQuote;", [8216%N]);
   (lit "ReverseElement;", [8715%N]);
   (lit "RightTeeVector;", [10587%N]);
   (lit "RightVectorBar;", [10579%N]);
   (lit "ShortDownArrow;", [8595%N]);
   (lit "ShortLeftArrow;", [8592%N]);
   (lit "SquareSuperset;", [8848%N]);
   (lit "TildeFullEqual;", [8773%N]);
   (lit "UpperLeftArrow;", [8598%N]);
   (lit "ZeroWidthSpace;", [8203%N]);
   (lit "curvearrowleft;", [8630%N]);
   (lit "doublebarwedge;", [8966%N]);
   (lit "downdownarrows;", [8650%N]);
   (lit "hookrightarrow;", [8618%N]);
   (lit "leftleftarrows;", [8647%N]);
   (lit "leftrightarrow;", [8596%N]);
   (lit "leftthreetimes;", [8907%N]);
   (lit "longrightarrow;", [10230%N]);
   (lit "looparrowright;", [8620%N]);
   (lit "nshortparallel;", [8742%N]);
   (lit "ntriangleright;", [8939%N]);
   (lit "rightarrowtail;", [8611%N]);
   (lit "rightharpoonup;", [8640%N]);
   (lit "trianglelefteq;", [8884%N]);
   (lit "upharpoonright;", [8638%N]);
   (lit "ApplyFunction;", [8289%N]);
   (lit "DifferentialD;", [8518%N]);
   (lit "DoubleLeftTee;", [10980%N]);
   (lit "DoubleUpArrow;", [8657%N]);
   (lit "LeftTeeVector;", [10586%N]);
   (lit "LeftVectorBar;", [10578%N]);
   (lit "LessFullEqual;", [8806%N]);
   (lit "LongLeftArrow;", [10229%N]);
   (lit "Longleftarrow;", [10232%N]);
   (lit "NotEqualTilde;", [8770%N; 824%N]);
   (lit "NotTildeEqual;", [8772%N]);
   (lit "NotTildeTilde;", [8777%N]);
   (lit "Poincareplane;", [8460%N]);
   (lit "PrecedesEqual;", [10927%N]);
   (lit "PrecedesTilde;", [8830%N]);
   (lit "RightArrowBar;", [8677%N]);
   (lit "RightTeeArrow;", [8614%N]);
   (lit "RightTriangle;", [8883%N]);
   (lit "RightUpVector;", [8638%N]);
   (lit "SucceedsEqual;", [10928%N]);
   (lit "SucceedsTilde;", [8831%N]);
   (lit "SupersetEqual;", [8839%N]);
   (lit "UpEquilibrium;", [10606%N]);
   (lit "VerticalTilde;", [8768%N]);
   (lit "VeryThinSpace;", [8202%N]);
   (lit "bigtriangleup;", [9651%N]);
   (lit "blacktriangle;", [9652%N]);
   (lit "divideontimes;", [8903%N]);
   (lit "fallingdotseq;", [8786%N]);
   (lit "hookleftarrow;", [8617%N]);
   (lit "leftarrowtail;", [8610%N]);
   (lit "leftharpoonup;", [8636%N]);
   (lit "longleftarrow;", [10229%N]);
   (lit "looparrowleft;", [8619%N]);
   (lit "measuredangle;", [8737%N]);
   (lit "ntriangleleft;", [8938%N]);
   (lit "shortparallel;", [8741%N]);
   (lit "smallsetminus;", [8726%N]);
   (lit "triangleright;", [9657%N]);
   (lit "upharpoonleft;", [8639%N]);
   (lit "varsubsetneqq;", [10955%N; 65024%N]);
   (lit "varsupsetneqq;", [10956%N; 65024%N]);
   (lit "DownArrowBar;", [10515%N]);
   (lit "DownTeeArrow;", [8615%N]);
   (lit "ExponentialE;", [8519%N]);
   (lit "GreaterEqual;", [8805%N]);
   (lit "GreaterTilde;", [8819%N]);
   (lit "HilbertSpace;", [8459%N]);
   (lit "HumpDownHump;", [8782%N]);
   (lit "Intersection;", [8898%N]);
   (lit "LeftArrowBar;", [8676%N]);
   (lit "LeftTeeArrow;", [8612%N]);
   (lit "LeftTriangle;", [8882%N]);
   (lit "LeftUpVector;", [8639%N]);
   (lit "NotCongruent;", [8802%N]);
   (lit "NotHumpEqual;", [8783%N; 824%N]);
   (lit "NotLessEqual;", [8816%N]);
   (lit "NotLessTilde;", [8820%N]);
   (lit "Proportional;", [8733%N]);
   (lit "RightCeiling;", [8969%N]);
   (lit "RoundImplies;", [10608%N]);
   (lit "ShortUpArrow;", [8593%N]);
   (lit "SquareSubset;", [8847%N]);
   (lit "UnderBracket;", [9141%N]);
   (lit "VerticalLine;", [124%N]);
   (lit "blacklozenge;", [10731%N]);
   (lit "exponentiale;", [8519%N]);
   (lit "risingdotseq;", [8787%N]);
   (lit "triangledown;", [9663%N]);
   (lit "triangleleft;", [9667%N]);
   (lit "varsubsetneq;", [8842%N; 65024%N]);
   (lit "varsupsetneq;", [8843%N; 65024%N]);
   (lit "CircleMinus;", [8854%N]);
   (lit "CircleTimes;", [8855%N]);
   (lit "Equilibrium;", [8652%N]);
   (lit "GreaterLess;", [8823%N]);
   (lit "LeftCeiling;", [8968%N]);
   (lit "LessGreater;", [8822%N]);
   (lit "MediumSpace;", [8287%N]);
   (lit "NotLessLess;", [8810%N; 824%N]);
   (lit "NotPrecedes;", [8832%N]);
   (lit "NotSucceeds;", [8833%N]);
   (lit "NotSuperset;", [8835%N; 8402%N]);
   (lit "OverBracket;", [9140%N]);
   (lit "RightVector;", [8640%N]);
   (lit "Rrightarrow;", [8667%N]);
   (lit "RuleDelayed;", [10740%N]);
   (lit "SmallCircle;", [8728%N]);
   (lit "SquareUnion;", [8852%N]);
   (lit "SubsetEqual;", [8838%N]);
   (lit "UpDownArrow;", [8597%N]);
   (lit "Updownarrow;", [8661%N]);
   (lit "VerticalBar;", [8739%N]);
   (lit "backepsilon;", [1014%N]);
   (lit "blacksquare;", [9642%N]);
   (lit "circledcirc;", [8858%N]);
   (lit "circleddash;", [8861%N]);
   (lit "curlyeqprec;", [8926%N]);
   (lit "curlyeqsucc;", [8927%N]);
   (lit "diamondsuit;", [9830%N]);
   (lit "eqslantless;", [10901%N]);
   (lit "expectation;", [8496%N]);
   (lit "nRightarrow;", [8655%N]);
   (lit "nrightarrow;", [8603%N]);
   (lit "preccurlyeq;", [8828%N]);
   (lit "precnapprox;", [10937%N]);
   (lit "quaternions;", [8461%N]);
   (lit "straightphi;", [981%N]);
   (lit "succcurlyeq;", [8829%N]);
   (lit "succnapprox;", [10938%N]);
   (lit "thickapprox;", [8776%N]);
   (lit "updownarrow;", [8597%N]);
   (lit "Bernoullis;", [8492%N]);
   (lit "CirclePlus;", [8853%N]);
   (lit "EqualTilde;", [8770%N]);
   (lit "Fouriertrf;", [8497%N]);
   (lit "ImaginaryI;", [8520%N]);
   (lit "Laplacetrf;", [8466%N]);
   (lit "LeftVector;", [8636%N]);
   (lit "Lleftarrow;", [8666%N]);
   (lit "NotElement;", [8713%N]);
   (lit "NotGreater;", [8815%N]);
   (lit "Proportion;", [8759%N]);
   (lit "RightArrow;", [8594%N]);
   (lit "RightFloor;", [8971%N]);
   (lit "Rightarrow;", [8658%N]);
   (lit "ThickSpace;", [8287%N; 8202%N]);
   (lit "TildeEqual;", [8771%N]);
   (lit "TildeTilde;", [8776%N]);
   (lit "UnderBrace;", [9183%N]);
   (lit "UpArrowBar;", [10514%N]);
   (lit "UpTeeArrow;", [8613%N]);
   (lit "circledast;", [8859%N]);
   (lit "complement;", [8705%N]);
   (lit "curlywedge;", [8911%N]);
   (lit "eqslantgtr;", [10902%N]);
   (lit "gtreqqless;", [10892%N]);
   (lit "lessapprox;", [10885%N]);
   (lit "lesseqqgtr;", [10891%N]);
   (lit "lmoustache;", [9136%N]);
   (lit "longmapsto;", [10236%N]);
   (lit "mapstodown;", [8615%N]);
   (lit "mapstoleft;", [8612%N]);
   (lit "nLeftarrow;", [8653%N]);
   (lit "nleftarrow;", [8602%N]);
   (lit "nsubseteqq;", [10949%N; 824%N]);
   (lit "nsupseteqq;", [10950%N; 824%N]);
   (lit "precapprox;", [10935%N]);
   (lit "rightarrow;", [8594%N]);
   (lit "rmoustache;", [9137%N]);
   (lit "sqsubseteq;", [8849%N]);
   (lit "sqsupseteq;", [8850%N]);
   (lit "subsetneqq;", [10955%N]);
   (lit "succapprox;", [10936%N]);
   (lit "supsetneqq;", [10956%N]);
   (lit "upuparrows;", [8648%N]);
   (lit "varepsilon;", [1013%N]);
   (lit "varnothing;", [8709%N]);
   (lit "Backslash;", [8726%N]);
   (lit "CenterDot;", [183%N]);
   (lit "CircleDot;", [8857%N]);
   (lit "Congruent;", [8801%N]);
   (lit "Coproduct;", [8720%N]);
   (lit "DoubleDot;", [168%N]);
   (lit "DownArrow;", [8595%N]);
   (lit "DownBreve;", [785%N]);
   (lit "Downarrow;", [8659%N]);
   (lit "HumpEqual;", [8783%N]);
   (lit "LeftArrow;", [8592%N]);
   (lit "LeftFloor;", [8970%N]);
   (lit "Leftarrow;", [8656%N]);
   (lit "LessTilde;", [8818%N]);
   (lit "Mellintrf;", [8499%N]);
   (lit "MinusPlus;", [8723%N]);
   (lit "NotCupCap;", [8813%N]);
   (lit "NotExists;", [8708%N]);
   (lit "NotSubset;", [8834%N; 8402%N]);
   (lit "OverBrace;", [9182%N]);
   (lit "PlusMinus;", [177%N]);
   (lit "Therefore;", [8756%N]);
   (lit "ThinSpace;", [8201%N]);
   (lit "TripleDot;", [8411%N]);
   (lit "UnionPlus;", [8846%N]);
   (lit "backprime;", [8245%N]);
   (lit "backsimeq;", [8909%N]);
   (lit "bigotimes;", [10754%N]);
   (lit "centerdot;", [183%N]);
   (lit "checkmark;", [10003%N]);
   (lit "complexes;", [8450%N]);
   (lit "dotsquare;", [8865%N]);
   (lit "downarrow;", [8595%N]);
   (lit "gtrapprox;", [10886%N]);
   (lit "gtreqless;", [8923%N]);
   (lit "gvertneqq;", [8809%N; 65024%N]);
   (lit "heartsuit;", [9829%N]);
   (lit "leftarrow;", [8592%N]);
   (lit "lesseqgtr;", [8922%N]);
   (lit "lvertneqq;", [8808%N; 65024%N]);
   (lit "ngeqslant;", [10878%N; 824%N]);
   (lit "nleqslant;", [10877%N; 824%N]);
   (lit "nparallel;", [8742%N]);
   (lit "nshortmid;", [8740%N]);
   (lit "nsubseteq;", [8840%N]);
   (lit "nsupseteq;", [8841%N]);
   (lit "pitchfork;", [8916%N]);
   (lit "rationals;", [8474%N]);
   (lit "spadesuit;", [9824%N]);
   (lit "subseteqq;", [10949%N]);
   (lit "subsetneq;", [8842%N]);
   (lit "supseteqq;", [10950%N]);
   (lit "supsetneq;", [8843%N]);
   (lit "therefore;", [8756%N]);
   (lit "triangleq;", [8796%N]);
   (lit "varpropto;", [8733%N]);
   (lit "DDotrahd;", [10513%N]);
   (lit "DotEqual;", [8784%N]);
   (lit "Integral;", [8747%N]);
   (lit "LessLess;", [10913%N]);
   (lit "NotEqual;", [8800%N]);
   (lit "NotTilde;", [8769%N]);
   (lit "PartialD;", [8706%N]);
   (lit "Precedes;", [8826%N]);
   (lit "RightTee;", [8866%N]);
   (lit "Succeeds;", [8827%N]);
   (lit "SuchThat;", [8715%N]);
   (lit "Superset;", [8835%N]);
   (lit "Uarrocir;", [10569%N]);
   (lit "UnderBar;", [95%N]);
   (lit "andslope;", [10840%N]);
   (lit "angmsdaa;", [10664%N]);
   (lit "angmsdab;", [10665%N]);
   (lit "angmsdac;", [10666%N]);
   (lit "angmsdad;", [10667%N]);
   (lit "angmsdae;", [10668%N]);
   (lit "angmsdaf;", [10669%N]);
   (lit "angmsdag;", [10670%N]);
   (lit "angmsdah;", [10671%N]);
   (lit "angrtvbd;", [10653%N]);
   (lit "approxeq;", [8778%N]);
   (lit "awconint;", [8755%N]);
   (lit "backcong;", [8780%N]);
   (lit "barwedge;", [8965%N]);
   (lit "bbrktbrk;", [9142%N]);
   (lit "bigoplus;", [10753%N]);
   (lit "bigsqcup;", [10758%N]);
   (lit "biguplus;", [10756%N]);
   (lit "bigwedge;", [8896%N]);
   (lit "boxminus;", [8863%N]);
   (lit "boxtimes;", [8864%N]);
   (lit "bsolhsub;", [10184%N]);
   (lit "capbrcup;", [10825%N]);
   (lit "circledR;", [174%N]);
   (lit "circledS;", [9416%N]);
   (lit "cirfnint;", [10768%N]);
   (lit "clubsuit;", [9827%N]);
   (lit "cupbrcap;", [10824%N]);
   (lit "curlyvee;", [8910%N]);
   (lit "cwconint;", [8754%N]);
   (lit "doteqdot;", [8785%N]);
   (lit "dotminus;", [8760%N]);
   (lit "drbkarow;", [10512%N]);
   (lit "dzigrarr;", [10239%N]);
   (lit "elinters;", [9191%N]);
   (lit "emptyset;", [8709%N]);
   (lit "eqvparsl;", [10725%N]);
   (lit "fpartint;", [10765%N]);
   (lit "geqslant;", [10878%N]);
   (lit "gesdotol;", [10884%N]);
   (lit "gnapprox;", [10890%N]);
   (lit "hksearow;", [10533%N]);
   (lit "hkswarow;", [10534%N]);
   (lit "imagline;", [8464%N]);
   (lit "imagpart;", [8465%N]);
   (lit "infintie;", [10717%N]);
   (lit "integers;", [8484%N]);
   (lit "intercal;", [8890%N]);
   (lit "intlarhk;", [10775%N]);
   (lit "laemptyv;", [10676%N]);
   (lit "ldrushar;", [10571%N]);
   (lit "leqslant;", [10877%N]);
   (lit "lesdotor;", [10883%N]);
   (lit "llcorner;", [8990%N]);
   (lit "lnapprox;", [10889%N]);
   (lit "lrcorner;", [8991%N]);
   (lit "lurdshar;", [10570%N]);
   (lit "mapstoup;", [8613%N]);
   (lit "multimap;", [8888%N]);
   (lit "naturals;", [8469%N]);
   (lit "ncongdot;", [10861%N; 824%N]);
   (lit "notindot;", [8949%N; 824%N]);
   (lit "otimesas;", [10806%N]);
   (lit "parallel;", [8741%N]);
   (lit "plusacir;", [10787%N]);
   (lit "pointint;", [10773%N]);
   (lit "precneqq;", [10933%N]);
   (lit "precnsim;", [8936%N]);
   (lit "profalar;", [9006%N]);
   (lit "profline;", [8978%N]);
   (lit "profsurf;", [8979%N]);
   (lit "raemptyv;", [10675%N]);
   (lit "realpart;", [8476%N]);
   (lit "rppolint;", [10770%N]);
   (lit "rtriltri;", [10702%N]);
   (lit "scpolint;", [10771%N]);
   (lit "setminus;", [8726%N]);
   (lit "shortmid;", [8739%N]);
   (lit "smeparsl;", [10724%N]);
   (lit "sqsubset;", [8847%N]);
   (lit "sqsupset;", [8848%N]);
   (lit "subseteq;", [8838%N]);
   (lit "succneqq;", [10934%N]);
   (lit "succnsim;", [8937%N]);
   (lit "supseteq;", [8839%N]);
   (lit "thetasym;", [977%N]);
   (lit "thicksim;", [8764%N]);
   (lit "timesbar;", [10801%N]);
   (lit "triangle;", [9653%N]);
   (lit "triminus;", [10810%N]);
   (lit "trpezium;", [9186%N]);
   (lit "ulcorner;", [8988%N]);
   (lit "urcorner;", [8989%N]);
   (lit "varkappa;", [1008%N]);
   (lit "varsigma;", [962%N]);
   (lit "vartheta;", [977%N]);
   (lit "Because;", [8757%N]);
   (lit "Cayleys;", [8493%N]);
   (lit "Cconint;", [8752%N]);
   (lit "Cedilla;", [184%N]);
   (lit "Diamond;", [8900%N]);
   (lit "DownTee;", [8868%N]);
   (lit "Element;", [8712%N]);
   (lit "Epsilon;", [917%N]);
   (lit "Implies;", [8658%N]);
   (lit "LeftTee;", [8867%N]);
   (lit "NewLine;", [10%N]);
   (lit "NoBreak;", [8288%N]);
   (lit "NotLess;", [8814%N]);
   (lit "Omicron;", [927%N]);
   (lit "OverBar;", [8254%N]);
   (lit "Product;", [8719%N]);
   (lit "UpArrow;", [8593%N]);
   (lit "Uparrow;", [8657%N]);
   (lit "Upsilon;", [933%N]);
   (lit "alefsym;", [8501%N]);
   (lit "angrtvb;", [8894%N]);
   (lit "angzarr;", [9084%N]);
   (lit "asympeq;", [8781%N]);
   (lit "backsim;", [8765%N]);
   (lit "because;", [8757%N]);
   (lit "bemptyv;", [10672%N]);
   (lit "between;", [8812%N]);
   (lit "bigcirc;", [9711%N]);
   (lit "bigodot;", [10752%N]);
   (lit "bigstar;", [9733%N]);
   (lit "bnequiv;", [8801%N; 8421%N]);
   (lit "boxplus;", [8862%N]);
   (lit "ccupssm;", [10832%N]);
   (lit "cemptyv;", [10674%N]);
   (lit "cirscir;", [10690%N]);
   (lit "coloneq;", [8788%N]);
   (lit "congdot;", [10861%N]);
   (lit "cudarrl;", [10552%N]);
   (lit "cudarrr;", [10549%N]);
   (lit "cularrp;", [10557%N]);
   (lit "curarrm;", [10556%N]);
   (lit "dbkarow;", [10511%N]);
   (lit "ddagger;", [8225%N]);
   (lit "ddotseq;", [10871%N]);
   (lit "demptyv;", [10673%N]);
   (lit "diamond;", [8900%N]);
   (lit "digamma;", [989%N]);
   (lit "dotplus;", [8724%N]);
   (lit "dwangle;", [10662%N]);
   (lit "epsilon;", [949%N]);
   (lit "eqcolon;", [8789%N]);
   (lit "equivDD;", [10872%N]);
   (lit "gesdoto;", [10882%N]);
   (lit "gtquest;", [10876%N]);
   (lit "gtrless;", [8823%N]);
   (lit "harrcir;", [10568%N]);
   (lit "intprod;", [10812%N]);
   (lit "isindot;", [8949%N]);
   (lit "larrbfs;", [10527%N]);
   (lit "larrsim;", [10611%N]);
   (lit "lbrksld;", [10639%N]);
   (lit "lbrkslu;", [10637%N]);
   (lit "ldrdhar;", [10599%N]);
   (lit "lesdoto;", [10881%N]);
   (lit "lessdot;", [8918%N]);
   (lit "lessgtr;", [8822%N]);
   (lit "lesssim;", [8818%N]);
   (lit "lotimes;", [10804%N]);
   (lit "lozenge;", [9674%N]);
   (lit "ltquest;", [10875%N]);
   (lit "luruhar;", [10598%N]);
   (lit "maltese;", [10016%N]);
   (lit "minusdu;", [10794%N]);
   (lit "napprox;", [8777%N]);
   (lit "natural;", [9838%N]);
   (lit "nearrow;", [8599%N]);
   (lit "nexists;", [8708%N]);
   (lit "notinva;", [8713%N]);
   (lit "notinvb;", [8951%N]);
   (lit "notinvc;", [8950%N]);
   (lit "notniva;", [8716%N]);
   (lit "notnivb;", [8958%N]);
   (lit "notnivc;", [8957%N]);
   (lit "npolint;", [10772%N]);
   (lit "npreceq;", [10927%N; 824%N]);
   (lit "nsqsube;", [8930%N]);
   (lit "nsqsupe;", [8931%N]);
   (lit "nsubset;", [8834%N; 8402%N]);
   (lit "nsucceq;", [10928%N; 824%N]);
   (lit "nsupset;", [8835%N; 8402%N]);
   (lit "nvinfin;", [10718%N]);
   (lit "nvltrie;", [8884%N; 8402%N]);
   (lit "nvrtrie;", [8885%N; 8402%N]);
   (lit "nwarrow;", [8598%N]);
   (lit "olcross;", [10683%N]);
   (lit "omicron;", [959%N]);
   (lit "orderof;", [8500%N]);
   (lit "orslope;", [10839%N]);
   (lit "pertenk;", [8241%N]);
   (lit "planckh;", [8462%N]);
   (lit "pluscir;", [10786%N]);
   (lit "plussim;", [10790%N]);
   (lit "plustwo;", [10791%N]);
   (lit "precsim;", [8830%N]);
   (lit "quatint;", [10774%N]);
   (lit "questeq;", [8799%N]);
   (lit "rarrbfs;", [10528%N]);
   (lit "rarrsim;", [10612%N]);
   (lit "rbrksld;", [10638%N]);
   (lit "rbrkslu;", [10640%N]);
   (lit "rdldhar;", [10601%N]);
   (lit "realine;", [8475%N]);
   (lit "rotimes;", [10805%N]);
   (lit "ruluhar;", [10600%N]);
   (lit "searrow;", [8600%N]);
   (lit "simplus;", [10788%N]);
   (lit "simrarr;", [10610%N]);
   (lit "subedot;", [10947%N]);
   (lit "submult;", [10945%N]);
   (lit "subplus;", [10943%N]);
   (lit "subrarr;", [10617%N]);
   (lit "succsim;", [8831%N]);
   (lit "supdsub;", [10968%N]);
   (lit "supedot;", [10948%N]);
   (lit "suphsol;", [10185%N]);
   (lit "suphsub;", [10967%N]);
   (lit "suplarr;", [10619%N]);
   (lit "supmult;", [10946%N]);
   (lit "supplus;", [10944%N]);
   (lit "swarrow;", [8601%N]);
   (lit "topfork;", [10970%N]);
   (lit "triplus;", [10809%N]);
   (lit "tritime;", [10811%N]);
   (lit "uparrow;", [8593%N]);
   (lit "upsilon;", [965%N]);
   (lit "uwangle;", [10663%N]);
   (lit "vzigzag;", [10650%N]);
   (lit "zigrarr;", [8669%N]);
   (lit "Aacute;", [193%N]);
   (lit "Abreve;", [258%N]);
   (lit "Agrave;", [192%N]);
   (lit "Assign;", [8788%N]);
   (lit "Atilde;", [195%N]);
   (lit "Barwed;", [8966%N]);
   (lit "Bumpeq;", [8782%N]);
   (lit "Cacute;", [262%N]);
   (lit "Ccaron;", [268%N]);
   (lit "Ccedil;", [199%N]);
   (lit "Colone;", [10868%N]);
   (lit "Conint;", [8751%N]);
   (lit "CupCap;", [8781%N]);
   (lit "Dagger;", [8225%N]);
   (lit "Dcaron;", [270%N]);
   (lit "DotDot;", [8412%N]);
   (lit "Dstrok;", [272%N]);
   (lit "Eacute;", [201%N]);
   (lit "Ecaron;", [282%N]);
   (lit "Egrave;", [200%N]);
   (lit "Exists;", [8707%N]);
   (lit "ForAll;", [8704%N]);
   (lit "Gammad;", [988%N]);
   (lit "Gbreve;", [286%N]);
   (lit "Gcedil;", [290%N]);
   (lit "HARDcy;", [1066%N]);
   (lit "Hstrok;", [294%N]);
   (lit "Iacute;", [205%N]);
   (lit "Igrave;", [204%N]);
   (lit "Itilde;", [296%N]);
   (lit "Jsercy;", [1032%N]);
   (lit "Kcedil;", [310%N]);
   (lit "Lacute;", [313%N]);
   (lit "Lambda;", [923%N]);
   (lit "Lcaron;", [317%N]);
   (lit "Lcedil;", [315%N]);
   (lit "Lmidot;", [319%N]);
   (lit "Lstrok;", [321%N]);
   (lit "Nacute;", [323%N]);
   (lit "Ncaron;", [327%N]);
   (lit "Ncedil;", [325%N]);
   (lit "Ntilde;", [209%N]);
   (lit "Oacute;", [211%N]);
   (lit "Odblac;", [336%N]);
   (lit "Ograve;", [210%N]);
   (lit "Oslash;", [216%N]);
   (lit "Otilde;", [213%N]);
   (lit "Otimes;", [10807%N]);
   (lit "Racute;", [340%N]);
   (lit "Rarrtl;", [10518%N]);
   (lit "Rcaron;", [344%N]);
   (lit "Rcedil;", [342%N]);
   (lit "SHCHcy;", [1065%N]);
   (lit "SOFTcy;", [1068%N]);
   (lit "Sacute;", [346%N]);
   (lit "Scaron;", [352%N]);
   (lit "Scedil;", [350%N]);
   (lit "Square;", [9633%N]);
   (lit "Subset;", [8912%N]);
   (lit "Supset;", [8913%N]);
   (lit "Tcaron;", [356%N]);
   (lit "Tcedil;", [354%N]);
   (lit "Tstrok;", [358%N]);
   (lit "Uacute;", [218%N]);
   (lit "Ubreve;", [364%N]);
   (lit "Udblac;", [368%N]);
   (lit "Ugrave;", [217%N]);
   (lit "Utilde;", [360%N]);
   (lit "Vdashl;", [10982%N]);
   (lit "Verbar;", [8214%N]);
   (lit "Vvdash;", [8874%N]);
   (lit "Yacute;", [221%N]);
   (lit "Zacute;", [377%N]);
   (lit "Zcaron;", [381%N]);
   (lit "aacute;", [225%N]);
   (lit "abreve;", [259%N]);
   (lit "agrave;", [224%N]);
   (lit "andand;", [10837%N]);
   (lit "angmsd;", [8737%N]);
   (lit "angsph;", [8738%N]);
   (lit "apacir;", [10863%N]);
   (lit "approx;", [8776%N]);
   (lit "atilde;", [227%N]);
   (lit "barvee;", [8893%N]);
   (lit "barwed;", [8965%N]);
   (lit "becaus;", [8757%N]);
   (lit "bernou;", [8492%N]);
   (lit "bigcap;", [8898%N]);
   (lit "bigcup;", [8899%N]);
   (lit "bigvee;", [8897%N]);
   (lit "bkarow;", [10509%N]);
   (lit "bottom;", [8869%N]);
   (lit "bowtie;", [8904%N]);
   (lit "boxbox;", [10697%N]);
   (lit "bprime;", [8245%N]);
   (lit "brvbar;", [166%N]);
   (lit "bullet;", [8226%N]);
   (lit "bumpeq;", [8783%N]);
   (lit "cacute;", [263%N]);
   (lit "capand;", [10820%N]);
   (lit "capcap;", [10827%N]);
   (lit "capcup;", [10823%N]);
   (lit "capdot;", [10816%N]);
   (lit "ccaron;", [269%N]);
   (lit "ccedil;", [231%N]);
   (lit "circeq;", [8791%N]);
   (lit "cirmid;", [10991%N]);
   (lit "colone;", [8788%N]);
   (lit "commat;", [64%N]);
   (lit "compfn;", [8728%N]);
   (lit "conint;", [8750%N]);
   (lit "coprod;", [8720%N]);
   (lit "copysr;", [8471%N]);
   (lit "cularr;", [8630%N]);
   (lit "cupcap;", [10822%N]);
   (lit "cupcup;", [10826%N]);
   (lit "cupdot;", [8845%N]);
   (lit "curarr;", [8631%N]);
   (lit "curren;", [164%N]);
   (lit "cylcty;", [9005%N]);
   (lit "dagger;", [8224%N]);
   (lit "daleth;", [8504%N]);
   (lit "dcaron;", [271%N]);
   (lit "dfisht;", [10623%N]);
   (lit "divide;", [247%N]);
   (lit "divonx;", [8903%N]);
   (lit "dlcorn;", [8990%N]);
   (lit "dlcrop;", [8973%N]);
   (lit "dollar;", [36%N]);
   (lit "drcorn;", [8991%N]);
   (lit "drcrop;", [8972%N]);
   (lit "dstrok;", [273%N]);
   (lit "eacute;", [233%N]);
   (lit "easter;", [10862%N]);
   (lit "ecaron;", [283%N]);
   (lit "ecolon;", [8789%N]);
   (lit "egrave;", [232%N]);
   (lit "egsdot;", [10904%N]);
   (lit "elsdot;", [10903%N]);
   (lit "emptyv;", [8709%N]);
   (lit "emsp13;", [8196%N]);
   (lit "emsp14;", [8197%N]);
   (lit "eparsl;", [10723%N]);
   (lit "eqcirc;", [8790%N]);
   (lit "equals;", [61%N]);
   (lit "equest;", [8799%N]);
   (lit "female;", [9792%N]);
   (lit "ffilig;", [64259%N]);
   (lit "ffllig;", [64260%N]);
   (lit "forall;", [8704%N]);
   (lit "frac12;", [189%N]);
   (lit "frac13;", [8531%N]);
   (lit "frac14;", [188%N]);
   (lit "frac15;", [8533%N]);
   (lit "frac16;", [8537%N]);
   (lit "frac18;", [8539%N]);
   (lit "frac23;", [8532%N]);
   (lit "frac25;", [8534%N]);
   (lit "frac34;", [190%N]);
   (lit "frac35;", [8535%N]);
   (lit "frac38;", [8540%N]);
   (lit "frac45;", [8536%N]);
   (lit "frac56;", [8538%N]);
   (lit "frac58;", [8541%N]);
   (lit "frac78;", [8542%N]);
   (lit "gacute;", [501%N]);
   (lit "gammad;", [989%N]);
   (lit "gbreve;", [287%N]);
   (lit "gesdot;", [10880%N]);
   (lit "gesles;", [10900%N]);
   (lit "gtlPar;", [10645%N]);
   (lit "gtrarr;", [10616%N]);
   (lit "gtrdot;", [8919%N]);
   (lit "gtrsim;", [8819%N]);
   (lit "hairsp;", [8202%N]);
   (lit "hamilt;", [8459%N]);
   (lit "hardcy;", [1098%N]);
   (lit "hearts;", [9829%N]);
   (lit "hellip;", [8230%N]);
   (lit "hercon;", [8889%N]);
   (lit "homtht;", [8763%N]);
   (lit "horbar;", [8213%N]);
   (lit "hslash;", [8463%N]);
   (lit "hstrok;", [295%N]);
   (lit "hybull;", [8259%N]);
   (lit "hyphen;", [8208%N]);
   (lit "iacute;", [237%N]);
   (lit "igrave;", [236%N]);
   (lit "iiiint;", [10764%N]);
   (lit "iinfin;", [10716%N]);
   (lit "incare;", [8453%N]);
   (lit "inodot;", [305%N]);
   (lit "intcal;", [8890%N]);
   (lit "iquest;", [191%N]);
   (lit "isinsv;", [8947%N]);
   (lit "itilde;", [297%N]);
   (lit "jsercy;", [1112%N]);
   (lit "kappav;", [1008%N]);
   (lit "kcedil;", [311%N]);
   (lit "kgreen;", [312%N]);
   (lit "lAtail;", [10523%N]);
   (lit "lacute;", [314%N]);
   (lit "lagran;", [8466%N]);
   (lit "lambda;", [955%N]);
   (lit "langle;", [10216%N]);
   (lit "larrfs;", [10525%N]);
   (lit "larrhk;", [8617%N]);
   (lit "larrlp;", [8619%N]);
   (lit "larrpl;", [10553%N]);
   (lit "larrtl;", [8610%N]);
   (lit "latail;", [10521%N]);
   (lit "lbrace;", [123%N]);
   (lit "lbrack;", [91%N]);
   (lit "lcaron;", [318%N]);
   (lit "lcedil;", [316%N]);
   (lit "ldquor;", [8222%N]);
   (lit "lesdot;", [10879%N]);
   (lit "lesges;", [10899%N]);
   (lit "lfisht;", [10620%N]);
   (lit "lfloor;", [8970%N]);
   (lit "lharul;", [10602%N]);
   (lit "llhard;", [10603%N]);
   (lit "lmidot;", [320%N]);
   (lit "lmoust;", [9136%N]);
   (lit "loplus;", [10797%N]);
   (lit "lowast;", [8727%N]);
   (lit "lowbar;", [95%N]);
   (lit "lparlt;", [10643%N]);
   (lit "lrhard;", [10605%N]);
   (lit "lsaquo;", [8249%N]);
   (lit "lsquor;", [8218%N]);
   (lit "lstrok;", [322%N]);
   (lit "lthree;", [8907%N]);
   (lit "ltimes;", [8905%N]);
   (lit "ltlarr;", [10614%N]);
   (lit "ltrPar;", [10646%N]);
   (lit "mapsto;", [8614%N]);
   (lit "marker;", [9646%N]);
   (lit "mcomma;", [10793%N]);
   (lit "midast;", [42%N]);
   (lit "midcir;", [10992%N]);
   (lit "middot;", [183%N]);
   (lit "minusb;", [8863%N]);
   (lit "minusd;", [8760%N]);
   (lit "mnplus;", [8723%N]);
   (lit "models;", [8871%N]);
   (lit "mstpos;", [8766%N]);
   (lit "nVDash;", [8879%N]);
   (lit "nVdash;", [8878%N]);
   (lit "nacute;", [324%N]);
   (lit "nbumpe;", [8783%N; 824%N]);
   (lit "ncaron;", [328%N]);
   (lit "ncedil;", [326%N]);
   (lit "nearhk;", [10532%N]);
   (lit "nequiv;", [8802%N]);
   (lit "nesear;", [10536%N]);
   (lit "nexist;", [8708%N]);
   (lit "nltrie;", [8940%N]);
   (lit "notinE;", [8953%N; 824%N]);
   (lit "nparsl;", [11005%N; 8421%N]);
   (lit "nprcue;", [8928%N]);
   (lit "nrarrc;", [10547%N; 824%N]);
   (lit "nrarrw;", [8605%N; 824%N]);
   (lit "nrtrie;", [8941%N]);
   (lit "nsccue;", [8929%N]);
   (lit "nsimeq;", [8772%N]);
   (lit "ntilde;", [241%N]);
   (lit "numero;", [8470%N]);
   (lit "nvDash;", [8877%N]);
   (lit "nvHarr;", [10500%N]);
   (lit "nvdash;", [8876%N]);
   (lit "nvlArr;", [10498%N]);
   (lit "nvrArr;", [10499%N]);
   (lit "nwarhk;", [10531%N]);
   (lit "nwnear;", [10535%N]);
   (lit "oacute;", [243%N]);
   (lit "odblac;", [337%N]);
   (lit "odsold;", [10684%N]);
   (lit "ograve;", [242%N]);
   (lit "ominus;", [8854%N]);
   (lit "origof;", [8886%N]);
   (lit "oslash;", [248%N]);
   (lit "otilde;", [245%N]);
   (lit "otimes;", [8855%N]);
   (lit "parsim;", [10995%N]);
   (lit "percnt;", [37%N]);
   (lit "period;", [46%N]);
   (lit "permil;", [8240%N]);
   (lit "phmmat;", [8499%N]);
   (lit "planck;", [8463%N]);
   (lit "plankv;", [8463%N]);
   (lit "plusdo;", [8724%N]);
   (lit "plusdu;", [10789%N]);
   (lit "plusmn;", [177%N]);
   (lit "preceq;", [10927%N]);
   (lit "primes;", [8473%N]);
   (lit "prnsim;", [8936%N]);
   (lit "propto;", [8733%N]);
   (lit "prurel;", [8880%N]);
   (lit "puncsp;", [8200%N]);
   (lit "qprime;", [8279%N]);
   (lit "rAtail;", [10524%N]);
   (lit "racute;", [341%N]);
   (lit "rangle;", [10217%N]);
   (lit "rarrap;", [10613%N]);
   (lit "rarrfs;", [10526%N]);
   (lit "rarrhk;", [8618%N]);
   (lit "rarrlp;", [8620%N]);
   (lit "rarrpl;", [10565%N]);
   (lit "rarrtl;", [8611%N]);
   (lit "ratail;", [10522%N]);
   (lit "rbrace;", [125%N]);
   (lit "rbrack;", [93%N]);
   (lit "rcaron;", [345%N]);
   (lit "rcedil;", [343%N]);
   (lit "rdquor;", [8221%N]);
   (lit "rfisht;", [10621%N]);
   (lit "rfloor;", [8971%N]);
   (lit "rharul;", [10604%N]);
   (lit "rmoust;", [9137%N]);
   (lit "roplus;", [10798%N]);
   (lit "rpargt;", [10644%N]);
   (lit "rsaquo;", [8250%N]);
   (lit "rsquor;", [8217%N]);
   (lit "rthree;", [8908%N]);
   (lit "rtimes;", [8906%N]);
   (lit "sacute;", [347%N]);
   (lit "scaron;", [353%N]);
   (lit "scedil;", [351%N]);
   (lit "scnsim;", [8937%N]);
   (lit "searhk;", [10533%N]);
   (lit "seswar;", [10537%N]);
   (lit "sfrown;", [8994%N]);
   (lit "shchcy;", [1097%N]);
   (lit "sigmaf;", [962%N]);
   (lit "sigmav;", [962%N]);
   (lit "simdot;", [10858%N]);
   (lit "smashp;", [10803%N]);
   (lit "softcy;", [1100%N]);
   (lit "solbar;", [9023%N]);
   (lit "spades;", [9824%N]);
   (lit "sqcaps;", [8851%N; 65024%N]);
   (lit "sqcups;", [8852%N; 65024%N]);
   (lit "sqsube;", [8849%N]);
   (lit "sqsupe;", [8850%N]);
   (lit "square;", [9633%N]);
   (lit "squarf;", [9642%N]);
   (lit "ssetmn;", [8726%N]);
   (lit "ssmile;", [8995%N]);
   (lit "sstarf;", [8902%N]);
   (lit "subdot;", [10941%N]);
   (lit "subset;", [8834%N]);
   (lit "subsim;", [10951%N]);
   (lit "subsub;", [10965%N]);
   (lit "subsup;", [10963%N]);
   (lit "succeq;", [10928%N]);
   (lit "supdot;", [10942%N]);
   (lit "supset;", [8835%N]);
   (lit "supsim;", [10952%N]);
   (lit "supsub;", [10964%N]);
   (lit "supsup;", [10966%N]);
   (lit "swarhk;", [10534%N]);
   (lit "swnwar;", [10538%N]);
   (lit "target;", [8982%N]);
   (lit "tcaron;", [357%N]);
   (lit "tcedil;", [355%N]);
   (lit "telrec;", [8981%N]);
   (lit "there4;", [8756%N]);
   (lit "thetav;", [977%N]);
   (lit "thinsp;", [8201%N]);
   (lit "thksim;", [8764%N]);
   (lit "timesb;", [8864%N]);
   (lit "timesd;", [10800%N]);
   (lit "topbot;", [9014%N]);
   (lit "topcir;", [10993%N]);
   (lit "tprime;", [8244%N]);
   (lit "tridot;", [9708%N]);
   (lit "tstrok;", [359%N]);
   (lit "uacute;", [250%N]);
   (lit "ubreve;", [365%N]);
   (lit "udblac;", [369%N]);
   (lit "ufisht;", [10622%N]);
   (lit "ugrave;", [249%N]);
   (lit "ulcorn;", [8988%N]);
   (lit "ulcrop;", [8975%N]);
   (lit "urcorn;", [8989%N]);
   (lit "urcrop;", [8974%N]);
   (lit "utilde;", [361%N]);
   (lit "vangrt;", [10652%N]);
   (lit "varphi;", [981%N]);
   (lit "varrho;", [1009%N]);
   (lit "veebar;", [8891%N]);
   (lit "vellip;", [8942%N]);
   (lit "verbar;", [124%N]);
   (lit "vsubnE;", [10955%N; 65024%N]);
   (lit "vsubne;", [8842%N; 65024%N]);
   (lit "vsupnE;", [10956%N; 65024%N]);
   (lit "vsupne;", [8843%N; 65024%N]);
   (lit "wedbar;", [10847%N]);
   (lit "wedgeq;", [8793%N]);
   (lit "weierp;", [8472%N]);
   (lit "wreath;", [8768%N]);
   (lit "xoplus;", [10753%N]);
   (lit "xotime;", [10754%N]);
   (lit "xsqcup;", [10758%N]);
   (lit "xuplus;", [10756%N]);
   (lit "xwedge;", [8896%N]);
   (lit "yacute;", [253%N]);
   (lit "zacute;", [378%N]);
   (lit "zcaron;", [382%N]);
   (lit "zeetrf;", [8488%N]);
   (lit "AElig;", [198%N]);
   (lit "Aacute", [193%N]);
   (lit "Acirc;", [194%N]);
   (lit "Agrave", [192%N]);
   (lit "Alpha;", [913%N]);
   (lit "Amacr;", [256%N]);
   (lit "Aogon;", [260%N]);
   (lit "Aring;", [197%N]);
   (lit "Atilde", [195%N]);
   (lit "Breve;", [728%N]);
   (lit "Ccedil", [199%N]);
   (lit "Ccirc;", [264%N]);
   (lit "Colon;", [8759%N]);
   (lit "Cross;", [10799%N]);
   (lit "Dashv;", [10980%N]);
   (lit "Delta;", [916%N]);
   (lit "Eacute", [201%N]);
   (lit "Ecirc;", [202%N]);
   (lit "Egrave", [200%N]);
   (lit "Emacr;", [274%N]);
   (lit "Eogon;", [280%N]);
   (lit "Equal;", [10869%N]);
   (lit "Gamma;", [915%N]);
   (lit "Gcirc;", [284%N]);
   (lit "Hacek;", [711%N]);
   (lit "Hcirc;", [292%N]);
   (lit "IJlig;", [306%N]);
   (lit "Iacute", [205%N]);
   (lit "Icirc;", [206%N]);
   (lit "Igrave", [204%N]);
   (lit "Imacr;", [298%N]);
   (lit "Iogon;", [302%N]);
   (lit "Iukcy;", [1030%N]);
   (lit "Jcirc;", [308%N]);
   (lit "Jukcy;", [1028%N]);
   (lit "Kappa;", [922%N]);
   (lit "Ntilde", [209%N]);
   (lit "OElig;", [338%N]);
   (lit "Oacute", [211%N]);
   (lit "Ocirc;", [212%N]);
   (lit "Ograve", [210%N]);
   (lit "Omacr;", [332%N]);
   (lit "Omega;", [937%N]);
   (lit "Oslash", [216%N]);
   (lit "Otilde", [213%N]);
   (lit "Prime;", [8243%N]);
   (lit "RBarr;", [10512%N]);
   (lit "Scirc;", [348%N]);
   (lit "Sigma;", [931%N]);
   (lit "THORN;", [222%N]);
   (lit "TRADE;", [8482%N]);
   (lit "TSHcy;", [1035%N]);
   (lit "Theta;", [920%N]);
   (lit "Tilde;", [8764%N]);
   (lit "Uacute", [218%N]);
   (lit "Ubrcy;", [1038%N]);
   (lit "Ucirc;", [219%N]);
   (lit "Ugrave", [217%N]);
   (lit "Umacr;", [362%N]);
   (lit "Union;", [8899%N]);
   (lit "Uogon;", [370%N]);
   (lit "UpTee;", [8869%N]);
   (lit "Uring;", [366%N]);
   (lit "VDash;", [8875%N]);
   (lit "Vdash;", [8873%N]);
   (lit "Wcirc;", [372%N]);
   (lit "Wedge;", [8896%N]);
   (lit "Yacute", [221%N]);
   (lit "Ycirc;", [374%N]);
   (lit "aacute", [225%N]);
   (lit "acirc;", [226%N]);
   (lit "acute;", [180%N]);
   (lit "aelig;", [230%N]);
   (lit "agrave", [224%N]);
   (lit "aleph;", [8501%N]);
   (lit "alpha;", [945%N]);
   (lit "amacr;", [257%N]);
   (lit "amalg;", [10815%N]);
   (lit "angle;", [8736%N]);
   (lit "angrt;", [8735%N]);
   (lit "angst;", [197%N]);
   (lit "aogon;", [261%N]);
   (lit "aring;", [229%N]);
   (lit "asymp;", [8776%N]);
   (lit "atilde", [227%N]);
   (lit "awint;", [10769%N]);
   (lit "bcong;", [8780%N]);
   (lit "bdquo;", [8222%N]);
   (lit "bepsi;", [1014%N]);
   (lit "blank;", [9251%N]);
   (lit "blk12;", [9618%N]);
   (lit "blk14;", [9617%N]);
   (lit "blk34;", [9619%N]);
   (lit "block;", [9608%N]);
   (lit "boxDL;", [9559%N]);
   (lit "boxDR;", [9556%N]);
   (lit "boxDl;", [9558%N]);
   (lit "boxDr;", [9555%N]);
   (lit "boxHD;", [9574%N]);
   (lit "boxHU;", [9577%N]);
   (lit "boxHd;", [9572%N]);
   (lit "boxHu;", [9575%N]);
   (lit "boxUL;", [9565%N]);
   (lit "boxUR;", [9562%N]);
   (lit "boxUl;", [9564%N]);
   (lit "boxUr;", [9561%N]);
   (lit "boxVH;", [9580%N]);
   (lit "boxVL;", [9571%N]);
   (lit "boxVR;", [9568%N]);
   (lit "boxVh;", [9579%N]);
   (lit "boxVl;", [9570%N]);
   (lit "boxVr;", [9567%N]);
   (lit "boxdL;", [9557%N]);
   (lit "boxdR;", [9554%N]);
   (lit "boxdl;", [9488%N]);
   (lit "boxdr;", [9484%N]);
   (lit "boxhD;", [9573%N]);
   (lit "boxhU;", [9576%N]);
   (lit "boxhd;", [9516%N]);
   (lit "boxhu;", [9524%N]);
   (lit "boxuL;", [9563%N]);
   (lit "boxuR;", [9560%N]);
   (lit "boxul;", [9496%N]);
   (lit "boxur;", [9492%N]);
   (lit "boxvH;", [9578%N]);
   (lit "boxvL;", [9569%N]);
   (lit "boxvR;", [9566%N]);
   (lit "boxvh;", [9532%N]);
   (lit "boxvl;", [9508%N]);
   (lit "boxvr;", [9500%N]);
   (lit "breve;", [728%N]);
   (lit "brvbar", [166%N]);
   (lit "bsemi;", [8271%N]);
   (lit "bsime;", [8909%N]);
   (lit "bsolb;", [10693%N]);
   (lit "bumpE;", [10926%N]);
   (lit "bumpe;", [8783%N]);
   (lit "caret;", [8257%N]);
   (lit "caron;", [711%N]);
   (lit "ccaps;", [10829%N]);
   (lit "ccedil", [231%N]);
   (lit "ccirc;", [265%N]);
   (lit "ccups;", [10828%N]);
   (lit "cedil;", [184%N]);
   (lit "check;", [10003%N]);
   (lit "clubs;", [9827%N]);
   (lit "colon;", [58%N]);
   (lit "comma;", [44%N]);
   (lit "crarr;", [8629%N]);
   (lit "cross;", [10007%N]);
   (lit "csube;", [10961%N]);
   (lit "csupe;", [10962%N]);
   (lit "ctdot;", [8943%N]);
   (lit "cuepr;", [8926%N]);
   (lit "cuesc;", [8927%N]);
   (lit "cupor;", [10821%N]);
   (lit "curren", [164%N]);
   (lit "cuvee;", [8910%N]);
   (lit "cuwed;", [8911%N]);
   (lit "cwint;", [8753%N]);
   (lit "dashv;", [8867%N]);
   (lit "dblac;", [733%N]);
   (lit "ddarr;", [8650%N]);
   (lit "delta;", [948%N]);
   (lit "dharl;", [8643%N]);
   (lit "dharr;", [8642%N]);
   (lit "diams;", [9830%N]);
   (lit "disin;", [8946%N]);
   (lit "divide", [247%N]);
   (lit "doteq;", [8784%N]);
   (lit "dtdot;", [8945%N]);
   (lit "dtrif;", [9662%N]);
   (lit "duarr;", [8693%N]);
   (lit "duhar;", [10607%N]);
   (lit "eDDot;", [10871%N]);
   (lit "eacute", [233%N]);
   (lit "ecirc;", [234%N]);
   (lit "efDot;", [8786%N]);
   (lit "egrave", [232%N]);
   (lit "emacr;", [275%N]);
   (lit "empty;", [8709%N]);
   (lit "eogon;", [281%N]);
   (lit "eplus;", [10865%N]);
   (lit "epsiv;", [1013%N]);
   (lit "eqsim;", [8770%N]);
   (lit "equiv;", [8801%N]);
   (lit "erDot;", [8787%N]);
   (lit "erarr;", [10609%N]);
   (lit "esdot;", [8784%N]);
   (lit "exist;", [8707%N]);
   (lit "fflig;", [64256%N]);
   (lit "filig;", [64257%N]);
   (lit "fjlig;", [102%N; 106%N]);
   (lit "fllig;", [64258%N]);
   (lit "fltns;", [9649%N]);
   (lit "forkv;", [10969%N]);
   (lit "frac12", [189%N]);
   (lit "frac14", [188%N]);
   (lit "frac34", [190%N]);
   (lit "frasl;", [8260%N]);
   (lit "frown;", [8994%N]);
   (lit "gamma;", [947%N]);
   (lit "gcirc;", [285%N]);
   (lit "gescc;", [10921%N]);
   (lit "gimel;", [8503%N]);
   (lit "gneqq;", [8809%N]);
   (lit "gnsim;", [8935%N]);
   (lit "grave;", [96%N]);
   (lit "gsime;", [10894%N]);
   (lit "gsiml;", [10896%N]);
   (lit "gtcir;", [10874%N]);
   (lit "gtdot;", [8919%N]);
   (lit "harrw;", [8621%N]);
   (lit "hcirc;", [293%N]);
   (lit "hoarr;", [8703%N]);
   (lit "iacute", [237%N]);
   (lit "icirc;", [238%N]);
   (lit "iexcl;", [161%N]);
   (lit "igrave", [236%N]);
   (lit "iiint;", [8749%N]);
   (lit "iiota;", [8489%N]);
   (lit "ijlig;", [307%N]);
   (lit "imacr;", [299%N]);
   (lit "image;", [8465%N]);
   (lit "imath;", [305%N]);
   (lit "imped;", [437%N]);
   (lit "infin;", [8734%N]);
   (lit "iogon;", [303%N]);
   (lit "iprod;", [10812%N]);
   (lit "iquest", [191%N]);
   (lit "isinE;", [8953%N]);
   (lit "isins;", [8948%N]);
   (lit "isinv;", [8712%N]);
   (lit "iukcy;", [1110%N]);
   (lit "jcirc;", [309%N]);
   (lit "jmath;", [567%N]);
   (lit "jukcy;", [1108%N]);
   (lit "kappa;", [954%N]);
   (lit "lAarr;", [8666%N]);
   (lit "lBarr;", [10510%N]);
   (lit "langd;", [10641%N]);
   (lit "laquo;", [171%N]);
   (lit "larrb;", [8676%N]);
   (lit "lates;", [10925%N; 65024%N]);
   (lit "lbarr;", [10508%N]);
   (lit "lbbrk;", [10098%N]);
   (lit "lbrke;", [10635%N]);
   (lit "lceil;", [8968%N]);
   (lit "ldquo;", [8220%N]);
   (lit "lescc;", [10920%N]);
   (lit "lhard;", [8637%N]);
   (lit "lharu;", [8636%N]);
   (lit "lhblk;", [9604%N]);
   (lit "llarr;", [8647%N]);
   (lit "lltri;", [9722%N]);
   (lit "lneqq;", [8808%N]);
   (lit "lnsim;", [8934%N]);
   (lit "loang;", [10220%N]);
   (lit "loarr;", [8701%N]);
   (lit "lobrk;", [10214%N]);
   (lit "lopar;", [10629%N]);
   (lit "lrarr;", [8646%N]);
   (lit "lrhar;", [8651%N]);
   (lit "lrtri;", [8895%N]);
   (lit "lsime;", [10893%N]);
   (lit "lsimg;", [10895%N]);
   (lit "lsquo;", [8216%N]);
   (lit "ltcir;", [10873%N]);
   (lit "ltdot;", [8918%N]);
   (lit "ltrie;", [8884%N]);
   (lit "ltrif;", [9666%N]);
   (lit "mDDot;", [8762%N]);
   (lit "mdash;", [8212%N]);
   (lit "micro;", [181%N]);
   (lit "middot", [183%N]);
   (lit "minus;", [8722%N]);
   (lit "mumap;", [8888%N]);
   (lit "nabla;", [8711%N]);
   (lit "napid;", [8779%N; 824%N]);
   (lit "napos;", [329%N]);
   (lit "natur;", [9838%N]);
   (lit "nbump;", [8782%N; 824%N]);
   (lit "ncong;", [8775%N]);
   (lit "ndash;", [8211%N]);
   (lit "neArr;", [8663%N]);
   (lit "nearr;", [8599%N]);
   (lit "nedot;", [8784%N; 824%N]);
   (lit "nesim;", [8770%N; 824%N]);
   (lit "ngeqq;", [8807%N; 824%N]);
   (lit "ngsim;", [8821%N]);
   (lit "nhArr;", [8654%N]);
   (lit "nharr;", [8622%N]);
   (lit "nhpar;", [10994%N]);
   (lit "nlArr;", [8653%N]);
   (lit "nlarr;", [8602%N]);
   (lit "nleqq;", [8806%N; 824%N]);
   (lit "nless;", [8814%N]);
   (lit "nlsim;", [8820%N]);
   (lit "nltri;", [8938%N]);
   (lit "notin;", [8713%N]);
   (lit "notni;", [8716%N]);
   (lit "npart;", [8706%N; 824%N]);
   (lit "nprec;", [8832%N]);
   (lit "nrArr;", [8655%N]);
   (lit "nrarr;", [8603%N]);
   (lit "nrtri;", [8939%N]);
   (lit "nsime;", [8772%N]);
   (lit "nsmid;", [8740%N]);
   (lit "nspar;", [8742%N]);
   (lit "nsubE;", [10949%N; 824%N]);
   (lit "nsube;", [8840%N]);
   (lit "nsucc;", [8833%N]);
   (lit "nsupE;", [10950%N; 824%N]);
   (lit "nsupe;", [8841%N]);
   (lit "ntilde", [241%N]);
   (lit "numsp;", [8199%N]);
   (lit "nvsim;", [8764%N; 8402%N]);
   (lit "nwArr;", [8662%N]);
   (lit "nwarr;", [8598%N]);
   (lit "oacute", [243%N]);
   (lit "ocirc;", [244%N]);
   (lit "odash;", [8861%N]);
   (lit "oelig;", [339%N]);
   (lit "ofcir;", [10687%N]);
   (lit "ograve", [242%N]);
   (lit "ohbar;", [10677%N]);
   (lit "olarr;", [8634%N]);
   (lit "olcir;", [10686%N]);
   (lit "oline;", [8254%N]);
   (lit "omacr;", [333%N]);
   (lit "omega;", [969%N]);
   (lit "operp;", [10681%N]);
   (lit "oplus;", [8853%N]);
   (lit "orarr;", [8635%N]);
   (lit "order;", [8500%N]);
   (lit "oslash", [248%N]);
   (lit "otilde", [245%N]);
   (lit "ovbar;", [9021%N]);
   (lit "parsl;", [11005%N]);
   (lit "phone;", [9742%N]);
   (lit "plusb;", [8862%N]);
   (lit "pluse;", [10866%N]);
   (lit "plusmn", [177%N]);
   (lit "pound;", [163%N]);
   (lit "prcue;", [8828%N]);
   (lit "prime;", [8242%N]);
   (lit "prnap;", [10937%N]);
   (lit "prsim;", [8830%N]);
   (lit "quest;", [63%N]);
   (lit "rAarr;", [8667%N]);
   (lit "rBarr;", [10511%N]);
   (lit "radic;", [8730%N]);
   (lit "rangd;", [10642%N]);
   (lit "range;", [10661%N]);
   (lit "raquo;", [187%N]);
   (lit "rarrb;", [8677%N]);
   (lit "rarrc;", [10547%N]);
   (lit "rarrw;", [8605%N]);
   (lit "ratio;", [8758%N]);
   (lit "rbarr;", [10509%N]);
   (lit "rbbrk;", [10099%N]);
   (lit "rbrke;", [10636%N]);
   (lit "rceil;", [8969%N]);
   (lit "rdquo;", [8221%N]);
   (lit "reals;", [8477%N]);
   (lit "rhard;", [8641%N]);
   (lit "rharu;", [8640%N]);
   (lit "rlarr;", [8644%N]);
   (lit "rlhar;", [8652%N]);
   (lit "rnmid;", [10990%N]);
   (lit "roang;", [10221%N]);
   (lit "roarr;", [8702%N]);
   (lit "robrk;", [10215%N]);
   (lit "ropar;", [10630%N]);
   (lit "rrarr;", [8649%N]);
   (lit "rsquo;", [8217%N]);
   (lit "rtrie;", [8885%N]);
   (lit "rtrif;", [9656%N]);
   (lit "sbquo;", [8218%N]);
   (lit "sccue;", [8829%N]);
   (lit "scirc;", [349%N]);
   (lit "scnap;", [10938%N]);
   (lit "scsim;", [8831%N]);
   (lit "sdotb;", [8865%N]);
   (lit "sdote;", [10854%N]);
   (lit "seArr;", [8664%N]);
   (lit "searr;", [8600%N]);
   (lit "setmn;", [8726%N]);
   (lit "sharp;", [9839%N]);
   (lit "sigma;", [963%N]);
   (lit "simeq;", [8771%N]);
   (lit "simgE;", [10912%N]);
   (lit "simlE;", [10911%N]);
   (lit "simne;", [8774%N]);
   (lit "slarr;", [8592%N]);
   (lit "smile;", [8995%N]);
   (lit "smtes;", [10924%N; 65024%N]);
   (lit "sqcap;", [8851%N]);
   (lit "sqcup;", [8852%N]);
   (lit "sqsub;", [8847%N]);
   (lit "sqsup;", [8848%N]);
   (lit "srarr;", [8594%N]);
   (lit "starf;", [9733%N]);
   (lit "strns;", [175%N]);
   (lit "subnE;", [10955%N]);
   (lit "subne;", [8842%N]);
   (lit "supnE;", [10956%N]);
   (lit "supne;", [8843%N]);
   (lit "swArr;", [8665%N]);
   (lit "swarr;", [8601%N]);
   (lit "szlig;", [223%N]);
   (lit "theta;", [952%N]);
   (lit "thkap;", [8776%N]);
   (lit "thorn;", [254%N]);
   (lit "tilde;", [732%N]);
   (lit "times;", [215%N]);
   (lit "trade;", [8482%N]);
   (lit "trisb;", [10701%N]);
   (lit "tshcy;", [1115%N]);
   (lit "twixt;", [8812%N]);
   (lit "uacute", [250%N]);
   (lit "ubrcy;", [1118%N]);
   (lit "ucirc;", [251%N]);
   (lit "udarr;", [8645%N]);
   (lit "udhar;", [10606%N]);
   (lit "ugrave", [249%N]);
   (lit "uharl;", [8639%N]);
   (lit "uharr;", [8638%N]);
   (lit "uhblk;", [9600%N]);
   (lit "ultri;", [9720%N]);
   (lit "umacr;", [363%N]);
   (lit "uogon;", [371%N]);
   (lit "uplus;", [8846%N]);
   (lit "upsih;", [978%N]);
   (lit "uring;", [367%N]);
   (lit "urtri;", [9721%N]);
   (lit "utdot;", [8944%N]);
   (lit "utrif;", [9652%N]);
   (lit "uuarr;", [8648%N]);
   (lit "vBarv;", [10985%N]);
   (lit "vDash;", [8872%N]);
   (lit "varpi;", [982%N]);
   (lit "vdash;", [8866%N]);
   (lit "veeeq;", [8794%N]);
   (lit "vltri;", [8882%N]);
   (lit "vnsub;", [8834%N; 8402%N]);
   (lit "vnsup;", [8835%N; 8402%N]);
   (lit "vprop;", [8733%N]);
   (lit "vrtri;", [8883%N]);
   (lit "wcirc;", [373%N]);
   (lit "wedge;", [8743%N]);
   (lit "xcirc;", [9711%N]);
   (lit "xdtri;", [9661%N]);
   (lit "xhArr;", [10234%N]);
   (lit "xharr;", [10231%N]);
   (lit "xlArr;", [10232%N]);
   (lit "xlarr;", [10229%N]);
   (lit "xodot;", [10752%N]);
   (lit "xrArr;", [10233%N]);
   (lit "xrarr;", [10230%N]);
   (lit "xutri;", [9651%N]);
   (lit "yacute", [253%N]);
   (lit "ycirc;", [375%N]);
   (lit "AElig", [198%N]);
   (lit "Acirc", [194%N]);
   (lit "Aopf;", [55349%N; 56632%N]);
   (lit "Aring", [197%N]);
   (lit "Ascr;", [55349%N; 56476%N]);
   (lit "Auml;", [196%N]);
   (lit "Barv;", [10983%N]);
   (lit "Beta;", [914%N]);
   (lit "Bopf;", [55349%N; 56633%N]);
   (lit "Bscr;", [8492%N]);
   (lit "CHcy;", [1063%N]);
   (lit "COPY;", [169%N]);
   (lit "Cdot;", [266%N]);
   (lit "Copf;", [8450%N]);
   (lit "Cscr;", [55349%N; 56478%N]);
   (lit "DJcy;", [1026%N]);
   (lit "DScy;", [1029%N]);
   (lit "DZcy;", [1039%N]);
   (lit "Darr;", [8609%N]);
   (lit "Dopf;", [55349%N; 56635%N]);
   (lit "Dscr;", [55349%N; 56479%N]);
   (lit "Ecirc", [202%N]);
   (lit "Edot;", [278%N]);
   (lit "Eopf;", [55349%N; 56636%N]);
   (lit "Escr;", [8496%N]);
   (lit "Esim;", [10867%N]);
   (lit "Euml;", [203%N]);
   (lit "Fopf;", [55349%N; 56637%N]);
   (lit "Fscr;", [8497%N]);
   (lit "GJcy;", [1027%N]);
   (lit "Gdot;", [288%N]);
   (lit "Gopf;", [55349%N; 56638%N]);
   (lit "Gscr;", [55349%N; 56482%N]);
   (lit "Hopf;", [8461%N]);
   (lit "Hscr;", [8459%N]);
   (lit "IEcy;", [1045%N]);
   (lit "IOcy;", [1025%N]);
   (lit "Icirc", [206%N]);
   (lit "Idot;", [304%N]);
   (lit "Iopf;", [55349%N; 56640%N]);
   (lit "Iota;", [921%N]);
   (lit "Iscr;", [8464%N]);
   (lit "Iuml;", [207%N]);
   (lit "Jopf;", [55349%N; 56641%N]);
   (lit "Jscr;", [55349%N; 56485%N]);
   (lit "KHcy;", [1061%N]);
   (lit "KJcy;", [1036%N]);
   (lit "Kopf;", [55349%N; 56642%N]);
   (lit "Kscr;", [55349%N; 56486%N]);
   (lit "LJcy;", [1033%N]);
   (lit "Lang;", [10218%N]);
   (lit "Larr;", [8606%N]);
   (lit "Lopf;", [55349%N; 56643%N]);
   (lit "Lscr;", [8466%N]);
   (lit "Mopf;", [55349%N; 56644%N]);
   (lit "Mscr;", [8499%N]);
   (lit "NJcy;", [1034%N]);
   (lit "Nopf;", [8469%N]);
   (lit "Nscr;", [55349%N; 56489%N]);
   (lit "Ocirc", [212%N]);
   (lit "Oopf;", [55349%N; 56646%N]);
   (lit "Oscr;", [55349%N; 56490%N]);
   (lit "Ouml;", [214%N]);
   (lit "Popf;", [8473%N]);
   (lit "Pscr;", [55349%N; 56491%N]);
   (lit "QUOT;", [34%N]);
   (lit "Qopf;", [8474%N]);
   (lit "Qscr;", [55349%N; 56492%N]);
   (lit "Rang;", [10219%N]);
   (lit "Rarr;", [8608%N]);
   (lit "Ropf;", [8477%N]);
   (lit "Rscr;", [8475%N]);
   (lit "SHcy;", [1064%N]);
   (lit "Sopf;", [55349%N; 56650%N]);
   (lit "Sqrt;", [8730%N]);
   (lit "Sscr;", [55349%N; 56494%N]);
   (lit "Star;", [8902%N]);
   (lit "THORN", [222%N]);
   (lit "TScy;", [1062%N]);
   (lit "Topf;", [55349%N; 56651%N]);
   (lit "Tscr;", [55349%N; 56495%N]);
   (lit "Uarr;", [8607%N]);
   (lit "Ucirc", [219%N]);
   (lit "Uopf;", [55349%N; 56652%N]);
   (lit "Upsi;", [978%N]);
   (lit "Uscr;", [55349%N; 56496%N]);
   (lit "Uuml;", [220%N]);
   (lit "Vbar;", [10987%N]);
   (lit "Vert;", [8214%N]);
   (lit "Vopf;", [55349%N; 56653%N]);
   (lit "Vscr;", [55349%N; 56497%N]);
   (lit "Wopf;", [55349%N; 56654%N]);
   (lit "Wscr;", [55349%N; 56498%N]);
   (lit "Xopf;", [55349%N; 56655%N]);
   (lit "Xscr;", [55349%N; 56499%N]);
   (lit "YAcy;", [1071%N]);
   (lit "YIcy;", [1031%N]);
   (lit "YUcy;", [1070%N]);
   (lit "Yopf;", [55349%N; 56656%N]);
   (lit "Yscr;", [55349%N; 56500%N]);
   (lit "Yuml;", [376%N]);
   (lit "ZHcy;", [1046%N]);
   (lit "Zdot;", [379%N]);
   (lit "Zeta;", [918%N]);
   (lit "Zopf;", [8484%N]);
   (lit "Zscr;", [55349%N; 56501%N]);
   (lit "acirc", [226%N]);
   (lit "acute", [180%N]);
   (lit "aelig", [230%N]);
   (lit "andd;", [10844%N]);
   (lit "andv;", [10842%N]);
   (lit "ange;", [10660%N]);
   (lit "aopf;", [55349%N; 56658%N]);
   (lit "apid;", [8779%N]);
   (lit "apos;", [39%N]);
   (lit "aring", [229%N]);
   (lit "ascr;", [55349%N; 56502%N]);
   (lit "auml;", [228%N]);
   (lit "bNot;", [10989%N]);
   (lit "bbrk;", [9141%N]);
   (lit "beta;", [946%N]);
   (lit "beth;", [8502%N]);
   (lit "bnot;", [8976%N]);
   (lit "bopf;", [55349%N; 56659%N]);
   (lit "boxH;", [9552%N]);
   (lit "boxV;", [9553%N]);
   (lit "boxh;", [9472%N]);
   (lit "boxv;", [9474%N]);
   (lit "bscr;", [55349%N; 56503%N]);
   (lit "bsim;", [8765%N]);
   (lit "bsol;", [92%N]);
   (lit "bull;", [8226%N]);
   (lit "bump;", [8782%N]);
   (lit "caps;", [8745%N; 65024%N]);
   (lit "cdot;", [267%N]);
   (lit "cedil", [184%N]);
   (lit "cent;", [162%N]);
   (lit "chcy;", [1095%N]);
   (lit "cirE;", [10691%N]);
   (lit "circ;", [710%N]);
   (lit "cire;", [8791%N]);
   (lit "comp;", [8705%N]);
   (lit "cong;", [8773%N]);
   (lit "copf;", [55349%N; 56660%N]);
   (lit "copy;", [169%N]);
   (lit "cscr;", [55349%N; 56504%N]);
   (lit "csub;", [10959%N]);
   (lit "csup;", [10960%N]);
   (lit "cups;", [8746%N; 65024%N]);
   (lit "dArr;", [8659%N]);
   (lit "dHar;", [10597%N]);
   (lit "darr;", [8595%N]);
   (lit "dash;", [8208%N]);
   (lit "diam;", [8900%N]);
   (lit "djcy;", [1106%N]);
   (lit "dopf;", [55349%N; 56661%N]);
   (lit "dscr;", [55349%N; 56505%N]);
   (lit "dscy;", [1109%N]);
   (lit "dsol;", [10742%N]);
   (lit "dtri;", [9663%N]);
   (lit "dzcy;", [1119%N]);
   (lit "eDot;", [8785%N]);
   (lit "ecir;", [8790%N]);
   (lit "ecirc", [234%N]);
   (lit "edot;", [279%N]);
   (lit "emsp;", [8195%N]);
   (lit "ensp;", [8194%N]);
   (lit "eopf;", [55349%N; 56662%N]);
   (lit "epar;", [8917%N]);
   (lit "epsi;", [949%N]);
   (lit "escr;", [8495%N]);
   (lit "esim;", [8770%N]);
   (lit "euml;", [235%N]);
   (lit "euro;", [8364%N]);
   (lit "excl;", [33%N]);
   (lit "flat;", [9837%N]);
   (lit "fnof;", [402%N]);
   (lit "fopf;", [55349%N; 56663%N]);
   (lit "fork;", [8916%N]);
   (lit "fscr;", [55349%N; 56507%N]);
   (lit "gdot;", [289%N]);
   (lit "geqq;", [8807%N]);
   (lit "gesl;", [8923%N; 65024%N]);
   (lit "gjcy;", [1107%N]);
   (lit "gnap;", [10890%N]);
   (lit "gneq;", [10888%N]);
   (lit "gopf;", [55349%N; 56664%N]);
   (lit "gscr;", [8458%N]);
   (lit "gsim;", [8819%N]);
   (lit "gtcc;", [10919%N]);
   (lit "gvnE;", [8809%N; 65024%N]);
   (lit "hArr;", [8660%N]);
   (lit "half;", [189%N]);
   (lit "harr;", [8596%N]);
   (lit "hbar;", [8463%N]);
   (lit "hopf;", [55349%N; 56665%N]);
   (lit "hscr;", [55349%N; 56509%N]);
   (lit "icirc", [238%N]);
   (lit "iecy;", [1077%N]);
   (lit "iexcl", [161%N]);
   (lit "imof;", [8887%N]);
   (lit "iocy;", [1105%N]);
   (lit "iopf;", [55349%N; 56666%N]);
   (lit "iota;", [953%N]);
   (lit "iscr;", [55349%N; 56510%N]);
   (lit "isin;", [8712%N]);
   (lit "iuml;", [239%N]);
   (lit "jopf;", [55349%N; 56667%N]);
   (lit "jscr;", [55349%N; 56511%N]);
   (lit "khcy;", [1093%N]);
   (lit "kjcy;", [1116%N]);
   (lit "kopf;", [55349%N; 56668%N]);
   (lit "kscr;", [55349%N; 56512%N]);
   (lit "lArr;", [8656%N]);
   (lit "lHar;", [10594%N]);
   (lit "lang;", [10216%N]);
   (lit "laquo", [171%N]);
   (lit "larr;", [8592%N]);
   (lit "late;", [10925%N]);
   (lit "lcub;", [123%N]);
   (lit "ldca;", [10550%N]);
   (lit "ldsh;", [8626%N]);
   (lit "leqq;", [8806%N]);
   (lit "lesg;", [8922%N; 65024%N]);
   (lit "ljcy;", [1113%N]);
   (lit "lnap;", [10889%N]);
   (lit "lneq;", [10887%N]);
   (lit "lopf;", [55349%N; 56669%N]);
   (lit "lozf;", [10731%N]);
   (lit "lpar;", [40%N]);
   (lit "lscr;", [55349%N; 56513%N]);
   (lit "lsim;", [8818%N]);
   (lit "lsqb;", [91%N]);
   (lit "ltcc;", [10918%N]);
   (lit "ltri;", [9667%N]);
   (lit "lvnE;", [8808%N; 65024%N]);
   (lit "macr;", [175%N]);
   (lit "male;", [9794%N]);
   (lit "malt;", [10016%N]);
   (lit "micro", [181%N]);
   (lit "mlcp;", [10971%N]);
   (lit "mldr;", [8230%N]);
   (lit "mopf;", [55349%N; 56670%N]);
   (lit "mscr;", [55349%N; 56514%N]);
   (lit "nGtv;", [8811%N; 824%N]);
   (lit "nLtv;", [8810%N; 824%N]);
   (lit "nang;", [8736%N; 8402%N]);
   (lit "napE;", [10864%N; 824%N]);
   (lit "nbsp;", [160%N]);
   (lit "ncap;", [10819%N]);
   (lit "ncup;", [10818%N]);
   (lit "ngeq;", [8817%N]);
   (lit "nges;", [10878%N; 824%N]);
   (lit "ngtr;", [8815%N]);
   (lit "nisd;", [8954%N]);
   (lit "njcy;", [1114%N]);
   (lit "nldr;", [8229%N]);
   (lit "nleq;", [8816%N]);
   (lit "nles;", [10877%N; 824%N]);
   (lit "nmid;", [8740%N]);
   (lit "nopf;", [55349%N; 56671%N]);
   (lit "npar;", [8742%N]);
   (lit "npre;", [10927%N; 824%N]);
   (lit "nsce;", [10928%N; 824%N]);
   (lit "nscr;", [55349%N; 56515%N]);
   (lit "nsim;", [8769%N]);
   (lit "nsub;", [8836%N]);
   (lit "nsup;", [8837%N]);
   (lit "ntgl;", [8825%N]);
   (lit "ntlg;", [8824%N]);
   (lit "nvap;", [8781%N; 8402%N]);
   (lit "nvge;", [8805%N; 8402%N]);
   (lit "nvgt;", [62%N; 8402%N]);
   (lit "nvle;", [8804%N; 8402%N]);
   (lit "nvlt;", [60%N; 8402%N]);
   (lit "oast;", [8859%N]);
   (lit "ocir;", [8858%N]);
   (lit "ocirc", [244%N]);
   (lit "odiv;", [10808%N]);
   (lit "odot;", [8857%N]);
   (lit "ogon;", [731%N]);
   (lit "oint;", [8750%N]);
   (lit "omid;", [10678%N]);
   (lit "oopf;", [55349%N; 56672%N]);
   (lit "opar;", [10679%N]);
   (lit "ordf;", [170%N]);
   (lit "ordm;", [186%N]);
   (lit "oror;", [10838%N]);
   (lit "oscr;", [8500%N]);
   (lit "osol;", [8856%N]);
   (lit "ouml;", [246%N]);
   (lit "para;", [182%N]);
   (lit "part;", [8706%N]);
   (lit "perp;", [8869%N]);
   (lit "phiv;", [981%N]);
   (lit "plus;", [43%N]);
   (lit "popf;", [55349%N; 56673%N]);
   (lit "pound", [163%N]);
   (lit "prap;", [10935%N]);
   (lit "prec;", [8826%N]);
   (lit "prnE;", [10933%N]);
   (lit "prod;", [8719%N]);
   (lit "prop;", [8733%N]);
   (lit "pscr;", [55349%N; 56517%N]);
   (lit "qint;", [10764%N]);
   (lit "qopf;", [55349%N; 56674%N]);
   (lit "qscr;", [55349%N; 56518%N]);
   (lit "quot;", [34%N]);
   (lit "rArr;", [8658%N]);
   (lit "rHar;", [10596%N]);
   (lit "race;", [8765%N; 817%N]);
   (lit "rang;", [10217%N]);
   (lit "raquo", [187%N]);
   (lit "rarr;", [8594%N]);
   (lit "rcub;", [125%N]);
   (lit "rdca;", [10551%N]);
   (lit "rdsh;", [8627%N]);
   (lit "real;", [8476%N]);
   (lit "rect;", [9645%N]);
   (lit "rhov;", [1009%N]);
   (lit "ring;", [730%N]);
   (lit "ropf;", [55349%N; 56675%N]);
   (lit "rpar;", [41%N]);
   (lit "rscr;", [55349%N; 56519%N]);
   (lit "rsqb;", [93%N]);
   (lit "rtri;", [9657%N]);
   (lit "scap;", [10936%N]);
   (lit "scnE;", [10934%N]);
   (lit "sdot;", [8901%N]);
   (lit "sect;", [167%N]);
   (lit "semi;", [59%N]);
   (lit "sext;", [10038%N]);
   (lit "shcy;", [1096%N]);
   (lit "sime;", [8771%N]);
   (lit "simg;", [10910%N]);
   (lit "siml;", [10909%N]);
   (lit "smid;", [8739%N]);
   (lit "smte;", [10924%N]);
   (lit "solb;", [10692%N]);
   (lit "sopf;", [55349%N; 56676%N]);
   (lit "spar;", [8741%N]);
   (lit "squf;", [9642%N]);
   (lit "sscr;", [55349%N; 56520%N]);
   (lit "star;", [9734%N]);
   (lit "subE;", [10949%N]);
   (lit "sube;", [8838%N]);
   (lit "succ;", [8827%N]);
   (lit "sung;", [9834%N]);
   (lit "sup1;", [185%N]);
   (lit "sup2;", [178%N]);
   (lit "sup3;", [179%N]);
   (lit "supE;", [10950%N]);
   (lit "supe;", [8839%N]);
   (lit "szlig", [223%N]);
   (lit "tbrk;", [9140%N]);
   (lit "tdot;", [8411%N]);
   (lit "thorn", [254%N]);
   (lit "times", [215%N]);
   (lit "tint;", [8749%N]);
   (lit "toea;", [10536%N]);
   (lit "topf;", [55349%N; 56677%N]);
   (lit "tosa;", [10537%N]);
   (lit "trie;", [8796%N]);
   (lit "tscr;", [55349%N; 56521%N]);
   (lit "tscy;", [1094%N]);
   (lit "uArr;", [8657%N]);
   (lit "uHar;", [10595%N]);
   (lit "uarr;", [8593%N]);
   (lit "ucirc", [251%N]);
   (lit "uopf;", [55349%N; 56678%N]);
   (lit "upsi;", [965%N]);
   (lit "uscr;", [55349%N; 56522%N]);
   (lit "utri;", [9653%N]);
   (lit "uuml;", [252%N]);
   (lit "vArr;", [8661%N]);
   (lit "vBar;", [10984%N]);
   (lit "varr;", [8597%N]);
   (lit "vert;", [124%N]);
   (lit "vopf;", [55349%N; 56679%N]);
   (lit "vscr;", [55349%N; 56523%N]);
   (lit "wopf;", [55349%N; 56680%N]);
   (lit "wscr;", [55349%N; 56524%N]);
   (lit "xcap;", [8898%N]);
   (lit "xcup;", [8899%N]);
   (lit "xmap;", [10236%N]);
   (lit "xnis;", [8955%N]);
   (lit "xopf;", [55349%N; 56681%N]);
   (lit "xscr;", [55349%N; 56525%N]);
   (lit "xvee;", [8897%N]);
   (lit "yacy;", [1103%N]);
   (lit "yicy;", [1111%N]);
   (lit "yopf;", [55349%N; 56682%N]);
   (lit "yscr;", [55349%N; 56526%N]);
   (lit "yucy;", [1102%N]);
   (lit "yuml;", [255%N]);
   (lit "zdot;", [380%N]);
   (lit "zeta;", [950%N]);
   (lit "zhcy;", [1078%N]);
   (lit "zopf;", [55349%N; 56683%N]);
   (lit "zscr;", [55349%N; 56527%N]);
   (lit "zwnj;", [8204%N]);
   (lit "AMP;", [38%N]);
   (lit "Acy;", [1040%N]);
   (lit "Afr;", [55349%N; 56580%N]);
   (lit "And;", [10835%N]);
   (lit "Auml", [196%N]);
   (lit "Bcy;", [1041%N]);
   (lit "Bfr;", [55349%N; 56581%N]);
   (lit "COPY", [169%N]);
   (lit "Cap;", [8914%N]);
   (lit "Cfr;", [8493%N]);
   (lit "Chi;", [935%N]);
   (lit "Cup;", [8915%N]);
   (lit "Dcy;", [1044%N]);
   (lit "Del;", [8711%N]);
   (lit "Dfr;", [55349%N; 56583%N]);
   (lit "Dot;", [168%N]);
   (lit "ENG;", [330%N]);
   (lit "ETH;", [208%N]);
   (lit "Ecy;", [1069%N]);
   (lit "Efr;", [55349%N; 56584%N]);
   (lit "Eta;", [919%N]);
   (lit "Euml", [203%N]);
   (lit "Fcy;", [1060%N]);
   (lit "Ffr;", [55349%N; 56585%N]);
   (lit "Gcy;", [1043%N]);
   (lit "Gfr;", [55349%N; 56586%N]);
   (lit "Hat;", [94%N]);
   (lit "Hfr;", [8460%N]);
   (lit "Icy;", [1048%N]);
   (lit "Ifr;", [8465%N]);
   (lit "Int;", [8748%N]);
   (lit "Iuml", [207%N]);
   (lit "Jcy;", [1049%N]);
   (lit "Jfr;", [55349%N; 56589%N]);
   (lit "Kcy;", [1050%N]);
   (lit "Kfr;", [55349%N; 56590%N]);
   (lit "Lcy;", [1051%N]);
   (lit "Lfr;", [55349%N; 56591%N]);
   (lit "Lsh;", [8624%N]);
   (lit "Map;", [10501%N]);
   (lit "Mcy;", [1052%N]);
   (lit "Mfr;", [55349%N; 56592%N]);
   (lit "Ncy;", [1053%N]);
   (lit "Nfr;", [55349%N; 56593%N]);
   (lit "Not;", [10988%N]);
   (lit "Ocy;", [1054%N]);
   (lit "Ofr;", [55349%N; 56594%N]);
   (lit "Ouml", [214%N]);
   (lit "Pcy;", [1055%N]);
   (lit "Pfr;", [55349%N; 56595%N]);
   (lit "Phi;", [934%N]);
   (lit "Psi;", [936%N]);
   (lit "QUOT", [34%N]);
   (lit "Qfr;", [55349%N; 56596%N]);
   (lit "REG;", [174%N]);
   (lit "Rcy;", [1056%N]);
   (lit "Rfr;", [8476%N]);
   (lit "Rho;", [929%N]);
   (lit "Rsh;", [8625%N]);
   (lit "Scy;", [1057%N]);
   (lit "Sfr;", [55349%N; 56598%N]);
   (lit "Sub;", [8912%N]);
   (lit "Sum;", [8721%N]);
   (lit "Sup;", [8913%N]);
   (lit "Tab;", [9%N]);
   (lit "Tau;", [932%N]);
   (lit "Tcy;", [1058%N]);
   (lit "Tfr;", [55349%N; 56599%N]);
   (lit "Ucy;", [1059%N]);
   (lit "Ufr;", [55349%N; 56600%N]);
   (lit "Uuml", [220%N]);
   (lit "Vcy;", [1042%N]);
   (lit "Vee;", [8897%N]);
   (lit "Vfr;", [55349%N; 56601%N]);
   (lit "Wfr;", [55349%N; 56602%N]);
   (lit "Xfr;", [55349%N; 56603%N]);
   (lit "Ycy;", [1067%N]);
   (lit "Yfr;", [55349%N; 56604%N]);
   (lit "Zcy;", [1047%N]);
   (lit "Zfr;", [8488%N]);
   (lit "acE;", [8766%N; 819%N]);
   (lit "acd;", [8767%N]);
   (lit "acy;", [1072%N]);
   (lit "afr;", [55349%N; 56606%N]);
   (lit "amp;", [38%N]);
   (lit "and;", [8743%N]);
   (lit "ang;", [8736%N]);
   (lit "apE;", [10864%N]);
   (lit "ape;", [8778%N]);
   (lit "ast;", [42%N]);
   (lit "auml", [228%N]);
   (lit "bcy;", [1073%N]);
   (lit "bfr;", [55349%N; 56607%N]);
   (lit "bne;", [61%N; 8421%N]);
   (lit "bot;", [8869%N]);
   (lit "cap;", [8745%N]);
   (lit "cent", [162%N]);
   (lit "cfr;", [55349%N; 56608%N]);
   (lit "chi;", [967%N]);
   (lit "cir;", [9675%N]);
   (lit "copy", [169%N]);
   (lit "cup;", [8746%N]);
   (lit "dcy;", [1076%N]);
   (lit "deg;", [176%N]);
   (lit "dfr;", [55349%N; 56609%N]);
   (lit "die;", [168%N]);
   (lit "div;", [247%N]);
   (lit "dot;", [729%N]);
   (lit "ecy;", [1101%N]);
   (lit "efr;", [55349%N; 56610%N]);
   (lit "egs;", [10902%N]);
   (lit "ell;", [8467%N]);
   (lit "els;", [10901%N]);
   (lit "eng;", [331%N]);
   (lit "eta;", [951%N]);
   (lit "eth;", [240%N]);
   (lit "euml", [235%N]);
   (lit "fcy;", [1092%N]);
   (lit "ffr;", [55349%N; 56611%N]);
   (lit "gEl;", [10892%N]);
   (lit "gap;", [10886%N]);
   (lit "gcy;", [1075%N]);
   (lit "gel;", [8923%N]);
   (lit "geq;", [8805%N]);
   (lit "ges;", [10878%N]);
   (lit "gfr;", [55349%N; 56612%N]);
   (lit "ggg;", [8921%N]);
   (lit "glE;", [10898%N]);
   (lit "gla;", [10917%N]);
   (lit "glj;", [10916%N]);
   (lit "gnE;", [8809%N]);
   (lit "gne;", [10888%N]);
   (lit "hfr;", [55349%N; 56613%N]);
   (lit "icy;", [1080%N]);
   (lit "iff;", [8660%N]);
   (lit "ifr;", [55349%N; 56614%N]);
   (lit "int;", [8747%N]);
   (lit "iuml", [239%N]);
   (lit "jcy;", [1081%N]);
   (lit "jfr;", [55349%N; 56615%N]);
   (lit "kcy;", [1082%N]);
   (lit "kfr;", [55349%N; 56616%N]);
   (lit "lEg;", [10891%N]);
   (lit "lap;", [10885%N]);
   (lit "lat;", [10923%N]);
   (lit "lcy;", [1083%N]);
   (lit "leg;", [8922%N]);
   (lit "leq;", [8804%N]);
   (lit "les;", [10877%N]);
   (lit "lfr;", [55349%N; 56617%N]);
   (lit "lgE;", [10897%N]);
   (lit "lnE;", [8808%N]);
   (lit "lne;", [10887%N]);
   (lit "loz;", [9674%N]);
   (lit "lrm;", [8206%N]);
   (lit "lsh;", [8624%N]);
   (lit "macr", [175%N]);
   (lit "map;", [8614%N]);
   (lit "mcy;", [1084%N]);
   (lit "mfr;", [55349%N; 56618%N]);
   (lit "mho;", [8487%N]);
   (lit "mid;", [8739%N]);
   (lit "nGg;", [8921%N; 824%N]);
   (lit "nGt;", [8811%N; 8402%N]);
   (lit "nLl;", [8920%N; 824%N]);
   (lit "nLt;", [8810%N; 8402%N]);
   (lit "nap;", [8777%N]);
   (lit "nbsp", [160%N]);
   (lit "ncy;", [1085%N]);
   (lit "nfr;", [55349%N; 56619%N]);
   (lit "ngE;", [8807%N; 824%N]);
   (lit "nge;", [8817%N]);
   (lit "ngt;", [8815%N]);
   (lit "nis;", [8956%N]);
   (lit "niv;", [8715%N]);
   (lit "nlE;", [8806%N; 824%N]);
   (lit "nle;", [8816%N]);
   (lit "nlt;", [8814%N]);
   (lit "not;", [172%N]);
   (lit "npr;", [8832%N]);
   (lit "nsc;", [8833%N]);
   (lit "num;", [35%N]);
   (lit "ocy;", [1086%N]);
   (lit "ofr;", [55349%N; 56620%N]);
   (lit "ogt;", [10689%N]);
   (lit "ohm;", [937%N]);
   (lit "olt;", [10688%N]);
   (lit "ord;", [10845%N]);
   (lit "ordf", [170%N]);
   (lit "ordm", [186%N]);
   (lit "orv;", [10843%N]);
   (lit "ouml", [246%N]);
   (lit "par;", [8741%N]);
   (lit "para", [182%N]);
   (lit "pcy;", [1087%N]);
   (lit "pfr;", [55349%N; 56621%N]);
   (lit "phi;", [966%N]);
   (lit "piv;", [982%N]);
   (lit "prE;", [10931%N]);
   (lit "pre;", [10927%N]);
   (lit "psi;", [968%N]);
   (lit "qfr;", [55349%N; 56622%N]);
   (lit "quot", [34%N]);
   (lit "rcy;", [1088%N]);
   (lit "reg;", [174%N]);
   (lit "rfr;", [55349%N; 56623%N]);
   (lit "rho;", [961%N]);
   (lit "rlm;", [8207%N]);
   (lit "rsh;", [8625%N]);
   (lit "scE;", [10932%N]);
   (lit "sce;", [10928%N]);
   (lit "scy;", [1089%N]);
   (lit "sect", [167%N]);
   (lit "sfr;", [55349%N; 56624%N]);
   (lit "shy;", [173%N]);
   (lit "sim;", [8764%N]);
   (lit "smt;", [10922%N]);
   (lit "sol;", [47%N]);
   (lit "squ;", [9633%N]);
   (lit "sub;", [8834%N]);
   (lit "sum;", [8721%N]);
   (lit "sup1", [185%N]);
   (lit "sup2", [178%N]);
   (lit "sup3", [179%N]);
   (lit "sup;", [8835%N]);
   (lit "tau;", [964%N]);
   (lit "tcy;", [1090%N]);
   (lit "tfr;", [55349%N; 56625%N]);
   (lit "top;", [8868%N]);
   (lit "ucy;", [1091%N]);
   (lit "ufr;", [55349%N; 56626%N]);
   (lit "uml;", [168%N]);
   (lit "uuml", [252%N]);
   (lit "vcy;", [1074%N]);
   (lit "vee;", [8744%N]);
   (lit "vfr;", [55349%N; 56627%N]);
   (lit "wfr;", [55349%N; 56628%N]);
   (lit "xfr;", [55349%N; 56629%N]);
   (lit "ycy;", [1099%N]);
   (lit "yen;", [165%N]);
   (lit "yfr;", [55349%N; 56630%N]);
   (lit "yuml", [255%N]);
   (lit "zcy;", [1079%N]);
   (lit "zfr;", [55349%N; 56631%N]);
   (lit "zwj;", [8205%N]);
   (lit "AMP", [38%N]);
   (lit "DD;", [8517%N]);
   (lit "ETH", [208%N]);
   (lit "GT;", [62%N]);
   (lit "Gg;", [8921%N]);
   (lit "Gt;", [8811%N]);
   (lit "Im;", [8465%N]);
   (lit "LT;", [60%N]);
   (lit "Ll;", [8920%N]);
   (lit "Lt;", [8810%N]);
   (lit "Mu;", [924%N]);
   (lit "Nu;", [925%N]);
   (lit "Or;", [10836%N]);
   (lit "Pi;", [928%N]);
   (lit "Pr;", [10939%N]);
   (lit "REG", [174%N]);
   (lit "Re;", [8476%N]);
   (lit "Sc;", [10940%N]);
   (lit "Xi;", [926%N]);
   (lit "ac;", [8766%N]);
   (lit "af;", [8289%N]);
   (lit "amp", [38%N]);
   (lit "ap;", [8776%N]);
   (lit "dd;", [8518%N]);
   (lit "deg", [176%N]);
   (lit "ee;", [8519%N]);
   (lit "eg;", [10906%N]);
   (lit "el;", [10905%N]);
   (lit "eth", [240%N]);
   (lit "gE;", [8807%N]);
   (lit "ge;", [8805%N]);
   (lit "gg;", [8811%N]);
   (lit "gl;", [8823%N]);
   (lit "gt;", [62%N]);
   (lit "ic;", [8291%N]);
   (lit "ii;", [8520%N]);
   (lit "in;", [8712%N]);
   (lit "it;", [8290%N]);
   (lit "lE;", [8806%N]);
   (lit "le;", [8804%N]);
   (lit "lg;", [8822%N]);
   (lit "ll;", [8810%N]);
   (lit "lt;", [60%N]);
   (lit "mp;", [8723%N]);
   (lit "mu;", [956%N]);
   (lit "ne;", [8800%N]);
   (lit "ni;", [8715%N]);
   (lit "not", [172%N]);
   (lit "nu;", [957%N]);
   (lit "oS;", [9416%N]);
   (lit "or;", [8744%N]);
   (lit "pi;", [960%N]);
   (lit "pm;", [177%N]);
   (lit "pr;", [8826%N]);
   (lit "reg", [174%N]);
   (lit "rx;", [8478%N]);
   (lit "sc;", [8827%N]);
   (lit "shy", [173%N]);
   (lit "uml", [168%N]);
   (lit "wp;", [8472%N]);
   (lit "wr;", [8768%N]);
   (lit "xi;", [958%N]);
   (lit "yen", [165%N]);
   (lit "GT", [62%N]);
   (lit "LT", [60%N]);
   (lit "gt", [62%N]);
   (lit "lt", [60%N]) ].

(** The first name of the table that starts [s], with what it stands for. *)
Fixpoint lookupReference (table : list (str * str)) (s : str)
  : option (str * str) :=
  match table with
  | [] => None
  | (name, value) :: table' =>
      if startsWith name s then Some (name, value)
      else lookupReference table' s
  end.

(** ** Numeric character references *)

Definition isHexDigit (c : char) : bool :=
  isDigit c || (N.leb 65 c && N.leb c 70) || (N.leb 97 c && N.leb c 102).

Definition digitValue (c : char) : N := (c - 48)%N.

Definition hexValue (c : char) : N :=
  if isDigit c then (c - 48)%N
  else if N.leb 97 c then (c - 87)%N
  else (c - 55)%N.

(** The units at the start of [s] on which [f] holds. *)
Fixpoint unitsWhile (f : char -> bool) (s : str) : str :=
  match s with
  | [] => []
  | c :: t => if f c then c :: unitsWhile f t else []
  end.

(** The character reference code of a run of digits. *)
Definition numberOf (base : N) (value : char -> N) (digits : str) : N :=
  fold_left (fun code c => (code * base + value c)%N) digits 0%N.

(** The numbers 0x80 to 0x9F that the standard replaces, with the code
    point each one becomes. *)
Definition controlReplacements : list (N * N) :=
  [ (128, 8364); (130, 8218); (131, 402); (132, 8222); (133, 8230); (134, 8224); (135, 8225); (136, 710); (137, 8240); (138, 352); (139, 8249); (140, 338); (142, 381); (145, 8216); (146, 8217); (147, 8220); (148, 8221); (149, 8226); (150, 8211); (151, 8212); (152, 732); (153, 8482); (154, 353); (155, 8250); (156, 339); (158, 382); (159, 376) ]%N.

Fixpoint replacementOf (table : list (N * N)) (n : N) : option N :=
  match table with
  | [] => None
  | (k, v) :: table' => if N.eqb k n then Some v else replacementOf table' n
  end.

(** The code point of a numeric reference (the "numeric character
    reference end state"): U+FFFD for zero, for a number above 0x10FFFF
    and for a surrogate; the replacement of the table; the number itself
    otherwise. *)
Definition referenceCodePoint (n : N) : N :=
  if N.eqb n 0 then 65533%N
  else if N.ltb 1114111 n then 65533%N
  else if N.leb 55296 n && N.leb n 57343 then 65533%N
  else match replacementOf controlReplacements n with
       | Some v => v
       | None => n
       end.

(** The UTF-16 code units of a code point. *)
Definition codeUnits (cp : N) : str :=
  if N.ltb cp 65536 then [cp]
  else [55296 + (cp - 65536) / 1024; 56320 + (cp - 65536) mod 1024]%N.

(** One unit for a semicolon at the start of [s]: it closes the reference
    and is optional. *)
Definition semicolon (s : str) : nat :=
  match s with
  | c :: _ => if N.eqb c 59 then 1 else 0
  | [] => 0
  end.

(** A numeric reference at the start of [t], the text after an ampersand:
    the units it stands for and the number of units of [t] it takes.
    Without a digit after [#] or [#x] there is no reference. *)
Definition numericReference (t : str) : option (str * nat) :=
  match t with
  | 35%N :: t1 =>
      match t1 with
      | x :: t2 =>
          if N.eqb x 120 || N.eqb x 88 then
            match unitsWhile isHexDigit t2 with
            | [] => None
            | d :: ds =>
                let digits := d :: ds in
                Some (codeUnits (referenceCodePoint
                                   (numberOf 16 hexValue digits)),
                      2 + length digits
                      + semicolon (skipn (length digits) t2))
            end
          else
            match unitsWhile isDigit t1 with
            | [] => None
            | d :: ds =>
                let digits := d :: ds in
                Some (codeUnits (referenceCodePoint
                                   (numberOf 10 digitValue digits)),
                      1 + length digits
                      + semicolon (skipn (length digits) t1))
            end
      | [] => None
      end
  | _ => None
  end.

(** ** The text of a [textarea] *)

(** "Normalize newlines": a carriage return with the line feed after it, or
    alone, becomes one line feed. *)
Fixpoint normalizeNewlines (s : str) : str :=
  match s with
  | [] => []
  | c :: t =>
      if N.eqb c 13 then
        10%N :: match t with
                | d :: t' =>
                    if N.eqb d 10 then normalizeNewlines t'
                    else normalizeNewlines t
                | [] => []
                end
      else c :: normalizeNewlines t
  end.

(** The tokenizer in its RCDATA state, from the current unit on; [skip]
    units of a reference are still to be passed over.  An ampersand starts
    a numeric reference, or the longest named reference of the table, or
    stands for itself; U+0000 becomes U+FFFD; every other unit, [<]
    included, is text (no end tag is appropriate in a fragment). *)
Fixpoint decodeFrom (skip : nat) (s : str) : str :=
  match s with
  | [] => []
  | c :: t =>
      match skip with
      | S n => decodeFrom n t
      | O =>
          if N.eqb c 38 then
            match numericReference t with
            | Some (value, n) => value ++ decodeFrom n t
            | None =>
                match lookupReference namedReferences t with
                | Some (name, value) => value ++ decodeFrom (length name) t
                | None => c :: decodeFrom 0 t
                end
            end
          else if N.eqb c 0 then 65533%N :: decodeFrom 0 t
          else c :: decodeFrom 0 t
      end
  end.

(** [textarea.innerHTML = content; textarea.value]: the content is parsed
    as the text of a [textarea] (the input stream has its newlines
    normalised, the tokenizer decodes the character references and builds
    no element), and [value] is that text with its newlines normalised. *)
Definition textareaValue (content : str) : str :=
  normalizeNewlines (decodeFrom 0 (normalizeNewlines content)).

(** [cleanupContent] *)
Definition cleanupContent (content : str) : str :=
  match content with
  | [] => content
  | _ :: _ =>
      let decoded := textareaValue content in
      trim (replaceAll ws_plus (lit " ") decoded)
  end.

(* ================================================================== *)
(** * Specification-side definitions *)
(* ================================================================== *)

(** Whitespace collapsing as a one-pass scan: [prev] tells whether the unit
    before the current one was white space. *)
Fixpoint collapse (prev : bool) (s : str) : str :=
  match s with
  | [] => []
  | c :: t =>
      if isWhiteSpace c then
        if prev then collapse true t else 32%N :: collapse true t
      else c :: collapse false t
  end.

(** The scan state after the units of [a]. *)
Fixpoint endState (b : bool) (a : str) : bool :=
  match a with
  | [] => b
  | c :: t => endState (isWhiteSpace c) t
  end.

(** The number of white space units [s] starts with. *)
Definition leading (s : str) : nat := length s - length (trimStart s).


(* ================================================================== *)
(** * The document *)
(* ================================================================== *)

Module Dom.

(** A node of the document tree.  [nid] is the identity of the node object:
    [a === b] on nodes is equality of their [nid].  [value] is the [value]
    property of a form control ([None] on an element that has none).  Tag
    names are in upper case, as [tagName] reports them for HTML elements. *)
Local Set Warnings "-register-all".
Inductive Node :=
| Text (nid : nat) (data : str)
| Element (nid : nat) (tagName : str) (attributes : list (str * str))
    (value : option str) (childNodes : list Node).

Definition nodeId (n : Node) : nat :=
  match n with
  | Text i _ => i
  | Element i _ _ _ _ => i
  end.

Definition isElement (n : Node) : bool :=
  match n with
  | Text _ _ => false
  | Element _ _ _ _ _ => true
  end.

Definition tagOf (n : Node) : str :=
  match n with
  | Text _ _ => []
  | Element _ t _ _ _ => t
  end.

Definition valueOf (n : Node) : option str :=
  match n with
  | Text _ _ => None
  | Element _ _ _ v _ => v
  end.

Definition childNodesOf (n : Node) : list Node :=
  match n with
  | Text _ _ => []
  | Element _ _ _ _ kids => kids
  end.

(** [element.children]: the child nodes that are elements. *)
Definition children (n : Node) : list Node := filter isElement (childNodesOf n).

(** [node.firstChild] *)
Definition firstChild (n : Node) : option Node := hd_error (childNodesOf n).

(** [a === b] *)
Definition same (a b : Node) : bool := nodeId a =? nodeId b.

Fixpoint assoc (name : str) (l : list (str * str)) : option str :=
  match l with
  | [] => None
  | (k, v) :: l' => if Str.eqb k name then Some v else assoc name l'
  end.

(** [element.getAttribute(name)] *)
Definition getAttribute (name : str) (n : Node) : option str :=
  match n with
  | Text _ _ => None
  | Element _ _ attrs _ _ => assoc name attrs
  end.

(** [element.className] *)
Definition className (n : Node) : str :=
  match getAttribute (lit "class") n with
  | Some v => v
  | None => []
  end.

(** [node.textContent]: the data of the text nodes below, in tree order. *)
Fixpoint textContent (n : Node) : str :=
  match n with
  | Text _ d => d
  | Element _ _ _ _ kids =>
      (fix go (l : list Node) : str :=
         match l with
         | [] => []
         | k :: l' => textContent k ++ go l'
         end) kids
  end.

(** The elements of the subtree of [n] in depth-first pre-order, [n] first. *)
Fixpoint elementsOf (n : Node) : list Node :=
  match n with
  | Text _ _ => []
  | Element _ _ _ _ kids =>
      n :: (fix go (l : list Node) : list Node :=
              match l with
              | [] => []
              | k :: l' => elementsOf k ++ go l'
              end) kids
  end.

(** The elements strictly below [n], in tree order. *)
Definition descendants (n : Node) : list Node := tl (elementsOf n).

(** The identities of all the nodes of the subtree, text nodes included. *)
Fixpoint nodeIds (n : Node) : list nat :=
  match n with
  | Text i _ => [i]
  | Element i _ _ _ kids =>
      i :: (fix go (l : list Node) : list nat :=
              match l with
              | [] => []
              | k :: l' => nodeIds k ++ go l'
              end) kids
  end.

(** An identity no node of the subtree has: what a newly created node gets. *)
Definition freshId (n : Node) : nat := S (list_max (nodeIds n)).

(** ** Selectors *)

(** The selectors of [linkme.ts] are compound selectors: an optional type,
    an optional [#id], classes and attribute tests, with no combinator. *)
Inductive attrTest :=
| Has (name : str)                 (* [name] *)
| Equals (name value : str)        (* [name="value"] *)
| Contains (name value : str).     (* [name*="value"] *)

Record selector := {
  selTag : option str;
  selId : option str;
  selClasses : list str;
  selAttrs : list attrTest
}.

(** ASCII white space, which separates the tokens of a [class] attribute. *)
Definition isAsciiSpace (c : char) : bool :=
  (N.eqb c 9 || N.eqb c 10 || N.eqb c 12 || N.eqb c 13 || N.eqb c 32)%bool.

(** The tokens of [s]; [cur] is the token being read, reversed. *)
Fixpoint tokensFrom (cur : str) (s : str) : list str :=
  match s with
  | [] => match cur with [] => [] | _ => [rev cur] end
  | c :: t =>
      if isAsciiSpace c then
        match cur with
        | [] => tokensFrom [] t
        | _ => rev cur :: tokensFrom [] t
        end
      else tokensFrom (c :: cur) t
  end.

Definition classList (n : Node) : list str := tokensFrom [] (className n).

Definition attrHolds (n : Node) (t : attrTest) : bool :=
  match t with
  | Has name =>
      match getAttribute name n with Some _ => true | None => false end
  | Equals name v =>
      match getAttribute name n with Some x => Str.eqb x v | None => false end
  | Contains name v =>
      match getAttribute name n, v with
      | Some x, _ :: _ => includes v x
      | _, _ => false
      end
  end.

(** [element.matches(selector)] *)
Definition matches (sel : selector) (n : Node) : bool :=
  isElement n
  && match selTag sel with Some t => Str.eqb (tagOf n) t | None => true end
  && match selId sel with
     | Some i => match getAttribute (lit "id") n with
                 | Some x => Str.eqb x i
                 | None => false
                 end
     | None => true
     end
  && forallb (fun c => existsb (Str.eqb c) (classList n)) (selClasses sel)
  && forallb (attrHolds n) (selAttrs sel).

(** [element.querySelectorAll(selector)]: among the descendants. *)
Definition querySelectorAll (sel : selector) (n : Node) : list Node :=
  filter (matches sel) (descendants n).

(** [element.querySelector(selector)] *)
Definition querySelector (sel : selector) (n : Node) : option Node :=
  hd_error (querySelectorAll sel n).

(** [document.querySelectorAll(selector)]: the root element takes part. *)
Definition documentQuerySelectorAll (sel : selector) (root : Node) : list Node :=
  filter (matches sel) (elementsOf root).

Definition documentQuerySelector (sel : selector) (root : Node) : option Node :=
  hd_error (documentQuerySelectorAll sel root).

(** The chain of nodes from [n] down to the node [target], [n] first. *)
Fixpoint pathTo (target : nat) (n : Node) : option (list Node) :=
  if nodeId n =? target then Some [n]
  else
    match n with
    | Text _ _ => None
    | Element _ _ _ _ kids =>
        (fix go (l : list Node) : option (list Node) :=
           match l with
           | [] => None
           | k :: l' =>
               match pathTo target k with
               | Some p => Some (n :: p)
               | None => go l'
               end
           end) kids
    end.

(** The inclusive ancestors of [e] in the document, [e] first. *)
Definition inclusiveAncestors (root e : Node) : list Node :=
  match pathTo (nodeId e) root with
  | Some p => rev p
  | None => [e]
  end.

(** [element.parentElement] *)
Definition parentElement (root e : Node) : option Node :=
  hd_error (tl (inclusiveAncestors root e)).

(** [element.closest(selector)] *)
Definition closest (sel : selector) (root e : Node) : option Node :=
  find (matches sel) (inclusiveAncestors root e).

(** [document.body]: the first child of the root element that is a [body]
    or a [frameset]. *)
Definition body (root : Node) : option Node :=
  find (fun k => Str.eqb (tagOf k) (lit "BODY")
                 || Str.eqb (tagOf k) (lit "FRAMESET"))
       (children root).

(** ** Mutation *)

(** Apply [f] to the child list of the element [parent]. *)
Fixpoint updateNode (parent : nat) (f : list Node -> list Node) (n : Node)
  : Node :=
  match n with
  | Text _ _ => n
  | Element i t a v kids =>
      if i =? parent then Element i t a v (f kids)
      else Element i t a v (map (updateNode parent f) kids)
  end.

(** The child list after inserting [new] before the child [ref]; a list
    without [ref] is left as it is (the DOM throws [NotFoundError] there). *)
Fixpoint insertInto (new : Node) (ref : nat) (kids : list Node) : list Node :=
  match kids with
  | [] => []
  | k :: l => if nodeId k =? ref then new :: k :: l
              else k :: insertInto new ref l
  end.

(** The child list without the child [child]. *)
Fixpoint removeFrom (child : nat) (kids : list Node) : list Node :=
  match kids with
  | [] => []
  | k :: l => if nodeId k =? child then l else k :: removeFrom child l
  end.

(** [parent.insertBefore(new, ref)] *)
Definition insertBefore (parent : nat) (new : Node) (ref : nat) (root : Node)
  : Node := updateNode parent (insertInto new ref) root.

(** [parent.appendChild(new)] *)
Definition appendChild (parent : nat) (new : Node) (root : Node) : Node :=
  updateNode parent (fun kids => kids ++ [new]) root.

(** [parent.removeChild(child)] *)
Definition removeChild (parent child : nat) (root : Node) : Node :=
  updateNode parent (removeFrom child) root.

(** [node.parentNode] for the node [child]: the first element, in tree
    order, that has it among its child nodes. *)
Definition parentNode (child : nat) (root : Node) : option Node :=
  find (fun e => existsb (fun k => nodeId k =? child) (childNodesOf e))
       (elementsOf root).

End Dom.
Import Dom.

(* ================================================================== *)
(** * The page and the extraction monad *)
(* ================================================================== *)

(** [window.location].  [new URL(window.location.href)] parses the
    location's own serialisation, so its [origin] and [pathname] are these
    fields. *)
Record Location := {
  href : str;
  protocol : str;
  host : str;
  hostname : str;
  pathname : str;
  search : str;
  origin : str
}.

(** The browser functions the rules call and the model does not define. *)
Record Browser := {
  (** [element.innerHTML] *)
  innerHTML : Node -> str;
  (** [element.innerText] *)
  innerText : Node -> str;
  (** [new URLSearchParams(search).get(name)] *)
  searchParam : str -> str -> option str;
  (** [decodeURIComponent(s)], which throws a [URIError] on a malformed
      escape sequence. *)
  decodeURIComponent : str -> result str;
  (** [url.searchParams.set(name, value); url.toString()] on
      [new URL(href)]. *)
  withSearchParam : str -> str -> str -> str;
  (** [new Intl.DateTimeFormat("en-US", options).format(new Date(
      parseFloat(ts) * 1000))] with the options of the [slack] rule; the
      call throws a [RangeError] when the date is invalid, as it is for a
      text that is not a number. *)
  formatTimestamp : str -> result str;
  (** [element instanceof SVGElement], for an element that is not of the
      HTML namespace. *)
  isSVGElement : Node -> bool
}.

(** What an extraction reads: the location, [document.title], the tree
    under [document.documentElement], and the browser. *)
Record Page := {
  location : Location;
  documentTitle : str;
  root : Node;
  browser : Browser
}.

Definition setRoot (w : Page) (r : Node) : Page :=
  {| location := location w; documentTitle := documentTitle w; root := r;
     browser := browser w |}.

(** A computation over the page that may change it and may throw. *)
Definition M (A : Type) : Type := Page -> Page * result A.

Definition ret {A} (a : A) : M A := fun w => (w, Ok a).
Definition throw {A} (message : str) : M A := fun w => (w, Throw message).

Definition bind {A B} (m : M A) (k : A -> M B) : M B :=
  fun w =>
    match m w with
    | (w', Ok a) => k a w'
    | (w', Throw e) => (w', Throw e)
    end.

(** [try { m } catch (error) { h error }] *)
Definition tryCatch {A} (m : M A) (h : str -> M A) : M A :=
  fun w =>
    match m w with
    | (w', Ok a) => (w', Ok a)
    | (w', Throw e) => h e w'
    end.

(** [try { m } finally { f }], for a [finally] block that does not throw. *)
Definition tryFinally {A} (m : M A) (f : Page -> Page) : M A :=
  fun w => let (w', r) := m w in (f w', r).

(** Read the page. *)
Definition gets {A} (f : Page -> A) : M A := fun w => (w, Ok (f w)).

(** Replace the document tree. *)
Definition modifyRoot (f : Node -> Node) : M unit :=
  fun w => (setRoot w (f (root w)), Ok tt).

(** A pure call that may throw. *)
Definition lift {A} (r : result A) : M A := fun w => (w, r).

Declare Scope monad_scope.
Delimit Scope monad_scope with monad.
Notation "x <- m ;; k" := (bind m (fun x => k))
  (at level 61, m at next level, right associativity) : monad_scope.
Notation "m ;;; k" := (bind m (fun _ => k))
  (at level 61, right associativity) : monad_scope.
Local Open Scope monad_scope.

(* ================================================================== *)
(** * DOM search primitives *)
(* ================================================================== *)

(** [findElement] *)
Definition findElement (sel : selector) : M Node :=
  found <- gets (fun w => documentQuerySelector sel (root w)) ;;
  match found with
  | None => throw (lit "Element not found")
  | Some element => ret element
  end.

(** The inner [dfsTraversal] of [findNextElementDFS].  The closure variable
    [foundStart] is passed in and returned. *)
Fixpoint dfsTraversal (startElement : Node) (condition : Node -> result bool)
  (foundStart : bool) (element : Node) {struct element}
  : bool * result (option Node) :=
  match element with
  | Text _ _ => (foundStart, Ok None)
  | Element _ _ _ _ kids =>
      let loop :=
        fix loop (found : bool) (l : list Node) : bool * result (option Node) :=
          match l with
          | [] => (found, Ok None)
          | child :: l' =>
              if isElement child then
                match dfsTraversal startElement condition found child with
                | (found', Ok None) => loop found' l'
                | r => r
                end
              else loop found l'
          end in
      if negb foundStart then
        loop (if same element startElement then true else foundStart) kids
      else
        match condition element with
        | Throw e => (foundStart, Throw e)
        | Ok true => (foundStart, Ok (Some element))
        | Ok false => loop foundStart kids
        end
  end.

(** [findNextElementDFS]: a first pass from [document.body], then one from
    [document.documentElement] with [foundStart] reset.  [document.body] is
    [null] in a document without a body, where reading [element.children]
    throws a [TypeError]. *)
Definition findNextElementDFS (startElement : Node)
  (condition : Node -> result bool) : M (option Node) :=
  fun w =>
    match body (root w) with
    | None => (w, Throw (lit "TypeError"))
    | Some b =>
        match snd (dfsTraversal startElement condition false b) with
        | Throw e => (w, Throw e)
        | Ok (Some r) => (w, Ok (Some r))
        | Ok None =>
            (w, snd (dfsTraversal startElement condition false (root w)))
        end
    end.

(** The direct text of an element: the data of its own text nodes. *)
Fixpoint directText (kids : list Node) : str :=
  match kids with
  | [] => []
  | Text _ d :: l => d ++ directText l
  | Element _ _ _ _ _ :: l => directText l
  end.

(** [createDirectTextCondition] *)
Definition createDirectTextCondition (regex : Re.regex) (element : Node)
  : result bool :=
  Ok (Re.test regex (directText (childNodesOf element))).

(** [findFirstInWholeDFS] *)
Definition findFirstInWholeDFS (condition : Node -> result bool)
  : M (option Node) :=
  dummyStart <- gets (fun w => Element (freshId (root w)) (lit "DIV") [] None []) ;;
  documentBody <- gets (fun w => body (root w)) ;;
  match documentBody with
  | None => throw (lit "TypeError")
  | Some b =>
      match firstChild b with
      | Some first =>
          modifyRoot (insertBefore (nodeId b) dummyStart (nodeId first))
      | None => modifyRoot (appendChild (nodeId b) dummyStart)
      end ;;;
      tryFinally
        (result <- findNextElementDFS dummyStart condition ;;
         ret result)
        (fun w =>
           match parentNode (nodeId dummyStart) (root w) with
           | Some parent =>
               setRoot w (removeChild (nodeId parent) (nodeId dummyStart) (root w))
           | None => w
           end)
  end.

(** [findFirstWithDirectTextMatch] *)
Definition findFirstWithDirectTextMatch (regex : Re.regex) : M (option Node) :=
  findFirstInWholeDFS (createDirectTextCondition regex).

(** [findInParentChain]: [fuel] bounds the walk up; the chain of an element
    is never longer than the document has elements. *)
Fixpoint findInParentChainFrom (fuel : nat) (w : Page)
  (currentElement : option Node) (sel : selector) : option Node :=
  match currentElement with
  | None => None
  | Some e =>
      match querySelector sel e with
      | Some found => Some found
      | None =>
          match fuel with
          | O => None
          | S fuel' => findInParentChainFrom fuel' w (parentElement (root w) e) sel
          end
      end
  end.

Definition findInParentChain (startElement : Node) (sel : selector)
  : M (option Node) :=
  gets (fun w =>
          findInParentChainFrom (length (elementsOf (root w))) w
            (Some startElement) sel).

(** ** Specification side: the traversal as a scan of the pre-order list *)

(** The traversal over the elements [l] in order: before the start element
    has been met nothing is tested; from then on the first element on which
    [condition] holds is the result, and a throwing [condition] ends it. *)
Fixpoint scan (startElement : Node) (condition : Node -> result bool)
  (found : bool) (l : list Node) : bool * result (option Node) :=
  match l with
  | [] => (found, Ok None)
  | e :: l' =>
      if negb found then
        scan startElement condition
          (if same e startElement then true else found) l'
      else
        match condition e with
        | Throw m => (found, Throw m)
        | Ok true => (found, Ok (Some e))
        | Ok false => scan startElement condition found l'
        end
  end.

(** The elements of [l] strictly after the element [start]. *)
Fixpoint after (start : nat) (l : list Node) : list Node :=
  match l with
  | [] => []
  | e :: l' => if nodeId e =? start then l' else after start l'
  end.

(* ================================================================== *)
(** * The result of an extraction *)
(* ================================================================== *)

(** [DocInfo]: [title] is [string | null]; an optional field that the
    object literal does not set is [None]. *)
Record DocInfo := {
  link : str;
  title : option str;
  html : option str;
  text : option str;
  sender : option str;
  dateString : option str;
  channelName : option str
}.

(** The object literal [{ link, title }]. *)
Definition linkAndTitle (l : str) (t : option str) : DocInfo :=
  {| link := l; title := t; html := None; text := None; sender := None;
     dateString := None; channelName := None |}.

(** [interface Rule] *)
Module Rule.
Record t := {
    isMatch : M bool;
    getDocInfo : M DocInfo
  }.
End Rule.

(** A string in a condition: true unless empty. *)
Definition truthy (s : str) : bool :=
  match s with
  | [] => false
  | _ :: _ => true
  end.

(** [a || b] on [string | null] operands. *)
Definition orElse (a b : option str) : option str :=
  match a with
  | Some (_ :: _) => a
  | _ => b
  end.

(** [a || ""] *)
Definition orEmpty (a : option str) : str :=
  match a with
  | Some s => s
  | None => []
  end.

Definition sel (tag : option str) (id : option str) (classes : list str)
  (attrs : list attrTest) : selector :=
  {| selTag := tag; selId := id; selClasses := classes; selAttrs := attrs |}.

Definition byTag (t : str) : selector := sel (Some t) None [] [].
Definition byClass (c : str) : selector := sel None None [c] [].
Definition byId (i : str) : selector := sel None (Some i) [] [].

(** [" · "], with U+00B7, and [" – "], with U+2013. *)
Definition middleDot : str := [32; 183; 32]%N.
Definition enDash : str := [32; 8211; 32]%N.

(* ================================================================== *)
(** * DOM search primitives, continued *)
(* ================================================================== *)

(** In an HTML document the [tagName] of an element of the HTML namespace
    is in upper case, and the parser gives every other element (those of an
    [svg] or [math] subtree) a name with a lower-case letter. *)
Definition hasLowerCase (s : str) : bool :=
  existsb (fun c => N.leb 97 c && N.leb c 122) s.

(** An element whose [className] is not a string but an
    [SVGAnimatedString]: an SVG element. *)
Definition classNameIsObject (b : Browser) (element : Node) : bool :=
  hasLowerCase (tagOf element) && isSVGElement b element.

(** The loop of [findElementByClassPrefix] over the elements that the
    query selected: [element.className.split] is not a function on an SVG
    element, and the call throws a [TypeError]. *)
Fixpoint firstByClassPrefix (b : Browser) (prefix : str)
  (elements : list Node) : result (option Node) :=
  match elements with
  | [] => Ok None
  | element :: rest =>
      if classNameIsObject b element then
        Throw (lit "TypeError: element.className.split is not a function")
      else if existsb (startsWith prefix) (splitOn 32 (className element))
      then Ok (Some element)
      else firstByClassPrefix b prefix rest
  end.

(** [findElementByClassPrefix] *)
Definition findElementByClassPrefix (prefix : str) (tagName : option str)
  (w : Page) : result (option Node) :=
  let elements :=
    documentQuerySelectorAll
      (sel tagName None [] [Contains (lit "class") prefix]) (root w) in
  firstByClassPrefix (browser w) prefix elements.

(** [getDatadogTimeRange] *)
Definition getDatadogTimeRange : M str :=
  tryCatch
    (dateRangePicker <-
       gets (fun w =>
               documentQuerySelector
                 (byClass (lit "druids_time_date-range-picker")) (root w)) ;;
     match dateRangePicker with
     | Some picker =>
         match querySelector (byTag (lit "INPUT")) picker with
         | Some input =>
             match valueOf input with
             | Some (c :: v) => ret (lit " (" ++ (c :: v) ++ lit ")")
             | _ => ret []
             end
         | None => ret []
         end
     | None => ret []
     end)
    (fun _ => ret []).

(* ================================================================== *)
(** * Content accessors *)
(* ================================================================== *)

(** [getMetaContent] *)
Definition getMetaContent (property : str) (w : Page) : option str :=
  match documentQuerySelector
          (sel (Some (lit "META")) None [] [Equals (lit "property") property])
          (root w) with
  | Some metaElement => getAttribute (lit "content") metaElement
  | None => None
  end.

Definition itemScope : selector := sel None None [] [Has (lit "itemscope")].

(** The first element of [candidates] whose nearest [itemscope] is
    [itemElement], with the value [content] reads from it. *)
Definition firstDirect (w : Page) (itemElement : Node)
  (candidates : list Node) (content : Node -> option str)
  : option (option str) :=
  match find (fun e =>
                match closest itemScope (root w) e with
                | Some scope => same scope itemElement
                | None => false
                end) candidates with
  | Some e => Some (content e)
  | None => None
  end.

(** [getSchemaOrgContent] *)
Definition getSchemaOrgContent (itemType property : str) (w : Page)
  : option str :=
  match documentQuerySelector
          (sel None None []
             [Has (lit "itemscope"); Equals (lit "itemtype") itemType])
          (root w) with
  | None => None
  | Some itemElement =>
      let metaElements :=
        querySelectorAll
          (sel (Some (lit "META")) None [] [Equals (lit "itemprop") property])
          itemElement in
      match firstDirect w itemElement metaElements
              (getAttribute (lit "content")) with
      | Some content => content
      | None =>
          let linkElements :=
            querySelectorAll
              (sel (Some (lit "LINK")) None []
                   [Equals (lit "itemprop") property])
              itemElement in
          match firstDirect w itemElement linkElements
                  (fun e => orElse (getAttribute (lit "href") e)
                                   (getAttribute (lit "content") e)) with
          | Some content => content
          | None =>
              let elements :=
                querySelectorAll
                  (sel None None [] [Equals (lit "itemprop") property])
                  itemElement in
              match firstDirect w itemElement elements
                      (fun e => match trim (textContent e) with
                                | [] => None
                                | c :: s => Some (c :: s)
                                end) with
              | Some content => content
              | None => None
              end
          end
      end
  end.

Definition personSelector (tag authorProperty : str) : selector :=
  sel (Some tag) None []
      [Equals (lit "itemprop") authorProperty; Has (lit "itemscope");
       Equals (lit "itemtype") (lit "http://schema.org/Person")].

(** [getSchemaOrgPersonName] *)
Definition getSchemaOrgPersonName (itemType authorProperty : str) (w : Page)
  : option str :=
  match documentQuerySelector
          (sel None None []
             [Has (lit "itemscope"); Equals (lit "itemtype") itemType])
          (root w) with
  | None => None
  | Some itemElement =>
      let fromLink :=
        match querySelector (personSelector (lit "SPAN") authorProperty)
                itemElement with
        | Some authorSpan =>
            querySelector
              (sel (Some (lit "LINK")) None [] [Equals (lit "itemprop") (lit "name")])
              authorSpan
        | None => None
        end in
      match fromLink with
      | Some authorLink => getAttribute (lit "content") authorLink
      | None =>
          let fromMeta :=
            match querySelector (personSelector (lit "DIV") authorProperty)
                    itemElement with
            | Some authorDiv =>
                querySelector
                  (sel (Some (lit "META")) None []
                       [Equals (lit "itemprop") (lit "name")])
                  authorDiv
            | None => None
            end in
          match fromMeta with
          | Some authorMeta => getAttribute (lit "content") authorMeta
          | None => getSchemaOrgContent itemType authorProperty w
          end
      end
  end.

(** The loop [for (const type of commonTypes)] with its early return. *)
Fixpoint firstTruthy (probe : str -> option str) (types : list str)
  : option str :=
  match types with
  | [] => None
  | type :: rest =>
      match probe type with
      | Some (c :: s) => Some (c :: s)
      | _ => firstTruthy probe rest
      end
  end.

Definition titleTypes : list str :=
  [ lit "http://schema.org/VideoObject"; lit "http://schema.org/Article";
    lit "http://schema.org/NewsArticle"; lit "http://schema.org/BlogPosting";
    lit "http://schema.org/WebPage"; lit "http://schema.org/CreativeWork";
    lit "http://schema.org/Thing" ].

Definition authorTypes : list str :=
  [ lit "http://schema.org/VideoObject"; lit "http://schema.org/Article";
    lit "http://schema.org/NewsArticle"; lit "http://schema.org/BlogPosting";
    lit "http://schema.org/CreativeWork" ].

(** [getSchemaOrgTitle] *)
Definition getSchemaOrgTitle (w : Page) : option str :=
  firstTruthy
    (fun type => orElse (getSchemaOrgContent type (lit "headline") w)
                        (getSchemaOrgContent type (lit "name") w))
    titleTypes.

(** [getSchemaOrgUrl] *)
Definition getSchemaOrgUrl (w : Page) : option str :=
  firstTruthy (fun type => getSchemaOrgContent type (lit "url") w) titleTypes.

(** [getSchemaOrgAuthor] *)
Definition getSchemaOrgAuthor (w : Page) : option str :=
  firstTruthy (fun type => getSchemaOrgPersonName type (lit "author") w)
    authorTypes.

(* ================================================================== *)
(** * The generic title and URL resolver *)
(* ================================================================== *)

(** The pattern [^( .* ) - ( .+ )$]. *)
Definition dashPattern : regex :=
  [Bos; Open; Rep dot 0 true; Close] ++ chars (lit " - ")
  ++ [Open; Rep dot 1 true; Close; Eos].

(** The names behind [servicePatterns]: [/ - Google Maps$/] and so on. *)
Definition serviceNames : list str :=
  [lit "Google Maps"; lit "Google Search"; lit "Bing Maps"; lit "Apple Maps"].

(** [/ - <service>$/] *)
Definition servicePattern (service : str) : regex :=
  chars (lit " - ") ++ chars service ++ [Eos].

(** The loop over [servicePatterns] of [getTitle]. *)
Fixpoint servicePass (documentTitle : str) (services : list str) : str :=
  match services with
  | [] => documentTitle
  | service :: rest =>
      let pattern := servicePattern service in
      match exec ([Bos; Open; Rep dot 0 false; Close] ++ pattern)
              documentTitle with
      | Some m =>
          let placeName := nth 0 (groups m) [] in
          match exec pattern documentTitle with
          | Some m' =>
              let serviceName := replace (chars (lit " - ")) [] (matched m') in
              if truthy serviceName then
                placeName ++ lit " (" ++ serviceName ++ lit ")"
              else servicePass documentTitle rest
          | None => servicePass documentTitle rest
          end
      | None => servicePass documentTitle rest
      end
  end.

(** [getTitle] *)
Definition getTitle (w : Page) : str :=
  match getMetaContent (lit "og:title") w with
  | Some (c :: s) =>
      let ogTitle := c :: s in
      let cleanedTitle := cleanupContent ogTitle in
      let cleanedTitle :=
        match getMetaContent (lit "og:type") w with
        | Some ogType =>
            if Str.eqb ogType (lit "books.book") then
              match indexOf (lit ":") cleanedTitle with
              | Some colonIndex => trim (substring 0 colonIndex cleanedTitle)
              | None => cleanedTitle
              end
            else cleanedTitle
        | None => cleanedTitle
        end in
      if includes (lit "youtube.com") (hostname (location w))
         || includes (lit "youtube.") (hostname (location w))
      then
        match exec dashPattern cleanedTitle with
        | Some titleMatch =>
            let videoTitle := nth 0 (groups titleMatch) [] in
            let channelName := nth 1 (groups titleMatch) [] in
            trim videoTitle ++ lit " (" ++ trim channelName ++ lit ")"
        | None =>
            match getSchemaOrgAuthor w with
            | Some (a :: u) => cleanedTitle ++ lit " (" ++ (a :: u) ++ lit ")"
            | _ => cleanedTitle
            end
        end
      else cleanedTitle
  | _ =>
      let schemaTitle := getSchemaOrgTitle w in
      let schemaAuthor := getSchemaOrgAuthor w in
      match schemaTitle with
      | Some (c :: s) =>
          let cleanedTitle := cleanupContent (c :: s) in
          match schemaAuthor with
          | Some (a :: u) =>
              let cleanedAuthor := cleanupContent (a :: u) in
              cleanedTitle ++ lit " (" ++ cleanedAuthor ++ lit ")"
          | _ => cleanedTitle
          end
      | _ =>
          let documentTitle := cleanupContent (documentTitle w) in
          servicePass documentTitle serviceNames
      end
  end.

(** [getUrl] *)
Definition getUrl (w : Page) : str :=
  match getMetaContent (lit "og:url") w with
  | Some (c :: s) => cleanupContent (c :: s)
  | _ =>
      match getSchemaOrgUrl w with
      | Some (c :: s) => cleanupContent (c :: s)
      | _ => href (location w)
      end
  end.

(* ================================================================== *)
(** * The rule set *)
(* ================================================================== *)

Definition hostnameIncludes (s : str) (w : Page) : bool :=
  includes s (hostname (location w)).

(** The string an absent value becomes inside a template literal. *)
Definition undefinedText : str := lit "undefined".

(** [dropboxPaper] *)
Definition dropboxPaper : Rule.t := {|
  Rule.isMatch :=
    gets (fun w => Str.eqb (hostname (location w)) (lit "paper.dropbox.com"));
  Rule.getDocInfo :=
    header <- findElement (byClass (lit "hp-header-title-wrapper")) ;;
    w <- gets (fun w => w) ;;
    let title := textContent header in
    let link := href (location w) in
    ret (linkAndTitle link (Some (title ++ lit " (Paper)")))
|}.

(** [amazon] *)
Definition amazon : Rule.t := {|
  Rule.isMatch :=
    gets (fun w => hostnameIncludes (lit "amazon.com") w
                   && negb (hostnameIncludes (lit "aws") w));
  Rule.getDocInfo :=
    productTitle <- findElement (byId (lit "productTitle")) ;;
    asin <- findElement (byId (lit "ASIN")) ;;
    let title := textContent productTitle in
    let link :=
      lit "https://www.amazon.com/dp/"
      ++ match valueOf asin with Some v => v | None => undefinedText end in
    ret (linkAndTitle link (Some title))
|}.

(** [awsDocs] *)
Definition awsDocs : Rule.t := {|
  Rule.isMatch :=
    gets (fun w => Str.eqb (hostname (location w)) (lit "aws.amazon.com"));
  Rule.getDocInfo :=
    w <- gets (fun w => w) ;;
    let title := documentTitle w in
    let link := href (location w) in
    match exec dashPattern title with
    | Some m =>
        let content := nth 0 (groups m) [] in
        let service := nth 1 (groups m) [] in
        ret (linkAndTitle link (Some (service ++ lit ": " ++ content)))
    | None => ret (linkAndTitle link (Some title))
    end
|}.

(** [Math.max] of two [lastIndexOf] results, [None] being [-1]. *)
Definition maxIndex (a b : option nat) : option nat :=
  match a, b with
  | Some x, Some y => Some (Nat.max x y)
  | Some x, None => Some x
  | None, b => b
  end.

(** [docsAndDesignTools] *)
Definition docsAndDesignTools : Rule.t := {|
  Rule.isMatch :=
    gets (fun w =>
            (hostnameIncludes (lit "figma.com") w
             && negb (hostnameIncludes (lit "temporal-eks.figma.com") w)
             && negb (hostnameIncludes (lit "temporal-eks.staging.figma.com") w))
            || hostnameIncludes (lit "docs.google.com") w);
  Rule.getDocInfo :=
    w <- gets (fun w => w) ;;
    let title := documentTitle w in
    let link := origin (location w) ++ pathname (location w) in
    if includes enDash title || includes (lit " - ") title then
      let lastEmDash := lastIndexOf enDash title in
      let lastHyphen := lastIndexOf (lit " - ") title in
      match maxIndex lastEmDash lastHyphen with
      | Some lastSeparatorIndex =>
          let content := substring 0 lastSeparatorIndex title in
          let product := substringFrom (lastSeparatorIndex + 3) title in
          ret (linkAndTitle link (Some (content ++ lit " (" ++ product ++ lit ")")))
      | None => ret (linkAndTitle link (Some title))
      end
    else ret (linkAndTitle link (Some title))
|}.

(** [graphiteFigma] *)
Definition graphiteFigma : Rule.t := {|
  Rule.isMatch :=
    gets (fun w =>
            startsWith (lit "https://app.graphite.dev/github/pr/figma/figma")
              (href (location w)));
  Rule.getDocInfo :=
    w <- gets (fun w => w) ;;
    let urlParts := splitOn 47 (pathname (location w)) in
    let prNumber := nth 5 urlParts undefinedText in
    let title :=
      replace ([Rep isWhiteSpace 1 true; Chr 45; Rep isWhiteSpace 1 true]
               ++ chars (lit "Graphite") ++ [Eos]) []
        (replace [Bos; Chr 35; Rep isDigit 1 true; Rep isWhiteSpace 1 true] []
           (documentTitle w)) in
    codeDiffContainer <-
      lift (findElementByClassPrefix (lit "CodeDiff_") (Some (lit "DIV")) w) ;;
    let author :=
      match codeDiffContainer with
      | Some container =>
          match querySelector
                  (sel (Some (lit "IMG")) None []
                       [Contains (lit "src") (lit "avatars.githubusercontent.com")])
                  container with
          | Some avatarImg => orEmpty (getAttribute (lit "alt") avatarImg)
          | None => []
          end
      | None => []
      end in
    let link := lit "https://github.com/figma/figma/pull/" ++ prNumber in
    let formattedTitle :=
      if truthy author then
        lit "[PR] " ++ title ++ lit " (" ++ author ++ lit ")"
      else lit "[PR] " ++ title in
    ret (linkAndTitle link (Some formattedTitle))
|}.

(** The pattern of [parsePRString]:
    [( .* ) by ( .* ) · Pull Request #( \d+ ) · ( .* )]. *)
Definition prPattern : regex :=
  [Open; Rep dot 0 true; Close] ++ chars (lit " by ")
  ++ [Open; Rep dot 0 true; Close] ++ chars middleDot
  ++ chars (lit "Pull Request #") ++ [Open; Rep isDigit 1 true; Close]
  ++ chars middleDot ++ [Open; Rep dot 0 true; Close].

(** [FigmaGithub.parsePRString]: title, author, pr, repo. *)
Definition parsePRString (prString : str) : result (str * str * str * str) :=
  match exec prPattern prString with
  | Some m =>
      Ok (nth 0 (groups m) [], nth 1 (groups m) [], nth 2 (groups m) [],
          nth 3 (groups m) [])
  | None => Throw (lit "Invalid PR string")
  end.

(** [class FigmaGithub] *)
Definition FigmaGithub : Rule.t := {|
  Rule.isMatch :=
    gets (fun w =>
            startsWith (lit "https://github.com/figma/figma/pull/")
              (href (location w)));
  Rule.getDocInfo :=
    w <- gets (fun w => w) ;;
    parsed <- lift (parsePRString (documentTitle w)) ;;
    let '(title, author, _, _) := parsed in
    let link := href (location w) in
    let formattedTitle := lit "[PR] " ++ title ++ lit " (" ++ author ++ lit ")" in
    ret (linkAndTitle link (Some formattedTitle))
|}.

(** The pattern [^( .* ) · ] of [githubCommit]. *)
Definition commitPattern : regex :=
  [Bos; Open; Rep dot 0 true; Close] ++ chars middleDot.

(** [githubCommit] *)
Definition githubCommit : Rule.t := {|
  Rule.isMatch :=
    gets (fun w => includes (lit "/commit/") (href (location w)));
  Rule.getDocInfo :=
    w <- gets (fun w => w) ;;
    let title := documentTitle w in
    let link := origin (location w) ++ pathname (location w) in
    match exec commitPattern title with
    | Some m =>
        let commitMessage := nth 0 (groups m) [] in
        ret (linkAndTitle link (Some commitMessage))
    | None => ret (linkAndTitle link (Some title))
    end
|}.

(** [datadogGeneral] *)
Definition datadogGeneral : Rule.t := {|
  Rule.isMatch :=
    gets (fun w => hostnameIncludes (lit "datadoghq.com") w
                   || hostnameIncludes (lit "ddog-gov.com") w);
  Rule.getDocInfo :=
    w <- gets (fun w => w) ;;
    let title := documentTitle w in
    let link := href (location w) in
    timeRange <- getDatadogTimeRange ;;
    ret (linkAndTitle link (Some (title ++ timeRange)))
|}.

(** ** The monitor alert title *)

(** The [for] loop over the [h3] elements of [datadogMonitor], with its
    [break]: the selected element and [alertType]. *)
Fixpoint selectAlert (h1Text : str) (h3Elements : list Node)
  : option Node * str :=
  match h3Elements with
  | [] => (None, [])
  | h3Element :: rest =>
      let fullText := textContent h3Element in
      let hasTriggerCondition :=
        includes (lit "[Triggered") fullText || includes (lit "[Warn") fullText in
      let containsH1Text :=
        if truthy h1Text then includes h1Text fullText else true in
      if containsH1Text && hasTriggerCondition then
        (Some h3Element,
         if includes (lit "[Triggered") fullText then lit "Triggered"
         else if includes (lit "[Warn") fullText then lit "Warn"
         else [])
      else selectAlert h1Text rest
  end.

(** [new RegExp(`^\\[${alertType}\\]\\s*`)] *)
Definition alertTypePattern (alertType : str) : regex :=
  [Bos; Chr 91] ++ chars alertType ++ [Chr 93; Rep isWhiteSpace 0 true].

(** The pattern for curly tags: an opening brace, units other than the
    closing brace, a colon, units other than the closing brace, a closing
    brace. *)
Definition curlyTagPattern : regex :=
  [Chr 123; Rep (notChr 125) 0 true; Chr 58; Rep (notChr 125) 0 true; Chr 125].

(** The pattern built for one tag: white space, the tag, white space.
    The source escapes every regular expression syntax character of the
    tag, so the tag stands for itself. *)
Definition tagRemovalPattern (tag : str) : regex :=
  [Rep isWhiteSpace 0 true] ++ chars tag ++ [Rep isWhiteSpace 0 true].

(** The [for (const tag of curlyTags)] loop. *)
Definition removeTags (curlyTags : list str) (title : str) : str :=
  fold_left (fun cleanedTitle tag =>
               replaceAll (tagRemovalPattern tag) (lit " ") cleanedTitle)
            curlyTags title.

(** The block that moves the curly tags of [title] to its end. *)
Definition moveCurlyTags (title : str) : str :=
  let curlyTags := matchAll curlyTagPattern title in
  match curlyTags with
  | [] => title
  | _ :: _ =>
      let wasAtEnd := endsWith (last curlyTags []) (trim title) in
      let cleanedTitle := removeTags curlyTags title in
      let cleanedTitle := trim (replaceAll ws_plus (lit " ") cleanedTitle) in
      let spaceBeforeTags := if wasAtEnd then lit " " else [] in
      cleanedTitle ++ spaceBeforeTags ++ join [] curlyTags
  end.

(** The title built from the selected [h3]: its text without the leading
    marker, curly tags moved to the end. *)
Definition alertTitle (alertType fullText : str) : str :=
  moveCurlyTags (replace (alertTypePattern alertType) [] fullText).

(** [datadogMonitor] *)
Definition datadogMonitor : Rule.t := {|
  Rule.isMatch :=
    gets (fun w =>
            (hostnameIncludes (lit "datadoghq.com") w
             || hostnameIncludes (lit "ddog-gov.com") w)
            && includes (lit "/monitors/") (pathname (location w)));
  Rule.getDocInfo :=
    timeRange <- getDatadogTimeRange ;;
    h1Text <-
      tryCatch
        (h1Element <- findElement (byTag (lit "H1")) ;;
         ret (trim (textContent h1Element)))
        (fun _ => ret []) ;;
    h3Elements <-
      gets (fun w => documentQuerySelectorAll (byTag (lit "H3")) (root w)) ;;
    w <- gets (fun w => w) ;;
    match selectAlert h1Text h3Elements with
    | (Some alertElement, ((_ :: _) as alertType)) =>
        let fullText := textContent alertElement in
        let title := alertTitle alertType fullText in
        let link := href (location w) in
        let finalTitle := title ++ timeRange in
        ret (linkAndTitle link (Some finalTitle))
    | _ =>
        if truthy h1Text then
          let link := href (location w) in
          let finalTitle := h1Text ++ timeRange in
          ret (linkAndTitle link (Some finalTitle))
        else
          let title := documentTitle w in
          let link := href (location w) in
          let finalTitle := title ++ timeRange in
          ret (linkAndTitle link (Some finalTitle))
    end
|}.

(** [datadogNotebook] *)
Definition datadogNotebook : Rule.t := {|
  Rule.isMatch :=
    gets (fun w => hostnameIncludes (lit "datadoghq.com") w
                   && includes (lit "/notebook/") (pathname (location w)));
  Rule.getDocInfo :=
    w <- gets (fun w => w) ;;
    let title := documentTitle w in
    let link := href (location w) in
    timeRange <- getDatadogTimeRange ;;
    match exec ([Bos; Open; Rep dot 0 true; Close] ++ chars (lit " | Datadog")
                ++ [Eos]) title with
    | Some m =>
        let content := nth 0 (groups m) [] in
        ret (linkAndTitle link
               (Some (content ++ timeRange ++ lit " (Datadog Notebook)")))
    | None => ret (linkAndTitle link (Some (title ++ timeRange)))
    end
|}.

(** [notion] *)
Definition notion : Rule.t := {|
  Rule.isMatch := gets (hostnameIncludes (lit "notion.so"));
  Rule.getDocInfo :=
    w <- gets (fun w => w) ;;
    let title := documentTitle w in
    let link := href (location w) in
    let title :=
      match exec [Bos; Chr 40; Rep isDigit 1 true; Chr 41;
                  Rep isWhiteSpace 0 true; Open; Rep dot 0 true; Close; Eos]
              title with
      | Some notificationMatch => nth 0 (groups notificationMatch) []
      | None => title
      end in
    ret (linkAndTitle link (Some (title ++ lit " (Notion)")))
|}.

(** [asana] *)
Definition asana : Rule.t := {|
  Rule.isMatch :=
    gets (fun w => Str.eqb (hostname (location w)) (lit "app.asana.com"));
  Rule.getDocInfo :=
    w <- gets (fun w => w) ;;
    let title := documentTitle w in
    let link :=
      withSearchParam (browser w) (href (location w)) (lit "focus") (lit "true") in
    match exec ([Bos; Open; Rep dot 0 true; Close] ++ chars (lit " - Asana")
                ++ [Eos]) title with
    | Some m =>
        let content := nth 0 (groups m) [] in
        let content :=
          match exec ([Bos; Chr 9679; Chr 32; Rep dot 1 true]
                      ++ chars (lit " - ")
                      ++ [Open; Rep dot 0 true; Close; Eos]) content with
          | Some teamPrefixMatch => nth 0 (groups teamPrefixMatch) []
          | None => content
          end in
        ret (linkAndTitle link (Some (content ++ lit " (Asana)")))
    | None => ret (linkAndTitle link (Some title))
    end
|}.

(** [greenhouse] *)
Definition greenhouse : Rule.t := {|
  Rule.isMatch :=
    gets (fun w => includes (lit "/scorecards/") (href (location w)));
  Rule.getDocInfo :=
    nameElement <-
      findElement (sel (Some (lit "H3")) None [lit "name"] []) ;;
    w <- gets (fun w => w) ;;
    let name := cleanupContent (textContent nameElement) in
    let link := href (location w) in
    let link :=
      if endsWith (lit "/edit") link then firstn (length link - 5) link
      else link in
    ret (linkAndTitle link (Some (name ++ lit " (Greenhouse Scorecard)")))
|}.

(** [URLSearchParams(window.location.search).get("query")], then
    [decodeURIComponent] when the parameter is a non-empty string. *)
Definition decodedQuery : M (option str) :=
  w <- gets (fun w => w) ;;
  match searchParam (browser w) (search (location w)) (lit "query") with
  | Some (c :: s) =>
      decoded <- lift (decodeURIComponent (browser w) (c :: s)) ;;
      ret (Some decoded)
  | _ => ret None
  end.

(** [datadogLogs] *)
Definition datadogLogs : Rule.t := {|
  Rule.isMatch :=
    gets (fun w => hostnameIncludes (lit "datadoghq.com") w
                   && includes (lit "/logs") (pathname (location w)));
  Rule.getDocInfo :=
    w <- gets (fun w => w) ;;
    let title := documentTitle w in
    let link := href (location w) in
    timeRange <- getDatadogTimeRange ;;
    let logMessageCondition :=
      createDirectTextCondition (chars (lit "Log Message")) in
    logMessageElement <- findFirstInWholeDFS logMessageCondition ;;
    codeElement <-
      match logMessageElement with
      | Some element =>
          let codeCondition :=
            fun e : Node => Ok (Str.eqb (tagOf e) (lit "CODE")) in
          findNextElementDFS element codeCondition
      | None => ret None
      end ;;
    match codeElement with
    | Some code =>
        let logText :=
          trim (replaceAll ws_plus (lit " ") (textContent code)) in
        ret (linkAndTitle link (Some (logText ++ timeRange ++ lit " (Logs)")))
    | None =>
        query <- decodedQuery ;;
        match query with
        | Some decoded =>
            ret (linkAndTitle link
                   (Some (decoded ++ timeRange ++ lit " (Logs)")))
        | None =>
            ret (linkAndTitle link (Some (title ++ timeRange ++ lit " (Logs)")))
        end
    end
|}.

(** [temporal] *)
Definition temporal : Rule.t := {|
  Rule.isMatch :=
    gets (fun w =>
            hostnameIncludes (lit "temporal-eks.figma.com") w
            || hostnameIncludes (lit "temporal-eks.staging.figma.com") w);
  Rule.getDocInfo :=
    w <- gets (fun w => w) ;;
    let title := documentTitle w in
    let link := href (location w) in
    query <- decodedQuery ;;
    match query with
    | Some decoded => ret (linkAndTitle link (Some (decoded ++ lit " (Temporal)")))
    | None => ret (linkAndTitle link (Some (title ++ lit " (Temporal)")))
    end
|}.

(** [launchDarkly] *)
Definition launchDarkly : Rule.t := {|
  Rule.isMatch :=
    gets (fun w => Str.eqb (hostname (location w)) (lit "app.launchdarkly.com"));
  Rule.getDocInfo :=
    w <- gets (fun w => w) ;;
    let title := documentTitle w in
    let pathname := pathname (location w) in
    let marker := lit "/projects/default/flags/" in
    match indexOf marker pathname with
    | Some flagsIndex =>
        let afterFlags := substringFrom (flagsIndex + length marker) pathname in
        let flagName :=
          match indexOf (lit "/") afterFlags with
          | None => afterFlags
          | Some nextSlash => substring 0 nextSlash afterFlags
          end in
        let baseUrl := protocol (location w) ++ lit "//" ++ host (location w) in
        let newPath :=
          replace (chars (lit "/targeting")) (lit "/monitoring") pathname in
        let queryParams :=
          lit "env=production&env=staging&env=gov&env=development&env=devenv01&selected-env=production&activity=true" in
        let newLink := baseUrl ++ newPath ++ lit "?" ++ queryParams in
        ret (linkAndTitle newLink (Some (flagName ++ lit " (LaunchDarkly)")))
    | None =>
        ret (linkAndTitle (href (location w))
               (Some (title ++ lit " (LaunchDarkly)")))
    end
|}.

(** [figmaDeploys] *)
Definition figmaDeploys : Rule.t := {|
  Rule.isMatch :=
    gets (fun w => Str.eqb (hostname (location w)) (lit "deploysv2.figma.com"));
  Rule.getDocInfo :=
    w <- gets (fun w => w) ;;
    let pathParts := splitOn 47 (pathname (location w)) in
    let chainId := last pathParts undefinedText in
    tryCatch
      (h4Element <- findElement (byTag (lit "H4")) ;;
       let h4Text := textContent h4Element in
       let link := href (location w) in
       let title :=
         if truthy h4Text && negb (includes (lit "#" ++ chainId) h4Text)
         then h4Text ++ lit " #" ++ chainId
         else h4Text in
       ret (linkAndTitle link (Some (title ++ lit " (Figma Deploys)"))))
      (fun _ =>
         let title := documentTitle w in
         let link := href (location w) in
         ret (linkAndTitle link
                (Some (title ++ lit " #" ++ chainId ++ lit " (Figma Deploys)"))))
|}.

(** [goodreads] *)
Definition goodreads : Rule.t := {|
  Rule.isMatch :=
    gets (fun w => Str.eqb (hostname (location w)) (lit "www.goodreads.com"));
  Rule.getDocInfo :=
    w <- gets (fun w => w) ;;
    let link := getUrl w in
    let title := getTitle w in
    title <-
      tryCatch
        (let contributorLinks :=
           documentQuerySelectorAll (byClass (lit "ContributorLink")) (root w) in
         match contributorLinks with
         | first :: _ =>
             match trim (textContent first) with
             | c :: s => ret (title ++ lit " by " ++ (c :: s))
             | [] => ret title
             end
         | [] => ret title
         end)
        (fun _ => ret title) ;;
    ret (linkAndTitle link (Some title))
|}.

(** ** The chat message extractor *)

Definition isUpperOrDigit (c : char) : bool :=
  (N.leb 65 c && N.leb c 90) || isDigit c.

(** The pattern [/archives/( C[A-Z0-9]+ )/] for the channel id. *)
Definition channelPattern : regex :=
  chars (lit "/archives/")
  ++ [Open; Chr 67; Rep isUpperOrDigit 1 true; Close; Chr 47].

(** [element.getAttribute("data-qa") === value] *)
Definition dataQaIs (value : str) (element : Node) : bool :=
  match getAttribute (lit "data-qa") element with
  | Some v => Str.eqb v value
  | None => false
  end.

(** The body of the [try] block of [slack.getDocInfo]. *)
Definition slackMessage : M DocInfo :=
  savedForLater <-
    findFirstWithDirectTextMatch ([Bos] ++ chars (lit "Saved for later")) ;;
  referenceElement <-
    match savedForLater with
    | Some element => ret element
    | None =>
        alsoSent <-
          findFirstWithDirectTextMatch
            ([Bos] ++ chars (lit "Also sent to the channel") ++ [Eos]) ;;
        match alsoSent with
        | Some element => ret element
        | None =>
            throw (lit "Could not find 'Saved for later' span or 'Also sent to the channel' button")
        end
    end ;;
  let messageContentCondition :=
    fun element : Node =>
      Ok (Str.eqb (tagOf element) (lit "DIV")
          && (dataQaIs (lit "message_content") element
              || dataQaIs (lit "message-text") element)) in
  found <- findNextElementDFS referenceElement messageContentCondition ;;
  match found with
  | None => throw (lit "Could not find message content div")
  | Some messageContentDiv =>
      let sender :=
        match querySelector
                (sel None None [] [Equals (lit "data-qa") (lit "message_sender")])
                messageContentDiv with
        | Some senderSpan =>
            orEmpty (getAttribute (lit "data-stringify-text") senderSpan)
        | None => []
        end in
      specific <-
        findInParentChain messageContentDiv
          (sel (Some (lit "A")) None [lit "c-timestamp"] [Has (lit "data-ts")]) ;;
      timestampLink <-
        match specific with
        | Some a => ret (Some a)
        | None =>
            findInParentChain messageContentDiv
              (sel (Some (lit "A")) None [] [Has (lit "data-ts")])
        end ;;
      w <- gets (fun w => w) ;;
      linkParts <-
        match timestampLink with
        | None => ret (href (location w), [], [])
        | Some a =>
            let href :=
              match getAttribute (lit "href") a with
              | Some (c :: s) => c :: s
              | _ => href (location w)
              end in
            let dataTs := getAttribute (lit "data-ts") a in
            let channelName :=
              match exec channelPattern href with
              | Some channelMatch =>
                  let channelId := nth 0 (groups channelMatch) [] in
                  match documentQuerySelector
                          (sel None None []
                               [Equals (lit "data-channel-id") channelId])
                          (root w) with
                  | Some channelElement =>
                      let channelText := trim (textContent channelElement) in
                      if truthy channelText then
                        trim (replace
                                ([Bos; Rep isWhiteSpace 0 true]
                                 ++ chars (lit "Message")
                                 ++ [Rep isWhiteSpace 1 true]) [] channelText)
                      else []
                  | None => []
                  end
              | None => []
              end in
            dateString <-
              match dataTs with
              | Some (c :: s) =>
                  formattedDate <-
                    lift (formatTimestamp (browser w) (c :: s)) ;;
                  ret (formattedDate ++ lit " ET")
              | _ => ret []
              end ;;
            ret (href, dateString, channelName)
        end ;;
      let '(href, dateString, channelName) := linkParts in
      let '(messageHtml, messageText) :=
        match querySelector
                (sel None None [] [Equals (lit "data-qa") (lit "message-text")])
                messageContentDiv with
        | Some messageTextDiv =>
            (innerHTML (browser w) messageTextDiv,
             trim (textContent messageTextDiv))
        | None =>
            (innerHTML (browser w) messageContentDiv,
             if truthy (innerText (browser w) messageContentDiv)
             then innerText (browser w) messageContentDiv
             else textContent messageContentDiv)
        end in
      let title := messageText in
      ret {| link := href; title := Some title; html := Some messageHtml;
             text := Some messageText; sender := Some sender;
             dateString := Some dateString; channelName := Some channelName |}
  end.

(** [slack] *)
Definition slack : Rule.t := {|
  Rule.isMatch := gets (hostnameIncludes (lit "slack.com"));
  Rule.getDocInfo :=
    tryCatch slackMessage
      (fun _ =>
         w <- gets (fun w => w) ;;
         let title := documentTitle w in
         let link := href (location w) in
         ret (linkAndTitle link (Some (title ++ lit " (Slack)"))))
|}.

(* ================================================================== *)
(** * The dispatcher *)
(* ================================================================== *)

(** The rule list of [getDocInfo], in its order. *)
Definition rules : list (str * Rule.t) :=
  [ (lit "graphiteFigma", graphiteFigma);
    (lit "FigmaGithub", FigmaGithub);
    (lit "figmaDeploys", figmaDeploys);
    (lit "docsAndDesignTools", docsAndDesignTools);
    (lit "dropboxPaper", dropboxPaper);
    (lit "amazon", amazon);
    (lit "awsDocs", awsDocs);
    (lit "githubCommit", githubCommit);
    (lit "datadogMonitor", datadogMonitor);
    (lit "datadogNotebook", datadogNotebook);
    (lit "datadogLogs", datadogLogs);
    (lit "datadogGeneral", datadogGeneral);
    (lit "temporal", temporal);
    (lit "notion", notion);
    (lit "asana", asana);
    (lit "greenhouse", greenhouse);
    (lit "launchDarkly", launchDarkly);
    (lit "goodreads", goodreads);
    (lit "slack", slack) ].

(** One turn of the [for] loop: the [try] block gives [Some res] when it
    returns [res], and [None] when it falls through or when the [catch]
    block runs [continue]. *)
Definition tryRule (rule : Rule.t) : M (option DocInfo) :=
  tryCatch
    (isMatch <- Rule.isMatch rule ;;
     if isMatch then
       res <- Rule.getDocInfo rule ;;
       ret (Some res)
     else ret None)
    (fun _ => ret None).

(** The generic fallback after the loop. *)
Definition fallbackResult : M DocInfo :=
  gets (fun w => linkAndTitle (getUrl w) (Some (getTitle w))).

(** The loop of [getDocInfo] over the rules still to try. *)
Fixpoint dispatch (remaining : list (str * Rule.t)) : M DocInfo :=
  match remaining with
  | [] => fallbackResult
  | (_, rule) :: rest =>
      outcome <- tryRule rule ;;
      match outcome with
      | Some res => ret res
      | None => dispatch rest
      end
  end.

(** [getDocInfo] *)
Definition getDocInfo : M DocInfo := dispatch rules.

(* ================================================================== *)
(** * Specification side: the shape of a result *)
(* ================================================================== *)

(** A record that carries [link] and [title] only. *)
Definition onlyLinkAndTitle (d : DocInfo) : Prop :=
  html d = None /\ text d = None /\ sender d = None /\
  dateString d = None /\ channelName d = None.

(** A record in which the five optional fields are all set. *)
Definition allFivePresent (d : DocInfo) : Prop :=
  exists h t s ds c,
    html d = Some h /\ text d = Some t /\ sender d = Some s /\
    dateString d = Some ds /\ channelName d = Some c.

(** A record that is the work of the chat message extractor. *)
Definition fromSlackMessage (d : DocInfo) : Prop :=
  allFivePresent d /\ exists w1 w2, slackMessage w1 = (w2, Ok d).

(** Every record [m] returns satisfies [P]. *)
Definition returnsOnly (P : DocInfo -> Prop) (m : M DocInfo) : Prop :=
  forall w w' d, m w = (w', Ok d) -> P d.

(* ================================================================== *)
(** * Specification side: the monitor alert rule *)
(* ================================================================== *)

(** An [h3] qualifies as the alert source: its text contains "[Triggered"
    or "[Warn" and, when the [h1] text is not empty, that text too. *)
Definition qualifies (h1Text : str) (h3 : Node) : bool :=
  (includes (lit "[Triggered") (textContent h3)
   || includes (lit "[Warn") (textContent h3))
  && (if truthy h1Text then includes h1Text (textContent h3) else true).

(** The trimmed text of the first [h1] of the page, empty without one. *)
Definition h1TextOf (w : Page) : str :=
  match documentQuerySelector (byTag (lit "H1")) (root w) with
  | Some h1 => trim (textContent h1)
  | None => []
  end.

(** The value of the input of the date range picker, if the page has one. *)
Definition dateRangeValue (w : Page) : option str :=
  match documentQuerySelector
          (byClass (lit "druids_time_date-range-picker")) (root w) with
  | Some picker =>
      match querySelector (byTag (lit "INPUT")) picker with
      | Some input => valueOf input
      | None => None
      end
  | None => None
  end.

(** The suffix for the time range: the value in parentheses after a space,
    or nothing. *)
Definition timeRangeOf (w : Page) : str :=
  match dateRangeValue w with
  | Some (c :: v) => lit " (" ++ (c :: v) ++ lit ")"
  | _ => []
  end.

(** The [h3] elements of the page, in document order. *)
Definition h3sOf (w : Page) : list Node :=
  documentQuerySelectorAll (byTag (lit "H3")) (root w).

(** The marker of a qualifying [h3] text. *)
Definition alertTypeOf (fullText : str) : str :=
  if includes (lit "[Triggered") fullText then lit "Triggered" else lit "Warn".

(* ================================================================== *)
(** * Specification side: the generic title *)
(* ================================================================== *)

(** The title for a normalised [document.title]: "Place - Service" becomes
    "Place (Service)" for the first known service the title ends with. *)
Definition serviceTitle (documentTitle : str) : str :=
  match find (fun service => endsWith (lit " - " ++ service) documentTitle)
          serviceNames with
  | Some service =>
      firstn (length documentTitle - length (lit " - " ++ service))
        documentTitle
      ++ lit " (" ++ service ++ lit ")"
  | None => documentTitle
  end.

(* ================================================================== *)
(** * Specification side: moving the curly tags *)
(* ================================================================== *)

(** The title as the specification words it: every curly tag is taken out
    of its place, white space is collapsed and the ends trimmed; the tags
    follow in their order, after one space when the last tag stood at the
    end of the text. *)
Definition tagsTakenOut (title : str) : str :=
  trim (replaceAll ws_plus (lit " ")
          (replaceAll curlyTagPattern (lit " ") title)).

Definition claimedTitle (title : str) : str :=
  let curlyTags := matchAll curlyTagPattern title in
  tagsTakenOut title
  ++ (if endsWith (last curlyTags []) (trim title) then lit " " else [])
  ++ concat curlyTags.

(** A pattern that matches alike at every position of the scan. *)
Definition unanchored (pat : regex) : Prop :=
  forall i j s, matchAt pat i s = matchAt pat j s.

(** The shape of a curly tag: an opening brace, a body with a colon and
    without a closing brace, a closing brace. *)
Definition tagShaped (t : str) : Prop :=
  exists body, t = 123%N :: body ++ [125%N] /\
               ~ In 125%N body /\ In 58%N body.

(** A tag with no opening brace after its first unit. *)
Definition noInnerBrace (t : str) : Prop := ~ In 123%N (tl t).

(** Text in which every opening brace is closed before any colon: no tag
    starts in it, whatever follows it. *)
Definition quiet (g : str) : Prop :=
  forall a b, g = a ++ 123%N :: b ->
  exists u v, b = u ++ 125%N :: v /\ ~ In 125%N u /\ ~ In 58%N u.

(** The same for the end of a text: an opening brace may also stay open. *)
Definition quietEnd (g : str) : Prop :=
  forall a b, g = a ++ 123%N :: b ->
  ~ In 125%N b \/
  exists u v, b = u ++ 125%N :: v /\ ~ In 125%N u /\ ~ In 58%N u.

(** [title.replace(curlyTagPattern, ' ')]: every curly tag replaced by a
    space, and the removal of one tag as the loop does it. *)
Definition withoutTags (s : str) : str :=
  replaceAll curlyTagPattern (lit " ") s.

Definition removeTag (tag s : str) : str :=
  replaceAll (tagRemovalPattern tag) (lit " ") s.

(** The text of the selected [h3] without its leading marker: the title
    the tags are moved in. *)
Definition strippedText (fullText : str) : str :=
  replace (alertTypePattern (alertTypeOf fullText)) [] fullText.

(* ================================================================== *)
(** * Example pages *)
(* ================================================================== *)

Module Examples.

Local Open Scope string_scope.

Definition attrs (l : list (string * string)) : list (str * str) :=
  map (fun kv => (lit (fst kv), lit (snd kv))) l.

(** An element without a [value] property. *)
Definition el (id : nat) (tag : string) (a : list (string * string))
  (kids : list Node) : Node :=
  Element id (lit tag) (attrs a) None kids.

Definition txt (id : nat) (s : string) : Node := Text id (lit s).

Definition at_ (href protocol host hostname pathname search origin : string)
  : Location :=
  {| href := lit href; protocol := lit protocol; host := lit host;
     hostname := lit hostname; pathname := lit pathname;
     search := lit search; origin := lit origin |}.

(** ** The browser of the example pages *)

(** The text before the first [sep], and the text from it on. *)
Fixpoint upTo (sep : char) (s : str) : str :=
  match s with
  | [] => []
  | c :: t => if N.eqb c sep then [] else c :: upTo sep t
  end.

Fixpoint fromFirst (sep : char) (s : str) : str :=
  match s with
  | [] => []
  | c :: t => if N.eqb c sep then s else fromFirst sep t
  end.

(** [searchParams.set]: the first pair named [name] takes the value, the
    other pairs of that name go, and without such a pair one is added at
    the end. *)
Fixpoint setPair (name value : str) (found : bool) (pairs : list (str * str))
  : list (str * str) :=
  match pairs with
  | [] => if found then [] else [(name, value)]
  | (n, v) :: rest =>
      if Str.eqb n name then
        if found then setPair name value true rest
        else (n, value) :: setPair name value true rest
      else (n, v) :: setPair name value found rest
  end.

(** [url.searchParams.set(name, value); url.toString()] on [new URL(href)],
    for an address in its serialised form whose query, like [name] and
    [value], is made of units that the serialiser of the query writes
    unchanged (letters, digits, [*], [-], [.] and [_]): the query is split
    into its pairs, the pair is set, and the pairs are written back between
    the path and the fragment. *)
Definition setSearchParam (href name value : str) : str :=
  let beforeFragment := upTo 35%N href in
  let fragment := fromFirst 35%N href in
  let query := tl (fromFirst 63%N beforeFragment) in
  let pairs :=
    map (fun p => (upTo 61%N p, tl (fromFirst 61%N p)))
      (filter truthy (splitOn 38 query)) in
  (upTo 63%N beforeFragment ++ lit "?"
   ++ join (lit "&")
        (map (fun nv => fst nv ++ lit "=" ++ snd nv)
           (setPair name value false pairs))
   ++ fragment)%list.

(** The browser of the example pages.  Each function answers the calls the
    example pages make as a browser does:
    - [innerHTML] on elements that hold text only, without markup
      characters ([innerText] is reached by no example page);
    - the [query] parameter of [?query=cpu%20%3E%2090%25], which is
      ["cpu > 90%"], and [decodeURIComponent] on that string, which throws
      a [URIError] as its [%] starts no escape sequence;
    - [searchParams.set] on addresses and parameters that need no escaping;
    - the date of the time stamp [1753899619.438709], which is
      July 30, 2025, 2:20 PM in New York and is written as the test of the
      rule in [setupTests.ts] expects it, and the [RangeError] for a text
      that is not a number;
    - the elements named [svg], the only ones of the example pages that
      are not HTML elements, are SVG elements.
    The examples call them on nothing else. *)
Definition exampleBrowser : Browser := {|
  innerHTML := textContent;
  innerText := textContent;
  searchParam := fun search name =>
    if Str.eqb search (lit "?query=cpu%20%3E%2090%25")
       && Str.eqb name (lit "query")
    then Some (lit "cpu > 90%") else None;
  decodeURIComponent := fun s =>
    if Str.eqb s (lit "cpu > 90%") then Throw (lit "URIError: URI malformed")
    else Ok s;
  withSearchParam := setSearchParam;
  formatTimestamp := fun ts =>
    if Str.eqb ts (lit "1753899619.438709")
    then Ok (lit "Jul 30, 2025, 2:20 PM")
    else Throw (lit "RangeError: Invalid time value");
  isSVGElement := fun e => Str.eqb (tagOf e) (lit "svg")
|}.

(** A Datadog log search for [cpu > 90%], before any log line is opened:
    the page shows no "Log Message" panel. *)
Definition logSearchPage : Page := {|
  location :=
    at_ "https://app.datadoghq.com/logs?query=cpu%20%3E%2090%25" "https:"
      "app.datadoghq.com" "app.datadoghq.com" "/logs"
      "?query=cpu%20%3E%2090%25" "https://app.datadoghq.com";
  documentTitle := lit "Log Explorer | Datadog";
  root :=
    el 1 "HTML" []
      [ el 2 "HEAD" [] [];
        el 3 "BODY" []
          [ el 4 "DIV" [("class", "search")] [txt 5 "Search logs"] ] ];
  browser := exampleBrowser
|}.

(** The monitor page of the end-to-end scenario: one [h1], two alert
    [h3]s, a date range picker. *)
Definition monitorPage : Page := {|
  location :=
    at_ "https://app.datadoghq.com/monitors/33333" "https:"
      "app.datadoghq.com" "app.datadoghq.com" "/monitors/33333" ""
      "https://app.datadoghq.com";
  documentTitle := lit "Datadog Monitor Page";
  root :=
    el 1 "HTML" []
      [ el 2 "HEAD" [] [];
        el 3 "BODY" []
          [ el 4 "H1" [] [txt 5 "Disk Space Alert"];
            el 6 "SPAN" [] [txt 7 "Message"];
            el 8 "H3" []
              [txt 9 "[Triggered] {environment:production} Disk Space Alert"];
            el 10 "H3" []
              [txt 11 "[Triggered] {environment:staging} Disk Space Alert"];
            el 12 "DIV" [("class", "druids_time_date-range-picker")]
              [ Element 13 (lit "INPUT") []
                  (Some (lit "Jul 25, 2pm " ++ [8211%N] ++ lit " 3pm")%list) [] ] ] ];
  browser := exampleBrowser
|}.

(** A commit page on a host that is not GitHub. *)
Definition commitPage : Page := {|
  location :=
    at_ "https://git.example.org/team/app/commit/0a1b2c?diff=split#note-4"
      "https:" "git.example.org" "git.example.org"
      "/team/app/commit/0a1b2c" "?diff=split"
      "https://git.example.org";
  documentTitle :=
    (lit "Fix login redirect" ++ middleDot ++ lit "team/app@0a1b2c")%list;
  root :=
    el 1 "HTML" []
      [ el 2 "HEAD" [] [];
        el 3 "BODY" [] [ el 4 "P" [] [txt 5 "diff"] ] ];
  browser := exampleBrowser
|}.

(** An article marked up with schema.org microdata and no Open Graph tag;
    its headline spans two source lines. *)
Definition articlePage : Page := {|
  location :=
    at_ "https://news.example.org/a/1" "https:" "news.example.org"
      "news.example.org" "/a/1" "" "https://news.example.org";
  documentTitle := lit "Example News";
  root :=
    el 1 "HTML" []
      [ el 2 "HEAD" [] [];
        el 3 "BODY" []
          [ el 4 "ARTICLE"
              [("itemscope", ""); ("itemtype", "http://schema.org/Article")]
              [ el 5 "H1" [("itemprop", "headline")]
                  [Text 6 (lit "Harbour bridge" ++ [10%N] ++ lit "    reopens")%list] ] ] ];
  browser := exampleBrowser
|}.

(** A small document for the traversal: the start element [div] 4 has a
    child and a following sibling. *)
Definition traversalPage : Page := {|
  location :=
    at_ "https://example.org/" "https:" "example.org" "example.org" "/" ""
      "https://example.org";
  documentTitle := lit "Example";
  root :=
    el 1 "HTML" []
      [ el 2 "HEAD" [] [];
        el 3 "BODY" []
          [ el 4 "DIV" [] [ el 5 "SPAN" [] [txt 6 "inside"] ];
            el 7 "P" [] [txt 8 "after"] ] ];
  browser := exampleBrowser
|}.

Definition traversalStart : Node := el 4 "DIV" [] [ el 5 "SPAN" [] [txt 6 "inside"] ].

(** A place page with no Open Graph tag and no microdata. *)
Definition mapsPage : Page := {|
  location :=
    at_ "https://maps.example.org/place/eiffel" "https:" "maps.example.org"
      "maps.example.org" "/place/eiffel" "" "https://maps.example.org";
  documentTitle := lit "Eiffel  Tower - Google Maps";
  root :=
    el 1 "HTML" []
      [ el 2 "HEAD" [] [];
        el 3 "BODY" [] [ el 4 "DIV" [] [txt 5 "map"] ] ];
  browser := exampleBrowser
|}.

(** A monitor page whose alert text has an unclosed brace before a tag
    that also stands on its own earlier in the text. *)
Definition unclosedBracePage : Page := {|
  location :=
    at_ "https://app.datadoghq.com/monitors/7" "https:"
      "app.datadoghq.com" "app.datadoghq.com" "/monitors/7" ""
      "https://app.datadoghq.com";
  documentTitle := lit "Datadog Monitor Page";
  root :=
    el 1 "HTML" []
      [ el 2 "HEAD" [] [];
        el 3 "BODY" []
          [ el 4 "H3" []
              [txt 5 "[Triggered] {env:prod} failed on {cluster {env:prod}"] ] ];
  browser := exampleBrowser
|}.

End Examples.

(* ================================================================== *)
(** * Specification side: computations that leave the page alone *)
(* ================================================================== *)

(** A computation after which the page is the one it started from. *)
Definition leavesPage {A} (m : M A) : Prop := forall w, fst (m w) = w.

(* ================================================================== *)
(** * Specification side: the searches as list searches *)
(* ================================================================== *)

(** A condition that never throws. *)
Definition pureCondition (p : Node -> bool) (e : Node) : result bool :=
  Ok (p e).

(** The tag test of [document.body]. *)
Definition isBodyTag (k : Node) : bool :=
  Str.eqb (tagOf k) (lit "BODY") || Str.eqb (tagOf k) (lit "FRAMESET").

(* ================================================================== *)
(** * Specification side: the dispatch as a search *)
(* ================================================================== *)

(** A computation that returns on every page. *)
Definition neverThrows {A} (m : M A) : Prop :=
  forall w, exists a, snd (m w) = Ok a.

(** The first rule of [rs], in order, whose predicate holds on [w] and
    whose extractor returns, with the record it returns. *)
Fixpoint firstWinner (rs : list (str * Rule.t)) (w : Page)
  : option (str * DocInfo) :=
  match rs with
  | [] => None
  | (name, rule) :: rest =>
      match snd (Rule.isMatch rule w) with
      | Ok true =>
          match snd (Rule.getDocInfo rule w) with
          | Ok d => Some (name, d)
          | Throw _ => firstWinner rest w
          end
      | _ => firstWinner rest w
      end
  end.

(* ================================================================== *)
(** * Specification side: the log rule *)
(* ================================================================== *)

(** An element whose own text nodes read "Log Message". *)
Definition hasLogMessage (e : Node) : bool :=
  Re.test (chars (lit "Log Message")) (directText (childNodesOf e)).

Definition isCode (e : Node) : bool := Str.eqb (tagOf e) (lit "CODE").

(** The first element after the body, in document order, that has the
    "Log Message" text. *)
Definition logMessageElementOf (w : Page) (b : Node) : option Node :=
  find hasLogMessage (after (nodeId b) (elementsOf (root w))).

(** The first element after [start] on which [p] holds: in the body, or
    else in the document. *)
Definition nextElement (w : Page) (b start : Node) (p : Node -> bool)
  : option Node :=
  match find p (after (nodeId start) (elementsOf b)) with
  | Some e => Some e
  | None => find p (after (nodeId start) (elementsOf (root w)))
  end.

(** The first [code] element after that element. *)
Definition codeElementOf (w : Page) (b : Node) : option Node :=
  match logMessageElementOf w b with
  | Some e => nextElement w b e isCode
  | None => None
  end.

(* ================================================================== *)
(** * Specification side: the chat message rule *)
(* ================================================================== *)

(** An element whose own text starts with "Saved for later". *)
Definition startsSavedForLater (e : Node) : bool :=
  Re.test ([Bos] ++ chars (lit "Saved for later"))
    (directText (childNodesOf e)).

(** An element whose own text is "Also sent to the channel". *)
Definition isAlsoSent (e : Node) : bool :=
  Re.test ([Bos] ++ chars (lit "Also sent to the channel") ++ [Eos])
    (directText (childNodesOf e)).

Definition isMessageContent (e : Node) : bool :=
  Str.eqb (tagOf e) (lit "DIV")
  && (dataQaIs (lit "message_content") e || dataQaIs (lit "message-text") e).

(** The element the message is looked for after: the first "Saved for
    later" element after the body, or else the first "Also sent to the
    channel" element. *)
Definition referenceElementOf (w : Page) (b : Node) : option Node :=
  match find startsSavedForLater (after (nodeId b) (elementsOf (root w))) with
  | Some e => Some e
  | None => find isAlsoSent (after (nodeId b) (elementsOf (root w)))
  end.

Definition messageContentOf (w : Page) (b : Node) : option Node :=
  match referenceElementOf w b with
  | Some r => nextElement w b r isMessageContent
  | None => None
  end.

(** The text of the message in the message element. *)
Definition messageTextOf (w : Page) (messageContentDiv : Node) : str :=
  match querySelector
          (sel None None [] [Equals (lit "data-qa") (lit "message-text")])
          messageContentDiv with
  | Some messageTextDiv => trim (textContent messageTextDiv)
  | None =>
      if truthy (innerText (browser w) messageContentDiv)
      then innerText (browser w) messageContentDiv
      else textContent messageContentDiv
  end.

(* ================================================================== *)
(** * Specification side: class prefixes *)
(* ================================================================== *)

(** The characters of a class name written without escapes: letters,
    digits, [-] and [_]. *)
Definition isNameChar (c : char) : bool :=
  (N.leb 65 c && N.leb c 90) || (N.leb 97 c && N.leb c 122)
  || isDigit c || N.eqb c 45 || N.eqb c 95.

(** An element of the given type, one of whose space-separated class
    names starts with [prefix]. *)
Definition hasClassPrefix (prefix : str) (tagName : option str) (e : Node)
  : bool :=
  matches (sel tagName None [] []) e
  && existsb (startsWith prefix) (splitOn 32 (className e)).

(** An element of the given type that ends the search: an SVG element
    whose [class] attribute contains [prefix], or another element with a
    class name that starts with it. *)
Definition endsClassSearch (b : Browser) (prefix : str)
  (tagName : option str) (e : Node) : bool :=
  if classNameIsObject b e then
    matches (sel tagName None [] [Contains (lit "class") prefix]) e
  else hasClassPrefix prefix tagName e.

(* ================================================================== *)
(** * Specification side: the time stamp of a chat message *)
(* ================================================================== *)

(** The timestamp link of a message: the first link with a [data-ts]
    attribute, one of class [c-timestamp] for choice, below the message
    element or below the nearest of its ancestors that has one. *)
Definition timestampLinkOf (w : Page) (messageContentDiv : Node)
  : option Node :=
  match findInParentChainFrom (length (elementsOf (root w))) w
          (Some messageContentDiv)
          (sel (Some (lit "A")) None [lit "c-timestamp"]
             [Has (lit "data-ts")]) with
  | Some a => Some a
  | None =>
      findInParentChainFrom (length (elementsOf (root w))) w
        (Some messageContentDiv)
        (sel (Some (lit "A")) None [] [Has (lit "data-ts")])
  end.

(** The time stamp that the rule formats: the [data-ts] of that link, when
    it is not empty. *)
Definition timestampOf (w : Page) (messageContentDiv : Node) : option str :=
  match timestampLinkOf w messageContentDiv with
  | Some a =>
      match getAttribute (lit "data-ts") a with
      | Some (c :: s) => Some (c :: s)
      | _ => None
      end
  | None => None
  end.

(** The plain record of the chat rule. *)
Definition slackFallback (w : Page) : DocInfo :=
  linkAndTitle (href (location w)) (Some (documentTitle w ++ lit " (Slack)")).

(* ================================================================== *)
(** * More example pages *)
(* ================================================================== *)

Module Pages.

Import Examples.
Local Open Scope string_scope.

(** A page with a head and one paragraph, at the given address. *)
Definition plain (loc : Location) (title : str) (headKids bodyKids : list Node)
  : Page :=
  {| location := loc; documentTitle := title;
     root := el 1 "HTML" [] [ el 2 "HEAD" [] headKids; el 3 "BODY" [] bodyKids ];
     browser := exampleBrowser |}.

Definition meta (id : nat) (property content : string) : Node :=
  el id "META" [("property", property); ("content", content)] [].

(** A page of the AWS documentation. *)
Definition awsPage : Page :=
  plain (at_ "https://aws.amazon.com/s3/getting-started/" "https:"
           "aws.amazon.com" "aws.amazon.com" "/s3/getting-started/" ""
           "https://aws.amazon.com")
    (lit "Getting started - Amazon S3 - AWS") [] [ el 4 "P" [] [txt 5 "text"] ].

(** A video page whose Open Graph title names the channel. *)
Definition videoPage : Page :=
  plain (at_ "https://www.youtube.com/watch?v=abc" "https:"
           "www.youtube.com" "www.youtube.com" "/watch" "?v=abc"
           "https://www.youtube.com")
    (lit "Tide pools - YouTube")
    [ meta 4 "og:title" "Tide   pools - Shoreline Films" ]
    [ el 5 "P" [] [txt 6 "text"] ].

(** A book page with a subtitle in its Open Graph title. *)
Definition bookPage : Page :=
  plain (at_ "https://books.example.org/b/1" "https:" "books.example.org"
           "books.example.org" "/b/1" "" "https://books.example.org")
    (lit "Example Books")
    [ meta 4 "og:title" "Dune : Deluxe Edition"; meta 5 "og:type" "books.book" ]
    [ el 6 "P" [] [txt 7 "text"] ].

(** A document in an online editor; its title uses an en dash. *)
Definition docsPage : Page :=
  plain (at_ "https://docs.google.com/document/d/1/edit?tab=t.0#heading=h.1"
           "https:" "docs.google.com" "docs.google.com" "/document/d/1/edit"
           "?tab=t.0" "https://docs.google.com")
    (lit "Q3 plan - draft" ++ enDash ++ lit "Google Docs")%list
    [] [ el 4 "P" [] [txt 5 "text"] ].

(** A pipeline page of the deploy tool. *)
Definition deployPage : Page :=
  plain (at_ "https://deploysv2.figma.com/pipeline-chain/631490" "https:"
           "deploysv2.figma.com" "deploysv2.figma.com"
           "/pipeline-chain/631490" "" "https://deploysv2.figma.com")
    (lit "Deploys") [] [ el 4 "H4" [] [txt 5 "Release train"] ].

(** The targeting page of a feature flag. *)
Definition flagPage : Page :=
  plain (at_ "https://app.launchdarkly.com/projects/default/flags/new-checkout/targeting?env=production"
           "https:" "app.launchdarkly.com" "app.launchdarkly.com"
           "/projects/default/flags/new-checkout/targeting" "?env=production"
           "https://app.launchdarkly.com")
    (lit "new-checkout") [] [ el 4 "P" [] [txt 5 "text"] ].

(** A pull request in the review tool. *)
Definition graphitePage : Page :=
  plain (at_ "https://app.graphite.dev/github/pr/figma/figma/529307/add-types"
           "https:" "app.graphite.dev" "app.graphite.dev"
           "/github/pr/figma/figma/529307/add-types" ""
           "https://app.graphite.dev")
    (lit "#529307 Add types - Graphite") [] [ el 4 "P" [] [txt 5 "text"] ].

(** A pull request address that shows an error page. *)
Definition missingPullRequestPage : Page :=
  plain (at_ "https://github.com/figma/figma/pull/0" "https:" "github.com"
           "github.com" "/figma/figma/pull/0" "" "https://github.com")
    (lit "Page not found" ++ middleDot ++ lit "GitHub")%list
    [] [ el 4 "P" [] [txt 5 "text"] ].

(** A workspace page with three unread notifications. *)
Definition notionPage : Page :=
  plain (at_ "https://www.notion.so/Roadmap-1" "https:" "www.notion.so"
           "www.notion.so" "/Roadmap-1" "" "https://www.notion.so")
    (lit "(3) Roadmap") [] [ el 4 "P" [] [txt 5 "text"] ].

(** A task of a team's board. *)
Definition asanaPage : Page :=
  plain (at_ "https://app.asana.com/0/1/2" "https:" "app.asana.com"
           "app.asana.com" "/0/1/2" "" "https://app.asana.com")
    ([9679%N; 32%N] ++ lit "Platform - Fix login - Asana")%list
    [] [ el 4 "P" [] [txt 5 "text"] ].

(** A log search with one log line open in the side panel; the query of
    the address is one that [decodeURIComponent] rejects. *)
Definition openLogPage : Page :=
  plain (at_ "https://app.datadoghq.com/logs?query=cpu%20%3E%2090%25"
           "https:" "app.datadoghq.com" "app.datadoghq.com" "/logs"
           "?query=cpu%20%3E%2090%25" "https://app.datadoghq.com")
    (lit "Log Explorer | Datadog") []
    [ el 4 "CODE" [] [txt 5 "service:web"];
      el 6 "DIV" [] [ el 7 "SPAN" [] [txt 8 "Log Message"] ];
      el 9 "DIV" [] [ el 10 "CODE" [] [txt 11 "disk   full on  /dev/sda1"] ] ].

(** A pull request of the review tool with its diff; the first [div] has
    the prefix inside a class name, not at its start. *)
Definition codeDiffPage : Page :=
  plain (at_ "https://app.graphite.dev/github/pr/figma/figma/529307/add-types"
           "https:" "app.graphite.dev" "app.graphite.dev"
           "/github/pr/figma/figma/529307/add-types" ""
           "https://app.graphite.dev")
    (lit "#529307 Add types - Graphite") []
    [ el 4 "DIV" [("class", "panel NotCodeDiff_header")] [];
      el 5 "SPAN" [("class", "CodeDiff_label")] [];
      el 6 "DIV" [("class", "panel CodeDiff_root__x1")] [] ].

(** The same page with an icon before the diff: an [svg] element whose
    class name starts with the prefix. *)
Definition codeDiffIconPage : Page :=
  plain (at_ "https://app.graphite.dev/github/pr/figma/figma/529307/add-types"
           "https:" "app.graphite.dev" "app.graphite.dev"
           "/github/pr/figma/figma/529307/add-types" ""
           "https://app.graphite.dev")
    (lit "#529307 Add types - Graphite") []
    [ el 4 "svg" [("class", "CodeDiff_icon")] [];
      el 5 "DIV" [("class", "panel CodeDiff_root__x1")] [] ].

(** A saved message in the chat client. *)
Definition savedMessagePage : Page :=
  plain (at_ "https://app.slack.com/client/T1/later" "https:" "app.slack.com"
           "app.slack.com" "/client/T1/later" "" "https://app.slack.com")
    (lit "Later - Slack") []
    [ el 4 "SPAN" [] [txt 5 "Saved for later - Due in 2 days"];
      el 6 "DIV" [("data-qa", "message_content")]
        [ el 7 "SPAN" [("data-qa", "message_sender");
                       ("data-stringify-text", "Ann")] [txt 8 "Ann"];
          el 9 "DIV" [("data-qa", "message-text")] [txt 10 "  ship it "] ] ].

(** A saved message with its timestamp link and its channel, as in the
    repository's test of the rule. *)
Definition datedMessagePage : Page :=
  plain (at_ "https://figmadesign.slack.com/archives/C02LKJSAH12/p1753899619438709"
           "https:" "figmadesign.slack.com" "figmadesign.slack.com"
           "/archives/C02LKJSAH12/p1753899619438709" ""
           "https://figmadesign.slack.com")
    (lit "Slack | Figma Design") []
    [ el 4 "SPAN" [] [txt 5 "Saved for later - Due in 3 days"];
      el 6 "DIV" [("data-qa", "message_content")]
        [ el 7 "SPAN" [("data-qa", "message_sender");
                       ("data-stringify-text", "jaredw")] [];
          el 8 "DIV" [("data-qa", "message-text")]
            [txt 9 "Hey team, this is an important message."] ];
      el 10 "A" [("class", "c-timestamp"); ("data-ts", "1753899619.438709");
                 ("href", "/archives/C02LKJSAH12/p1753899619438709")] [];
      el 11 "DIV" [("data-channel-id", "C02LKJSAH12")]
        [txt 12 "Message general"] ].

(** The same message with a time stamp that is not a number. *)
Definition undatedMessagePage : Page :=
  plain (at_ "https://app.slack.com/client/T1/later" "https:" "app.slack.com"
           "app.slack.com" "/client/T1/later" "" "https://app.slack.com")
    (lit "Later - Slack") []
    [ el 4 "SPAN" [] [txt 5 "Saved for later"];
      el 6 "DIV" [("data-qa", "message_content")]
        [ el 7 "DIV" [("data-qa", "message-text")] [txt 8 "ship it"] ];
      el 9 "A" [("class", "c-timestamp"); ("data-ts", "abc");
                ("href", "/archives/C2/p1")] [] ].

(** A channel of the chat client with no saved message in view. *)
Definition channelPage : Page :=
  plain (at_ "https://app.slack.com/client/T1/C2" "https:" "app.slack.com"
           "app.slack.com" "/client/T1/C2" "" "https://app.slack.com")
    (lit "general - Slack") []
    [ el 4 "DIV" [("data-qa", "message_content")]
        [ el 5 "DIV" [("data-qa", "message-text")] [txt 6 "hello"] ] ].

(** A message list of the chat client: the only timestamp link stands
    before the message, outside the element that wraps it. *)
Definition messageListPage : Page :=
  plain (at_ "https://app.slack.com/client/T1/C2" "https:" "app.slack.com"
           "app.slack.com" "/client/T1/C2" "" "https://app.slack.com")
    (lit "general - Slack") []
    [ el 4 "DIV" [("class", "list")]
        [ el 5 "A" [("class", "c-timestamp"); ("data-ts", "1753899619.438709");
                    ("href", "https://example.slack.com/archives/C2/p1")] [];
          el 6 "DIV" [("class", "wrapper")]
            [ el 7 "DIV" [("data-qa", "message_content")]
                [txt 8 "hello"] ] ] ].

(** A commit whose message has a middle dot of its own. *)
Definition commitPage : Page :=
  plain (at_ "https://github.com/figma/figma/commit/b95da06#diff-1" "https:"
           "github.com" "github.com" "/figma/figma/commit/b95da06" ""
           "https://github.com")
    (lit "Fix parser" ++ middleDot ++ lit "round 2" ++ middleDot
     ++ lit "figma/figma@b95da06")%list
    [] [ el 4 "P" [] [txt 5 "text"] ].

End Pages.

(* ================================================================== *)
(** * The clipboard content *)
(* ================================================================== *)

(** The double quote of the HTML attribute values. *)
Definition quote : str := [34%N].

(** [copyToClipboard], the two strings it prepares: [clipboardText] and
    [clipboardHtml].  What the function then does with them (the calls of
    the clipboard interfaces of the browser) is not part of the model. *)
Definition clipboardContent (d : DocInfo) : str * str :=
  match html d, text d with
  | Some (h :: hs), Some (t :: ts) =>
      let html := h :: hs in
      let text := t :: ts in
      let clipboardText := text ++ lit " (" ++ link d ++ lit ")" in
      let slackLinkParts := [lit "View in Slack"] in
      let slackLinkParts :=
        match sender d with
        | Some (c :: s) => slackLinkParts ++ [c :: s]
        | _ => slackLinkParts
        end in
      let slackLinkParts :=
        match channelName d with
        | Some (c :: s) => slackLinkParts ++ [lit "#" ++ (c :: s)]
        | _ => slackLinkParts
        end in
      let slackLinkParts :=
        match dateString d with
        | Some (c :: s) => slackLinkParts ++ [c :: s]
        | _ => slackLinkParts
        end in
      let slackLinkText := join (lit " - ") slackLinkParts in
      (clipboardText,
       lit "<div>" ++ html ++ lit "</div><p><a href=" ++ quote ++ link d
       ++ quote ++ lit ">" ++ slackLinkText ++ lit "</a></p>")
  | _, _ =>
      let escapedTitle :=
        match title d with
        | Some (c :: s) =>
            replaceAll [Chr 93] (lit "\]")
              (replaceAll [Chr 91] (lit "\[") (c :: s))
        | _ => []
        end in
      (lit "[" ++ escapedTitle ++ lit "](" ++ link d ++ lit ")",
       lit "<a href=" ++ quote ++ link d ++ quote ++ lit ">"
       ++ orEmpty (title d) ++ lit "</a>")
  end.

(** ** Specification side *)

Definition isBracket (c : char) : bool := N.eqb c 91 || N.eqb c 93.

(** The text without the backslash that stands directly before a square
    bracket. *)
Fixpoint unescapeBrackets (s : str) : str :=
  match s with
  | [] => []
  | c :: t =>
      match t with
      | d :: _ =>
          if N.eqb c 92 && isBracket d then unescapeBrackets t
          else c :: unescapeBrackets t
      | [] => [c]
      end
  end.

(** Every square bracket of the text stands directly after a backslash;
    [escaped] tells whether the unit before the text is a backslash. *)
Fixpoint bracketsEscaped (escaped : bool) (s : str) : bool :=
  match s with
  | [] => true
  | c :: t =>
      (if isBracket c then escaped else true) && bracketsEscaped (N.eqb c 92) t
  end.

(** A backslash put before each square bracket. *)
Definition escapeBracket (c : char) : str :=
  if isBracket c then [92%N; c] else [c].

(* ================================================================== *)
(** * Specification side: the walk up the parent chain *)
(* ================================================================== *)

(** The first result that [f] gives on the members of [l], in order. *)
Fixpoint firstSome {A B : Type} (f : A -> option B) (l : list A) : option B :=
  match l with
  | [] => None
  | x :: l' =>
      match f x with
      | Some y => Some y
      | None => firstSome f l'
      end
  end.

(** The first match of the selector below the nearest member of [scopes]
    that has one. *)
Definition firstFound (sel : selector) (scopes : list Node) : option Node :=
  firstSome (querySelector sel) scopes.

(* ================================================================== *)
(** * The main script *)
(* ================================================================== *)

(** The main script up to the clipboard call: the record of [getDocInfo],
    then the strings [copyToClipboard] prepares from it. *)
Definition preparedContent : M (str * str) :=
  docInfo <- getDocInfo ;;
  ret (clipboardContent docInfo).

(** ** Specification side *)

(** The Markdown link and the HTML link of a title and an address. *)
Definition markdownLink (title link : str) : str * str :=
  (lit "[" ++ flat_map escapeBracket title ++ lit "](" ++ link ++ lit ")",
   lit "<a href=" ++ quote ++ link ++ quote ++ lit ">" ++ title
   ++ lit "</a>").
(* ================================================================== *)
(** * Lemmas on strings *)
(* ================================================================== *)

Lemma dropWhile_length f s : length (dropWhile f s) <= length s.
Proof.
  induction s as [|c t IH]; simpl; [lia|].
  destruct (f c); simpl; lia.
Qed.

Lemma dropWhile_suffix f s : exists w, s = w ++ dropWhile f s /\ forallb f w = true.
Proof.
  induction s as [|c t [w [Hw Hf]]]; simpl.
  - exists []. auto.
  - destruct (f c) eqn:E.
    + exists (c :: w). simpl. rewrite E, Hf. split; [congruence|reflexivity].
    + exists []. auto.
Qed.

Lemma dropWhile_head f s c t : dropWhile f s = c :: t -> f c = false.
Proof.
  induction s as [|x s IH]; simpl; [discriminate|].
  destruct (f x) eqn:E; auto.
  intros H. inversion H. subst. exact E.
Qed.

Lemma dropWhile_idem f s : dropWhile f (dropWhile f s) = dropWhile f s.
Proof.
  destruct (dropWhile f s) as [|c t] eqn:E; [reflexivity|].
  simpl. now rewrite (dropWhile_head _ _ _ _ E).
Qed.

Lemma trimEnd_prefix s : exists w, s = trimEnd s ++ w.
Proof.
  unfold trimEnd.
  destruct (dropWhile_suffix isWhiteSpace (rev s)) as [w [Hw _]].
  exists (rev w).
  rewrite <- rev_app_distr, <- Hw. now rewrite rev_involutive.
Qed.

Lemma trimEnd_idem s : trimEnd (trimEnd s) = trimEnd s.
Proof.
  unfold trimEnd. now rewrite rev_involutive, dropWhile_idem.
Qed.

Lemma trimStart_fixed s :
  match s with [] => True | c :: _ => isWhiteSpace c = false end ->
  trimStart s = s.
Proof.
  destruct s as [|c t]; [reflexivity|].
  intros H. unfold trimStart. simpl. now rewrite H.
Qed.

Lemma trim_idem s : trim (trim s) = trim s.
Proof.
  unfold trim.
  assert (H : trimStart (trimEnd (trimStart s)) = trimEnd (trimStart s)).
  { apply trimStart_fixed.
    destruct (trimEnd_prefix (trimStart s)) as [w Hw].
    destruct (trimEnd (trimStart s)) as [|c t] eqn:E; [exact I|].
    unfold trimStart in Hw. simpl in Hw.
    apply (dropWhile_head _ _ _ _ Hw). }
  rewrite H. apply trimEnd_idem.
Qed.

(* ================================================================== *)
(** * The [/\s+/g] replacement is the one-pass collapse *)
(* ================================================================== *)

Lemma greedy_all (f : char -> bool) (caps : list str) s i :
  greedy _ f (fun _ s' => Some (caps, s')) 0 i s = Some (caps, dropWhile f s).
Proof.
  revert i. induction s as [|c t IH]; intros i; simpl; [reflexivity|].
  destruct (f c); [|reflexivity].
  now rewrite IH.
Qed.

Lemma matchAt_ws_plus i s :
  matchAt ws_plus i s =
  match s with
  | c :: t => if isWhiteSpace c then Some ([], trimStart t) else None
  | [] => None
  end.
Proof.
  unfold matchAt, ws_plus, run. destruct s as [|c t]; simpl; [reflexivity|].
  destruct (isWhiteSpace c); [|reflexivity].
  change (rev []) with (@nil str). now rewrite greedy_all.
Qed.

Lemma leading_cons c t :
  leading (c :: t) = if isWhiteSpace c then S (leading t) else 0.
Proof.
  unfold leading, trimStart. cbn [dropWhile].
  pose proof (dropWhile_length isWhiteSpace t).
  destruct (isWhiteSpace c); cbn [length]; lia.
Qed.

Lemma replaceAllFrom_ws_plus s : forall i,
  replaceAllFrom ws_plus (lit " ") 0 i s = collapse false s /\
  replaceAllFrom ws_plus (lit " ") (leading s) i s = collapse true s.
Proof.
  induction s as [|c t IH]; intros i.
  - split; reflexivity.
  - assert (H0 : replaceAllFrom ws_plus (lit " ") 0 i (c :: t)
                 = collapse false (c :: t)).
    { cbn [replaceAllFrom]. rewrite matchAt_ws_plus.
      cbn [collapse]. destruct (isWhiteSpace c) eqn:E.
      - assert (L : length (c :: t) - length (trimStart t) = S (leading t)).
        { unfold leading, trimStart. cbn [length].
          pose proof (dropWhile_length isWhiteSpace t). lia. }
        rewrite L. simpl. f_equal. apply IH.
      - f_equal. apply IH. }
    split; [exact H0|].
    rewrite leading_cons. cbn [collapse].
    destruct (isWhiteSpace c) eqn:E.
    + cbn [replaceAllFrom]. apply IH.
    + rewrite H0. cbn [collapse]. now rewrite E.
Qed.

Lemma replaceAll_ws_plus s : replaceAll ws_plus (lit " ") s = collapse false s.
Proof. apply replaceAllFrom_ws_plus. Qed.

(* ================================================================== *)
(** * Whitespace normalisation reaches a fixed point *)
(* ================================================================== *)

Lemma collapse_length b s : length (collapse b s) <= length s.
Proof.
  revert b. induction s as [|c t IH]; intros b; simpl; [lia|].
  destruct (isWhiteSpace c).
  - destruct b; simpl; specialize (IH true); lia.
  - simpl. specialize (IH false). lia.
Qed.

Lemma collapse_app b a s :
  collapse b (a ++ s) = collapse b a ++ collapse (endState b a) s.
Proof.
  revert b. induction a as [|c t IH]; intros b; simpl; [reflexivity|].
  destruct (isWhiteSpace c).
  - destruct b; simpl; now rewrite IH.
  - simpl. now rewrite IH.
Qed.

Lemma collapse_idem s :
  collapse false (collapse false s) = collapse false s /\
  collapse true (collapse true s) = collapse true s.
Proof.
  induction s as [|c t [IH1 IH2]]; [split; reflexivity|].
  simpl. destruct (isWhiteSpace c) eqn:E.
  - split; [|exact IH2].
    simpl. now rewrite IH2.
  - simpl. rewrite E. now rewrite IH1.
Qed.

Lemma collapse_no_leading s :
  match s with [] => True | c :: _ => isWhiteSpace c = false end ->
  collapse true s = collapse false s.
Proof.
  destruct s as [|c t]; [reflexivity|].
  intros H. simpl. now rewrite H.
Qed.

Lemma app_eq_length (A : Type) (a a' b b' : list A) :
  length a = length a' -> a ++ b = a' ++ b' -> a = a' /\ b = b'.
Proof.
  revert a'. induction a as [|x a IH]; intros [|y a'] L H;
    simpl in L; try discriminate.
  - split; [reflexivity|exact H].
  - simpl in H. inversion H. subst.
    destruct (IH a') as [-> ->]; auto.
Qed.

Lemma collapse_fixed_split a s :
  collapse false (a ++ s) = a ++ s ->
  collapse false a = a /\ collapse (endState false a) s = s.
Proof.
  intros H. rewrite collapse_app in H.
  apply app_eq_length; [|exact H].
  pose proof (collapse_length false a).
  pose proof (collapse_length (endState false a) s).
  apply (f_equal (@length _)) in H. rewrite !length_app in H. lia.
Qed.

Lemma trimStart_no_leading s :
  match trimStart s with [] => True | c :: _ => isWhiteSpace c = false end.
Proof.
  destruct (trimStart s) as [|c t] eqn:E; [exact I|].
  apply (dropWhile_head _ _ _ _ E).
Qed.

Lemma collapse_trim_fixed s :
  collapse false s = s -> collapse false (trim s) = trim s.
Proof.
  intros H. unfold trim.
  destruct (dropWhile_suffix isWhiteSpace s) as [w [Hw _]].
  fold (trimStart s) in Hw.
  assert (H1 : collapse false (trimStart s) = trimStart s).
  { rewrite Hw in H. apply collapse_fixed_split in H. destruct H as [_ H].
    destruct (endState false w); [|exact H].
    rewrite <- (collapse_no_leading _ (trimStart_no_leading s)). exact H. }
  destruct (trimEnd_prefix (trimStart s)) as [v Hv].
  rewrite Hv in H1 at 1 2. now apply collapse_fixed_split in H1.
Qed.

(** Collapsing and trimming twice is collapsing and trimming once. *)
Lemma normalise_idem s :
  trim (collapse false (trim (collapse false s))) = trim (collapse false s).
Proof.
  rewrite collapse_trim_fixed by apply collapse_idem.
  apply trim_idem.
Qed.

(** ** Text without references *)

Lemma normalizeNewlines_both (P : str -> Prop) :
  P [] ->
  (forall c t, P t -> (forall d t', t = d :: t' -> P t') -> P (c :: t)) ->
  forall s, P s.
Proof.
  intros H0 HS s.
  assert (G : P s /\ (forall d t', s = d :: t' -> P t')).
  { induction s as [|c t [IH1 IH2]].
    - split; [exact H0|discriminate].
    - split; [now apply HS|].
      intros d t' E. injection E as -> ->. exact IH1. }
  exact (proj1 G).
Qed.

Lemma normalizeNewlines_plain s : ~ In 13%N s -> normalizeNewlines s = s.
Proof.
  induction s as [|c t IH]; intros H; [reflexivity|].
  cbn [normalizeNewlines]. destruct (N.eqb c 13) eqn:E.
  - apply N.eqb_eq in E. subst. exfalso. apply H. now left.
  - f_equal. apply IH. intros Hin. apply H. now right.
Qed.

(** What normalising the newlines leaves is in the text, or is the line
    feed put for a carriage return; no carriage return is left. *)
Lemma normalizeNewlines_In s : forall x,
  In x (normalizeNewlines s) -> x <> 13%N /\ (x = 10%N \/ In x s).
Proof.
  induction s as [|c t IH1 IH2] using normalizeNewlines_both; intros x;
    [intros []|].
  cbn [normalizeNewlines]. destruct (N.eqb c 13) eqn:E.
  - intros [<-|H]; [split; [discriminate|now left]|].
    destruct t as [|d t']; [destruct H|].
    destruct (N.eqb d 10).
    + destruct (IH2 d t' eq_refl x H) as [N13 [->|Hx]];
        (split; [exact N13|]); [now left|right; right; now right].
    + destruct (IH1 x H) as [N13 [->|Hx]];
        (split; [exact N13|]); [now left|right; now right].
  - intros [<-|H].
    + split; [intros ->; discriminate|right; now left].
    + destruct (IH1 x H) as [N13 [->|Hx]];
        (split; [exact N13|]); [now left|right; now right].
Qed.

Lemma decodeFrom_plain s :
  ~ In 38%N s -> ~ In 0%N s -> decodeFrom 0 s = s.
Proof.
  induction s as [|c t IH]; intros H H0; [reflexivity|].
  cbn [decodeFrom]. destruct (N.eqb c 38) eqn:E.
  - apply N.eqb_eq in E. subst. exfalso. apply H. now left.
  - destruct (N.eqb c 0) eqn:E0.
    + apply N.eqb_eq in E0. subst. exfalso. apply H0. now left.
    + f_equal. apply IH; intros Hin; [apply H|apply H0]; now right.
Qed.

(** A text without ampersand, U+0000 and carriage return is the value of
    the [textarea] it is put in. *)
Lemma textareaValue_plain s :
  ~ In 38%N s -> ~ In 0%N s -> ~ In 13%N s -> textareaValue s = s.
Proof.
  intros H H0 H13. unfold textareaValue.
  rewrite (normalizeNewlines_plain s H13), (decodeFrom_plain s H H0).
  now apply normalizeNewlines_plain.
Qed.

(** ** Decoding leaves no U+0000 *)

Lemma lookupReference_In table s name value :
  lookupReference table s = Some (name, value) -> In (name, value) table.
Proof.
  induction table as [|[n v] table IH]; [discriminate|].
  cbn [lookupReference]. destruct (startsWith n s).
  - intros E. injection E as -> ->. now left.
  - intros E. right. now apply IH.
Qed.

Lemma namedReferences_values :
  forallb (fun nv => forallb (fun u => negb (N.eqb u 0)) (snd nv))
    namedReferences = true.
Proof. vm_compute. reflexivity. Qed.

Lemma replacementOf_In table n v :
  replacementOf table n = Some v -> In (n, v) table.
Proof.
  induction table as [|[k x] table IH]; [discriminate|].
  cbn [replacementOf]. destruct (N.eqb k n) eqn:E.
  - apply N.eqb_eq in E. subst. intros F. injection F as ->. now left.
  - intros F. right. now apply IH.
Qed.

Lemma referenceCodePoint_not_zero n : referenceCodePoint n <> 0%N.
Proof.
  unfold referenceCodePoint. destruct (N.eqb n 0) eqn:E; [discriminate|].
  destruct (N.ltb 1114111 n); [discriminate|].
  destruct (N.leb 55296 n && N.leb n 57343); [discriminate|].
  destruct (replacementOf controlReplacements n) as [v|] eqn:R.
  - apply replacementOf_In in R.
    assert (F : forallb (fun kv => negb (N.eqb (snd kv) 0))
                  controlReplacements = true) by (vm_compute; reflexivity).
    rewrite forallb_forall in F. specialize (F _ R). cbn [snd] in F.
    intros ->. discriminate.
  - now apply N.eqb_neq.
Qed.

Lemma codeUnits_not_zero cp : cp <> 0%N -> ~ In 0%N (codeUnits cp).
Proof.
  intros H. unfold codeUnits. destruct (N.ltb cp 65536).
  - intros [E|[]]. now apply H.
  - intros [E|[E|[]]]; apply N.eq_add_0 in E; destruct E; discriminate.
Qed.

Lemma numericReference_not_zero t value n :
  numericReference t = Some (value, n) -> ~ In 0%N value.
Proof.
  unfold numericReference.
  destruct t as [|h t1]; [discriminate|].
  destruct (N.eqb h 35) eqn:Eh.
  2: { destruct h as [|p]; [discriminate|].
       repeat (destruct p as [p|p|]; try discriminate). }
  apply N.eqb_eq in Eh. subst h.
  destruct t1 as [|x t2]; [discriminate|].
  destruct (N.eqb x 120 || N.eqb x 88).
  - destruct (unitsWhile isHexDigit t2); [discriminate|].
    intros E. injection E as <- _.
    apply codeUnits_not_zero, referenceCodePoint_not_zero.
  - destruct (unitsWhile isDigit (x :: t2)); [discriminate|].
    intros E. injection E as <- _.
    apply codeUnits_not_zero, referenceCodePoint_not_zero.
Qed.

Lemma decodeFrom_not_zero s : forall skip, ~ In 0%N (decodeFrom skip s).
Proof.
  induction s as [|c t IH]; intros skip; [intros []|].
  cbn [decodeFrom]. destruct skip as [|n]; [|apply IH].
  destruct (N.eqb c 38) eqn:E.
  - destruct (numericReference t) as [[value n]|] eqn:R.
    + intros H. apply in_app_or in H. destruct H as [H|H].
      * exact (numericReference_not_zero _ _ _ R H).
      * exact (IH _ H).
    + destruct (lookupReference namedReferences t) as [[name value]|] eqn:L.
      * intros H. apply in_app_or in H. destruct H as [H|H]; [|exact (IH _ H)].
        apply lookupReference_In in L.
        pose proof namedReferences_values as F.
        rewrite forallb_forall in F. specialize (F _ L). cbn [snd] in F.
        rewrite forallb_forall in F. specialize (F _ H). discriminate.
      * intros [H|H]; [apply N.eqb_eq in E; subst; discriminate|exact (IH _ H)].
  - destruct (N.eqb c 0) eqn:E0.
    + intros [H|H]; [discriminate|exact (IH _ H)].
    + intros [H|H]; [subst; discriminate|exact (IH _ H)].
Qed.

(** The value of a [textarea] holds no U+0000 and no carriage return. *)
Lemma textareaValue_units s :
  ~ In 0%N (textareaValue s) /\ ~ In 13%N (textareaValue s).
Proof.
  unfold textareaValue. split; intros H; apply normalizeNewlines_In in H.
  - destruct H as [_ [H|H]]; [discriminate|].
    exact (decodeFrom_not_zero _ _ H).
  - now destruct H.
Qed.

(* ================================================================== *)
(** * C5: the text normaliser *)
(* ================================================================== *)

(** C5, as stated, fails: [cleanupContent] decodes character references on
    every call, so a doubly escaped ampersand loses one level of escaping on
    each pass.  On ["&amp;amp;"] the first pass gives ["&amp;"] and the
    second gives ["&"]. *)
Lemma cleanupContent_not_idempotent :
  cleanupContent (lit "&amp;amp;") = lit "&amp;" /\
  cleanupContent (cleanupContent (lit "&amp;amp;")) = lit "&" /\
  cleanupContent (cleanupContent (lit "&amp;amp;"))
    <> cleanupContent (lit "&amp;amp;").
Proof.
  repeat split; try (vm_compute; reflexivity).
  vm_compute. discriminate.
Qed.

(** The same holds for every kind of reference: an escaped numeric
    reference ["&amp;#38;"] gives ["&#38;"], which the next pass decodes to
    ["&"], and an escaped named reference ["&amp;eacute;"] gives
    ["&eacute;"], then the letter U+00E9.  Neither normalised text is its
    own [textarea] value. *)
Lemma cleanupContent_decodes_every_reference :
  cleanupContent (lit "&amp;#38;") = lit "&#38;" /\
  cleanupContent (lit "&#38;") = lit "&" /\
  cleanupContent (lit "&amp;eacute;") = lit "&eacute;" /\
  cleanupContent (lit "&eacute;") = [233%N] /\
  Str.eqb (textareaValue (lit "&#38;")) (lit "&#38;") = false /\
  Str.eqb (textareaValue (lit "&eacute;")) (lit "&eacute;") = false.
Proof. repeat split; vm_compute; reflexivity. Qed.

(** C5 (amended): whenever the normalised text holds no character reference,
    that is, decoding it again leaves it as it is, normalising it again
    changes nothing: [cleanupContent (cleanupContent s) = cleanupContent s].
    White space collapsing and trimming are idempotent on every string. *)
Theorem cleanupContent_idempotent (s : str) :
  textareaValue (cleanupContent s) = cleanupContent s ->
  cleanupContent (cleanupContent s) = cleanupContent s.
Proof.
  intros H. destruct s as [|c t]; [reflexivity|].
  remember (cleanupContent (c :: t)) as r eqn:Er.
  destruct r as [|c' t']; [reflexivity|].
  unfold cleanupContent at 1. rewrite H, Er.
  unfold cleanupContent. rewrite !replaceAll_ws_plus.
  apply normalise_idem.
Qed.

Lemma cleanupContent_idempotent_witness :
  cleanupContent (cleanupContent (lit "  Fish &amp; Chips   menu "))
  = cleanupContent (lit "  Fish &amp; Chips   menu ").
Proof.
  apply cleanupContent_idempotent.
  vm_compute. reflexivity.
Defined.


(* ================================================================== *)
(** * Induction on document trees *)
(* ================================================================== *)

Lemma Node_rect' (P : Node -> Prop) :
  (forall i d, P (Text i d)) ->
  (forall i t a v kids, Forall P kids -> P (Element i t a v kids)) ->
  forall n, P n.
Proof.
  intros HT HE. fix IH 1. intros [i d|i t a v kids].
  - apply HT.
  - apply HE. induction kids as [|k kids IHk]; constructor.
    + apply IH.
    + exact IHk.
Qed.

(** The nested loops of the tree functions, as list functions. *)
Lemma elementsOf_Element i t a v kids :
  elementsOf (Element i t a v kids)
  = Element i t a v kids :: flat_map elementsOf kids.
Proof.
  reflexivity.
Qed.

Lemma nodeIds_Element i t a v kids :
  nodeIds (Element i t a v kids) = i :: flat_map nodeIds kids.
Proof.
  reflexivity.
Qed.

(* ================================================================== *)
(** * The traversal is a scan of the pre-order list *)
(* ================================================================== *)

Section Traversal.
Variable startElement : Node.
Variable condition : Node -> result bool.

Local Abbreviation dfs := (dfsTraversal startElement condition).
Local Abbreviation sc := (scan startElement condition).

Lemma scan_app (a b : list Node) : forall found,
    sc found (a ++ b) =
    match sc found a with
    | (found', Ok None) => sc found' b
    | r => r
    end.
  Proof.
    induction a as [|e a IH]; intros found; simpl; [reflexivity|].
    destruct (negb found).
    - apply IH.
    - destruct (condition e) as [[|]|m]; auto.
  Qed.

Lemma dfsTraversal_scan (element : Node) : forall found,
    dfs found element = sc found (elementsOf element).
  Proof.
    induction element as [i d|i t a v kids IH] using Node_rect';
      intros found; [reflexivity|].
    rewrite elementsOf_Element.
    assert (L : forall f,
      (fix loop (found : bool) (l : list Node) {struct l}
         : bool * result (option Node) :=
         match l with
         | [] => (found, Ok None)
         | child :: l' =>
             if isElement child then
               match dfsTraversal startElement condition found child with
               | (found', Ok None) => loop found' l'
               | r => r
               end
             else loop found l'
         end) f kids = sc f (flat_map elementsOf kids)).
    { induction IH as [|k kids Hk _ IHkids]; intros f; [reflexivity|].
      cbn [flat_map]. rewrite scan_app.
      destruct k as [ki kd|ki kt ka kv kk].
      - cbn [isElement elementsOf]. simpl (sc f []). apply IHkids.
      - cbn [isElement]. rewrite (Hk f).
        destruct (sc f (elementsOf (Element ki kt ka kv kk))) as [f' [[r|]|m]];
          auto. }
    cbn [dfsTraversal scan].
    destruct (negb found).
    - apply L.
    - destruct (condition (Element i t a v kids)) as [[|]|m]; auto.
  Qed.

  (** Before the start element the scan tests nothing: its outcome is that
      of the scan, already started, of the elements after it. *)
Lemma scan_false (l : list Node) :
    snd (sc false l) = snd (sc true (after (nodeId startElement) l)).
  Proof.
    induction l as [|e l IH]; [reflexivity|].
    cbn [scan negb after].
    unfold same. destruct (nodeId e =? nodeId startElement).
    - reflexivity.
    - exact IH.
  Qed.

Lemma scan_true_result (l : list Node) e :
    snd (sc true l) = Ok (Some e) -> In e l /\ condition e = Ok true.
  Proof.
    induction l as [|x l IH]; [discriminate|].
    cbn [scan negb].
    destruct (condition x) as [[|]|m] eqn:E; simpl.
    - intros H. inversion H. subst. split; [now left|exact E].
    - intros H. destruct (IH H). split; [now right|assumption].
    - discriminate.
  Qed.
End Traversal.

Lemma scan_true_ext start c c' (l : list Node) :
  (forall e, In e l -> c' e = c e) ->
  snd (scan start c' true l) = snd (scan start c true l).
Proof.
  induction l as [|x l IH]; intros H; [reflexivity|].
  cbn [scan negb]. rewrite (H x) by now left.
  destruct (c x) as [[|]|m]; try reflexivity.
  apply IH. intros e He. apply H. now right.
Qed.

(** Elements after [start] in a duplicate-free list are not [start]. *)
Lemma after_In start (l : list Node) e :
  In e (after start l) -> In e l.
Proof.
  induction l as [|x l IH]; simpl; [tauto|].
  destruct (nodeId x =? start); auto.
Qed.

Lemma after_not_start start (l : list Node) e :
  NoDup (map nodeId l) -> In e (after start l) -> nodeId e <> start.
Proof.
  induction l as [|x l IH]; simpl; [tauto|].
  intros ND. inversion ND as [|? ? Hx ND']. subst.
  destruct (nodeId x =? start) eqn:E.
  - apply Nat.eqb_eq in E. subst. intros He Heq.
    apply Hx. rewrite <- Heq. now apply in_map.
  - now apply IH.
Qed.

Lemma after_app_in start (a b : list Node) :
  In start (map nodeId a) -> after start (a ++ b) = after start a ++ b.
Proof.
  induction a as [|x a IH]; simpl; [tauto|].
  destruct (nodeId x =? start) eqn:E; [reflexivity|].
  intros [H|H]; [apply Nat.eqb_neq in E; contradiction|auto].
Qed.

Lemma after_app_out start (a b : list Node) :
  ~ In start (map nodeId a) -> after start (a ++ b) = after start b.
Proof.
  induction a as [|x a IH]; simpl; [reflexivity|].
  intros H. destruct (nodeId x =? start) eqn:E.
  - apply Nat.eqb_eq in E. exfalso. apply H. now left.
  - apply IH. intros Hin. apply H. now right.
Qed.

Lemma after_none start (l : list Node) :
  ~ In start (map nodeId l) -> after start l = [].
Proof.
  intros H. rewrite <- (app_nil_r l) at 1. now rewrite after_app_out.
Qed.

Lemma NoDup_app_disjoint (A : Type) (a b : list A) x :
  NoDup (a ++ b) -> In x a -> In x b -> False.
Proof.
  induction a as [|y a IH]; simpl; [tauto|].
  intros ND [->|Ha] Hb; inversion ND as [|? ? Hy ND']; subst.
  - apply Hy. apply in_or_app. now right.
  - now apply IH.
Qed.

Lemma after_sub start (pre mid post : list Node) :
  NoDup (map nodeId (pre ++ mid ++ post)) ->
  incl (after start mid) (after start (pre ++ mid ++ post)).
Proof.
  intros ND e He.
  destruct (in_dec Nat.eq_dec start (map nodeId mid)) as [Hin|Hout].
  - rewrite after_app_out.
    + rewrite after_app_in by exact Hin. apply in_or_app. now left.
    + intros Hpre. rewrite !map_app in ND.
      apply (NoDup_app_disjoint _ _ _ start ND Hpre).
      apply in_or_app. now left.
  - rewrite (after_none _ _ Hout) in He. destruct He.
Qed.

Lemma body_split r b :
  body r = Some b ->
  exists pre post, elementsOf r = pre ++ elementsOf b ++ post.
Proof.
  unfold body, children. intros H. apply find_some in H. destruct H as [H _].
  apply filter_In in H. destruct H as [H _].
  destruct r as [i d|i t a v kids]; [destruct H|].
  simpl in H. apply in_split in H. destruct H as [k1 [k2 ->]].
  rewrite elementsOf_Element, flat_map_app. simpl.
  exists (Element i t a v (k1 ++ b :: k2) :: flat_map elementsOf k1).
  exists (flat_map elementsOf k2). reflexivity.
Qed.

(* ================================================================== *)
(** * C6: [findNextElementDFS] never returns the start element *)
(* ================================================================== *)

(** C6: in a document whose elements are distinct objects,
    [findNextElementDFS(start, condition)] never returns [start], whatever
    [condition(start)] is: an element it returns comes strictly after
    [start] in depth-first pre-order and satisfies [condition]; and the
    outcome depends on [condition] only through the elements strictly after
    [start]: a condition that differs (or throws) on [start] or before it
    gives the same outcome. *)
Theorem findNextElementDFS_never_start (w : Page) (startElement : Node)
  (condition : Node -> result bool) :
  NoDup (map nodeId (elementsOf (root w))) ->
  (forall e,
     snd (findNextElementDFS startElement condition w) = Ok (Some e) ->
     same e startElement = false /\
     In e (after (nodeId startElement) (elementsOf (root w))) /\
     condition e = Ok true) /\
  (forall condition',
     (forall e, In e (after (nodeId startElement) (elementsOf (root w))) ->
                condition' e = condition e) ->
     findNextElementDFS startElement condition' w
     = findNextElementDFS startElement condition w).
Proof.
  intros ND. unfold findNextElementDFS.
  destruct (body (root w)) as [b|] eqn:Hb.
  2:{ split; [discriminate|reflexivity]. }
  destruct (body_split _ _ Hb) as [pre [post Hsplit]].
  assert (Hsub : incl (after (nodeId startElement) (elementsOf b))
                      (after (nodeId startElement) (elementsOf (root w)))).
  { rewrite Hsplit. apply after_sub. now rewrite <- Hsplit. }
  assert (Hres : forall l e,
    incl l (after (nodeId startElement) (elementsOf (root w))) ->
    snd (scan startElement condition true l) = Ok (Some e) ->
    same e startElement = false /\
    In e (after (nodeId startElement) (elementsOf (root w))) /\
    condition e = Ok true).
  { intros l e Hl H. apply scan_true_result in H. destruct H as [Hin Hc].
    apply Hl in Hin. repeat split; auto.
    unfold same. apply Nat.eqb_neq. eapply after_not_start; eauto. }
  split.
  - intros e. rewrite !dfsTraversal_scan, !scan_false.
    destruct (snd (scan startElement condition true
                     (after (nodeId startElement) (elementsOf b))))
      as [[r|]|m] eqn:E1; simpl.
    + intros H. inversion H. subst. eapply Hres; eauto.
    + intros H. eapply Hres; [apply incl_refl|exact H].
    + discriminate.
  - intros c' Hc'. rewrite !dfsTraversal_scan, !scan_false.
    rewrite (scan_true_ext startElement condition c'
               (after (nodeId startElement) (elementsOf b)))
      by (intros e He; apply Hc'; now apply Hsub).
    rewrite (scan_true_ext startElement condition c'
               (after (nodeId startElement) (elementsOf (root w))))
      by exact Hc'.
    reflexivity.
Qed.

Lemma findNextElementDFS_never_start_witness :
  snd (findNextElementDFS Examples.traversalStart (fun _ => Ok true)
         Examples.traversalPage)
  = Ok (Some (Examples.el 5 "SPAN" [] [Examples.txt 6 "inside"])) /\
  same (Examples.el 5 "SPAN" [] [Examples.txt 6 "inside"])
       Examples.traversalStart = false.
Proof.
  assert (ND : NoDup (map nodeId (elementsOf (root Examples.traversalPage)))).
  { vm_compute. repeat constructor; simpl; intuition lia. }
  destruct (findNextElementDFS_never_start Examples.traversalPage
              Examples.traversalStart (fun _ => Ok true) ND) as [H _].
  assert (E : snd (findNextElementDFS Examples.traversalStart
                     (fun _ => Ok true) Examples.traversalPage)
              = Ok (Some (Examples.el 5 "SPAN" [] [Examples.txt 6 "inside"])))
    by (vm_compute; reflexivity).
  split; [exact E|]. apply (H _ E).
Defined.

(* ================================================================== *)
(** * Inserting a fresh node and removing it again *)
(* ================================================================== *)

Lemma nodeId_in_nodeIds n : In (nodeId n) (nodeIds n).
Proof. destruct n; simpl; now left. Qed.

Lemma child_id_in_nodeIds d (kids : list Node) :
  In d (map nodeId kids) -> In d (flat_map nodeIds kids).
Proof.
  intros H. apply in_map_iff in H. destruct H as [k [<- Hk]].
  apply in_flat_map. exists k. split; [exact Hk|apply nodeId_in_nodeIds].
Qed.

Lemma freshId_fresh n : ~ In (freshId n) (nodeIds n).
Proof.
  unfold freshId. intros H.
  assert (L : Forall (fun k => k <= list_max (nodeIds n)) (nodeIds n)).
  { apply list_max_le. lia. }
  rewrite Forall_forall in L. apply L in H. lia.
Qed.

Lemma nodeId_updateNode p f n : nodeId (updateNode p f n) = nodeId n.
Proof.
  destruct n as [i d|i t a v kids]; simpl; [reflexivity|].
  destruct (i =? p); reflexivity.
Qed.

Lemma updateNode_compose p f g n :
  updateNode p g (updateNode p f n) = updateNode p (fun k => g (f k)) n.
Proof.
  induction n as [i d|i t a v kids IH] using Node_rect'; [reflexivity|].
  simpl. destruct (i =? p) eqn:E; simpl; rewrite E; [reflexivity|].
  f_equal. rewrite map_map. apply map_ext_in.
  intros k Hk. rewrite Forall_forall in IH. now apply IH.
Qed.

Section FreshNode.
Variable d : nat.
Variable p : nat.
Variable f : list Node -> list Node.

Local Abbreviation hasChild :=
    (fun e : Node => existsb (fun k => nodeId k =? d) (childNodesOf e)).

Lemma existsb_child_id (kids : list Node) :
    existsb (fun k => nodeId k =? d) kids = true -> In d (map nodeId kids).
  Proof.
    intros H. apply existsb_exists in H. destruct H as [k [Hk E]].
    apply Nat.eqb_eq in E. subst. now apply in_map.
  Qed.

Lemma updateNode_fixed n :
    (forall kids, ~ In d (map nodeId kids) -> f kids = kids) ->
    ~ In d (nodeIds n) -> updateNode p f n = n.
  Proof.
    intros Hf.
    induction n as [i x|i t a v kids IH] using Node_rect'; [reflexivity|].
    rewrite nodeIds_Element. intros Hd. simpl.
    destruct (i =? p).
    - rewrite Hf; [reflexivity|].
      intros H. apply Hd. right. now apply child_id_in_nodeIds.
    - f_equal. rewrite <- (map_id kids) at 2. apply map_ext_in.
      intros k Hk. rewrite Forall_forall in IH. apply IH; [exact Hk|].
      intros H. apply Hd. right. apply in_flat_map. now exists k.
  Qed.

  (** No element of a tree without [d] has a child [d]. *)
Lemma no_child n :
    ~ In d (nodeIds n) ->
    forall e, In e (elementsOf n) -> hasChild e = false.
  Proof.
    induction n as [i x|i t a v kids IH] using Node_rect';
      [intros _ e []|].
    rewrite nodeIds_Element, elementsOf_Element. intros Hd e [<-|He].
    - simpl. destruct (existsb _ kids) eqn:E; [|reflexivity].
      exfalso. apply Hd. right.
      apply child_id_in_nodeIds. now apply existsb_child_id.
    - apply in_flat_map in He. destruct He as [k [Hk He]].
      rewrite Forall_forall in IH. apply (IH k Hk); [|exact He].
      intros H. apply Hd. right. apply in_flat_map. now exists k.
  Qed.

  (** After the update, an element with a child [d] is the updated one. *)
Lemma parent_of_fresh n :
    (forall kids k, In k (f kids) ->
                    (nodeId k = d /\ childNodesOf k = []) \/ In k kids) ->
    ~ In d (nodeIds n) ->
    forall e, In e (elementsOf (updateNode p f n)) ->
              hasChild e = true -> nodeId e = p.
  Proof.
    intros Hf.
    induction n as [i x|i t a v kids IH] using Node_rect';
      [intros _ e []|].
    rewrite nodeIds_Element. intros Hd e. simpl updateNode.
    destruct (i =? p) eqn:E; rewrite elementsOf_Element.
    - intros [<-|He] Hc; [simpl; now apply Nat.eqb_eq|].
      exfalso. apply in_flat_map in He. destruct He as [k [Hk He]].
      destruct (Hf _ _ Hk) as [[Hid Hleaf]|Hin].
      + destruct k as [ki kd|ki kt ka kv kk]; [destruct He|].
        simpl in Hleaf. subst kk. destruct He as [<-|[]]. discriminate.
      + assert (Hk' : ~ In d (nodeIds k)).
        { intros H. apply Hd. right. apply in_flat_map. now exists k. }
        rewrite (no_child _ Hk' _ He) in Hc. discriminate.
    - intros [<-|He] Hc.
      + exfalso. simpl in Hc. apply existsb_child_id in Hc.
        rewrite map_map in Hc.
        rewrite (map_ext _ nodeId (fun k => nodeId_updateNode p f k)) in Hc.
        apply Hd. right. now apply child_id_in_nodeIds.
      + apply in_flat_map in He. destruct He as [k' [Hk' He]].
        apply in_map_iff in Hk'. destruct Hk' as [k [<- Hk]].
        rewrite Forall_forall in IH. apply (IH k Hk); auto.
        intros H. apply Hd. right. apply in_flat_map. now exists k.
  Qed.

  (** If no element has a child [d] after the update, nothing was added. *)
Lemma no_parent_unchanged n :
    (forall kids, existsb (fun k => nodeId k =? d) (f kids) = false ->
                  f kids = kids) ->
    (forall e, In e (elementsOf (updateNode p f n)) -> hasChild e = false) ->
    updateNode p f n = n.
  Proof.
    intros Hf.
    induction n as [i x|i t a v kids IH] using Node_rect'; [reflexivity|].
    simpl updateNode. destruct (i =? p) eqn:E; rewrite elementsOf_Element;
      intros H.
    - f_equal. apply Hf. apply (H _ (or_introl eq_refl)).
    - f_equal. rewrite <- (map_id kids) at 2. apply map_ext_in.
      intros k Hk. rewrite Forall_forall in IH. apply (IH k Hk).
      intros e He. apply H. right. apply in_flat_map.
      exists (updateNode p f k). split; [now apply in_map|exact He].
  Qed.
End FreshNode.

Section Dummy.
Variable d : nat.
Variable tag : str.
Let dummy := Element d tag [] None [].

Lemma insertInto_members ref kids k :
    In k (insertInto dummy ref kids) ->
    (nodeId k = d /\ childNodesOf k = []) \/ In k kids.
  Proof.
    induction kids as [|x l IH]; simpl; [tauto|].
    destruct (nodeId x =? ref); simpl.
    - intros [<-|[<-|H]]; auto.
    - intros [<-|H]; auto. destruct (IH H); auto.
  Qed.

Lemma removeFrom_insertInto ref kids :
    ~ In d (map nodeId kids) -> removeFrom d (insertInto dummy ref kids) = kids.
  Proof.
    induction kids as [|x l IH]; simpl; [reflexivity|].
    intros H. destruct (nodeId x =? ref); simpl.
    - now rewrite Nat.eqb_refl.
    - destruct (nodeId x =? d) eqn:E.
      + apply Nat.eqb_eq in E. exfalso. apply H. now left.
      + f_equal. apply IH. intros Hin. apply H. now right.
  Qed.

Lemma insertInto_absent ref kids :
    existsb (fun k => nodeId k =? d) (insertInto dummy ref kids) = false ->
    insertInto dummy ref kids = kids.
  Proof.
    induction kids as [|x l IH]; simpl; [reflexivity|].
    destruct (nodeId x =? ref); simpl.
    - now rewrite Nat.eqb_refl.
    - intros H. apply orb_false_iff in H. destruct H as [_ H].
      f_equal. now apply IH.
  Qed.

Lemma append_members kids k :
    In k (kids ++ [dummy]) ->
    (nodeId k = d /\ childNodesOf k = []) \/ In k kids.
  Proof.
    intros H. apply in_app_or in H. destruct H as [H|[<-|[]]]; auto.
  Qed.

Lemma removeFrom_append kids :
    ~ In d (map nodeId kids) -> removeFrom d (kids ++ [dummy]) = kids.
  Proof.
    induction kids as [|x l IH]; simpl.
    - now rewrite Nat.eqb_refl.
    - intros H. destruct (nodeId x =? d) eqn:E.
      + apply Nat.eqb_eq in E. exfalso. apply H. now left.
      + f_equal. apply IH. intros Hin. apply H. now right.
  Qed.

Lemma append_absent kids :
    existsb (fun k => nodeId k =? d) (kids ++ [dummy]) = false ->
    kids ++ [dummy] = kids.
  Proof.
    rewrite existsb_app. simpl. rewrite Nat.eqb_refl.
    rewrite orb_true_r. discriminate.
  Qed.
End Dummy.

(** The cleanup of [findFirstInWholeDFS] undoes an insertion of the dummy
    under the element [p], whichever of the two insertions it was. *)
Lemma cleanup_restores (d p : nat) (f : list Node -> list Node) (r : Node) :
  ~ In d (nodeIds r) ->
  (forall kids k, In k (f kids) ->
                  (nodeId k = d /\ childNodesOf k = []) \/ In k kids) ->
  (forall kids, ~ In d (map nodeId kids) -> removeFrom d (f kids) = kids) ->
  (forall kids, existsb (fun k => nodeId k =? d) (f kids) = false ->
                f kids = kids) ->
  match parentNode d (updateNode p f r) with
  | Some parent => removeChild (nodeId parent) d (updateNode p f r)
  | None => updateNode p f r
  end = r.
Proof.
  intros Hd P1 P2 P3. unfold parentNode.
  destruct (find _ (elementsOf (updateNode p f r))) as [parent|] eqn:E.
  - apply find_some in E. destruct E as [Hin Hc].
    rewrite (parent_of_fresh d p f r P1 Hd parent Hin Hc).
    unfold removeChild. rewrite updateNode_compose.
    now apply (updateNode_fixed d).
  - apply (no_parent_unchanged d p f r P3).
    intros e He. apply (find_none _ _ E e He).
Qed.

(* ================================================================== *)
(** * C7: [findFirstInWholeDFS] leaves the document as it found it *)
(* ================================================================== *)

Lemma setRoot_root w : setRoot w (root w) = w.
Proof. destruct w; reflexivity. Qed.

Lemma bind_gets A B (f : Page -> A) (k : A -> M B) w :
  bind (gets f) k w = k (f w) w.
Proof. reflexivity. Qed.

Lemma bind_modifyRoot B (g : Node -> Node) (k : unit -> M B) w :
  bind (modifyRoot g) k w = k tt (setRoot w (g (root w))).
Proof. reflexivity. Qed.

Lemma tryFinally_fst A (m : M A) (f : Page -> Page) w :
  fst (tryFinally m f w) = f (fst (m w)).
Proof. unfold tryFinally. now destruct (m w). Qed.

Lemma bind_ret_fst A (m : M A) w :
  fst (bind m (fun r => ret r) w) = fst (m w).
Proof. unfold bind, ret. now destruct (m w) as [w' [a|e]]. Qed.

(** [findNextElementDFS] only reads the document. *)
Lemma findNextElementDFS_fst startElement condition w :
  fst (findNextElementDFS startElement condition w) = w.
Proof.
  unfold findNextElementDFS.
  destruct (body (root w)) as [b|]; [|reflexivity].
  now destruct (snd (dfsTraversal startElement condition false b))
    as [[r|]|m].
Qed.

Lemma cleanup_page (d p : nat) (f : list Node -> list Node) (w : Page) :
  ~ In d (nodeIds (root w)) ->
  (forall kids k, In k (f kids) ->
                  (nodeId k = d /\ childNodesOf k = []) \/ In k kids) ->
  (forall kids, ~ In d (map nodeId kids) -> removeFrom d (f kids) = kids) ->
  (forall kids, existsb (fun k => nodeId k =? d) (f kids) = false ->
                f kids = kids) ->
  (fun w1 : Page =>
     match parentNode d (root w1) with
     | Some parent => setRoot w1 (removeChild (nodeId parent) d (root w1))
     | None => w1
     end) (setRoot w (updateNode p f (root w))) = w.
Proof.
  intros Hd P1 P2 P3. cbn beta. cbn [root setRoot].
  pose proof (cleanup_restores d p f (root w) Hd P1 P2 P3) as C.
  destruct (parentNode d (updateNode p f (root w))) as [parent|].
  - unfold setRoot. cbn [root location documentTitle browser]. rewrite C.
    now destruct w.
  - rewrite C. now destruct w.
Qed.

(** C7: whatever the condition does (it finds a match, finds none, or
    throws) [findFirstInWholeDFS] hands back the document it was given: the
    dummy [div] it inserts as the first child of the body is removed again,
    so the tree is unchanged and no node with the dummy's identity is left
    in it. *)
Theorem findFirstInWholeDFS_restores (condition : Node -> result bool)
  (w : Page) :
  fst (findFirstInWholeDFS condition w) = w /\
  ~ In (freshId (root w))
       (nodeIds (root (fst (findFirstInWholeDFS condition w)))).
Proof.
  assert (H : fst (findFirstInWholeDFS condition w) = w).
  { unfold findFirstInWholeDFS. rewrite !bind_gets.
    destruct (body (root w)) as [b|] eqn:Hb; [|reflexivity].
    pose proof (freshId_fresh (root w)) as Hd.
    destruct (firstChild b) as [first|];
      rewrite bind_modifyRoot, tryFinally_fst, bind_ret_fst,
        findNextElementDFS_fst; cbn [nodeId].
    - apply cleanup_page; auto.
      + apply insertInto_members.
      + apply removeFrom_insertInto.
      + apply insertInto_absent.
    - apply (cleanup_page (freshId (root w)) (nodeId b)
               (fun kids => kids ++ [Element (freshId (root w)) (lit "DIV") [] None []]));
        auto.
      + apply append_members.
      + apply removeFrom_append.
      + apply append_absent. }
  split; [exact H|].
  rewrite H. apply freshId_fresh.
Qed.

(* ================================================================== *)
(** * The dispatcher *)
(* ================================================================== *)

Lemma tryRule_never_throws rule w :
  exists w' outcome, tryRule rule w = (w', Ok outcome).
Proof.
  unfold tryRule, tryCatch, bind, ret.
  destruct (Rule.isMatch rule w) as [w1 [[|]|e]]; eauto.
  destruct (Rule.getDocInfo rule w1) as [w2 [d|e]]; eauto.
Qed.

Lemma dispatch_cons name rule rest w :
  dispatch ((name, rule) :: rest) w =
  match tryRule rule w with
  | (w', Ok (Some res)) => (w', Ok res)
  | (w', Ok None) => dispatch rest w'
  | (w', Throw e) => (w', Throw e)
  end.
Proof.
  cbn [dispatch]. unfold bind.
  destruct (tryRule rule w) as [w' [[res|]|e]]; reflexivity.
Qed.


Lemma tryRule_match_throws rule w w1 :
  (exists e, Rule.isMatch rule w = (w1, Throw e)) ->
  tryRule rule w = (w1, Ok None).
Proof. intros [e H]. unfold tryRule, tryCatch, bind. now rewrite H. Qed.


Lemma tryRule_result rule w w' res :
  tryRule rule w = (w', Ok (Some res)) ->
  exists w1, Rule.isMatch rule w = (w1, Ok true) /\
             Rule.getDocInfo rule w1 = (w', Ok res).
Proof.
  unfold tryRule, tryCatch, bind, ret.
  destruct (Rule.isMatch rule w) as [w1 [[|]|e]]; try discriminate.
  destruct (Rule.getDocInfo rule w1) as [w2 [d|e]] eqn:E; try discriminate.
  intros H. inversion H. subst. eauto.
Qed.

(* ================================================================== *)
(** * C1: a throwing extractor does not end the dispatch *)
(* ================================================================== *)




(* ================================================================== *)
(** * C2: [getDocInfo] always returns a [DocInfo] *)
(* ================================================================== *)

Lemma dispatch_total (rs : list (str * Rule.t)) :
  forall w, exists w' d, dispatch rs w = (w', Ok d).
Proof.
  induction rs as [|[name rule] rest IH]; intros w.
  - eexists. eexists. reflexivity.
  - rewrite dispatch_cons.
    destruct (tryRule_never_throws rule w) as [w' [[res|] ->]]; eauto.
Qed.

Lemma dispatch_fallback (rs : list (str * Rule.t)) :
  (forall name rule w0, In (name, rule) rs -> snd (tryRule rule w0) = Ok None) ->
  forall w, exists w',
    dispatch rs w = (w', Ok (linkAndTitle (getUrl w') (Some (getTitle w')))).
Proof.
  induction rs as [|[name rule] rest IH]; intros H w.
  - exists w. reflexivity.
  - rewrite dispatch_cons.
    pose proof (H name rule w (or_introl eq_refl)) as E.
    destruct (tryRule rule w) as [w' r]. simpl in E. subst r.
    apply IH. intros n r0 w0 Hin. apply (H n r0 w0). now right.
Qed.


(* ================================================================== *)
(** * C9: who sets the optional fields *)
(* ================================================================== *)

Section ReturnsOnly.
Variable P : DocInfo -> Prop.

Lemma returnsOnly_ret d : P d -> returnsOnly P (ret d).
  Proof. intros H w w' d' E. inversion E. now subst. Qed.

Lemma returnsOnly_throw e : returnsOnly P (throw e).
  Proof. intros w w' d E. discriminate. Qed.

Lemma returnsOnly_bind A (m : M A) (k : A -> M DocInfo) :
    (forall a, returnsOnly P (k a)) -> returnsOnly P (bind m k).
  Proof.
    intros H w w' d. unfold bind.
    destruct (m w) as [w1 [a|e]]; [apply H|discriminate].
  Qed.

Lemma returnsOnly_tryCatch (m : M DocInfo) (h : str -> M DocInfo) :
    returnsOnly P m -> (forall e, returnsOnly P (h e)) ->
    returnsOnly P (tryCatch m h).
  Proof.
    intros Hm Hh w w' d. unfold tryCatch.
    destruct (m w) as [w1 [a|e]] eqn:E.
    - intros H. inversion H. subst. eapply Hm; eauto.
    - apply Hh.
  Qed.

Lemma returnsOnly_dispatch (rs : list (str * Rule.t)) :
    (forall name rule, In (name, rule) rs ->
                       returnsOnly P (Rule.getDocInfo rule)) ->
    returnsOnly P fallbackResult ->
    returnsOnly P (dispatch rs).
  Proof.
    intros Hrs Hf. induction rs as [|[name rule] rest IH]; [exact Hf|].
    intros w w' d. rewrite dispatch_cons.
    destruct (tryRule rule w) as [w1 [[res|]|e]] eqn:E.
    - intros H. inversion H. subst.
      apply tryRule_result in E. destruct E as [w0 [_ E]].
      eapply (Hrs name rule); [now left|exact E].
    - apply IH. intros n r Hin. apply (Hrs n r). now right.
    - discriminate.
  Qed.
End ReturnsOnly.

Lemma returnsOnly_weaken (P Q : DocInfo -> Prop) m :
  (forall d, P d -> Q d) -> returnsOnly P m -> returnsOnly Q m.
Proof. intros H Hm w w' d E. apply H. eapply Hm; eauto. Qed.

Lemma linkAndTitle_only l t : onlyLinkAndTitle (linkAndTitle l t).
Proof. repeat split. Qed.

(** Follow the structure of an extractor down to its [return]s. *)
Ltac returns :=
  repeat first
    [ apply returnsOnly_ret; first [ apply linkAndTitle_only
                                   | repeat eexists ]
    | apply returnsOnly_throw
    | apply returnsOnly_bind; intros
    | apply returnsOnly_tryCatch; [|intros]
    | match goal with
      | |- returnsOnly _ (match ?x with _ => _ end) => destruct x
      | |- returnsOnly _ (if ?x then _ else _) => destruct x
      end ].

Lemma slackMessage_rich : returnsOnly allFivePresent slackMessage.
Proof. unfold slackMessage. returns. Qed.

Lemma other_rules_plain name rule :
  In (name, rule) rules -> name <> lit "slack" ->
  returnsOnly onlyLinkAndTitle (Rule.getDocInfo rule).
Proof.
  intros Hin Hname. unfold rules in Hin. simpl in Hin.
  repeat (destruct Hin as [Hin|Hin];
          [inversion Hin; subst; clear Hin|]); try contradiction;
    try (now (exfalso; apply Hname)).
  - unfold graphiteFigma. cbn [Rule.getDocInfo]. returns.
  - unfold FigmaGithub. cbn [Rule.getDocInfo]. returns.
  - unfold figmaDeploys. cbn [Rule.getDocInfo]. returns.
  - unfold docsAndDesignTools. cbn [Rule.getDocInfo]. returns.
  - unfold dropboxPaper. cbn [Rule.getDocInfo]. returns.
  - unfold amazon. cbn [Rule.getDocInfo]. returns.
  - unfold awsDocs. cbn [Rule.getDocInfo]. returns.
  - unfold githubCommit. cbn [Rule.getDocInfo]. returns.
  - unfold datadogMonitor. cbn [Rule.getDocInfo]. returns.
  - unfold datadogNotebook. cbn [Rule.getDocInfo]. returns.
  - unfold datadogLogs. cbn [Rule.getDocInfo]. returns.
  - unfold datadogGeneral. cbn [Rule.getDocInfo]. returns.
  - unfold temporal. cbn [Rule.getDocInfo]. returns.
  - unfold notion. cbn [Rule.getDocInfo]. returns.
  - unfold asana. cbn [Rule.getDocInfo]. returns.
  - unfold greenhouse. cbn [Rule.getDocInfo]. returns.
  - unfold launchDarkly. cbn [Rule.getDocInfo]. returns.
  - unfold goodreads. cbn [Rule.getDocInfo]. returns.
Qed.

Lemma fallbackResult_plain : returnsOnly onlyLinkAndTitle fallbackResult.
Proof.
  intros w w' d E. unfold fallbackResult, gets in E. inversion E.
  apply linkAndTitle_only.
Qed.

Lemma slack_results :
  returnsOnly (fun d => onlyLinkAndTitle d \/ fromSlackMessage d)
    (Rule.getDocInfo slack).
Proof.
  unfold slack. cbn [Rule.getDocInfo]. intros w w' d. unfold tryCatch.
  destruct (slackMessage w) as [w1 [a|e]] eqn:E.
  - intros H. inversion H. subst. right. split.
    + eapply slackMessage_rich; eauto.
    + eauto.
  - unfold bind, gets, ret. intros H. inversion H. left.
    apply linkAndTitle_only.
Qed.

(** C9: in every [DocInfo] that [getDocInfo] returns, [html], [text],
    [sender], [dateString] and [channelName] are all absent or all present;
    a record in which they are present was returned by the [try] block of
    the [slack] rule's extractor; every other rule of the list, the generic
    fallback and the [catch] block of the [slack] rule return a record with
    [link] and [title] only. *)
Theorem optional_fields_all_or_none :
  returnsOnly (fun d => onlyLinkAndTitle d \/ fromSlackMessage d) getDocInfo /\
  (forall name rule, In (name, rule) rules -> name <> lit "slack" ->
                     returnsOnly onlyLinkAndTitle (Rule.getDocInfo rule)) /\
  returnsOnly onlyLinkAndTitle fallbackResult /\
  returnsOnly allFivePresent slackMessage /\
  (forall w w1 e, slackMessage w = (w1, Throw e) ->
                  exists d, snd (Rule.getDocInfo slack w) = Ok d /\
                            onlyLinkAndTitle d).
Proof.
  split; [|split; [exact other_rules_plain|split;
            [exact fallbackResult_plain|split; [exact slackMessage_rich|]]]].
  - unfold getDocInfo. apply returnsOnly_dispatch.
    + intros name rule Hin.
      destruct (list_eq_dec N.eq_dec name (lit "slack")) as [->|Hn].
      * assert (rule = slack) as ->.
        { unfold rules in Hin. simpl in Hin.
          repeat (destruct Hin as [Hin|Hin];
                  [inversion Hin; subst; clear Hin|]);
            try discriminate; try contradiction; reflexivity. }
        apply slack_results.
      * eapply returnsOnly_weaken; [|apply (other_rules_plain _ _ Hin Hn)].
        intros d Hd. now left.
    + eapply returnsOnly_weaken; [|apply fallbackResult_plain].
      intros d Hd. now left.
  - intros w w1 e H. unfold slack. cbn [Rule.getDocInfo].
    unfold tryCatch. rewrite H. eexists. split; [reflexivity|].
    apply linkAndTitle_only.
Qed.

(* ================================================================== *)
(** * C4: the alert source of the monitor rule *)
(* ================================================================== *)

Lemma selectAlert_find h1Text h3s :
  selectAlert h1Text h3s =
  match find (qualifies h1Text) h3s with
  | Some e => (Some e, alertTypeOf (textContent e))
  | None => (None, [])
  end.
Proof.
  induction h3s as [|e l IH]; [reflexivity|].
  cbn [selectAlert find]. unfold qualifies at 1, alertTypeOf.
  rewrite andb_comm.
  destruct (includes (lit "[Triggered") (textContent e)) eqn:E1;
    destruct (includes (lit "[Warn") (textContent e)) eqn:E2;
    destruct (if truthy h1Text then includes h1Text (textContent e) else true);
    cbn [orb andb]; rewrite ?E1, ?E2; auto.
Qed.

Lemma getDatadogTimeRange_value w :
  getDatadogTimeRange w = (w, Ok (timeRangeOf w)).
Proof.
  unfold getDatadogTimeRange, tryCatch, bind, gets, timeRangeOf,
    dateRangeValue, ret.
  destruct (documentQuerySelector _ (root w)) as [picker|]; [|reflexivity].
  destruct (querySelector _ picker) as [input|]; [|reflexivity].
  destruct (valueOf input) as [[|c v]|]; reflexivity.
Qed.

(** The monitor rule's extractor as a function of the page: the page is
    left as it is, the link is the page's address, and the title is built
    from the first qualifying [h3] alone. *)
Lemma datadogMonitor_result w :
  Rule.getDocInfo datadogMonitor w =
  (w, Ok (linkAndTitle (href (location w))
            (Some (match find (qualifies (h1TextOf w)) (h3sOf w) with
                   | Some e =>
                       alertTitle (alertTypeOf (textContent e)) (textContent e)
                   | None =>
                       if truthy (h1TextOf w) then h1TextOf w
                       else documentTitle w
                   end ++ timeRangeOf w)))).
Proof.
  unfold datadogMonitor. cbn [Rule.getDocInfo].
  unfold bind at 1. rewrite getDatadogTimeRange_value.
  unfold bind at 1.
  assert (H1 : tryCatch
                 (h1Element <- findElement (byTag (lit "H1")) ;;
                  ret (trim (textContent h1Element)))
                 (fun _ => ret []) w = (w, Ok (h1TextOf w))).
  { unfold findElement, tryCatch, bind, gets, h1TextOf, ret, throw.
    destruct (documentQuerySelector (byTag (lit "H1")) (root w));
      reflexivity. }
  rewrite H1. rewrite !bind_gets. fold (h3sOf w).
  rewrite selectAlert_find.
  destruct (find (qualifies (h1TextOf w)) (h3sOf w)) as [e|].
  - unfold alertTypeOf.
    destruct (includes (lit "[Triggered") (textContent e)); reflexivity.
  - destruct (truthy (h1TextOf w)); reflexivity.
Qed.

(** C4: the monitor rule selects the first [h3], in document order, whose
    text contains "[Triggered" or "[Warn" and, when the [h1] text is not
    empty, contains that text; no later [h3] has a part in the result.
    On a page whose [h1] reads "Disk Space Alert", whose [h3]s read
    "[Triggered] {environment:production} Disk Space Alert" and
    "[Triggered] {environment:staging} Disk Space Alert" and whose date
    range input holds "Jul 25, 2pm – 3pm", the title returned is
    "Disk Space Alert{environment:production} (Jul 25, 2pm – 3pm)". *)
Theorem datadogMonitor_first_qualifying_h3 (w : Page) :
  (forall h1Text h3s,
     fst (selectAlert h1Text h3s) = find (qualifies h1Text) h3s) /\
  (forall e,
     find (qualifies (h1TextOf w)) (h3sOf w) = Some e ->
     snd (Rule.getDocInfo datadogMonitor w)
     = Ok (linkAndTitle (href (location w))
             (Some (alertTitle (alertTypeOf (textContent e)) (textContent e)
                    ++ timeRangeOf w)))) /\
  (h1TextOf w = lit "Disk Space Alert" ->
   map textContent (h3sOf w)
   = [ lit "[Triggered] {environment:production} Disk Space Alert";
       lit "[Triggered] {environment:staging} Disk Space Alert" ] ->
   dateRangeValue w = Some (lit "Jul 25, 2pm " ++ [8211%N] ++ lit " 3pm") ->
   option_map title (match snd (Rule.getDocInfo datadogMonitor w) with
                     | Ok d => Some d
                     | Throw _ => None
                     end)
   = Some (Some (lit "Disk Space Alert{environment:production} (Jul 25, 2pm "
                 ++ [8211%N] ++ lit " 3pm)"))).
Proof.
  split; [|split].
  - intros h1Text h3s. rewrite selectAlert_find.
    now destruct (find (qualifies h1Text) h3s).
  - intros e He. rewrite datadogMonitor_result, He. reflexivity.
  - intros Hh1 Hh3 Hrange. rewrite datadogMonitor_result.
    unfold timeRangeOf. rewrite Hrange, Hh1.
    destruct (h3sOf w) as [|e1 [|e2 [|e3 l]]]; try discriminate.
    cbn [map] in Hh3. inversion Hh3 as [[Ht1 Ht2]].
    assert (Q : qualifies (lit "Disk Space Alert") e1 = true)
      by (unfold qualifies; rewrite Ht1; vm_compute; reflexivity).
    cbn [find]. rewrite Q, Ht1. vm_compute. reflexivity.
Qed.

Lemma datadogMonitor_first_qualifying_h3_witness :
  snd (getDocInfo Examples.monitorPage)
  = Ok (linkAndTitle (lit "https://app.datadoghq.com/monitors/33333")
          (Some (lit "Disk Space Alert{environment:production} (Jul 25, 2pm "
                 ++ [8211%N] ++ lit " 3pm)"))) /\
  option_map title
    (match snd (Rule.getDocInfo datadogMonitor Examples.monitorPage) with
     | Ok d => Some d
     | Throw _ => None
     end)
  = Some (Some (lit "Disk Space Alert{environment:production} (Jul 25, 2pm "
                ++ [8211%N] ++ lit " 3pm)")).
Proof.
  split; [vm_compute; reflexivity|].
  apply (proj2 (proj2 (datadogMonitor_first_qualifying_h3 Examples.monitorPage)));
    vm_compute; reflexivity.
Defined.

(* ================================================================== *)
(** * Lemmas on the matcher *)
(* ================================================================== *)

Lemma startsWith_app p r : startsWith p (p ++ r) = true.
Proof.
  induction p as [|x p IH]; [reflexivity|].
  simpl. now rewrite N.eqb_refl.
Qed.

Lemma startsWith_split p s :
  startsWith p s = true -> s = p ++ skipn (length p) s.
Proof.
  revert s. induction p as [|x p IH]; intros [|y s]; simpl;
    try reflexivity; try discriminate.
  intros H. apply andb_true_iff in H. destruct H as [E H].
  apply N.eqb_eq in E. subst. f_equal. now apply IH.
Qed.

Lemma includes_split p s :
  includes p s = true -> exists a r, s = a ++ p ++ r.
Proof.
  induction s as [|c t IH].
  - simpl. rewrite orb_false_r. intros H. exists [], (skipn (length p) []).
    now apply startsWith_split.
  - cbn [includes]. intros H. apply orb_true_iff in H. destruct H as [H|H].
    + exists [], (skipn (length p) (c :: t)). now apply startsWith_split.
    + destruct (IH H) as [a [r ->]]. now exists (c :: a), r.
Qed.

Lemma includes_app p a r : includes p (a ++ p ++ r) = true.
Proof.
  induction a as [|c a IH].
  - destruct (p ++ r) eqn:E; cbn [app includes];
      rewrite <- E, startsWith_app; reflexivity.
  - cbn [app includes]. rewrite IH. apply orb_true_r.
Qed.

(** A literal in a pattern consumes itself. *)
Lemma run_chars l p i s opens caps :
  run (chars l ++ p) i s opens caps =
  if startsWith l s
  then run p (i + length l) (skipn (length l) s) opens caps
  else None.
Proof.
  revert i s. induction l as [|c l IH]; intros i s.
  - simpl. now rewrite Nat.add_0_r.
  - cbn [chars map app run]. destruct s as [|x s]; [reflexivity|].
    cbn [startsWith skipn length]. rewrite (N.eqb_sym x c).
    destruct (N.eqb c x); [|reflexivity].
    fold (chars l). rewrite IH. cbn [andb].
    now replace (S i + length l) with (i + S (length l)) by lia.
Qed.

Section QuantifierLemmas.
Variable R : Type.
Variable f : char -> bool.
Variable k : nat -> str -> option R.

(** A successful quantifier stopped after a run of units of the class, and
    the rest of the pattern matched from there. *)
Lemma greedy_sound s : forall i r,
  greedy R f k 0 i s = Some r ->
  exists a b, s = a ++ b /\ forallb f a = true /\ k (i + length a) b = Some r.
Proof.
  induction s as [|c t IH]; intros i r; cbn [greedy Nat.eqb pred].
  - intros H. exists [], []. rewrite Nat.add_0_r. auto.
  - destruct (f c) eqn:E.
    + destruct (greedy R f k 0 (S i) t) as [r'|] eqn:G.
      * intros H. inversion H. subst.
        destruct (IH _ _ G) as [a [b [-> [Fa K]]]].
        exists (c :: a), b. cbn [forallb length app]. rewrite E, Fa.
        replace (i + S (length a)) with (S i + length a) by lia. auto.
      * intros H. exists [], (c :: t). rewrite Nat.add_0_r. auto.
    + intros H. exists [], (c :: t). rewrite Nat.add_0_r. auto.
Qed.

Lemma greedy_complete a b : forall i,
  forallb f a = true -> k (i + length a) b <> None ->
  greedy R f k 0 i (a ++ b) <> None.
Proof.
  induction a as [|c a IH]; intros i Fa K.
  - cbn [app length] in *. rewrite Nat.add_0_r in K.
    destruct b as [|x b]; cbn [greedy Nat.eqb]; [exact K|].
    destruct (f x); [|exact K].
    now destruct (greedy R f k (pred 0) (S i) b).
  - cbn [app greedy Nat.eqb pred]. cbn [forallb] in Fa.
    apply andb_true_iff in Fa. destruct Fa as [E Fa]. rewrite E.
    specialize (IH (S i) Fa).
    replace (S i + length a) with (i + length (c :: a)) in IH
      by (cbn [length]; lia).
    specialize (IH K).
    destruct (greedy R f k 0 (S i) (a ++ b)); [discriminate|contradiction].
Qed.

Lemma lazy_sound s : forall i r,
  lazy R f k 0 i s = Some r ->
  exists a b, s = a ++ b /\ forallb f a = true /\ k (i + length a) b = Some r.
Proof.
  induction s as [|c t IH]; intros i r; cbn [lazy Nat.eqb pred].
  - intros H. exists [], []. rewrite Nat.add_0_r. auto.
  - destruct (k i (c :: t)) as [r'|] eqn:K.
    + intros H. inversion H. subst. exists [], (c :: t).
      rewrite Nat.add_0_r. auto.
    + destruct (f c) eqn:E; [|discriminate].
      intros H. destruct (IH _ _ H) as [a [b [-> [Fa K']]]].
      exists (c :: a), b. cbn [forallb length app]. rewrite E, Fa.
      replace (i + S (length a)) with (S i + length a) by lia. auto.
Qed.

Lemma lazy_complete a b : forall i,
  forallb f a = true -> k (i + length a) b <> None ->
  lazy R f k 0 i (a ++ b) <> None.
Proof.
  induction a as [|c a IH]; intros i Fa K.
  - cbn [app length] in *. rewrite Nat.add_0_r in K.
    destruct b as [|x b]; cbn [lazy Nat.eqb]; [exact K|].
    now destruct (k i (x :: b)).
  - cbn [app lazy Nat.eqb pred]. cbn [forallb] in Fa.
    apply andb_true_iff in Fa. destruct Fa as [E Fa]. rewrite E.
    destruct (k i (c :: a ++ b)); [discriminate|].
    apply IH; [exact Fa|].
    now replace (S i + length a) with (i + length (c :: a))
      by (cbn [length]; lia).
Qed.
End QuantifierLemmas.

(** A pattern anchored at the start matches at position 0 or nowhere. *)
Lemma searchFrom_Bos p s : forall i, searchFrom (Bos :: p) (S i) s = None.
Proof.
  induction s as [|c t IH]; intros i; cbn [searchFrom matchAt run Nat.eqb];
    [reflexivity|apply IH].
Qed.

Lemma exec_Bos p s :
  exec (Bos :: p) s =
  match run p 0 s [] [] with
  | Some (caps, r) =>
      Some {| index := 0; matched := firstn (length s - length r) s;
              groups := caps; rest := r |}
  | None => None
  end.
Proof.
  unfold exec. destruct s as [|c t]; cbn [searchFrom matchAt run Nat.eqb].
  - now destruct (run p 0 [] [] []) as [[caps r]|].
  - destruct (run p 0 (c :: t) [] []) as [[caps r]|]; [reflexivity|].
    apply searchFrom_Bos.
Qed.

Lemma firstn_app_length (a b : str) :
  firstn (length (a ++ b) - length b) (a ++ b) = a.
Proof.
  rewrite length_app. replace (length a + length b - length b) with (length a)
    by lia.
  rewrite firstn_app, Nat.sub_diag, firstn_all. simpl. apply app_nil_r.
Qed.

(* ================================================================== *)
(** * The commit rule's title pattern *)
(* ================================================================== *)

(** The continuation of [( .* )] in [commitPattern]: close the group, then
    the literal [" · "]. *)
Lemma commit_tail s i s' :
  run (Close :: chars middleDot) i s' [s] [] =
  if startsWith middleDot s'
  then Some ([firstn (length s - length s') s], skipn 3 s')
  else None.
Proof.
  cbn [run]. rewrite <- (app_nil_r (chars middleDot)), run_chars.
  destruct (startsWith middleDot s'); reflexivity.
Qed.

Lemma exec_commitPattern s :
  exec commitPattern s =
  match greedy _ dot (fun i' s' => run (Close :: chars middleDot) i' s' [s] [])
          0 0 s with
  | Some (caps, r) =>
      Some {| index := 0; matched := firstn (length s - length r) s;
              groups := caps; rest := r |}
  | None => None
  end.
Proof. unfold commitPattern. cbn [app]. now rewrite exec_Bos. Qed.

Lemma commitPattern_sound s m :
  exec commitPattern s = Some m ->
  s = nth 0 (groups m) [] ++ middleDot ++ rest m.
Proof.
  rewrite exec_commitPattern.
  destruct (greedy _ dot _ 0 0 s) as [[caps r]|] eqn:G; [|discriminate].
  intros H. inversion H. subst m. cbn [groups rest].
  apply greedy_sound in G. destruct G as [a [b [-> [_ K]]]].
  rewrite commit_tail in K.
  destruct (startsWith middleDot b) eqn:E; [|discriminate].
  inversion K. subst. cbn [nth]. rewrite firstn_app_length.
  f_equal. now apply (startsWith_split middleDot).
Qed.

Lemma commitPattern_none s :
  includes middleDot s = false -> exec commitPattern s = None.
Proof.
  intros H. destruct (exec commitPattern s) as [m|] eqn:E; [|reflexivity].
  apply commitPattern_sound in E. rewrite E, includes_app in H.
  discriminate.
Qed.

Lemma forallb_app_l (A : Type) (f : A -> bool) a b :
  forallb f (a ++ b) = true -> forallb f a = true.
Proof. rewrite forallb_app. intros H. now apply andb_true_iff in H. Qed.


(* ================================================================== *)
(** * C10: the commit rule is host-agnostic *)
(* ================================================================== *)

(** The predicates of the rule list only read the page. *)
Lemma rules_isMatch_reads name rule :
  In (name, rule) rules -> forall w, fst (Rule.isMatch rule w) = w.
Proof.
  intros Hin w. unfold rules in Hin. simpl in Hin.
  repeat (destruct Hin as [Hin|Hin];
          [inversion Hin; subst; reflexivity|]).
  destruct Hin.
Qed.


Lemma githubCommit_result w :
  Rule.getDocInfo githubCommit w =
  (w, Ok (linkAndTitle (origin (location w) ++ pathname (location w))
            (Some (match exec commitPattern (documentTitle w) with
                   | Some m => nth 0 (groups m) []
                   | None => documentTitle w
                   end)))).
Proof.
  unfold githubCommit. cbn [Rule.getDocInfo]. rewrite bind_gets.
  now destruct (exec commitPattern (documentTitle w)).
Qed.



(* ================================================================== *)
(** * The service suffix patterns *)
(* ================================================================== *)

Lemma lineTerminator_is_space c :
  isLineTerminator c = true -> isWhiteSpace c = true /\ c <> 32%N.
Proof.
  unfold isLineTerminator. intros H.
  repeat (apply orb_true_iff in H; destruct H as [H|H]);
    apply N.eqb_eq in H; subst; split; (reflexivity || discriminate).
Qed.

Lemma collapse_spaces b s c :
  In c (collapse b s) -> isWhiteSpace c = true -> c = 32%N.
Proof.
  revert b. induction s as [|x s IH]; intros b; simpl; [tauto|].
  destruct (isWhiteSpace x) eqn:E.
  - destruct b; simpl; [apply IH|].
    intros [<-|H]; [reflexivity|eapply IH; eauto].
  - simpl. intros [<-|H] Hc; [congruence|eapply IH; eauto].
Qed.

Lemma trim_In s c : In c (trim s) -> In c s.
Proof.
  unfold trim. intros H.
  destruct (trimEnd_prefix (trimStart s)) as [v Hv].
  destruct (dropWhile_suffix isWhiteSpace s) as [u [Hu _]].
  rewrite Hu. apply in_or_app. right. fold (trimStart s). rewrite Hv.
  apply in_or_app. now left.
Qed.

(** Normalised text is on one line. *)
Lemma cleanupContent_one_line s : forallb dot (cleanupContent s) = true.
Proof.
  apply forallb_forall. intros c Hc. unfold dot.
  destruct (isLineTerminator c) eqn:E; [|reflexivity].
  exfalso. apply lineTerminator_is_space in E. destruct E as [W N32].
  destruct s as [|x s]; [destruct Hc|].
  unfold cleanupContent in Hc. rewrite replaceAll_ws_plus in Hc.
  apply trim_In in Hc. apply N32. eapply collapse_spaces; eauto.
Qed.

Lemma endsWith_app a p : endsWith p (a ++ p) = true.
Proof. unfold endsWith. rewrite rev_app_distr. apply startsWith_app. Qed.

Lemma endsWith_split p s :
  endsWith p s = true -> s = firstn (length s - length p) s ++ p.
Proof.
  unfold endsWith. intros H. apply startsWith_split in H.
  apply (f_equal (@rev N)) in H. rewrite rev_involutive, rev_app_distr in H.
  rewrite rev_involutive in H.
  remember (rev (skipn (length (rev p)) (rev s))) as pre eqn:E. clear E.
  subst s. now rewrite firstn_app_length.
Qed.

Lemma Str_eqb_refl z : Str.eqb z z = true.
Proof.
  induction z as [|y z IH]; simpl; [reflexivity|]. now rewrite N.eqb_refl.
Qed.

Lemma Str_eqb_eq y : forall z, Str.eqb y z = true -> y = z.
Proof.
  induction y as [|y0 y IH]; intros [|z0 z]; simpl; try discriminate;
    [reflexivity|].
  intros H. apply andb_true_iff in H. destruct H as [H1 H2].
  apply N.eqb_eq in H1. subst. f_equal. now apply IH.
Qed.

Lemma searchFrom_hit pat i s caps r :
  matchAt pat i s = Some (caps, r) ->
  searchFrom pat i s =
  Some {| index := i; matched := firstn (length s - length r) s;
          groups := caps; rest := r |}.
Proof. intros H. destruct s; cbn [searchFrom]; now rewrite H. Qed.

Section Service.
Variable service : str.

Local Abbreviation suffix := (lit " - " ++ service).

Lemma servicePattern_chars :
  servicePattern service = chars suffix ++ [Eos].
Proof. unfold servicePattern, chars. now rewrite map_app, <- app_assoc. Qed.

(** The suffix pattern matches exactly the suffix. *)
Lemma run_servicePattern i s opens caps :
  run (servicePattern service) i s opens caps =
  if Str.eqb s suffix then Some (rev caps, []) else None.
Proof.
  rewrite servicePattern_chars, run_chars.
  destruct (Str.eqb s suffix) eqn:Q.
  - apply Str_eqb_eq in Q. subst s.
    pose proof (startsWith_app suffix []) as H. rewrite app_nil_r in H.
    rewrite H. now rewrite skipn_all.
  - destruct (startsWith suffix s) eqn:E; [|reflexivity].
    pose proof (startsWith_split _ _ E) as S.
    destruct (skipn (length suffix) s) as [|x r] eqn:K; [|reflexivity].
    rewrite app_nil_r in S. subst s. now rewrite Str_eqb_refl in Q.
Qed.

Lemma place_tail (d : str) i s' :
  run (Close :: servicePattern service) i s' [d] [] =
  if Str.eqb s' suffix
  then Some ([firstn (length d - length s') d], [])
  else None.
Proof. cbn [run]. now rewrite run_servicePattern. Qed.

Lemma exec_placePattern (d : str) :
  exec ([Bos; Open; Rep dot 0 false; Close] ++ servicePattern service) d =
  match lazy _ dot (fun i' s' => run (Close :: servicePattern service) i' s' [d] [])
          0 0 d with
  | Some (caps, r) =>
      Some {| index := 0; matched := firstn (length d - length r) d;
              groups := caps; rest := r |}
  | None => None
  end.
Proof. cbn [app]. now rewrite exec_Bos. Qed.

(** On a one-line title that ends with the suffix, the place pattern
    captures what comes before the suffix. *)
Lemma exec_placePattern_some a :
  forallb dot (a ++ suffix) = true ->
  exists m,
    exec ([Bos; Open; Rep dot 0 false; Close] ++ servicePattern service)
      (a ++ suffix) = Some m /\ nth 0 (groups m) [] = a.
Proof.
  intros Hdot. rewrite exec_placePattern.
  pose proof (lazy_complete _ dot
                (fun i' s' =>
                   run (Close :: servicePattern service) i' s' [a ++ suffix] [])
                a suffix 0 (forallb_app_l _ _ _ _ Hdot)) as C.
  cbn beta in C. rewrite place_tail, Str_eqb_refl in C.
  specialize (C ltac:(discriminate)).
  destruct (lazy _ dot _ 0 0 (a ++ suffix)) as [[caps r]|] eqn:E;
    [|exfalso; apply C; exact E].
  eexists. split; [reflexivity|]. cbn [groups].
  apply lazy_sound in E. destruct E as [a' [b' [S [_ K]]]].
  rewrite place_tail in K.
  destruct (Str.eqb b' suffix) eqn:Q; [|discriminate].
  apply Str_eqb_eq in Q. subst b'. inversion K. subst.
  apply app_inv_tail in S. subst a'. cbn [nth].
  apply firstn_app_length.
Qed.

Lemma exec_placePattern_none d :
  endsWith suffix d = false ->
  exec ([Bos; Open; Rep dot 0 false; Close] ++ servicePattern service) d = None.
Proof.
  intros H. rewrite exec_placePattern.
  destruct (lazy _ dot _ 0 0 d) as [[caps r]|] eqn:E; [|reflexivity].
  exfalso. apply lazy_sound in E. destruct E as [a' [b' [S [_ K]]]].
  rewrite place_tail in K.
  destruct (Str.eqb b' suffix) eqn:Q; [|discriminate].
  apply Str_eqb_eq in Q. subst. rewrite endsWith_app in H. discriminate.
Qed.

(** The suffix pattern, searched in a title that ends with the suffix,
    matches the suffix. *)
Lemma searchFrom_servicePattern a : forall i,
  exists m, searchFrom (servicePattern service) i (a ++ suffix) = Some m /\
            matched m = suffix.
Proof.
  induction a as [|c a IH]; intros i.
  - cbn [app].
    assert (M : matchAt (servicePattern service) i suffix = Some ([], [])).
    { unfold matchAt. now rewrite run_servicePattern, Str_eqb_refl. }
    rewrite (searchFrom_hit _ _ _ _ _ M).
    eexists. split; [reflexivity|]. cbn [matched length].
    rewrite Nat.sub_0_r. apply firstn_all.
  - cbn [app searchFrom]. unfold matchAt at 1. rewrite run_servicePattern.
    destruct (Str.eqb (c :: a ++ suffix) suffix) eqn:Q; [|apply IH].
    apply Str_eqb_eq in Q. apply (f_equal (@length N)) in Q.
    cbn [length] in Q. rewrite length_app in Q. lia.
Qed.

Lemma serviceName_of_suffix :
  replace (chars (lit " - ")) [] suffix = service.
Proof. reflexivity. Qed.
End Service.

(** The loop over the service patterns computes [serviceTitle]. *)
Lemma servicePass_spec (d : str) (services : list str) :
  forallb dot d = true ->
  Forall (fun service => service <> []) services ->
  servicePass d services =
  match find (fun service => endsWith (lit " - " ++ service) d) services with
  | Some service =>
      firstn (length d - length (lit " - " ++ service)) d
      ++ lit " (" ++ service ++ lit ")"
  | None => d
  end.
Proof.
  intros Hdot Hne. induction Hne as [|service rest Hs _ IH]; [reflexivity|].
  cbn [servicePass find].
  destruct (endsWith (lit " - " ++ service) d) eqn:E.
  - pose proof (endsWith_split _ _ E) as S.
    remember (firstn (length d - length (lit " - " ++ service)) d) as a.
    clear Heqa. subst d.
    destruct (exec_placePattern_some service a Hdot) as [m [-> Hm]].
    destruct (searchFrom_servicePattern service a 0) as [m' [Hm' Hmatched]].
    unfold exec at 1. rewrite Hm', Hmatched, serviceName_of_suffix, Hm.
    destruct service; [contradiction|reflexivity].
  - now rewrite exec_placePattern_none.
Qed.

(* ================================================================== *)
(** * C8: the fallback order of the generic title *)
(* ================================================================== *)

(** C8, as stated, fails in its second step: a schema.org title is not
    returned as it is but normalised by [cleanupContent].  The headline of
    the example article spans two lines; the title returned has one. *)
Lemma getTitle_normalises_schema_title :
  getMetaContent (lit "og:title") Examples.articlePage = None /\
  getSchemaOrgTitle Examples.articlePage
  = Some (lit "Harbour bridge" ++ [10%N] ++ lit "    reopens") /\
  getSchemaOrgAuthor Examples.articlePage = None /\
  getTitle Examples.articlePage = lit "Harbour bridge reopens".
Proof. repeat split; vm_compute; reflexivity. Qed.

Lemma serviceNames_not_empty :
  Forall (fun service : str => service <> []) serviceNames.
Proof. repeat constructor; discriminate. Qed.

(** C8 (amended): [getTitle] follows a strict fallback order.
    - If the first [og:title] meta tag has a non-empty content, the result
      is derived from it: it is a function of that content, [og:type], the
      hostname and the schema.org author alone (the schema.org title and
      [document.title] are not consulted), and it is the normalised content
      itself off YouTube and off [books.book] pages.
    - Otherwise, if a schema.org title is found, the result is that title
      normalised by [cleanupContent], followed by the normalised schema.org
      author in parentheses when one is found.
    - Otherwise the result is the normalised [document.title], with "Place
      - Service" rewritten to "Place (Service)" when it ends with " - "
      and one of Google Maps, Google Search, Bing Maps, Apple Maps. *)
Theorem getTitle_fallback_order (w : Page) :
  (forall c s w',
     getMetaContent (lit "og:title") w = Some (c :: s) ->
     getMetaContent (lit "og:title") w' = Some (c :: s) ->
     getMetaContent (lit "og:type") w' = getMetaContent (lit "og:type") w ->
     hostname (location w') = hostname (location w) ->
     getSchemaOrgAuthor w' = getSchemaOrgAuthor w ->
     getTitle w' = getTitle w) /\
  (forall c s,
     getMetaContent (lit "og:title") w = Some (c :: s) ->
     getMetaContent (lit "og:type") w <> Some (lit "books.book") ->
     includes (lit "youtube.") (hostname (location w)) = false ->
     getTitle w = cleanupContent (c :: s)) /\
  (forall c s,
     orEmpty (getMetaContent (lit "og:title") w) = [] ->
     getSchemaOrgTitle w = Some (c :: s) ->
     getTitle w =
     cleanupContent (c :: s)
     ++ match getSchemaOrgAuthor w with
        | Some (a :: u) => lit " (" ++ cleanupContent (a :: u) ++ lit ")"
        | _ => []
        end) /\
  (orEmpty (getMetaContent (lit "og:title") w) = [] ->
   orEmpty (getSchemaOrgTitle w) = [] ->
   getTitle w = serviceTitle (cleanupContent (documentTitle w))).
Proof.
  split; [|split; [|split]].
  - intros c s w' H H' Ht Hh Ha. unfold getTitle.
    now rewrite H, H', Ht, Hh, Ha.
  - intros c s H Ht Hy. unfold getTitle. rewrite H.
    assert (Hy' : includes (lit "youtube.com") (hostname (location w)) = false).
    { destruct (includes (lit "youtube.com") (hostname (location w))) eqn:E;
        [|reflexivity].
      apply includes_split in E. destruct E as [a [r E]].
      rewrite E in Hy.
      change (lit "youtube.com") with (lit "youtube." ++ lit "com") in Hy.
      rewrite <- app_assoc, includes_app in Hy. discriminate. }
    rewrite Hy, Hy'. cbn [orb].
    destruct (getMetaContent (lit "og:type") w) as [ogType|]; [|reflexivity].
    destruct (Str.eqb ogType (lit "books.book")) eqn:E; [|reflexivity].
    apply Str_eqb_eq in E. subst. now contradiction Ht.
  - intros c s Hog Hs. unfold getTitle.
    destruct (getMetaContent (lit "og:title") w) as [[|x og]|];
      try discriminate; rewrite Hs;
      destruct (getSchemaOrgAuthor w) as [[|a u]|];
      rewrite ?app_nil_r; reflexivity.
  - intros Hog Hs. unfold getTitle, serviceTitle.
    assert (E : servicePass (cleanupContent (documentTitle w)) serviceNames
                = serviceTitle (cleanupContent (documentTitle w))).
    { apply servicePass_spec;
        [apply cleanupContent_one_line|apply serviceNames_not_empty]. }
    unfold serviceTitle in E.
    destruct (getMetaContent (lit "og:title") w) as [[|x og]|];
      try discriminate;
      destruct (getSchemaOrgTitle w) as [[|y st]|]; try discriminate;
      exact E.
Qed.

Lemma getTitle_fallback_order_witness :
  getTitle Examples.articlePage = lit "Harbour bridge reopens" /\
  getTitle Examples.mapsPage = lit "Eiffel Tower (Google Maps)".
Proof.
  split.
  - rewrite (proj1 (proj2 (proj2 (getTitle_fallback_order Examples.articlePage)))
               72%N (lit "arbour bridge" ++ [10%N] ++ lit "    reopens"));
      vm_compute; reflexivity.
  - rewrite (proj2 (proj2 (proj2 (getTitle_fallback_order Examples.mapsPage))));
      vm_compute; reflexivity.
Defined.

(* ================================================================== *)
(** * C3: moving the curly tags to the end *)
(* ================================================================== *)

(** C3 at a title with an unclosed brace.  In
    "{env:prod} failed on {cluster {env:prod}" the pattern finds the tags
    "{env:prod}" and "{cluster {env:prod}".  The removal loop deletes the
    text of the first tag wherever it occurs, also inside the second tag,
    which is then no longer found: "{cluster" stays in the cleaned text
    although the whole second tag is appended.  The specification's title
    has both tags taken out of the text. *)
Lemma moveCurlyTags_unclosed_brace :
  matchAll curlyTagPattern (lit "{env:prod} failed on {cluster {env:prod}")
  = [lit "{env:prod}"; lit "{cluster {env:prod}"] /\
  moveCurlyTags (lit "{env:prod} failed on {cluster {env:prod}")
  = lit "failed on {cluster {env:prod}{cluster {env:prod}" /\
  claimedTitle (lit "{env:prod} failed on {cluster {env:prod}")
  = lit "failed on {env:prod}{cluster {env:prod}" /\
  snd (getDocInfo Examples.unclosedBracePage)
  = Ok (linkAndTitle (lit "https://app.datadoghq.com/monitors/7")
          (Some (lit "failed on {cluster {env:prod}{cluster {env:prod}"))).
Proof. repeat split; vm_compute; reflexivity. Qed.

(* ================================================================== *)
(** * Scanning with a global pattern *)
(* ================================================================== *)

Section Scan.
Variable pat : regex.
Variable rep : str.
Hypothesis pat_unanchored : unanchored pat.

Lemma replaceAllFrom_index s : forall n i,
  replaceAllFrom pat rep n i s = replaceAllFrom pat rep n 0 s.
Proof.
  induction s as [|c t IH]; intros n i.
  - destruct n; cbn [replaceAllFrom]; [|reflexivity].
    now rewrite (pat_unanchored i 0).
  - destruct n as [|n]; cbn [replaceAllFrom].
    + rewrite (pat_unanchored i 0).
      destruct (matchAt pat 0 (c :: t)) as [[caps r]|].
      * destruct (length (c :: t) - length r);
          now rewrite (IH _ (S i)), (IH _ 1).
      * now rewrite (IH _ (S i)), (IH _ 1).
    + now rewrite (IH _ (S i)), (IH _ 1).
Qed.

Lemma replaceAllFrom_skip n : forall s,
  n <= length s ->
  replaceAllFrom pat rep n 0 s = replaceAll pat rep (skipn n s).
Proof.
  induction n as [|n IH]; intros s L; [reflexivity|].
  destruct s as [|c t]; [cbn [length] in L; lia|].
  cbn [replaceAllFrom skipn]. rewrite replaceAllFrom_index.
  apply IH. cbn [length] in L. lia.
Qed.

(** No match here: the unit is copied. *)
Lemma replaceAll_miss c t :
  matchAt pat 0 (c :: t) = None ->
  replaceAll pat rep (c :: t) = c :: replaceAll pat rep t.
Proof.
  intros H. unfold replaceAll. cbn [replaceAllFrom]. rewrite H.
  now rewrite replaceAllFrom_index.
Qed.

(** A match of [m] here: it is replaced, and the scan goes on after it. *)
Lemma replaceAll_hit m r caps :
  matchAt pat 0 (m ++ r) = Some (caps, r) -> m <> [] ->
  replaceAll pat rep (m ++ r) = rep ++ replaceAll pat rep r.
Proof.
  intros H Hm. destruct m as [|c m]; [contradiction|].
  unfold replaceAll at 1. cbn [app replaceAllFrom]. cbn [app] in H.
  rewrite H. cbn [length]. rewrite length_app.
  replace (S (length m + length r) - length r) with (S (length m)) by lia.
  rewrite replaceAllFrom_index, replaceAllFrom_skip
    by (rewrite length_app; lia).
  now rewrite skipn_app, Nat.sub_diag, skipn_all.
Qed.

(** No match at any unit of [h]: [h] is copied. *)
Lemma replaceAll_prefix h y :
  (forall a c b, h = a ++ c :: b -> matchAt pat 0 (c :: b ++ y) = None) ->
  replaceAll pat rep (h ++ y) = h ++ replaceAll pat rep y.
Proof.
  induction h as [|c h IH]; intros H; [reflexivity|].
  cbn [app]. rewrite replaceAll_miss by (apply (H [] c h); reflexivity).
  f_equal. apply IH. intros a x b E. apply (H (c :: a) x b).
  now rewrite E.
Qed.

Lemma matchAllFrom_index s : forall n i,
  matchAllFrom pat n i s = matchAllFrom pat n 0 s.
Proof.
  induction s as [|c t IH]; intros n i.
  - destruct n; cbn [matchAllFrom]; [|reflexivity].
    now rewrite (pat_unanchored i 0).
  - destruct n as [|n]; cbn [matchAllFrom].
    + rewrite (pat_unanchored i 0).
      destruct (matchAt pat 0 (c :: t)) as [[caps r]|];
        now rewrite (IH _ (S i)), (IH _ 1).
    + now rewrite (IH _ (S i)), (IH _ 1).
Qed.

Lemma matchAllFrom_skip n : forall s,
  n <= length s ->
  matchAllFrom pat n 0 s = matchAll pat (skipn n s).
Proof.
  induction n as [|n IH]; intros s L; [reflexivity|].
  destruct s as [|c t]; [cbn [length] in L; lia|].
  cbn [matchAllFrom skipn]. rewrite matchAllFrom_index.
  apply IH. cbn [length] in L. lia.
Qed.

Lemma matchAll_miss c t :
  matchAt pat 0 (c :: t) = None ->
  matchAll pat (c :: t) = matchAll pat t.
Proof.
  intros H. unfold matchAll. cbn [matchAllFrom]. rewrite H.
  now rewrite matchAllFrom_index.
Qed.

Lemma matchAll_hit m r caps :
  matchAt pat 0 (m ++ r) = Some (caps, r) -> m <> [] ->
  matchAll pat (m ++ r) = m :: matchAll pat r.
Proof.
  intros H Hm. destruct m as [|c m]; [contradiction|].
  unfold matchAll at 1. cbn [app matchAllFrom]. cbn [app] in H.
  rewrite H. cbn [length]. rewrite length_app.
  replace (S (length m + length r) - length r) with (S (length m)) by lia.
  cbn [pred firstn]. f_equal.
  - f_equal. rewrite firstn_app, Nat.sub_diag, firstn_all. simpl.
    apply app_nil_r.
  - rewrite matchAllFrom_index, matchAllFrom_skip
      by (rewrite length_app; lia).
    now rewrite skipn_app, Nat.sub_diag, skipn_all.
Qed.

Lemma matchAll_prefix h y :
  (forall a c b, h = a ++ c :: b -> matchAt pat 0 (c :: b ++ y) = None) ->
  matchAll pat (h ++ y) = matchAll pat y.
Proof.
  induction h as [|c h IH]; intros H; [reflexivity|].
  cbn [app]. rewrite matchAll_miss by (apply (H [] c h); reflexivity).
  apply IH. intros a x b E. apply (H (c :: a) x b). now rewrite E.
Qed.
End Scan.

(* ================================================================== *)
(** * The curly tag pattern and the removal pattern *)
(* ================================================================== *)

Lemma forallb_notChr x (a : str) :
  forallb (notChr x) a = true <-> ~ In x a.
Proof.
  induction a as [|c a IH]; simpl; [tauto|].
  unfold notChr at 1. rewrite andb_true_iff, IH, negb_true_iff, N.eqb_neq.
  intuition congruence.
Qed.

(** The first occurrence of a unit splits a string in one way only. *)
Lemma first_split_unique x (u u' v v' : str) :
  u ++ x :: v = u' ++ x :: v' -> ~ In x u -> ~ In x u' -> u = u' /\ v = v'.
Proof.
  revert u'. induction u as [|c u IH]; intros [|c' u'] E Hu Hu';
    cbn [app] in E; inversion E; subst.
  - auto.
  - exfalso. apply Hu'. now left.
  - exfalso. apply Hu. now left.
  - destruct (IH u') as [-> ->]; auto; intros H; [apply Hu|apply Hu'];
      now right.
Qed.

Lemma first_split x (b : str) :
  In x b -> exists u v, b = u ++ x :: v /\ ~ In x u.
Proof.
  induction b as [|c b IH]; [intros []|].
  destruct (N.eq_dec c x) as [->|N].
  - intros _. exists [], b. auto.
  - intros [H|H]; [contradiction|].
    destruct (IH H) as [u [v [-> Hu]]]. exists (c :: u), v.
    split; [reflexivity|]. intros [E|E]; [contradiction|auto].
Qed.

Lemma matchAt_tag_sound i s caps r :
  matchAt curlyTagPattern i s = Some (caps, r) ->
  caps = [] /\
  exists body, s = 123%N :: body ++ 125%N :: r /\
               ~ In 125%N body /\ In 58%N body.
Proof.
  unfold matchAt, curlyTagPattern. cbn [run].
  destruct s as [|x s1]; [discriminate|].
  destruct (N.eqb x 123) eqn:E; [|discriminate].
  apply N.eqb_eq in E. subst x. intros H.
  apply greedy_sound in H. destruct H as [a [b1 [-> [Fa K1]]]].
  cbn [run] in K1. destruct b1 as [|y s2]; [discriminate|].
  destruct (N.eqb y 58) eqn:E; [|discriminate].
  apply N.eqb_eq in E. subst y.
  apply greedy_sound in K1. destruct K1 as [b [b2 [-> [Fb K2]]]].
  cbn [run] in K2. destruct b2 as [|z r']; [discriminate|].
  destruct (N.eqb z 125) eqn:E; [|discriminate].
  apply N.eqb_eq in E. subst z. inversion K2. subst.
  split; [reflexivity|]. exists (a ++ 58%N :: b).
  rewrite <- app_assoc. split; [reflexivity|].
  apply forallb_notChr in Fa. apply forallb_notChr in Fb. split.
  - intros H. apply in_app_or in H. destruct H as [H|[H|H]]; auto.
    discriminate.
  - apply in_or_app. right. now left.
Qed.

Lemma matchAt_tag_complete i body r :
  ~ In 125%N body -> In 58%N body ->
  matchAt curlyTagPattern i (123%N :: body ++ 125%N :: r) = Some ([], r).
Proof.
  intros Hb Hc.
  destruct (matchAt curlyTagPattern i (123%N :: body ++ 125%N :: r))
    as [[caps r']|] eqn:M.
  - apply matchAt_tag_sound in M. destruct M as [-> [body' [E [Hb' _]]]].
    inversion E as [E'].
    now destruct (first_split_unique _ _ _ _ _ E' Hb Hb') as [_ ->].
  - exfalso. apply in_split in Hc. destruct Hc as [a [b ->]].
    unfold matchAt, curlyTagPattern in M. cbn [run] in M.
    change (N.eqb 123 123) with true in M. cbv iota in M.
    rewrite <- app_assoc in M. cbn [app] in M.
    refine (greedy_complete _ (notChr 125) _ a (58%N :: b ++ 125%N :: r)
              (S i) _ _ M).
    + apply forallb_notChr. intros H. apply Hb. apply in_or_app. now left.
    + cbn [run]. change (N.eqb 58 58) with true. cbv iota.
      apply (greedy_complete _ (notChr 125) _ b (125%N :: r)).
      * apply forallb_notChr. intros H. apply Hb. apply in_or_app.
        right. now right.
      * cbn [run]. change (N.eqb 125 125) with true. discriminate.
Qed.

Lemma curlyTagPattern_unanchored : unanchored curlyTagPattern.
Proof.
  intros i j s.
  destruct (matchAt curlyTagPattern i s) as [[caps r]|] eqn:Mi.
  - apply matchAt_tag_sound in Mi. destruct Mi as [-> [body [-> [Hb Hc]]]].
    now rewrite matchAt_tag_complete.
  - destruct (matchAt curlyTagPattern j s) as [[caps r]|] eqn:Mj;
      [|reflexivity].
    apply matchAt_tag_sound in Mj. destruct Mj as [-> [body [-> [Hb Hc]]]].
    rewrite matchAt_tag_complete in Mi by assumption. discriminate.
Qed.

(** A tag at the head of a text is matched, whatever follows. *)
Lemma matchAt_tagShaped t y :
  tagShaped t -> matchAt curlyTagPattern 0 (t ++ y) = Some ([], y).
Proof.
  intros [body [-> [Hb Hc]]]. cbn [app]. rewrite <- app_assoc.
  now apply matchAt_tag_complete.
Qed.

Lemma greedy_ext R f (k k' : nat -> str -> option R) :
  (forall i s, k i s = k' i s) ->
  forall s n i, greedy R f k n i s = greedy R f k' n i s.
Proof.
  intros E. induction s as [|c t IH]; intros n i; cbn [greedy].
  - now rewrite E.
  - now rewrite IH, E.
Qed.

(** White space, then a continuation that refuses white space: the
    quantifier takes all the white space there is. *)
Lemma greedy_space R (k : str -> option R) :
  (forall c t, isWhiteSpace c = true -> k (c :: t) = None) ->
  forall s i, greedy R isWhiteSpace (fun _ s' => k s') 0 i s = k (trimStart s).
Proof.
  intros Hk. induction s as [|c t IH]; intros i; [reflexivity|].
  cbn [greedy Nat.eqb pred]. unfold trimStart. cbn [dropWhile].
  destruct (isWhiteSpace c) eqn:E; [|reflexivity].
  rewrite IH. fold (trimStart t).
  destruct (k (trimStart t)); [reflexivity|]. now apply Hk.
Qed.

(** What the removal pattern of a tag matches: white space, the tag, white
    space. *)
Lemma matchAt_removal tag i s :
  (exists c t, tag = c :: t /\ isWhiteSpace c = false) ->
  matchAt (tagRemovalPattern tag) i s =
  if startsWith tag (trimStart s)
  then Some ([], trimStart (skipn (length tag) (trimStart s)))
  else None.
Proof.
  intros [c0 [t0 [-> Hc0]]].
  unfold matchAt, tagRemovalPattern. cbn [app run].
  rewrite (greedy_ext _ _ _
             (fun _ s' =>
                if startsWith (c0 :: t0) s'
                then Some ([], trimStart (skipn (length (c0 :: t0)) s'))
                else None)).
  - apply greedy_space. intros c t Hc. cbn [startsWith].
    destruct (N.eqb c0 c) eqn:E; [|reflexivity].
    apply N.eqb_eq in E. congruence.
  - intros i' s'. change (Chr c0 :: chars t0) with (chars (c0 :: t0)).
    rewrite run_chars.
    destruct (startsWith (c0 :: t0) s'); [|reflexivity].
    cbn [run]. now rewrite greedy_all.
Qed.

Lemma tagRemovalPattern_unanchored tag :
  (exists c t, tag = c :: t /\ isWhiteSpace c = false) ->
  unanchored (tagRemovalPattern tag).
Proof. intros H i j s. now rewrite !matchAt_removal. Qed.

Lemma tagShaped_head t :
  tagShaped t -> exists c u, t = c :: u /\ isWhiteSpace c = false.
Proof. intros [body [-> _]]. eexists. eexists. split; reflexivity. Qed.

(* ================================================================== *)
(** * Where the tags of a title are *)
(* ================================================================== *)

Lemma quiet_nil : quiet [].
Proof. intros [|x a] b E; discriminate. Qed.

Lemma quiet_no_tag g y :
  quiet g ->
  forall a c b, g = a ++ c :: b ->
  matchAt curlyTagPattern 0 (c :: b ++ y) = None.
Proof.
  intros Q a c b E.
  destruct (matchAt curlyTagPattern 0 (c :: b ++ y)) as [[caps r]|] eqn:M;
    [|reflexivity].
  exfalso. apply matchAt_tag_sound in M.
  destruct M as [_ [body [E' [Hb Hc]]]].
  injection E' as Ec Eb. subst c.
  destruct (Q a b E) as [u [v [-> [Hu Hv]]]].
  rewrite <- app_assoc in Eb. cbn [app] in Eb.
  destruct (first_split_unique _ _ _ _ _ Eb Hu Hb) as [-> _].
  contradiction.
Qed.

Lemma quietEnd_no_tag g :
  quietEnd g ->
  forall a c b, g = a ++ c :: b ->
  matchAt curlyTagPattern 0 (c :: b ++ []) = None.
Proof.
  intros Q a c b E. rewrite app_nil_r.
  destruct (matchAt curlyTagPattern 0 (c :: b)) as [[caps r]|] eqn:M;
    [|reflexivity].
  exfalso. apply matchAt_tag_sound in M.
  destruct M as [_ [body [E' [Hb Hc]]]].
  injection E' as Ec Eb. subst c.
  destruct (Q a b E) as [N|[u [v [E2 [Hu Hv]]]]].
  - apply N. rewrite Eb. apply in_or_app. right. now left.
  - rewrite E2 in Eb.
    destruct (first_split_unique _ _ _ _ _ Eb Hu Hb) as [-> _].
    contradiction.
Qed.

Lemma withoutTags_quiet g y :
  quiet g -> withoutTags (g ++ y) = g ++ withoutTags y.
Proof.
  intros Q. apply replaceAll_prefix; [exact curlyTagPattern_unanchored|].
  now apply quiet_no_tag.
Qed.

Lemma matchAll_quiet g y :
  quiet g ->
  matchAll curlyTagPattern (g ++ y) = matchAll curlyTagPattern y.
Proof.
  intros Q. apply matchAll_prefix; [exact curlyTagPattern_unanchored|].
  now apply quiet_no_tag.
Qed.

Lemma withoutTags_quietEnd g : quietEnd g -> withoutTags g = g.
Proof.
  intros Q. rewrite <- (app_nil_r g) at 1. unfold withoutTags.
  rewrite replaceAll_prefix;
    [apply app_nil_r|exact curlyTagPattern_unanchored|].
  now apply quietEnd_no_tag.
Qed.

Lemma matchAll_quietEnd g :
  quietEnd g -> matchAll curlyTagPattern g = [].
Proof.
  intros Q. rewrite <- (app_nil_r g).
  rewrite matchAll_prefix;
    [reflexivity|exact curlyTagPattern_unanchored|].
  now apply quietEnd_no_tag.
Qed.

Lemma tagShaped_not_nil t : tagShaped t -> t <> [].
Proof. intros [body [-> _]]. discriminate. Qed.

Lemma withoutTags_tag t y :
  tagShaped t -> withoutTags (t ++ y) = lit " " ++ withoutTags y.
Proof.
  intros T.
  apply (replaceAll_hit _ _ curlyTagPattern_unanchored t y []).
  - now apply matchAt_tagShaped.
  - now apply tagShaped_not_nil.
Qed.

Lemma matchAll_tag t y :
  tagShaped t ->
  matchAll curlyTagPattern (t ++ y) = t :: matchAll curlyTagPattern y.
Proof.
  intros T.
  apply (matchAll_hit _ curlyTagPattern_unanchored t y []).
  - now apply matchAt_tagShaped.
  - now apply tagShaped_not_nil.
Qed.

(** Every title either has no tag, or splits at its first tag. *)
Lemma tag_decomposition (s : str) :
  quietEnd s \/
  exists g t r, s = g ++ t ++ r /\ quiet g /\ tagShaped t.
Proof.
  induction s as [|c s IH].
  - left. intros [|x a] b E; discriminate.
  - destruct (matchAt curlyTagPattern 0 (c :: s)) as [[caps r]|] eqn:M.
    + right. apply matchAt_tag_sound in M.
      destruct M as [_ [body [E [Hb Hc]]]].
      exists [], (123%N :: body ++ [125%N]), r. split; [|split].
      * rewrite E. cbn [app]. now rewrite <- app_assoc.
      * exact quiet_nil.
      * exists body. auto.
    + destruct IH as [Q|[g [t [r [-> [Q T]]]]]].
      * left. intros [|x a] b E.
        -- injection E as -> ->.
           destruct (in_dec N.eq_dec 125%N b) as [I|I]; [|now left].
           destruct (first_split _ _ I) as [u [v [-> Hu]]].
           destruct (in_dec N.eq_dec 58%N u) as [J|J].
           ++ rewrite matchAt_tag_complete in M by assumption.
              discriminate.
           ++ right. exists u, v. auto.
        -- injection E as -> E. exact (Q a b E).
      * right. exists (c :: g), t, r. split; [reflexivity|].
        split; [|exact T].
        intros [|x a] b E'.
        -- injection E' as -> ->.
           destruct (in_dec N.eq_dec 125%N b) as [I|I].
           ++ destruct (first_split _ _ I) as [u [v [-> Hu]]].
              destruct (in_dec N.eq_dec 58%N u) as [J|J].
              ** rewrite <- app_assoc in M. cbn [app] in M.
                 rewrite matchAt_tag_complete in M by assumption.
                 discriminate.
              ** exists u, v. auto.
           ++ exfalso. destruct T as [body [-> [Hb Hc]]].
              replace ((b ++ (123%N :: body ++ [125%N]) ++ r))
                with ((b ++ 123%N :: body) ++ 125%N :: r) in M
                by (cbn [app]; rewrite <- !app_assoc; reflexivity).
              rewrite matchAt_tag_complete in M; [discriminate| |].
              ** intros H. apply in_app_or in H.
                 destruct H as [H|[H|H]]; auto. discriminate.
              ** apply in_or_app. right. now right.
        -- injection E' as -> E'. exact (Q a b E').
Qed.

(** Every match of the pattern has the shape of a tag. *)
Lemma matchAll_tagShaped : forall n s,
  length s <= n -> Forall tagShaped (matchAll curlyTagPattern s).
Proof.
  induction n as [|n IH]; intros s L;
    destruct (tag_decomposition s) as [Q|[g [t [r [-> [Q T]]]]]].
  - rewrite matchAll_quietEnd by assumption. constructor.
  - exfalso. apply tagShaped_not_nil in T. destruct t; [contradiction|].
    rewrite !length_app in L. cbn [length] in L. lia.
  - rewrite matchAll_quietEnd by assumption. constructor.
  - rewrite matchAll_quiet, matchAll_tag by assumption.
    constructor; [exact T|]. apply IH.
    pose proof (tagShaped_not_nil _ T). destruct t; [contradiction|].
    rewrite !length_app in L. cbn [length] in L. lia.
Qed.

(* ================================================================== *)
(** * Removing one tag *)
(* ================================================================== *)

Lemma dropWhile_app_all f (w y : str) :
  forallb f w = true -> dropWhile f (w ++ y) = dropWhile f y.
Proof.
  induction w as [|c w IH]; [reflexivity|].
  cbn [forallb app dropWhile]. intros H. apply andb_true_iff in H.
  destruct H as [-> H]. now apply IH.
Qed.

Lemma dropWhile_app_some f (l y : str) :
  dropWhile f l <> [] -> dropWhile f (l ++ y) = dropWhile f l ++ y.
Proof.
  induction l as [|c l IH]; [intros H; now contradiction H|].
  cbn [app dropWhile]. destruct (f c); [exact IH|reflexivity].
Qed.

Lemma dropWhile_In f (l : str) x :
  In x l -> f x = false -> dropWhile f l <> [].
Proof.
  induction l as [|c l IH]; [intros []|].
  intros [->|H] Hx; cbn [dropWhile].
  - rewrite Hx. discriminate.
  - destruct (f c); [now apply IH|discriminate].
Qed.

Lemma dropWhile_incl f (l : str) x : In x (dropWhile f l) -> In x l.
Proof.
  destruct (dropWhile_suffix f l) as [w [E _]]. intros H.
  rewrite E. apply in_or_app. now right.
Qed.

Lemma suffix_last (a l m : str) z :
  a ++ l = m ++ [z] -> l <> [] -> In z l.
Proof.
  revert m. induction a as [|x a IH]; intros m E N.
  - cbn [app] in E. rewrite E. apply in_or_app. right. now left.
  - destruct m as [|y m]; cbn [app] in E; injection E as _ E.
    + apply app_eq_nil in E. destruct E as [_ E]. contradiction.
    + exact (IH m E N).
Qed.

Lemma startsWith_ex p s : startsWith p s = true -> exists z, s = p ++ z.
Proof. intros H. eexists. now apply startsWith_split. Qed.

Lemma trimEnd_split g :
  exists w, g = trimEnd g ++ w /\ forallb isWhiteSpace w = true.
Proof.
  unfold trimEnd.
  destruct (dropWhile_suffix isWhiteSpace (rev g)) as [w [Hw F]].
  exists (rev w). split.
  - rewrite <- rev_app_distr, <- Hw. now rewrite rev_involutive.
  - apply forallb_forall. intros x Hx. apply In_rev in Hx.
    rewrite forallb_forall in F. now apply F.
Qed.

(** Every non-empty end of a right-trimmed text shows a unit that is not
    white space. *)
Lemma trimEnd_suffix g a c b :
  trimEnd g = a ++ c :: b ->
  exists x, In x (c :: b) /\ isWhiteSpace x = false.
Proof.
  unfold trimEnd.
  destruct (dropWhile isWhiteSpace (rev g)) as [|x h] eqn:D.
  - intros E. destruct a; discriminate.
  - cbn [rev]. intros E. exists x. split.
    + apply (suffix_last a (c :: b) (rev h)); [now rewrite E|discriminate].
    + apply (dropWhile_head _ _ _ _ D).
Qed.

Lemma quiet_spaces w : forallb isWhiteSpace w = true -> quiet w.
Proof.
  intros F a b E. exfalso. rewrite forallb_forall in F.
  assert (H : isWhiteSpace 123%N = true).
  { apply F. rewrite E. apply in_or_app. right. now left. }
  discriminate.
Qed.

Lemma quiet_prefix a w :
  quiet (a ++ w) -> forallb isWhiteSpace w = true -> quiet a.
Proof.
  intros Q F a1 b E.
  destruct (Q a1 (b ++ w)) as [u [v [E' [Hu Hv]]]].
  { rewrite E, <- app_assoc. reflexivity. }
  apply app_eq_app in E'. destruct E' as [l [[E1 E2]|[E1 E2]]].
  - destruct l as [|x l].
    + exfalso. cbn [app] in E2. rewrite forallb_forall in F.
      assert (H : isWhiteSpace 125%N = true).
      { apply F. rewrite <- E2. now left. }
      discriminate.
    + cbn [app] in E2. injection E2 as <- _. exists u, l. auto.
  - exfalso. rewrite forallb_forall in F.
    assert (H : isWhiteSpace 125%N = true).
    { apply F. rewrite E2. apply in_or_app. right. now left. }
    discriminate.
Qed.

Lemma trimStart_tag t y : tagShaped t -> trimStart (t ++ y) = t ++ y.
Proof. intros [body [-> _]]. reflexivity. Qed.

(** Two tags that start at the same unit are the same tag. *)
Lemma startsWith_tags t tau y :
  tagShaped t -> tagShaped tau -> startsWith tau (t ++ y) = true -> t = tau.
Proof.
  intros [body [-> [Hb _]]] [body' [-> [Hb' _]]] S.
  apply startsWith_ex in S. destruct S as [z S].
  cbn [app] in S. injection S as S. rewrite <- !app_assoc in S.
  cbn [app] in S.
  now destruct (first_split_unique _ _ _ _ _ S Hb Hb') as [-> _].
Qed.

Lemma removal_miss_gap tau g y :
  tagShaped tau -> quiet g ->
  forall a c b, g = a ++ c :: b -> trimStart (c :: b) <> [] ->
  matchAt (tagRemovalPattern tau) 0 (c :: b ++ y) = None.
Proof.
  intros T Q a c b E N.
  rewrite matchAt_removal by now apply tagShaped_head.
  change (c :: b ++ y) with ((c :: b) ++ y).
  unfold trimStart in *. rewrite dropWhile_app_some by exact N.
  destruct (dropWhile_suffix isWhiteSpace (c :: b)) as [w [Hw _]].
  destruct (dropWhile isWhiteSpace (c :: b)) as [|x b'] eqn:D;
    [now contradiction N|].
  destruct (startsWith tau ((x :: b') ++ y)) eqn:S; [|reflexivity].
  exfalso. apply startsWith_ex in S. destruct S as [z S].
  destruct T as [body [-> [Hb Hc]]].
  cbn [app] in S. injection S as -> S.
  rewrite <- app_assoc in S. cbn [app] in S.
  destruct (Q (a ++ w) b') as [u [v [-> [Hu Hv]]]].
  { rewrite E, Hw, <- app_assoc. reflexivity. }
  rewrite <- app_assoc in S. cbn [app] in S.
  destruct (first_split_unique _ _ _ _ _ S Hu Hb) as [-> _].
  contradiction.
Qed.

Lemma removal_miss_end tau g :
  tagShaped tau -> quietEnd g ->
  forall a c b, g = a ++ c :: b ->
  matchAt (tagRemovalPattern tau) 0 (c :: b ++ []) = None.
Proof.
  intros T Q a c b E. rewrite app_nil_r.
  rewrite matchAt_removal by now apply tagShaped_head.
  unfold trimStart.
  destruct (dropWhile_suffix isWhiteSpace (c :: b)) as [w [Hw _]].
  destruct (dropWhile isWhiteSpace (c :: b)) as [|x b'] eqn:D.
  - destruct T as [body [-> _]]. reflexivity.
  - destruct (startsWith tau (x :: b')) eqn:S; [|reflexivity].
    exfalso. apply startsWith_ex in S. destruct S as [z S].
    destruct T as [body [-> [Hb Hc]]].
    cbn [app] in S. injection S as -> S.
    rewrite <- app_assoc in S. cbn [app] in S.
    destruct (Q (a ++ w) b') as [I|[u [v [E2 [Hu Hv]]]]].
    { rewrite E, Hw, <- app_assoc. reflexivity. }
    + apply I. rewrite S. apply in_or_app. right. now left.
    + rewrite E2 in S.
      destruct (first_split_unique _ _ _ _ _ S Hu Hb) as [-> _].
      contradiction.
Qed.

Lemma removeTag_quietEnd tau g :
  tagShaped tau -> quietEnd g -> removeTag tau g = g.
Proof.
  intros T Q. rewrite <- (app_nil_r g) at 1. unfold removeTag.
  rewrite replaceAll_prefix.
  - destruct T as [body [-> _]]. apply app_nil_r.
  - apply tagRemovalPattern_unanchored. now apply tagShaped_head.
  - now apply removal_miss_end.
Qed.

Lemma removal_miss_tag tau t y :
  tagShaped tau -> tagShaped t -> noInnerBrace t -> t <> tau ->
  forall a c b, t = a ++ c :: b ->
  matchAt (tagRemovalPattern tau) 0 (c :: b ++ y) = None.
Proof.
  intros T Tt I N a c b E.
  rewrite matchAt_removal by now apply tagShaped_head.
  change (c :: b ++ y) with ((c :: b) ++ y).
  destruct a as [|x a].
  - cbn [app] in E. rewrite <- E. rewrite trimStart_tag by exact Tt.
    destruct (startsWith tau (t ++ y)) eqn:S; [|reflexivity].
    exfalso. apply N. exact (startsWith_tags _ _ _ Tt T S).
  - assert (H125 : In 125%N (c :: b)).
    { destruct Tt as [body [Et _]]. rewrite Et in E.
      cbn [app] in E. injection E as _ E.
      apply (suffix_last a (c :: b) body); [now rewrite E|discriminate]. }
    assert (D : dropWhile isWhiteSpace (c :: b) <> [])
      by (apply (dropWhile_In _ _ _ H125); reflexivity).
    unfold trimStart. rewrite dropWhile_app_some by exact D.
    destruct (dropWhile isWhiteSpace (c :: b)) as [|x' b'] eqn:D';
      [now contradiction D|].
    destruct (startsWith tau ((x' :: b') ++ y)) eqn:S; [|reflexivity].
    exfalso. apply startsWith_ex in S. destruct S as [z S].
    destruct T as [body [-> _]]. cbn [app] in S. injection S as -> _.
    apply I. rewrite E. cbn [tl app]. apply in_or_app. right.
    apply (dropWhile_incl isWhiteSpace). rewrite D'. now left.
Qed.

(** A tag other than the one being removed stays, with the text before
    it. *)
Lemma removeTag_other tau g t r :
  tagShaped tau -> quiet g -> tagShaped t -> noInnerBrace t -> t <> tau ->
  removeTag tau (g ++ t ++ r) = g ++ t ++ removeTag tau r.
Proof.
  intros T Q Tt I N. unfold removeTag.
  pose proof (tagRemovalPattern_unanchored tau (tagShaped_head _ T)) as U.
  rewrite (replaceAll_prefix _ _ U g (t ++ r)).
  - f_equal. apply (replaceAll_prefix _ _ U t r).
    now apply removal_miss_tag.
  - intros a c b E.
    destruct (dropWhile isWhiteSpace (c :: b)) as [|x b'] eqn:D.
    + rewrite matchAt_removal by now apply tagShaped_head.
      destruct (dropWhile_suffix isWhiteSpace (c :: b)) as [w [Hw F]].
      rewrite D, app_nil_r in Hw.
      change (c :: b ++ t ++ r) with ((c :: b) ++ t ++ r).
      rewrite Hw. unfold trimStart. rewrite dropWhile_app_all by exact F.
      fold (trimStart (t ++ r)). rewrite trimStart_tag by exact Tt.
      destruct (startsWith tau (t ++ r)) eqn:S; [|reflexivity].
      exfalso. apply N. exact (startsWith_tags _ _ _ Tt T S).
    + apply (removal_miss_gap tau g (t ++ r) T Q a c b E).
      unfold trimStart. rewrite D. discriminate.
Qed.

Lemma removal_hit tau w r :
  tagShaped tau -> forallb isWhiteSpace w = true ->
  matchAt (tagRemovalPattern tau) 0 (w ++ tau ++ r) = Some ([], trimStart r).
Proof.
  intros T F. rewrite matchAt_removal by now apply tagShaped_head.
  assert (H : trimStart (w ++ tau ++ r) = tau ++ r).
  { unfold trimStart. rewrite dropWhile_app_all by exact F.
    now apply trimStart_tag. }
  rewrite H, startsWith_app.
  now rewrite skipn_app, skipn_all, Nat.sub_diag.
Qed.

(** The tag being removed goes with the white space around it. *)
Lemma removeTag_same tau g r :
  tagShaped tau -> quiet g ->
  removeTag tau (g ++ tau ++ r) =
  trimEnd g ++ lit " " ++ removeTag tau (trimStart r).
Proof.
  intros T Q.
  pose proof (tagRemovalPattern_unanchored tau (tagShaped_head _ T)) as U.
  destruct (trimEnd_split g) as [w [Eg Hw]].
  pose proof (trimEnd_suffix g) as P.
  remember (trimEnd g) as g' eqn:Hg'. clear Hg'. subst g.
  rewrite <- app_assoc. unfold removeTag.
  rewrite (replaceAll_prefix _ _ U g' (w ++ tau ++ r)).
  - f_equal.
    destruct (dropWhile_suffix isWhiteSpace r) as [w' [Er Hw']].
    fold (trimStart r) in Er.
    replace (w ++ tau ++ r) with ((w ++ tau ++ w') ++ trimStart r)
      by (rewrite Er at 2; now rewrite <- !app_assoc).
    apply (replaceAll_hit _ _ U (w ++ tau ++ w') (trimStart r) []).
    + replace ((w ++ tau ++ w') ++ trimStart r) with (w ++ tau ++ r)
        by (rewrite Er at 1; now rewrite <- !app_assoc).
      now apply removal_hit.
    + intros H. apply app_eq_nil in H. destruct H as [_ H].
      apply app_eq_nil in H. destruct H as [H _].
      exact (tagShaped_not_nil _ T H).
  - intros a c b E.
    destruct (P a c b E) as [x [Hx Wx]].
    replace (c :: b ++ w ++ tau ++ r) with (c :: (b ++ w) ++ tau ++ r)
      by (now rewrite <- app_assoc).
    apply (removal_miss_gap tau (g' ++ w) (tau ++ r) T Q a c (b ++ w)).
    + rewrite E, <- app_assoc. reflexivity.
    + apply (dropWhile_In _ _ x); [|exact Wx].
      change (c :: b ++ w) with ((c :: b) ++ w). apply in_or_app.
      now left.
Qed.

Lemma collapse_true_spaces w s :
  forallb isWhiteSpace w = true -> collapse true (w ++ s) = collapse true s.
Proof.
  induction w as [|c w IH]; [reflexivity|].
  cbn [forallb app collapse]. intros H. apply andb_true_iff in H.
  destruct H as [-> H]. now apply IH.
Qed.

(** A run of white space counts as one space, or as none after a space. *)
Lemma collapse_space_run w b s :
  forallb isWhiteSpace w = true -> w <> [] ->
  collapse b (w ++ s) = (if b then [] else [32%N]) ++ collapse true s.
Proof.
  destruct w as [|c w]; [intros _ H; now contradiction H|].
  cbn [forallb app collapse]. intros H _. apply andb_true_iff in H.
  destruct H as [-> H]. rewrite collapse_true_spaces by exact H.
  now destruct b.
Qed.

(** One round of the loop, seen through what is left when all tags are
    taken out, and through the tags still there. *)
Lemma removeTag_step tau :
  tagShaped tau ->
  forall n X, length X <= n ->
  Forall noInnerBrace (matchAll curlyTagPattern X) ->
  collapse true (withoutTags (removeTag tau X))
  = collapse true (withoutTags X) /\
  matchAll curlyTagPattern (removeTag tau X)
  = filter (fun t => negb (Str.eqb t tau)) (matchAll curlyTagPattern X).
Proof.
  intros T. induction n as [|n IH]; intros X L G;
    destruct (tag_decomposition X) as [Q|[g [t [r [-> [Q Tt]]]]]].
  - rewrite removeTag_quietEnd by assumption. split; [reflexivity|].
    now rewrite matchAll_quietEnd by assumption.
  - exfalso. apply tagShaped_not_nil in Tt. destruct t; [contradiction|].
    rewrite !length_app in L. cbn [length] in L. lia.
  - rewrite removeTag_quietEnd by assumption. split; [reflexivity|].
    now rewrite matchAll_quietEnd by assumption.
  - assert (Lr : length r <= n).
    { pose proof (tagShaped_not_nil _ Tt). destruct t; [contradiction|].
      rewrite !length_app in L. cbn [length] in L. lia. }
    rewrite (matchAll_quiet g (t ++ r)), (matchAll_tag t r) in G |- *
      by assumption.
    inversion G as [|? ? Gt Gr]; subst.
    cbn [filter]. destruct (Str.eqb t tau) eqn:Eq; cbn [negb].
    + apply Str_eqb_eq in Eq. subst t.
      rewrite removeTag_same by assumption.
      destruct (trimEnd_split g) as [w [Eg Hw]].
      destruct (dropWhile_suffix isWhiteSpace r) as [w' [Er Hw']].
      fold (trimStart r) in Er.
      assert (Q' : quiet (trimEnd g)).
      { apply (quiet_prefix _ w); [now rewrite <- Eg|exact Hw]. }
      assert (Gr' : Forall noInnerBrace
                      (matchAll curlyTagPattern (trimStart r))).
      { rewrite Er in Gr.
        rewrite matchAll_quiet in Gr by now apply quiet_spaces.
        exact Gr. }
      assert (Lr' : length (trimStart r) <= n).
      { pose proof (dropWhile_length isWhiteSpace r). unfold trimStart.
        lia. }
      destruct (IH _ Lr' Gr') as [IH1 IH2].
      remember (trimEnd g) as g' eqn:Hg'. clear Hg'.
      remember (trimStart r) as r' eqn:Hr'. clear Hr'. subst g r.
      split.
      * rewrite (withoutTags_quiet g') by exact Q'.
        rewrite (withoutTags_quiet (lit " ")) by now apply quiet_spaces.
        rewrite (withoutTags_quiet (g' ++ w)), withoutTags_tag
          by assumption.
        rewrite (withoutTags_quiet w') by now apply quiet_spaces.
        replace ((g' ++ w) ++ lit " " ++ w' ++ withoutTags r')
          with (g' ++ (w ++ lit " " ++ w') ++ withoutTags r')
          by (now rewrite <- !app_assoc).
        rewrite !(collapse_app true g').
        rewrite (collapse_space_run (lit " "))
          by (reflexivity || discriminate).
        rewrite (collapse_space_run (w ++ lit " " ++ w')).
        -- now rewrite IH1.
        -- rewrite !forallb_app. apply andb_true_iff. split; [exact Hw|].
           apply andb_true_iff. split; [reflexivity|exact Hw'].
        -- intros H. apply app_eq_nil in H. destruct H as [_ H].
           discriminate.
      * rewrite (matchAll_quiet g') by exact Q'.
        rewrite (matchAll_quiet (lit " ")) by now apply quiet_spaces.
        rewrite (matchAll_quiet w') by now apply quiet_spaces.
        exact IH2.
    + assert (N : t <> tau).
      { intros ->. rewrite Str_eqb_refl in Eq. discriminate. }
      rewrite removeTag_other by assumption.
      destruct (IH _ Lr Gr) as [IH1 IH2]. split.
      * rewrite !(withoutTags_quiet g), !withoutTags_tag by assumption.
        rewrite !(collapse_app true g).
        rewrite !(collapse_space_run (lit " ")) by
          (reflexivity || discriminate).
        now rewrite IH1.
      * rewrite (matchAll_quiet g), matchAll_tag by assumption.
        now rewrite IH2.
Qed.

(* ================================================================== *)
(** * The loop over all tags *)
(* ================================================================== *)

Lemma removeTags_cons tau ts X :
  removeTags (tau :: ts) X = removeTags ts (removeTag tau X).
Proof. reflexivity. Qed.

Lemma filter_all (l : list str) : filter (fun _ => negb false) l = l.
Proof.
  induction l as [|x l IH]; [reflexivity|]. cbn [filter negb]. now f_equal.
Qed.

Lemma filter_twice tau ts (l : list str) :
  filter (fun t => negb (existsb (Str.eqb t) ts))
         (filter (fun t => negb (Str.eqb t tau)) l)
  = filter (fun t => negb (existsb (Str.eqb t) (tau :: ts))) l.
Proof.
  induction l as [|x l IH]; [reflexivity|].
  cbn [filter existsb].
  destruct (Str.eqb x tau); cbn [negb orb filter]; [exact IH|].
  destruct (existsb (Str.eqb x) ts); cbn [negb]; now rewrite IH.
Qed.

Lemma Forall_filter_keeps (P : str -> Prop) f (l : list str) :
  Forall P l -> Forall P (filter f l).
Proof.
  intros H. apply Forall_forall. intros x Hx. apply filter_In in Hx.
  rewrite Forall_forall in H. now apply H.
Qed.

Lemma existsb_self (ts : list str) t :
  In t ts -> existsb (Str.eqb t) ts = true.
Proof.
  intros H. apply existsb_exists. exists t. split; [exact H|].
  apply Str_eqb_refl.
Qed.

Lemma filter_none (ts l : list str) :
  incl l ts -> filter (fun t => negb (existsb (Str.eqb t) ts)) l = [].
Proof.
  induction l as [|x l IH]; intros H; [reflexivity|].
  cbn [filter]. rewrite existsb_self by (apply H; now left).
  cbn [negb]. apply IH. intros y Hy. apply H. now right.
Qed.

(** After the loop the text without tags is, up to white space, the title
    without tags, and the tags removed are no longer found. *)
Lemma removeTags_invariant : forall (ts : list str) X,
  Forall tagShaped ts ->
  Forall noInnerBrace (matchAll curlyTagPattern X) ->
  collapse true (withoutTags (removeTags ts X))
  = collapse true (withoutTags X) /\
  matchAll curlyTagPattern (removeTags ts X)
  = filter (fun t => negb (existsb (Str.eqb t) ts))
           (matchAll curlyTagPattern X).
Proof.
  induction ts as [|tau ts IH]; intros X T G.
  - split; [reflexivity|]. cbn [existsb]. symmetry. apply filter_all.
  - inversion T as [|? ? T1 T2]; subst.
    destruct (removeTag_step tau T1 (length X) X (le_n _) G) as [S1 S2].
    rewrite removeTags_cons.
    destruct (IH (removeTag tau X) T2) as [I1 I2].
    { rewrite S2. now apply Forall_filter_keeps. }
    split.
    + now rewrite I1.
    + rewrite I2, S2. apply filter_twice.
Qed.

Lemma matchAll_none_withoutTags X :
  matchAll curlyTagPattern X = [] -> withoutTags X = X.
Proof.
  intros H. destruct (tag_decomposition X) as [Q|[g [t [r [-> [Q T]]]]]].
  - now apply withoutTags_quietEnd.
  - rewrite matchAll_quiet, matchAll_tag in H by assumption.
    discriminate.
Qed.

Lemma join_nil (l : list str) : join [] l = concat l.
Proof.
  induction l as [|p l IH]; [reflexivity|].
  destruct l as [|q l].
  - cbn. now rewrite app_nil_r.
  - cbn [join concat app] in *. now rewrite IH.
Qed.

Lemma trim_collapse s : trim (collapse false s) = trim (collapse true s).
Proof.
  destruct s as [|c t]; [reflexivity|].
  cbn [collapse]. destruct (isWhiteSpace c); reflexivity.
Qed.

(** The loop and a single pass over all tags leave the same cleaned text. *)
Lemma removeTags_cleaned title :
  Forall noInnerBrace (matchAll curlyTagPattern title) ->
  trim (collapse false (removeTags (matchAll curlyTagPattern title) title))
  = trim (collapse false (withoutTags title)).
Proof.
  intros G.
  destruct (removeTags_invariant (matchAll curlyTagPattern title) title)
    as [I1 I2].
  { apply (matchAll_tagShaped (length title)). apply le_n. }
  { exact G. }
  rewrite filter_none in I2 by apply incl_refl.
  apply matchAll_none_withoutTags in I2.
  rewrite I2 in I1.
  now rewrite !trim_collapse, I1.
Qed.

(** Where no tag of the title holds a further opening brace, the block
    gives the cleaned text followed by the tags: all tags taken out and white
    space normalised, one space if the last tag ended the title, the tags in
    their order with nothing between them. *)
Lemma moveCurlyTags_moves_tags title :
  matchAll curlyTagPattern title <> [] ->
  Forall noInnerBrace (matchAll curlyTagPattern title) ->
  moveCurlyTags title = claimedTitle title.
Proof.
  intros N G. pose proof (removeTags_cleaned title G) as C.
  unfold moveCurlyTags, claimedTitle, tagsTakenOut. cbv zeta.
  fold (withoutTags title).
  destruct (matchAll curlyTagPattern title) as [|t0 ts0] eqn:M;
    [now contradiction N|].
  now rewrite !replaceAll_ws_plus, join_nil, C.
Qed.

(** The monitor rule moves the tags of the selected [h3] to the end of the
    title.  Where the text of the first qualifying [h3], without its
    marker, has at least one curly tag and none of its tags holds a further
    opening brace, the title is the cleaned text (every tag taken out, white
    space collapsed to single spaces, ends trimmed), then one space exactly
    when the last tag ended the text, then the tags in their order with
    nothing between them, then the time range. *)
Theorem datadogMonitor_moves_tags (w : Page) (e : Dom.Node) :
  find (qualifies (h1TextOf w)) (h3sOf w) = Some e ->
  matchAll curlyTagPattern (strippedText (textContent e)) <> [] ->
  Forall noInnerBrace
    (matchAll curlyTagPattern (strippedText (textContent e))) ->
  Rule.getDocInfo datadogMonitor w =
  (w, Ok (linkAndTitle (href (location w))
            (Some (claimedTitle (strippedText (textContent e))
                   ++ timeRangeOf w)))).
Proof.
  intros F N G. rewrite datadogMonitor_result, F.
  unfold alertTitle. fold (strippedText (textContent e)).
  now rewrite moveCurlyTags_moves_tags.
Qed.

Lemma datadogMonitor_moves_tags_witness :
  snd (Rule.getDocInfo datadogMonitor Examples.monitorPage)
  = Ok (linkAndTitle (lit "https://app.datadoghq.com/monitors/33333")
          (Some (claimedTitle
                   (lit "{environment:production} Disk Space Alert")
                 ++ timeRangeOf Examples.monitorPage))).
Proof.
  destruct (find (qualifies (h1TextOf Examples.monitorPage))
                 (h3sOf Examples.monitorPage)) as [e|] eqn:F;
    [|vm_compute in F; discriminate].
  pose proof F as F'. vm_compute in F'. injection F' as F'. subst e.
  rewrite (datadogMonitor_moves_tags Examples.monitorPage _ F).
  - vm_compute. reflexivity.
  - vm_compute. discriminate.
  - vm_compute. repeat constructor; intros H; cbn in H;
      repeat (destruct H as [H|H]; [discriminate|]); exact H.
Defined.

(* ================================================================== *)
(** * The extraction leaves the document as it was *)
(* ================================================================== *)

Section LeavesPage.
Variables A B : Type.

Lemma leavesPage_ret (a : A) : leavesPage (ret a).
Proof. intros w. reflexivity. Qed.

Lemma leavesPage_throw e : leavesPage (@throw A e).
Proof. intros w. reflexivity. Qed.

Lemma leavesPage_gets (f : Page -> A) : leavesPage (gets f).
Proof. intros w. reflexivity. Qed.

Lemma leavesPage_lift (r : result A) : leavesPage (lift r).
Proof. intros w. reflexivity. Qed.

Lemma leavesPage_bind (m : M A) (k : A -> M B) :
  leavesPage m -> (forall a, leavesPage (k a)) -> leavesPage (bind m k).
Proof.
  intros Hm Hk w. unfold bind. specialize (Hm w).
  destruct (m w) as [w1 [a|e]]; simpl in Hm; subst w1; [apply Hk|reflexivity].
Qed.

Lemma leavesPage_tryCatch (m : M A) (h : str -> M A) :
  leavesPage m -> (forall e, leavesPage (h e)) -> leavesPage (tryCatch m h).
Proof.
  intros Hm Hh w. unfold tryCatch. specialize (Hm w).
  destruct (m w) as [w1 [a|e]]; simpl in Hm; subst w1; [reflexivity|apply Hh].
Qed.
End LeavesPage.

Lemma leavesPage_findNextElementDFS startElement condition :
  leavesPage (findNextElementDFS startElement condition).
Proof. intros w. apply findNextElementDFS_fst. Qed.

(** The dummy element of the whole-document search is always taken out
    again. *)
Lemma leavesPage_findFirstInWholeDFS condition :
  leavesPage (findFirstInWholeDFS condition).
Proof.
  intros w. unfold findFirstInWholeDFS. rewrite !bind_gets.
  destruct (body (root w)) as [b|] eqn:Hb; [|reflexivity].
  pose proof (freshId_fresh (root w)) as Hd.
  destruct (firstChild b) as [first|];
    rewrite bind_modifyRoot, tryFinally_fst, bind_ret_fst,
      findNextElementDFS_fst; cbn [nodeId].
  - apply cleanup_page; auto.
    + apply insertInto_members.
    + apply removeFrom_insertInto.
    + apply insertInto_absent.
  - apply (cleanup_page (freshId (root w)) (nodeId b)
             (fun kids =>
                kids ++ [Element (freshId (root w)) (lit "DIV") [] None []]));
      auto.
    + apply append_members.
    + apply removeFrom_append.
    + apply append_absent.
Qed.

(** Follow the structure of a computation down to its primitive steps. *)
Ltac leaves :=
  repeat first
    [ apply leavesPage_ret
    | apply leavesPage_throw
    | apply leavesPage_gets
    | apply leavesPage_lift
    | apply leavesPage_findNextElementDFS
    | apply leavesPage_findFirstInWholeDFS
    | apply leavesPage_bind; [|intros]
    | apply leavesPage_tryCatch; [|intros]
    | match goal with
      | |- leavesPage (match ?x with _ => _ end) => destruct x
      | |- leavesPage (if ?x then _ else _) => destruct x
      end ].

Lemma leavesPage_findElement s : leavesPage (findElement s).
Proof. unfold findElement. leaves. Qed.

Lemma leavesPage_getDatadogTimeRange : leavesPage getDatadogTimeRange.
Proof. unfold getDatadogTimeRange. leaves. Qed.

Lemma leavesPage_decodedQuery : leavesPage decodedQuery.
Proof. unfold decodedQuery. leaves. Qed.

Lemma leavesPage_slackMessage : leavesPage slackMessage.
Proof.
  unfold slackMessage, findFirstWithDirectTextMatch, findInParentChain.
  leaves; apply leavesPage_findElement.
Qed.

Lemma leavesPage_extractors name rule :
  In (name, rule) rules -> leavesPage (Rule.getDocInfo rule).
Proof.
  intros Hin. unfold rules in Hin. simpl in Hin.
  repeat (destruct Hin as [Hin|Hin];
          [inversion Hin; subst; clear Hin|]); try contradiction.
  - unfold graphiteFigma. cbn [Rule.getDocInfo]. leaves.
  - unfold FigmaGithub. cbn [Rule.getDocInfo]. leaves.
  - unfold figmaDeploys. cbn [Rule.getDocInfo].
    leaves; apply leavesPage_findElement.
  - unfold docsAndDesignTools. cbn [Rule.getDocInfo]. leaves.
  - unfold dropboxPaper. cbn [Rule.getDocInfo].
    leaves; apply leavesPage_findElement.
  - unfold amazon. cbn [Rule.getDocInfo].
    leaves; apply leavesPage_findElement.
  - unfold awsDocs. cbn [Rule.getDocInfo]. leaves.
  - unfold githubCommit. cbn [Rule.getDocInfo]. leaves.
  - unfold datadogMonitor. cbn [Rule.getDocInfo].
    leaves;
      first [apply leavesPage_getDatadogTimeRange|apply leavesPage_findElement].
  - unfold datadogNotebook. cbn [Rule.getDocInfo].
    leaves; apply leavesPage_getDatadogTimeRange.
  - unfold datadogLogs. cbn [Rule.getDocInfo].
    leaves;
      first [apply leavesPage_getDatadogTimeRange|apply leavesPage_decodedQuery].
  - unfold datadogGeneral. cbn [Rule.getDocInfo].
    leaves; apply leavesPage_getDatadogTimeRange.
  - unfold temporal. cbn [Rule.getDocInfo].
    leaves; apply leavesPage_decodedQuery.
  - unfold notion. cbn [Rule.getDocInfo]. leaves.
  - unfold asana. cbn [Rule.getDocInfo]. leaves.
  - unfold greenhouse. cbn [Rule.getDocInfo].
    leaves; apply leavesPage_findElement.
  - unfold launchDarkly. cbn [Rule.getDocInfo]. leaves.
  - unfold goodreads. cbn [Rule.getDocInfo]. leaves.
  - unfold slack. cbn [Rule.getDocInfo].
    leaves; apply leavesPage_slackMessage.
Qed.

Lemma leavesPage_tryRule name rule :
  In (name, rule) rules -> leavesPage (tryRule rule).
Proof.
  intros Hin. unfold tryRule. apply leavesPage_tryCatch.
  - apply leavesPage_bind.
    + intros w. exact (rules_isMatch_reads _ _ Hin w).
    + intros [|]; [|apply leavesPage_ret].
      apply leavesPage_bind; [exact (leavesPage_extractors _ _ Hin)|].
      intros a. apply leavesPage_ret.
  - intros e. apply leavesPage_ret.
Qed.

Lemma leavesPage_dispatch (rs : list (str * Rule.t)) :
  incl rs rules -> leavesPage (dispatch rs).
Proof.
  induction rs as [|[name rule] rest IH]; intros Hin.
  - intros w. reflexivity.
  - cbn [dispatch]. apply leavesPage_bind.
    + apply (leavesPage_tryRule name). apply Hin. now left.
    + intros [res|]; [apply leavesPage_ret|].
      apply IH. intros x Hx. apply Hin. now right.
Qed.

(** [getDocInfo] hands back the page it was given: no rule's predicate or
    extractor, and no step of the dispatch loop, leaves a change in the
    document, whether the rule returns or throws.  The one element the rules
    insert, the dummy [div] of the whole-document search, is gone when the
    search returns. *)
Theorem getDocInfo_leaves_page (w : Page) :
  fst (getDocInfo w) = w /\
  (forall name rule, In (name, rule) rules ->
     fst (Rule.isMatch rule w) = w /\ fst (Rule.getDocInfo rule w) = w).
Proof.
  split.
  - apply leavesPage_dispatch, incl_refl.
  - intros name rule Hin. split.
    + exact (rules_isMatch_reads _ _ Hin w).
    + exact (leavesPage_extractors _ _ Hin w).
Qed.

(* ================================================================== *)
(** * The searches return the first element after a given one *)
(* ================================================================== *)

Lemma scan_true_find start (p : Node -> bool) (l : list Node) :
  snd (scan start (pureCondition p) true l) = Ok (find p l).
Proof.
  induction l as [|e l IH]; [reflexivity|].
  cbn [scan negb find]. unfold pureCondition at 1.
  destruct (p e); [reflexivity|exact IH].
Qed.

Lemma findNextElementDFS_pure (w : Page) (startElement : Node)
  (p : Node -> bool) :
  findNextElementDFS startElement (pureCondition p) w =
  (w, match body (root w) with
      | None => Throw (lit "TypeError")
      | Some b =>
          Ok (match find p (after (nodeId startElement) (elementsOf b)) with
              | Some e => Some e
              | None =>
                  find p (after (nodeId startElement) (elementsOf (root w)))
              end)
      end).
Proof.
  unfold findNextElementDFS.
  destruct (body (root w)) as [b|]; [|reflexivity].
  rewrite !dfsTraversal_scan, !scan_false, !scan_true_find.
  now destruct (find p (after (nodeId startElement) (elementsOf b))).
Qed.

(** [findNextElementDFS] with a condition that does not throw: the result
    is the first element after the start element, in depth-first pre-order
    of [document.body], on which the condition holds; when the body has
    none (or does not hold the start element), it is the first such element
    after the start element in the whole document.  The result is [null]
    when the start element is not in the document; the call throws a
    [TypeError] in a document without a body; the page is left as it is. *)
Theorem findNextElementDFS_first_after (w : Page) (startElement : Node)
  (p : Node -> bool) :
  findNextElementDFS startElement (pureCondition p) w =
  (w, match body (root w) with
      | None => Throw (lit "TypeError")
      | Some b =>
          Ok (match find p (after (nodeId startElement) (elementsOf b)) with
              | Some e => Some e
              | None =>
                  find p (after (nodeId startElement) (elementsOf (root w)))
              end)
      end) /\
  (forall b, body (root w) = Some b ->
     ~ In (nodeId startElement) (map nodeId (elementsOf (root w))) ->
     snd (findNextElementDFS startElement (pureCondition p) w) = Ok None).
Proof.
  split; [apply findNextElementDFS_pure|].
  intros b Hb Hout. rewrite findNextElementDFS_pure, Hb. cbn [snd].
  destruct (body_split _ _ Hb) as [pre [post Hsplit]].
  assert (Hb' : ~ In (nodeId startElement) (map nodeId (elementsOf b))).
  { intros H. apply Hout. rewrite Hsplit, !map_app.
    apply in_or_app. right. apply in_or_app. now left. }
  now rewrite (after_none _ _ Hb'), (after_none _ _ Hout).
Qed.

(* ================================================================== *)
(** * The whole-document search looks at the elements after the body *)
(* ================================================================== *)

Lemma elementsOf_ids n e : In e (elementsOf n) -> In (nodeId e) (nodeIds n).
Proof.
  induction n as [i x|i t a v kids IH] using Node_rect'; [intros []|].
  rewrite elementsOf_Element, nodeIds_Element. intros [<-|He].
  - now left.
  - right. apply in_flat_map in He. destruct He as [k [Hk He]].
    apply in_flat_map. exists k. split; [exact Hk|].
    rewrite Forall_forall in IH. now apply IH.
Qed.

Lemma elementsOf_ids_map n x :
  In x (map nodeId (elementsOf n)) -> In x (nodeIds n).
Proof.
  intros H. apply in_map_iff in H. destruct H as [e [<- He]].
  now apply elementsOf_ids.
Qed.

Lemma flat_elements_ids (kids : list Node) x :
  In x (map nodeId (flat_map elementsOf kids)) -> In x (flat_map nodeIds kids).
Proof.
  intros H. apply in_map_iff in H. destruct H as [e [<- He]].
  apply in_flat_map in He. destruct He as [k [Hk He]].
  apply in_flat_map. exists k. split; [exact Hk|now apply elementsOf_ids].
Qed.

(** An update under an element the tree does not have changes nothing. *)
Lemma updateNode_absent p f n : ~ In p (nodeIds n) -> updateNode p f n = n.
Proof.
  induction n as [i x|i t a v kids IH] using Node_rect'; [reflexivity|].
  rewrite nodeIds_Element. intros H. simpl.
  destruct (i =? p) eqn:E.
  - apply Nat.eqb_eq in E. exfalso. apply H. now left.
  - f_equal. rewrite <- (map_id kids) at 2. apply map_ext_in.
    intros k Hk. rewrite Forall_forall in IH. apply IH; [exact Hk|].
    intros Hin. apply H. right. apply in_flat_map. now exists k.
Qed.

Lemma find_first_split (A : Type) (f : A -> bool) (l : list A) x :
  find f l = Some x ->
  exists l1 l2, l = l1 ++ x :: l2 /\
                (forall y, In y l1 -> f y = false) /\ f x = true.
Proof.
  induction l as [|y l IH]; [discriminate|].
  cbn [find]. destruct (f y) eqn:E.
  - intros H. inversion H. subst. exists [], l. repeat split; auto.
    intros z [].
  - intros H. destruct (IH H) as [l1 [l2 [-> [H1 H2]]]].
    exists (y :: l1), l2. repeat split; auto.
    intros z [<-|Hz]; auto.
Qed.

Lemma find_after_misses (A : Type) (f : A -> bool) (l1 l2 : list A) x :
  (forall y, In y l1 -> f y = false) -> f x = true ->
  find f (l1 ++ x :: l2) = Some x.
Proof.
  induction l1 as [|y l1 IH]; intros H1 H2; cbn [app find].
  - now rewrite H2.
  - rewrite (H1 y) by now left. apply IH; auto.
    intros z Hz. apply H1. now right.
Qed.

Lemma find_app_first (A : Type) (f : A -> bool) (l1 l2 : list A) :
  find f (l1 ++ l2)
  = match find f l1 with Some x => Some x | None => find f l2 end.
Proof.
  induction l1 as [|y l1 IH]; [reflexivity|].
  cbn [app find]. now destruct (f y).
Qed.

Lemma filter_split (A : Type) (g : A -> bool) (kids : list A) :
  forall l1 x l2, filter g kids = l1 ++ x :: l2 ->
  exists k1 k2, kids = k1 ++ x :: k2 /\ filter g k1 = l1 /\ filter g k2 = l2.
Proof.
  induction kids as [|k ks IH]; intros l1 x l2 H.
  - destruct l1; discriminate.
  - cbn [filter] in H. destruct (g k) eqn:E.
    + destruct l1 as [|y l1]; cbn [app] in H; injection H as -> H.
      * exists [], ks. auto.
      * destruct (IH _ _ _ H) as [k1 [k2 [-> [F1 F2]]]].
        exists (y :: k1), k2. cbn [filter app]. rewrite E, F1. auto.
    + destruct (IH _ _ _ H) as [k1 [k2 [-> [F1 F2]]]].
      exists (k :: k1), k2. cbn [filter app]. rewrite E. auto.
Qed.

(** The shape of a document with a body. *)
Lemma body_shape r b :
  body r = Some b ->
  exists i t a v k1 k2 ib tb ab vb kb,
    r = Element i t a v (k1 ++ b :: k2) /\
    b = Element ib tb ab vb kb /\
    (forall y, In y (filter isElement k1) -> isBodyTag y = false) /\
    isBodyTag b = true.
Proof.
  unfold body, children. intros H.
  apply find_first_split in H. destruct H as [l1 [l2 [H [H1 H2]]]].
  destruct r as [i x|i t a v kids]; [destruct l1; discriminate|].
  cbn [childNodesOf] in H. apply filter_split in H.
  destruct H as [k1 [k2 [-> [F1 F2]]]].
  destruct b as [ib xb|ib tb ab vb kb]; [discriminate|].
  exists i, t, a, v, k1, k2, ib, tb, ab, vb, kb.
  repeat split; auto. intros y Hy. apply H1. now rewrite <- F1.
Qed.

Section AfterBody.
Variable p : Node -> bool.
Variables (i : nat) (t : str) (a : list (str * str)) (v : option str).
Variables (k1 k2 : list Node).
Variables (ib : nat) (tb : str) (ab : list (str * str)) (vb : option str).
Variable kb : list Node.
Variable d : nat.

Local Abbreviation b := (Element ib tb ab vb kb).
Local Abbreviation r := (Element i t a v (k1 ++ b :: k2)).
Local Abbreviation dummy := (Element d (lit "DIV") [] None []).
Local Abbreviation b' := (Element ib tb ab vb (dummy :: kb)).
Local Abbreviation r' := (Element i t a v (k1 ++ b' :: k2)).

Hypothesis fresh : ~ In d (nodeIds r).
Hypothesis distinct : NoDup (nodeIds r).
Hypothesis misses : forall y, In y (filter isElement k1) -> isBodyTag y = false.
Hypothesis hit : isBodyTag b = true.

Lemma fresh_parts :
  d <> i /\ d <> ib /\ ~ In d (flat_map nodeIds k1).
Proof.
  rewrite nodeIds_Element, flat_map_app in fresh. cbn [flat_map] in fresh.
  rewrite nodeIds_Element in fresh. repeat split.
  - intros ->. apply fresh. now left.
  - intros ->. apply fresh. right. apply in_or_app. right. now left.
  - intros H. apply fresh. right. apply in_or_app. now left.
Qed.

Lemma distinct_parts :
  i <> ib /\ ~ In ib (flat_map nodeIds k1) /\ ~ In ib (flat_map nodeIds k2).
Proof.
  rewrite nodeIds_Element, flat_map_app in distinct.
  cbn [flat_map] in distinct. rewrite nodeIds_Element in distinct.
  inversion distinct as [|? ? Hi ND]. subst. repeat split.
  - intros ->. apply Hi. apply in_or_app. right. now left.
  - intros H. apply (NoDup_app_disjoint _ _ _ ib ND H). now left.
  - intros H. apply NoDup_remove_2 in ND. apply ND.
    apply in_or_app. right. apply in_or_app. right.
    change (In ib (flat_map nodeIds k2)). exact H.
Qed.

(** Inserting the dummy as the first child of the body. *)
Lemma updateNode_body f :
  f kb = dummy :: kb -> updateNode ib f r = r'.
Proof.
  intros Hf. destruct distinct_parts as [H1 [H2 H3]].
  cbn [updateNode]. apply Nat.eqb_neq in H1. rewrite H1.
  f_equal. rewrite map_app. cbn [map updateNode].
  rewrite Nat.eqb_refl, Hf. f_equal; [|f_equal].
  - rewrite <- (map_id k1) at 2. apply map_ext_in. intros k Hk.
    apply updateNode_absent. intros H. apply H2. apply in_flat_map.
    now exists k.
  - rewrite <- (map_id k2) at 2. apply map_ext_in. intros k Hk.
    apply updateNode_absent. intros H. apply H3. apply in_flat_map.
    now exists k.
Qed.

Lemma body_inserted : body r' = Some b'.
Proof.
  unfold body, children. cbn [childNodesOf]. rewrite filter_app.
  cbn [filter isElement]. apply find_after_misses.
  - intros y Hy. apply misses in Hy. exact Hy.
  - exact hit.
Qed.

Lemma after_dummy_body :
  after d (elementsOf b') = flat_map elementsOf kb.
Proof.
  destruct fresh_parts as [_ [H _]].
  rewrite elementsOf_Element. cbn [flat_map]. rewrite elementsOf_Element.
  cbn [flat_map app after nodeId].
  apply not_eq_sym in H. apply Nat.eqb_neq in H. rewrite H.
  now rewrite Nat.eqb_refl.
Qed.

Lemma after_dummy_root :
  after d (elementsOf r')
  = flat_map elementsOf kb ++ flat_map elementsOf k2.
Proof.
  destruct fresh_parts as [Hi [Hb Hk]].
  rewrite elementsOf_Element, flat_map_app. cbn [flat_map after nodeId].
  apply not_eq_sym in Hi. apply Nat.eqb_neq in Hi. rewrite Hi.
  rewrite after_app_out
    by (intros H; apply Hk; now apply flat_elements_ids).
  rewrite after_app_in.
  - now rewrite after_dummy_body.
  - rewrite elementsOf_Element. cbn [flat_map]. rewrite elementsOf_Element.
    cbn [map nodeId app]. right. now left.
Qed.

Lemma after_body_root :
  after ib (elementsOf r)
  = flat_map elementsOf kb ++ flat_map elementsOf k2.
Proof.
  destruct distinct_parts as [Hi [Hk _]].
  rewrite elementsOf_Element, flat_map_app. cbn [flat_map after nodeId].
  apply Nat.eqb_neq in Hi. rewrite Hi.
  rewrite after_app_out
    by (intros H; apply Hk; now apply flat_elements_ids).
  rewrite elementsOf_Element. cbn [app after nodeId].
  now rewrite Nat.eqb_refl.
Qed.

Lemma search_after_dummy w :
  root w = r' ->
  snd (findNextElementDFS dummy (pureCondition p) w)
  = Ok (find p (after ib (elementsOf r))).
Proof.
  intros Hw. rewrite findNextElementDFS_pure, Hw, body_inserted.
  cbn [snd nodeId]. rewrite after_dummy_body, after_dummy_root.
  rewrite after_body_root. f_equal. rewrite find_app_first.
  now destruct (find p (flat_map elementsOf kb)).
Qed.
End AfterBody.

Lemma tryFinally_snd A (m : M A) (f : Page -> Page) w :
  snd (tryFinally m f w) = snd (m w).
Proof. unfold tryFinally. now destruct (m w). Qed.

Lemma bind_ret_snd A (m : M A) w :
  snd (bind m (fun x => ret x) w) = snd (m w).
Proof. unfold bind, ret. now destruct (m w) as [w' [x|e]]. Qed.

Lemma findFirstInWholeDFS_pure (w : Page) (p : Node -> bool) (b : Node) :
  NoDup (nodeIds (root w)) ->
  body (root w) = Some b ->
  snd (findFirstInWholeDFS (pureCondition p) w)
  = Ok (find p (after (nodeId b) (elementsOf (root w)))).
Proof.
  intros ND Hb. pose proof (freshId_fresh (root w)) as Hd.
  destruct (body_shape _ _ Hb)
    as [i [t [a [v [k1 [k2 [ib [tb [ab [vb [kb [Hr [Eb [H1 H2]]]]]]]]]]]]]].
  subst b. unfold findFirstInWholeDFS. rewrite !bind_gets, Hb.
  cbn [nodeId]. remember (freshId (root w)) as d eqn:Ed. clear Ed.
  destruct kb as [|first rest]; unfold firstChild;
    cbn [childNodesOf hd_error];
    rewrite bind_modifyRoot, tryFinally_snd, bind_ret_snd.
  - rewrite (search_after_dummy p i t a v k1 k2 ib tb ab vb [] d);
      try (rewrite <- Hr; assumption); try assumption.
    + now rewrite Hr.
    + cbn [setRoot root]. unfold appendChild. rewrite Hr.
      apply updateNode_body; try (now rewrite <- Hr). reflexivity.
  - rewrite (search_after_dummy p i t a v k1 k2 ib tb ab vb (first :: rest)
               d);
      try (rewrite <- Hr; assumption); try assumption.
    + now rewrite Hr.
    + cbn [setRoot root]. unfold insertBefore. rewrite Hr.
      apply updateNode_body; try (now rewrite <- Hr).
      cbn [insertInto]. now rewrite Nat.eqb_refl.
Qed.

Lemma elements_NoDup n :
  NoDup (nodeIds n) -> NoDup (map nodeId (elementsOf n)).
Proof.
  induction n as [i x|i t a v kids IH] using Node_rect'; [constructor|].
  rewrite nodeIds_Element, elementsOf_Element. cbn [map nodeId].
  intros ND. inversion ND as [|? ? Hi ND']. subst. constructor.
  - intros H. apply Hi. now apply flat_elements_ids.
  - clear Hi ND. induction IH as [|k kids Hk _ IHkids]; [constructor|].
    cbn [flat_map] in *. rewrite map_app. apply NoDup_app.
    + apply Hk. exact (NoDup_app_remove_r _ _ ND').
    + apply IHkids. exact (NoDup_app_remove_l _ _ ND').
    + intros x Hx Hx'. apply elementsOf_ids_map in Hx.
      apply flat_elements_ids in Hx'.
      exact (NoDup_app_disjoint _ _ _ x ND' Hx Hx').
Qed.

(** [findFirstInWholeDFS] with a condition that does not throw, in a
    document whose nodes are distinct objects: the result is the first
    element after [document.body] in depth-first pre-order on which the
    condition holds, or [null].  The elements before the body and the body
    itself ([html], [head] and what is in it, [body]) are never tested and
    never returned; an element returned satisfies the condition. *)
Theorem findFirstInWholeDFS_first_after_body (w : Page) (p : Node -> bool)
  (b : Node) :
  NoDup (nodeIds (root w)) ->
  body (root w) = Some b ->
  snd (findFirstInWholeDFS (pureCondition p) w)
  = Ok (find p (after (nodeId b) (elementsOf (root w)))) /\
  (forall e, snd (findFirstInWholeDFS (pureCondition p) w) = Ok (Some e) ->
             p e = true /\
             In e (after (nodeId b) (elementsOf (root w))) /\
             nodeId e <> nodeId b).
Proof.
  intros ND Hb. pose proof (findFirstInWholeDFS_pure w p b ND Hb) as E.
  split; [exact E|].
  intros e He. rewrite E in He. injection He as He.
  apply find_some in He. destruct He as [Hin Hp].
  repeat split; auto.
  apply (after_not_start _ _ _ (elements_NoDup _ ND) Hin).
Qed.

Lemma findFirstInWholeDFS_first_after_body_witness :
  snd (findFirstInWholeDFS
         (pureCondition (fun e => Str.eqb (tagOf e) (lit "H3")))
         Examples.monitorPage)
  = Ok (Some (Examples.el 8 "H3" []
                [Examples.txt 9
                   "[Triggered] {environment:production} Disk Space Alert"])) /\
  snd (findFirstInWholeDFS
         (pureCondition (fun e => Str.eqb (tagOf e) (lit "HEAD")))
         Examples.monitorPage)
  = Ok None.
Proof.
  assert (ND : NoDup (nodeIds (root Examples.monitorPage))).
  { vm_compute. repeat constructor; simpl; intuition lia. }
  destruct (body (root Examples.monitorPage)) as [b|] eqn:Hb;
    [|vm_compute in Hb; discriminate].
  pose proof Hb as Hb'. vm_compute in Hb'. injection Hb' as Hb'. subst b.
  split.
  - rewrite (proj1 (findFirstInWholeDFS_first_after_body
                      Examples.monitorPage _ _ ND Hb)).
    vm_compute. reflexivity.
  - rewrite (proj1 (findFirstInWholeDFS_first_after_body
                      Examples.monitorPage _ _ ND Hb)).
    vm_compute. reflexivity.
Defined.

(* ================================================================== *)
(** * The normal form of cleaned content *)
(* ================================================================== *)

Lemma collapse_no_double b (a s : str) :
  collapse b (a ++ 32%N :: 32%N :: s) <> a ++ 32%N :: 32%N :: s.
Proof.
  intros H. apply (f_equal (@length N)) in H.
  rewrite collapse_app, !length_app in H.
  pose proof (collapse_length b a) as La.
  assert (L2 : length (collapse (endState b a) (32%N :: 32%N :: s))
               <= S (length s)).
  { cbn [collapse]. change (isWhiteSpace 32%N) with true. cbv iota.
    pose proof (collapse_length true s).
    destruct (endState b a); cbn [length]; lia. }
  cbn [length] in H. lia.
Qed.

(** What [cleanupContent] returns is in normal form: trimming it or
    collapsing its white space again changes nothing, every white space unit
    in it is a plain space, no two spaces are adjacent, and it is on one
    line. *)
Theorem cleanupContent_normal_form (content : str) :
  trim (cleanupContent content) = cleanupContent content /\
  replaceAll ws_plus (lit " ") (cleanupContent content)
  = cleanupContent content /\
  (forall c, In c (cleanupContent content) -> isWhiteSpace c = true ->
             c = 32%N) /\
  (forall a b, cleanupContent content <> a ++ 32%N :: 32%N :: b) /\
  (forall c, In c (cleanupContent content) -> isLineTerminator c = false).
Proof.
  assert (F : replaceAll ws_plus (lit " ") (cleanupContent content)
              = cleanupContent content).
  { destruct content as [|x s]; [reflexivity|].
    unfold cleanupContent. rewrite !replaceAll_ws_plus.
    apply collapse_trim_fixed. apply collapse_idem. }
  split; [|split; [exact F|split; [|split]]].
  - destruct content as [|x s]; [reflexivity|].
    unfold cleanupContent. apply trim_idem.
  - intros c Hc W. rewrite <- F, replaceAll_ws_plus in Hc.
    exact (collapse_spaces _ _ _ Hc W).
  - intros a b E. rewrite replaceAll_ws_plus, E in F.
    exact (collapse_no_double _ _ _ F).
  - intros c Hc. pose proof (cleanupContent_one_line content) as D.
    rewrite forallb_forall in D. specialize (D c Hc). unfold dot in D.
    now destruct (isLineTerminator c).
Qed.

(* ================================================================== *)
(** * Greedy quantifiers: the longest repetition wins *)
(* ================================================================== *)

Section GreedyChoice.
Variable R : Type.
Variable f : char -> bool.
Variable k : nat -> str -> option R.

(** The greedy quantifier stops at the longest run after which the rest of
    the pattern matches. *)
Lemma greedy_longest a b : forall i r,
  forallb f a = true -> k (i + length a) b = Some r ->
  (forall a' b', a ++ b = a' ++ b' -> length a < length a' ->
                 forallb f a' = true -> k (i + length a') b' = None) ->
  greedy R f k 0 i (a ++ b) = Some r.
Proof.
  induction a as [|c a IH]; intros i r Fa K Later.
  - cbn [app length] in *. rewrite Nat.add_0_r in K.
    destruct b as [|x b]; cbn [greedy Nat.eqb pred]; [exact K|].
    destruct (f x) eqn:E; [|exact K].
    destruct (greedy R f k 0 (S i) b) as [r'|] eqn:G; [|exact K].
    exfalso. apply greedy_sound in G. destruct G as [a1 [b1 [-> [F1 K1]]]].
    assert (N : k (i + length (x :: a1)) b1 = None).
    { apply Later.
      - reflexivity.
      - cbn [length]. lia.
      - cbn [forallb]. now rewrite E, F1. }
    cbn [length] in N.
    replace (i + S (length a1)) with (S i + length a1) in N by lia.
    rewrite N in K1. discriminate.
  - cbn [forallb] in Fa. apply andb_true_iff in Fa. destruct Fa as [E Fa].
    cbn [app greedy Nat.eqb pred]. rewrite E.
    rewrite (IH (S i) r).
    + reflexivity.
    + exact Fa.
    + cbn [length] in K.
      now replace (S i + length a) with (i + S (length a)) by lia.
    + intros a' b' Sp L F'.
      replace (S i + length a') with (i + length (c :: a'))
        by (cbn [length]; lia).
      apply Later.
      * cbn [app]. now rewrite Sp.
      * cbn [length]. lia.
      * cbn [forallb]. now rewrite E, F'.
Qed.

(** A quantifier before the end of the input takes all of it, or fails. *)
Lemma greedy_to_end s : forall n i,
  (forall j c t, k j (c :: t) = None) ->
  greedy R f k n i s =
  if forallb f s && (n <=? length s) then k (i + length s) [] else None.
Proof.
  induction s as [|c t IH]; intros n i Hk.
  - cbn [greedy forallb length andb]. rewrite Nat.add_0_r.
    now destruct n.
  - cbn [greedy forallb length]. rewrite Hk.
    destruct (f c); cbn [andb].
    + rewrite (IH (pred n) (S i) Hk).
      replace (S i + length t) with (i + S (length t)) by lia.
      assert (E : (pred n <=? length t) = (n <=? S (length t))).
      { destruct n; [reflexivity|]. reflexivity. }
      rewrite E.
      destruct (forallb f t && (n <=? S (length t)));
        [destruct (k (i + S (length t)) [])|];
        now destruct (n =? 0).
    + now destruct (n =? 0).
Qed.
End GreedyChoice.

(* ================================================================== *)
(** * Separators: a space, a dash, a space *)
(* ================================================================== *)

Lemma includes_suffix p (u v : str) :
  includes p (u ++ v) = false -> startsWith p v = false.
Proof.
  induction u as [|c u IH]; cbn [app].
  - destruct v; cbn [includes]; intros H; apply orb_false_iff in H; tauto.
  - cbn [includes]. intros H. apply orb_false_iff in H. apply IH. tauto.
Qed.

(** No separator starts inside or after the separator of
    [a ++ " x " ++ b] when none occurs in [" " ++ b]. *)
Lemma no_separator_after (x y : char) (b u v : str) :
  x <> 32%N ->
  includes [32%N; y; 32%N] (32%N :: b) = false ->
  u <> [] ->
  [32%N; x; 32%N] ++ b = u ++ v ->
  startsWith [32%N; y; 32%N] v = false.
Proof.
  intros Hx Hb Hu E.
  destruct u as [|u0 [|u1 [|u2 u3]]]; [contradiction| | |];
    cbn [app] in E.
  - injection E as _ E. rewrite <- E. cbn [startsWith].
    apply N.eqb_neq in Hx. rewrite N.eqb_sym, Hx. reflexivity.
  - injection E as _ _ E. rewrite <- E.
    apply (includes_suffix _ [] _ Hb).
  - injection E as _ _ _ E. rewrite E in Hb.
    apply (includes_suffix _ (32%N :: u3) v Hb).
Qed.

Lemma split_later (a p b a' b' : str) :
  a ++ p ++ b = a' ++ b' -> length a < length a' ->
  exists u, u <> [] /\ p ++ b = u ++ b'.
Proof.
  intros E L. apply app_eq_app in E.
  destruct E as [l [[-> E]|[-> E]]].
  - rewrite length_app in L. lia.
  - exists l. split; [|exact E].
    intros ->. rewrite app_nil_r in L. lia.
Qed.

(* ================================================================== *)
(** * The pattern "content - service" *)
(* ================================================================== *)

Lemma dash_tail (title : str) i s' :
  run (Close :: chars (lit " - ") ++ [Open; Rep dot 1 true; Close; Eos])
      i s' [title] [] =
  if startsWith (lit " - ") s'
     && forallb dot (skipn 3 s') && (1 <=? length (skipn 3 s'))
  then Some ([firstn (length title - length s') title; skipn 3 s'], [])
  else None.
Proof.
  cbn [run]. rewrite run_chars.
  destruct (startsWith (lit " - ") s'); [|reflexivity].
  cbn [andb run length]. change (length (lit " - ")) with 3.
  rewrite greedy_to_end by reflexivity.
  destruct (forallb dot (skipn 3 s') && (1 <=? length (skipn 3 s')));
    [|reflexivity].
  cbn [run rev app length]. now rewrite Nat.sub_0_r, firstn_all.
Qed.

Lemma exec_dashPattern s :
  exec dashPattern s =
  match greedy _ dot
          (fun i' s' =>
             run (Close :: chars (lit " - ")
                  ++ [Open; Rep dot 1 true; Close; Eos]) i' s' [s] [])
          0 0 s with
  | Some (caps, r) =>
      Some {| index := 0; matched := firstn (length s - length r) s;
              groups := caps; rest := r |}
  | None => None
  end.
Proof. unfold dashPattern. cbn [app]. now rewrite exec_Bos. Qed.

(** A match of the pattern splits a one-line title at a [" - "] with
    something after it. *)
Lemma dashPattern_sound s m :
  exec dashPattern s = Some m ->
  exists content service,
    s = content ++ lit " - " ++ service /\ groups m = [content; service] /\
    service <> [] /\ forallb dot s = true.
Proof.
  rewrite exec_dashPattern.
  destruct (greedy _ dot _ 0 0 s) as [[caps r]|] eqn:G; [|discriminate].
  intros H. inversion H. subst m. cbn [groups].
  apply greedy_sound in G. destruct G as [a [b [-> [Fa K]]]].
  rewrite dash_tail in K.
  destruct (startsWith (lit " - ") b) eqn:S; [|discriminate].
  destruct (forallb dot (skipn 3 b)) eqn:D; [|discriminate].
  destruct (1 <=? length (skipn 3 b)) eqn:L; [|discriminate].
  cbn [andb] in K. inversion K. subst. clear K.
  pose proof (startsWith_split _ _ S) as Eb.
  change (length (lit " - ")) with 3 in Eb.
  exists a, (skipn 3 b). rewrite firstn_app_length. repeat split.
  - now rewrite <- Eb.
  - intros E. rewrite E in L. discriminate.
  - rewrite forallb_app. apply andb_true_iff. split; [exact Fa|].
    rewrite Eb, forallb_app. apply andb_true_iff.
    split; [reflexivity|exact D].
Qed.

(** On a one-line title the pattern splits at the last [" - "]. *)
Lemma dashPattern_last content service :
  forallb dot (content ++ lit " - " ++ service) = true ->
  service <> [] ->
  includes (lit " - ") (32%N :: service) = false ->
  exists m, exec dashPattern (content ++ lit " - " ++ service) = Some m /\
            groups m = [content; service].
Proof.
  intros D Hs Hi. rewrite exec_dashPattern.
  rewrite forallb_app in D. apply andb_true_iff in D. destruct D as [Dc D].
  rewrite forallb_app in D. apply andb_true_iff in D. destruct D as [_ Ds].
  erewrite (greedy_longest _ _ _ content (lit " - " ++ service) 0).
  2: exact Dc.
  2: { rewrite dash_tail, startsWith_app.
       change (skipn 3 (lit " - " ++ service)) with service.
       unfold char in *. rewrite Ds.
       destruct service; [contradiction|]. cbn [andb length Nat.leb].
       now rewrite firstn_app_length. }
  2: { intros a' b' E L _. rewrite dash_tail.
       destruct (split_later _ _ _ _ _ E L) as [u [Hu Eu]].
       change (lit " - ") with [32%N; 45%N; 32%N] in *.
       assert (Z : startsWith [32%N; 45%N; 32%N] b' = false)
         by (apply (no_separator_after 45%N 45%N service u b'); auto;
             discriminate).
       rewrite Z. reflexivity. }
  eexists. split; reflexivity.
Qed.

Lemma dashPattern_none s :
  includes (lit " - ") s = false \/ forallb dot s = false ->
  exec dashPattern s = None.
Proof.
  intros H. destruct (exec dashPattern s) as [m|] eqn:E; [|reflexivity].
  apply dashPattern_sound in E.
  destruct E as [c [v [-> [_ [_ D]]]]].
  destruct H as [H|H]; [rewrite includes_app in H|rewrite D in H];
    discriminate.
Qed.

(* ================================================================== *)
(** * The AWS documentation rule *)
(* ================================================================== *)

(** [awsDocs] on a page titled "content - service": the service goes first.
    On a one-line title the split is at the last [" - "] (one with text
    after it); the title becomes "service: content".  A title without
    [" - "], and any title with a line break in it, is returned as it is.
    The link is the page's address, and the page is left as it is. *)
Theorem awsDocs_service_first (w : Page) (content service : str) :
  documentTitle w = content ++ lit " - " ++ service ->
  forallb dot (documentTitle w) = true ->
  service <> [] ->
  includes (lit " - ") (32%N :: service) = false ->
  Rule.getDocInfo awsDocs w =
  (w, Ok (linkAndTitle (href (location w))
            (Some (service ++ lit ": " ++ content)))) /\
  (forall w',
     includes (lit " - ") (documentTitle w') = false \/
     forallb dot (documentTitle w') = false ->
     Rule.getDocInfo awsDocs w' =
     (w', Ok (linkAndTitle (href (location w')) (Some (documentTitle w'))))).
Proof.
  intros E D Hs Hi. split.
  - unfold awsDocs. cbn [Rule.getDocInfo]. rewrite bind_gets.
    rewrite E in D |- *.
    destruct (dashPattern_last content service D Hs Hi) as [m [-> G]].
    now rewrite G.
  - intros w' H. unfold awsDocs. cbn [Rule.getDocInfo]. rewrite bind_gets.
    now rewrite (dashPattern_none _ H).
Qed.

(* ================================================================== *)
(** * The generic title on video and book pages *)
(* ================================================================== *)

Lemma includes_youtube h :
  includes (lit "youtube.") h = false ->
  includes (lit "youtube.com") h = false.
Proof.
  intros Hy.
  destruct (includes (lit "youtube.com") h) eqn:E; [|reflexivity].
  apply includes_split in E. destruct E as [a [r E]].
  rewrite E in Hy.
  change (lit "youtube.com") with (lit "youtube." ++ lit "com") in Hy.
  rewrite <- app_assoc, includes_app in Hy. discriminate.
Qed.

Lemma ogType_not_book (t : option str) (x : str) :
  t <> Some (lit "books.book") ->
  match t with
  | Some ogType => if Str.eqb ogType (lit "books.book") then [] else x
  | None => x
  end = x.
Proof.
  intros H. destruct t as [ogType|]; [|reflexivity].
  destruct (Str.eqb ogType (lit "books.book")) eqn:E; [|reflexivity].
  apply Str_eqb_eq in E. subst. now contradiction H.
Qed.

(** [getTitle] on a YouTube host, for an [og:title] that is not a book's.
    When the normalised [og:title] reads "video - channel" (split at its
    last [" - "]), the result is "video (channel)", both parts trimmed.
    When it has no [" - "], the result is the normalised [og:title],
    followed in parentheses by the schema.org author as found in the page
    (not normalised) when there is one. *)
Theorem getTitle_youtube (w : Page) (c : char) (s video channel : str) :
  getMetaContent (lit "og:title") w = Some (c :: s) ->
  getMetaContent (lit "og:type") w <> Some (lit "books.book") ->
  includes (lit "youtube.") (hostname (location w)) = true ->
  (cleanupContent (c :: s) = video ++ lit " - " ++ channel ->
   channel <> [] ->
   includes (lit " - ") (32%N :: channel) = false ->
   getTitle w = trim video ++ lit " (" ++ trim channel ++ lit ")") /\
  (includes (lit " - ") (cleanupContent (c :: s)) = false ->
   getTitle w =
   cleanupContent (c :: s)
   ++ match getSchemaOrgAuthor w with
      | Some (a :: u) => lit " (" ++ (a :: u) ++ lit ")"
      | _ => []
      end).
Proof.
  intros Hog Ht Hy.
  assert (T : getTitle w =
    match exec dashPattern (cleanupContent (c :: s)) with
    | Some titleMatch =>
        trim (nth 0 (groups titleMatch) []) ++ lit " ("
        ++ trim (nth 1 (groups titleMatch) []) ++ lit ")"
    | None =>
        match getSchemaOrgAuthor w with
        | Some (a :: u) =>
            cleanupContent (c :: s) ++ lit " (" ++ (a :: u) ++ lit ")"
        | _ => cleanupContent (c :: s)
        end
    end).
  { unfold getTitle. rewrite Hog, Hy, orb_true_r.
    destruct (getMetaContent (lit "og:type") w) as [ogType|]; [|reflexivity].
    destruct (Str.eqb ogType (lit "books.book")) eqn:E; [|reflexivity].
    apply Str_eqb_eq in E. subst. now contradiction Ht. }
  split.
  - intros E Hc Hi. rewrite T, E.
    destruct (dashPattern_last video channel) as [m [-> G]]; auto.
    + rewrite <- E. apply cleanupContent_one_line.
    + now rewrite G.
  - intros Hn. rewrite T, dashPattern_none by now left.
    destruct (getSchemaOrgAuthor w) as [[|a u]|];
      rewrite ?app_nil_r; reflexivity.
Qed.

Lemma indexOf_unit_none (x : N) (s : list N) :
  indexOf [x] s = None -> ~ In x s.
Proof.
  induction s as [|y s IH]; [intros _ []|].
  cbn [indexOf startsWith]. rewrite andb_true_r.
  destruct (N.eqb x y) eqn:E; [discriminate|].
  destruct (indexOf [x] s); [discriminate|].
  intros _ [H|H]; [|now apply IH].
  apply N.eqb_neq in E. congruence.
Qed.

(** The index of a unit splits the string at its first occurrence. *)
Lemma indexOf_unit_first (x : N) (a b : list N) :
  ~ In x a -> indexOf [x] (a ++ x :: b) = Some (length a).
Proof.
  induction a as [|y a IH]; intros H.
  - cbn [app indexOf startsWith length]. now rewrite N.eqb_refl.
  - cbn [app indexOf startsWith length]. rewrite andb_true_r.
    destruct (N.eqb x y) eqn:E.
    + apply N.eqb_eq in E. exfalso. apply H. now left.
    + rewrite IH; [reflexivity|]. intros Hin. apply H. now right.
Qed.

(** [getTitle] on a book page ([og:type] is [books.book]) off YouTube: the
    normalised [og:title] is cut before its first colon and trimmed, so a
    subtitle is dropped and the result has no colon; without a colon the
    normalised [og:title] is the result. *)
Theorem getTitle_book (w : Page) (c : char) (s main subtitle : str) :
  getMetaContent (lit "og:title") w = Some (c :: s) ->
  getMetaContent (lit "og:type") w = Some (lit "books.book") ->
  includes (lit "youtube.") (hostname (location w)) = false ->
  (cleanupContent (c :: s) = main ++ lit ":" ++ subtitle ->
   ~ In 58%N main ->
   getTitle w = trim main /\ ~ In 58%N (getTitle w)) /\
  (~ In 58%N (cleanupContent (c :: s)) ->
   getTitle w = cleanupContent (c :: s)).
Proof.
  intros Hog Ht Hy.
  assert (T : getTitle w =
    match indexOf (lit ":") (cleanupContent (c :: s)) with
    | Some colonIndex =>
        trim (substring 0 colonIndex (cleanupContent (c :: s)))
    | None => cleanupContent (c :: s)
    end).
  { unfold getTitle.
    rewrite Hog, Ht, Hy, (includes_youtube _ Hy), Str_eqb_refl.
    reflexivity. }
  split.
  - intros E Hm. rewrite T, E.
    change (lit ":" ++ subtitle) with (58%N :: subtitle).
    change (lit ":") with [58%N].
    rewrite (indexOf_unit_first 58%N main subtitle Hm).
    unfold substring. cbn [skipn]. rewrite Nat.sub_0_r.
    rewrite firstn_app, Nat.sub_diag, firstn_all. cbn [firstn].
    rewrite app_nil_r. split; [reflexivity|].
    intros H. apply Hm. now apply trim_In in H.
  - intros Hn. rewrite T. change (lit ":") with [58%N].
    destruct (indexOf [58%N] (cleanupContent (c :: s))) as [i|] eqn:E;
      [|reflexivity].
    exfalso. clear -E Hn.
    revert i E. induction (cleanupContent (c :: s)) as [|y l IH];
      intros i E; [discriminate|].
    cbn [indexOf startsWith] in E. rewrite andb_true_r in E.
    destruct (N.eqb 58 y) eqn:Q.
    + apply N.eqb_eq in Q. apply Hn. now left.
    + destruct (indexOf [58%N] l) as [j|] eqn:J; [|discriminate].
      apply (IH (fun H => Hn (or_intror H)) j eq_refl).
Qed.

(* ================================================================== *)
(** * The last separator of a title *)
(* ================================================================== *)

Lemma lastIndexOf_none p (t : list N) :
  (forall u v, t = u ++ v -> startsWith p v = false) ->
  lastIndexOf p t = None.
Proof.
  induction t as [|c t IH]; intros H.
  - cbn [lastIndexOf]. now rewrite (H [] []).
  - cbn [lastIndexOf]. rewrite IH.
    + now rewrite (H [] (c :: t)).
    + intros u v E. apply (H (c :: u) v). now rewrite E.
Qed.

(** The occurrence at [a] is the last one when none starts after it. *)
Lemma lastIndexOf_last p (a b : list N) :
  (forall u v, u <> [] -> p ++ b = u ++ v -> startsWith p v = false) ->
  lastIndexOf p (a ++ p ++ b) = Some (length a).
Proof.
  intros H. induction a as [|c a IH].
  - cbn [app length]. destruct (p ++ b) as [|x s] eqn:E.
    + cbn [lastIndexOf]. destruct p; [reflexivity|discriminate].
    + cbn [lastIndexOf]. rewrite lastIndexOf_none.
      * rewrite <- E. now rewrite startsWith_app.
      * intros u v Es. apply (H (x :: u) v); [discriminate|].
        now rewrite Es.
  - cbn [app lastIndexOf length]. now rewrite IH.
Qed.

(** Another pattern that does not start after [a] is not found after it. *)
Lemma lastIndexOf_before q p (a b : list N) :
  (forall u v, u <> [] -> p ++ b = u ++ v -> startsWith q v = false) ->
  forall m, lastIndexOf q (a ++ p ++ b) = Some m -> m <= length a.
Proof.
  intros H. induction a as [|c a IH]; intros m.
  - cbn [app length]. destruct (p ++ b) as [|x s] eqn:E.
    + cbn [lastIndexOf]. destruct (startsWith q []); [|discriminate].
      intros M. inversion M. lia.
    + cbn [lastIndexOf]. rewrite lastIndexOf_none.
      * destruct (startsWith q (x :: s)); [|discriminate].
        intros M. inversion M. lia.
      * intros u v Es. apply (H (x :: u) v); [discriminate|].
        now rewrite Es.
  - cbn [app lastIndexOf length].
    destruct (lastIndexOf q (a ++ p ++ b)) as [i|].
    + intros M. inversion M. specialize (IH i eq_refl). lia.
    + destruct (startsWith q (c :: a ++ p ++ b)); [|discriminate].
      intros M. inversion M. lia.
Qed.

Lemma maxIndex_last (other : option nat) n :
  (forall m, other = Some m -> m <= n) ->
  maxIndex other (Some n) = Some n /\ maxIndex (Some n) other = Some n.
Proof.
  intros H. destruct other as [m|]; cbn [maxIndex]; [|auto].
  specialize (H m eq_refl). split; f_equal; lia.
Qed.

Lemma includes_none_anywhere p (s : list N) :
  includes p s = false -> forall u v, s = u ++ v -> startsWith p v = false.
Proof. intros H u v ->. now apply (includes_suffix p u v). Qed.

(* ================================================================== *)
(** * The documents and design tools rule *)
(* ================================================================== *)

Lemma docsAndDesignTools_result w :
  Rule.getDocInfo docsAndDesignTools w =
  (w, Ok (linkAndTitle (origin (location w) ++ pathname (location w))
            (Some (if includes enDash (documentTitle w)
                      || includes (lit " - ") (documentTitle w)
                   then
                     match maxIndex (lastIndexOf enDash (documentTitle w))
                             (lastIndexOf (lit " - ") (documentTitle w)) with
                     | Some i =>
                         substring 0 i (documentTitle w) ++ lit " ("
                         ++ substringFrom (i + 3) (documentTitle w) ++ lit ")"
                     | None => documentTitle w
                     end
                   else documentTitle w)))).
Proof.
  unfold docsAndDesignTools. cbn [Rule.getDocInfo]. rewrite bind_gets.
  destruct (includes enDash (documentTitle w)
            || includes (lit " - ") (documentTitle w)); [|reflexivity].
  now destruct (maxIndex _ _).
Qed.

Lemma split_title (content sep product : list N) :
  length sep = 3 ->
  substring 0 (length content) (content ++ sep ++ product) = content /\
  substringFrom (length content + 3) (content ++ sep ++ product) = product.
Proof.
  intros L. unfold substring, substringFrom. cbn [skipn]. split.
  - rewrite Nat.sub_0_r, firstn_app, Nat.sub_diag, firstn_all.
    cbn [firstn]. apply app_nil_r.
  - rewrite skipn_app, skipn_all2 by lia.
    replace (length content + 3 - length content) with 3 by lia.
    cbn [app]. rewrite skipn_app, skipn_all2 by lia. rewrite L.
    reflexivity.
Qed.

(** [docsAndDesignTools] on a page titled "content - product" or
    "content – product": when neither separator occurs further on (in
    [" " ++ product]), the title becomes "content (product)", whichever of
    the two separators it is; a title with neither separator is returned as
    it is.  The link is the origin and path of the address, without query
    and fragment. *)
Theorem docsAndDesignTools_last_separator (w : Page)
  (content separator product : str) :
  documentTitle w = content ++ separator ++ product ->
  separator = lit " - " \/ separator = enDash ->
  includes (lit " - ") (32%N :: product) = false ->
  includes enDash (32%N :: product) = false ->
  Rule.getDocInfo docsAndDesignTools w =
  (w, Ok (linkAndTitle (origin (location w) ++ pathname (location w))
            (Some (content ++ lit " (" ++ product ++ lit ")")))) /\
  (forall w',
     includes (lit " - ") (documentTitle w') = false ->
     includes enDash (documentTitle w') = false ->
     Rule.getDocInfo docsAndDesignTools w' =
     (w', Ok (linkAndTitle (origin (location w') ++ pathname (location w'))
                (Some (documentTitle w'))))).
Proof.
  intros E Hsep Hh He. split.
  - rewrite docsAndDesignTools_result, E.
    change (lit " - ") with [32%N; 45%N; 32%N] in *.
    change enDash with [32%N; 8211%N; 32%N] in *.
    assert (Hi : includes [32%N; 8211%N; 32%N] (content ++ separator ++ product)
                 || includes [32%N; 45%N; 32%N] (content ++ separator ++ product)
                 = true).
    { destruct Hsep as [->| ->]; rewrite includes_app;
        [apply orb_true_r|reflexivity]. }
    rewrite Hi.
    assert (M : maxIndex
                  (lastIndexOf [32%N; 8211%N; 32%N]
                     (content ++ separator ++ product))
                  (lastIndexOf [32%N; 45%N; 32%N]
                     (content ++ separator ++ product))
                = Some (length content)).
    { destruct Hsep as [->| ->].
      - rewrite (lastIndexOf_last [32%N; 45%N; 32%N] content product).
        + apply maxIndex_last.
          apply (lastIndexOf_before [32%N; 8211%N; 32%N]).
          intros u v Hu Eu.
          apply (no_separator_after 45%N 8211%N product u v); auto.
          discriminate.
        + intros u v Hu Eu.
          apply (no_separator_after 45%N 45%N product u v); auto.
          discriminate.
      - rewrite (lastIndexOf_last [32%N; 8211%N; 32%N] content product).
        + apply maxIndex_last.
          apply (lastIndexOf_before [32%N; 45%N; 32%N]).
          intros u v Hu Eu.
          apply (no_separator_after 8211%N 45%N product u v); auto.
          discriminate.
        + intros u v Hu Eu.
          apply (no_separator_after 8211%N 8211%N product u v); auto.
          discriminate. }
    rewrite M.
    assert (L : length separator = 3) by (destruct Hsep as [->| ->]; reflexivity).
    destruct (split_title content separator product L) as [-> ->].
    reflexivity.
  - intros w' Hh' He'. rewrite docsAndDesignTools_result, Hh', He'.
    reflexivity.
Qed.

(* ================================================================== *)
(** * Path segments *)
(* ================================================================== *)

Lemma splitOn_not_nil (sep : N) (s : list N) : splitOn sep s <> [].
Proof.
  destruct s as [|c t]; cbn [splitOn]; [discriminate|].
  destruct (N.eqb c sep); [discriminate|].
  destruct (splitOn sep t); discriminate.
Qed.

(** A string without the separator is one segment. *)
Lemma splitOn_one (sep : N) (a : list N) :
  ~ In sep a -> splitOn sep a = [a].
Proof.
  induction a as [|c a IH]; intros H; [reflexivity|].
  cbn [splitOn]. destruct (N.eqb c sep) eqn:E.
  - apply N.eqb_eq in E. exfalso. apply H. now left.
  - rewrite IH; [reflexivity|]. intros Hin. apply H. now right.
Qed.

(** The first segment ends at the first separator. *)
Lemma splitOn_segment (sep : N) (a b : list N) :
  ~ In sep a -> splitOn sep (a ++ sep :: b) = a :: splitOn sep b.
Proof.
  induction a as [|c a IH]; intros H.
  - cbn [app splitOn]. now rewrite N.eqb_refl.
  - cbn [app splitOn]. destruct (N.eqb c sep) eqn:E.
    + apply N.eqb_eq in E. exfalso. apply H. now left.
    + rewrite IH; [reflexivity|]. intros Hin. apply H. now right.
Qed.

Lemma last_cons_not_nil (A : Type) (x d : A) (l : list A) :
  l <> [] -> last (x :: l) d = last l d.
Proof. destruct l; [contradiction|reflexivity]. Qed.

(** The last segment is what follows the last separator. *)
Lemma splitOn_last (sep : N) (d pre id : list N) :
  ~ In sep id -> last (splitOn sep (pre ++ sep :: id)) d = id.
Proof.
  intros H. revert pre.
  assert (G : forall s, last (splitOn sep (s ++ sep :: id)) d = id).
  { induction s as [|c s IH].
    - cbn [app splitOn]. rewrite N.eqb_refl, splitOn_one by exact H.
      reflexivity.
    - cbn [app splitOn]. destruct (N.eqb c sep).
      + rewrite last_cons_not_nil by apply splitOn_not_nil. exact IH.
      + destruct (splitOn sep (s ++ sep :: id)) as [|x l] eqn:E.
        * now apply splitOn_not_nil in E.
        * destruct l as [|y l]; [|exact IH].
          exfalso. clear -E H.
          revert x E. induction s as [|c s IHs]; intros x E.
          -- cbn [app splitOn] in E. rewrite N.eqb_refl in E.
             destruct (splitOn sep id) eqn:Q; [|discriminate].
             now apply splitOn_not_nil in Q.
          -- cbn [app splitOn] in E. destruct (N.eqb c sep).
             ++ destruct (splitOn sep (s ++ sep :: id)) eqn:Q;
                  [|discriminate].
                now apply splitOn_not_nil in Q.
             ++ destruct (splitOn sep (s ++ sep :: id)) as [|x' l'] eqn:Q;
                  [now apply splitOn_not_nil in Q|].
                injection E as _ ->. now apply (IHs x'). }
  exact G.
Qed.

(* ================================================================== *)
(** * The deploys rule *)
(* ================================================================== *)

Lemma figmaDeploys_result w :
  Rule.getDocInfo figmaDeploys w =
  (w, Ok (linkAndTitle (href (location w))
            (Some (let chainId :=
                     last (splitOn 47 (pathname (location w))) undefinedText in
                   match documentQuerySelector (byTag (lit "H4")) (root w) with
                   | Some h4Element =>
                       (if truthy (textContent h4Element)
                           && negb (includes (lit "#" ++ chainId)
                                      (textContent h4Element))
                        then textContent h4Element ++ lit " #" ++ chainId
                        else textContent h4Element)
                       ++ lit " (Figma Deploys)"
                   | None =>
                       documentTitle w ++ lit " #" ++ chainId
                       ++ lit " (Figma Deploys)"
                   end)))).
Proof.
  unfold figmaDeploys. cbn [Rule.getDocInfo]. rewrite bind_gets.
  unfold tryCatch, findElement, bind, gets, throw, ret.
  now destruct (documentQuerySelector (byTag (lit "H4")) (root w)).
Qed.

(** [figmaDeploys]: the chain id is what follows the last [/] of the path.
    With an [h4] whose text is not empty, the title is that text, with
    " #id" appended unless it holds "#id" already; without an [h4] it is
    [document.title] with " #id" appended; in both cases the title holds
    "#id".  An [h4] with an empty text gives the title " (Figma Deploys)",
    without the id.  The rule never throws; the link is the page's
    address. *)
Theorem figmaDeploys_chain_id (w : Page) (pre id : str) :
  pathname (location w) = pre ++ lit "/" ++ id ->
  ~ In 47%N id ->
  exists title,
    Rule.getDocInfo figmaDeploys w =
    (w, Ok (linkAndTitle (href (location w)) (Some title))) /\
    match documentQuerySelector (byTag (lit "H4")) (root w) with
    | Some h4Element =>
        match textContent h4Element with
        | [] => title = lit " (Figma Deploys)"
        | c :: h =>
            title =
            (if includes (lit "#" ++ id) (c :: h) then c :: h
             else (c :: h) ++ lit " #" ++ id) ++ lit " (Figma Deploys)" /\
            includes (lit "#" ++ id) title = true
        end
    | None =>
        title = documentTitle w ++ lit " #" ++ id ++ lit " (Figma Deploys)" /\
        includes (lit "#" ++ id) title = true
    end.
Proof.
  intros E Hid. rewrite figmaDeploys_result. cbv zeta. rewrite E.
  change (lit "/" ++ id) with (47%N :: id).
  rewrite (splitOn_last 47%N undefinedText pre id Hid).
  eexists. split; [reflexivity|].
  change (lit " #" ++ id ++ lit " (Figma Deploys)")
    with ([32%N] ++ (lit "#" ++ id) ++ lit " (Figma Deploys)").
  change (lit " #" ++ id) with ([32%N] ++ (lit "#" ++ id)).
  set (P := lit "#" ++ id).
  destruct (documentQuerySelector (byTag (lit "H4")) (root w)) as [h4|].
  - destruct (textContent h4) as [|c h]; [reflexivity|].
    cbn [truthy andb].
    destruct (includes P (c :: h)) eqn:I; cbn [negb].
    + split; [reflexivity|].
      apply includes_split in I. destruct I as [a [r ->]].
      replace ((a ++ P ++ r) ++ lit " (Figma Deploys)")
        with (a ++ P ++ (r ++ lit " (Figma Deploys)"))
        by (now rewrite <- !app_assoc).
      apply includes_app.
    + split; [reflexivity|].
      replace (((c :: h) ++ [32%N] ++ P) ++ lit " (Figma Deploys)")
        with (((c :: h) ++ [32%N]) ++ P ++ lit " (Figma Deploys)")
        by (now rewrite <- !app_assoc).
      apply includes_app.
  - split; [reflexivity|].
    replace (documentTitle w ++ [32%N] ++ P ++ lit " (Figma Deploys)")
      with ((documentTitle w ++ [32%N]) ++ P ++ lit " (Figma Deploys)")
      by (now rewrite <- !app_assoc).
    apply includes_app.
Qed.

(* ================================================================== *)
(** * Searching a literal *)
(* ================================================================== *)

Lemma matchAt_chars (l : list N) i (s : list N) :
  matchAt (chars l) i s =
  if startsWith l s then Some ([], skipn (length l) s) else None.
Proof.
  unfold matchAt. rewrite <- (app_nil_r (chars l)), run_chars.
  now destruct (startsWith l s).
Qed.

Lemma searchFrom_miss (l : list N) i c (t : list N) :
  startsWith l (c :: t) = false ->
  searchFrom (chars l) i (c :: t) = searchFrom (chars l) (S i) t.
Proof.
  intros H. cbn [searchFrom]. now rewrite matchAt_chars, H.
Qed.

Lemma searchFrom_here (l : list N) i (b : list N) :
  searchFrom (chars l) i (l ++ b) =
  Some {| index := i; matched := l; groups := []; rest := b |}.
Proof.
  assert (M : matchAt (chars l) i (l ++ b) = Some ([], b)).
  { rewrite matchAt_chars, startsWith_app.
    now rewrite skipn_app, skipn_all, Nat.sub_diag. }
  rewrite (searchFrom_hit _ _ _ _ _ M). now rewrite firstn_app_length.
Qed.

(** After text in which the literal's first unit does not occur, the
    literal is found where it stands. *)
Lemma searchFrom_after (x : N) (l a b : list N) : forall i,
  ~ In x a ->
  searchFrom (chars (x :: l)) i (a ++ (x :: l) ++ b) =
  Some {| index := i + length a; matched := x :: l; groups := [];
          rest := b |}.
Proof.
  induction a as [|c a IH]; intros i H.
  - cbn [app length]. rewrite Nat.add_0_r.
    apply (searchFrom_here (x :: l)).
  - cbn [app length]. rewrite searchFrom_miss.
    + rewrite IH by (intros Hin; apply H; now right).
      now replace (S i + length a) with (i + S (length a)) by lia.
    + cbn [startsWith]. destruct (N.eqb x c) eqn:E; [|reflexivity].
      apply N.eqb_eq in E. exfalso. apply H. now left.
Qed.

Lemma startsWith_before (x : N) (p a b : list N) :
  ~ In x p -> startsWith p (a ++ x :: b) = true -> startsWith p a = true.
Proof.
  revert a. induction p as [|c p IH]; intros a H S; [reflexivity|].
  destruct a as [|y a]; cbn [app startsWith] in *.
  - apply andb_true_iff in S. destruct S as [E _].
    apply N.eqb_eq in E. exfalso. apply H. now left.
  - apply andb_true_iff in S. destruct S as [E S]. rewrite E.
    apply IH; [|exact S]. intros Hin. apply H. now right.
Qed.

(* ================================================================== *)
(** * The feature flag rule *)
(* ================================================================== *)

Lemma launchDarkly_result w :
  Rule.getDocInfo launchDarkly w =
  (w, Ok (match indexOf (lit "/projects/default/flags/")
                  (pathname (location w)) with
          | Some flagsIndex =>
              let afterFlags :=
                substringFrom
                  (flagsIndex + length (lit "/projects/default/flags/"))
                  (pathname (location w)) in
              linkAndTitle
                ((protocol (location w) ++ lit "//" ++ host (location w))
                 ++ replace (chars (lit "/targeting")) (lit "/monitoring")
                      (pathname (location w))
                 ++ lit "?"
                 ++ lit "env=production&env=staging&env=gov&env=development&env=devenv01&selected-env=production&activity=true")
                (Some (match indexOf (lit "/") afterFlags with
                       | None => afterFlags
                       | Some nextSlash => substring 0 nextSlash afterFlags
                       end ++ lit " (LaunchDarkly)"))
          | None =>
              linkAndTitle (href (location w))
                (Some (documentTitle w ++ lit " (LaunchDarkly)"))
          end)).
Proof.
  unfold launchDarkly. cbn [Rule.getDocInfo]. rewrite bind_gets.
  now destruct (indexOf (lit "/projects/default/flags/")
                  (pathname (location w))).
Qed.

Lemma flags_path_search (name : list N) :
  ~ In 47%N name ->
  startsWith (lit "targeting") name = false ->
  searchFrom (chars (lit "/targeting")) 0
    (lit "/projects/default/flags/" ++ name ++ lit "/targeting")
  = Some {| index := 24 + length name; matched := lit "/targeting";
            groups := []; rest := [] |}.
Proof.
  intros Hn Ht.
  change (lit "/projects/default/flags/" ++ name ++ lit "/targeting")
    with ([47; 112; 114; 111; 106; 101; 99; 116; 115; 47; 100; 101; 102; 97; 117; 108; 116; 47; 102; 108; 97; 103; 115]%N
          ++ 47%N :: name ++ (47%N :: lit "targeting") ++ []).
  cbn [app].
  repeat (rewrite searchFrom_miss by reflexivity).
  change (lit "/targeting") with (47%N :: lit "targeting").
  rewrite searchFrom_miss.
  - match goal with
    | |- context [searchFrom _ 24 ?X] =>
        change X with (name ++ (47%N :: lit "targeting") ++ [])
    end.
    now rewrite (searchFrom_after 47%N (lit "targeting") name [] 24 Hn).
  - cbn [startsWith]. rewrite N.eqb_refl. cbn [andb].
    match goal with
    | |- ?X = false => destruct X eqn:S; [|reflexivity]
    end.
    cbn [app] in S. apply (startsWith_before 47%N) in S; [congruence|].
    vm_compute. intuition discriminate.
Qed.

(** [launchDarkly] on a flag page, whose path starts with
    [/projects/default/flags/], then the flag key, then nothing or a further
    segment.  The title is the flag key followed by " (LaunchDarkly)".
    The link is rebuilt from the protocol and the host, the path in which
    the first "/targeting" is replaced by "/monitoring", and the fixed
    environment query: for a path that ends with the key and "/targeting",
    and a key that does not itself start with "targeting", the link's path
    ends with the key and "/monitoring". *)
Theorem launchDarkly_flag_page (w : Page) (name rest : str) :
  pathname (location w) = lit "/projects/default/flags/" ++ name ++ rest ->
  ~ In 47%N name ->
  rest = [] \/ (exists r, rest = 47%N :: r) ->
  exists link,
    Rule.getDocInfo launchDarkly w =
    (w, Ok (linkAndTitle link (Some (name ++ lit " (LaunchDarkly)")))) /\
    link =
    protocol (location w) ++ lit "//" ++ host (location w)
    ++ replace (chars (lit "/targeting")) (lit "/monitoring")
         (pathname (location w))
    ++ lit "?env=production&env=staging&env=gov&env=development&env=devenv01&selected-env=production&activity=true" /\
    (rest = lit "/targeting" ->
     startsWith (lit "targeting") name = false ->
     link =
     protocol (location w) ++ lit "//" ++ host (location w)
     ++ lit "/projects/default/flags/" ++ name ++ lit "/monitoring"
     ++ lit "?env=production&env=staging&env=gov&env=development&env=devenv01&selected-env=production&activity=true").
Proof.
  intros E Hn Hr. rewrite launchDarkly_result, E.
  assert (I : indexOf (lit "/projects/default/flags/")
                (lit "/projects/default/flags/" ++ name ++ rest) = Some 0).
  { destruct (lit "/projects/default/flags/" ++ name ++ rest) eqn:Q;
      [discriminate|].
    cbn [indexOf]. rewrite <- Q. now rewrite startsWith_app. }
  rewrite I. cbv zeta. unfold substringFrom.
  change (0 + length (lit "/projects/default/flags/")) with 24.
  change (skipn 24 (lit "/projects/default/flags/" ++ name ++ rest))
    with (name ++ rest).
  match goal with
  | |- context [Some (?T ++ lit " (LaunchDarkly)")] => assert (F : T = name)
  end.
  { change (lit "/") with [47%N]. destruct Hr as [->|[r ->]].
    - rewrite app_nil_r.
      destruct (indexOf [47%N] name) as [i|] eqn:Q; [|reflexivity].
      exfalso. clear -Q Hn. revert i Q.
      induction name as [|y l IH]; intros i Q; [discriminate|].
      cbn [indexOf startsWith] in Q. rewrite andb_true_r in Q.
      destruct (N.eqb 47 y) eqn:Z.
      + apply N.eqb_eq in Z. apply Hn. now left.
      + destruct (indexOf [47%N] l) as [j|] eqn:J; [|discriminate].
        apply (IH (fun H => Hn (or_intror H)) j eq_refl).
    - rewrite (indexOf_unit_first 47%N name r Hn).
      unfold substring. cbn [skipn]. rewrite Nat.sub_0_r.
      rewrite firstn_app, Nat.sub_diag, firstn_all. cbn [firstn].
      apply app_nil_r. }
  rewrite F. eexists. split; [reflexivity|].
  split; [now rewrite <- !app_assoc|].
  intros -> Ht. rewrite <- !app_assoc. do 3 f_equal.
  unfold replace, exec. rewrite (flags_path_search name Hn Ht).
  cbn [index rest].
  change (lit "/projects/default/flags/" ++ name ++ lit "/targeting")
    with ((lit "/projects/default/flags/" ++ name) ++ lit "/targeting").
  replace (24 + length name)
    with (length (lit "/projects/default/flags/" ++ name))
    by (rewrite length_app; reflexivity).
  rewrite firstn_app, Nat.sub_diag, firstn_all. cbn [firstn].
  rewrite app_nil_r, <- !app_assoc. reflexivity.
Qed.

(* ================================================================== *)
(** * Class names are strings on HTML elements *)
(* ================================================================== *)

Lemma firstByClassPrefix_strings (b : Browser) (prefix : list N)
  (elements : list Node) :
  (forall e, In e elements -> classNameIsObject b e = false) ->
  firstByClassPrefix b prefix elements
  = Ok (find (fun e => existsb (startsWith prefix) (splitOn 32 (className e)))
          elements).
Proof.
  induction elements as [|x l IH]; intros H; [reflexivity|].
  cbn [firstByClassPrefix find]. rewrite (H x (or_introl eq_refl)).
  destruct (existsb (startsWith prefix) (splitOn 32 (className x)));
    [reflexivity|].
  apply IH. intros e He. apply H. now right.
Qed.

(** A type selector in upper case selects HTML elements only. *)
Lemma upper_case_selected (b : Browser) (tag : list N) classes tests
  (n e : Node) :
  hasLowerCase tag = false ->
  In e (documentQuerySelectorAll (sel (Some tag) None classes tests) n) ->
  classNameIsObject b e = false.
Proof.
  intros U H. unfold documentQuerySelectorAll in H.
  apply filter_In in H. destruct H as [_ M]. unfold matches in M.
  cbn [selTag sel] in M.
  do 3 (apply andb_true_iff in M; destruct M as [M _]).
  apply andb_true_iff in M. destruct M as [_ M].
  apply Str_eqb_eq in M. unfold classNameIsObject. now rewrite M, U.
Qed.

(** With a type in upper case [findElementByClassPrefix] never throws. *)
Lemma findElementByClassPrefix_upper (prefix tag : list N) (w : Page) :
  hasLowerCase tag = false ->
  findElementByClassPrefix prefix (Some tag) w
  = Ok (find (fun e => existsb (startsWith prefix) (splitOn 32 (className e)))
          (documentQuerySelectorAll
             (sel (Some tag) None [] [Contains (lit "class") prefix])
             (root w))).
Proof.
  intros U. unfold findElementByClassPrefix.
  apply firstByClassPrefix_strings. intros e He.
  exact (upper_case_selected (browser w) tag _ _ _ e U He).
Qed.

(* ================================================================== *)
(** * The dispatch is a search for the first rule that delivers *)
(* ================================================================== *)

Lemma tryRule_outcome name rule w :
  In (name, rule) rules ->
  tryRule rule w =
  (w, Ok (match snd (Rule.isMatch rule w) with
          | Ok true =>
              match snd (Rule.getDocInfo rule w) with
              | Ok d => Some d
              | Throw _ => None
              end
          | _ => None
          end)).
Proof.
  intros Hin. unfold tryRule, tryCatch, bind, ret.
  pose proof (rules_isMatch_reads _ _ Hin w) as F1.
  pose proof (leavesPage_extractors _ _ Hin w) as F2.
  destruct (Rule.isMatch rule w) as [w1 [[|]|e]]; cbn [fst snd] in *;
    subst w1; try reflexivity.
  destruct (Rule.getDocInfo rule w) as [w2 [d|e]]; cbn [fst snd] in *;
    subst w2; reflexivity.
Qed.

Lemma dispatch_firstWinner (rs : list (str * Rule.t)) (w : Page) :
  incl rs rules ->
  dispatch rs w =
  (w, Ok (match firstWinner rs w with
          | Some (_, d) => d
          | None => linkAndTitle (getUrl w) (Some (getTitle w))
          end)).
Proof.
  induction rs as [|[name rule] rest IH]; intros Hin; [reflexivity|].
  assert (Hr : In (name, rule) rules) by (apply Hin; now left).
  rewrite dispatch_cons, (tryRule_outcome name rule w Hr).
  cbn [firstWinner].
  assert (IH' := IH (fun x Hx => Hin x (or_intror Hx))).
  destruct (snd (Rule.isMatch rule w)) as [[|]|e]; try exact IH'.
  destruct (snd (Rule.getDocInfo rule w)) as [d|e]; [reflexivity|exact IH'].
Qed.

(** [getDocInfo] returns the record of the first rule, in the order of the
    rule list, whose [isMatch] is true and whose [getDocInfo] returns; a rule
    that does not match, or that matches and throws, is passed over.  When
    no rule delivers, the result is the generic fallback
    [{ link: getUrl(), title: getTitle() }].  The page is left as it is. *)
Theorem getDocInfo_first_winner (w : Page) :
  getDocInfo w =
  (w, Ok (match firstWinner rules w with
          | Some (_, d) => d
          | None => linkAndTitle (getUrl w) (Some (getTitle w))
          end)) /\
  (forall name d, firstWinner rules w = Some (name, d) ->
     exists rule, In (name, rule) rules /\
                  snd (Rule.isMatch rule w) = Ok true /\
                  snd (Rule.getDocInfo rule w) = Ok d).
Proof.
  split; [apply dispatch_firstWinner, incl_refl|].
  intros name d. generalize rules as rs.
  induction rs as [|[n r] rest IH]; [discriminate|].
  cbn [firstWinner].
  destruct (snd (Rule.isMatch r w)) as [[|]|e] eqn:Em;
    try (intros H; destruct (IH H) as [rule [Hin Hr]];
         exists rule; split; [now right|exact Hr]).
  destruct (snd (Rule.getDocInfo r w)) as [d'|e] eqn:Ed.
  - intros H. inversion H. subst. exists r. split; [now left|auto].
  - intros H. destruct (IH H) as [rule [Hin Hr]].
    exists rule. split; [now right|exact Hr].
Qed.

(* ================================================================== *)
(** * Extractors that cannot throw *)
(* ================================================================== *)

Section NeverThrows.
Variables A B : Type.

Lemma neverThrows_ret (a : A) : neverThrows (ret a).
Proof. intros w. now exists a. Qed.

Lemma neverThrows_gets (f : Page -> A) : neverThrows (gets f).
Proof. intros w. now exists (f w). Qed.

Lemma neverThrows_bind (m : M A) (k : A -> M B) :
  neverThrows m -> (forall a, neverThrows (k a)) -> neverThrows (bind m k).
Proof.
  intros Hm Hk w. unfold bind. destruct (Hm w) as [a Ha].
  destruct (m w) as [w1 r]. cbn [snd] in Ha. subst r. apply Hk.
Qed.

(** A [try] block whose [catch] block returns. *)
Lemma neverThrows_tryCatch (m : M A) (h : str -> M A) :
  (forall e, neverThrows (h e)) -> neverThrows (tryCatch m h).
Proof.
  intros Hh w. unfold tryCatch.
  destruct (m w) as [w1 [a|e]]; [now exists a|apply Hh].
Qed.
End NeverThrows.

Ltac total :=
  repeat first
    [ apply neverThrows_ret
    | apply neverThrows_gets
    | apply neverThrows_tryCatch; intros
    | apply neverThrows_bind; [|intros]
    | match goal with
      | |- neverThrows (match ?x with _ => _ end) => destruct x
      | |- neverThrows (if ?x then _ else _) => destruct x
      end ].

Lemma neverThrows_getDatadogTimeRange : neverThrows getDatadogTimeRange.
Proof. unfold getDatadogTimeRange. total. Qed.

(** Thirteen of the nineteen extractors return on every page: they look
    up no required element outside a [try] block and parse nothing that can
    fail.  Each of them is a rule of the list, returns a record on every
    page and leaves the page as it is. *)
Theorem extractors_that_never_throw (name : str) (rule : Rule.t) :
  In (name, rule)
     [ (lit "graphiteFigma", graphiteFigma);
       (lit "figmaDeploys", figmaDeploys);
       (lit "docsAndDesignTools", docsAndDesignTools);
       (lit "awsDocs", awsDocs);
       (lit "githubCommit", githubCommit);
       (lit "datadogMonitor", datadogMonitor);
       (lit "datadogNotebook", datadogNotebook);
       (lit "datadogGeneral", datadogGeneral);
       (lit "notion", notion);
       (lit "asana", asana);
       (lit "launchDarkly", launchDarkly);
       (lit "goodreads", goodreads);
       (lit "slack", slack) ] ->
  In (name, rule) rules /\
  forall w, exists d, Rule.getDocInfo rule w = (w, Ok d).
Proof.
  intros Hin.
  assert (Hr : In (name, rule) rules).
  { simpl in Hin. unfold rules.
    repeat (destruct Hin as [Hin|Hin];
            [inversion Hin; subst; simpl; tauto|]).
    destruct Hin. }
  split; [exact Hr|].
  assert (T : neverThrows (Rule.getDocInfo rule)).
  { simpl in Hin.
    repeat (destruct Hin as [Hin|Hin];
            [inversion Hin; subst; clear Hin|]); try contradiction.
    - unfold graphiteFigma. cbn [Rule.getDocInfo]. total.
      intros w. rewrite findElementByClassPrefix_upper by reflexivity.
      eexists. reflexivity.
    - unfold figmaDeploys. cbn [Rule.getDocInfo]. total.
    - unfold docsAndDesignTools. cbn [Rule.getDocInfo]. total.
    - unfold awsDocs. cbn [Rule.getDocInfo]. total.
    - unfold githubCommit. cbn [Rule.getDocInfo]. total.
    - unfold datadogMonitor. cbn [Rule.getDocInfo].
      total; apply neverThrows_getDatadogTimeRange.
    - unfold datadogNotebook. cbn [Rule.getDocInfo].
      total; apply neverThrows_getDatadogTimeRange.
    - unfold datadogGeneral. cbn [Rule.getDocInfo].
      total; apply neverThrows_getDatadogTimeRange.
    - unfold notion. cbn [Rule.getDocInfo]. total.
    - unfold asana. cbn [Rule.getDocInfo]. total.
    - unfold launchDarkly. cbn [Rule.getDocInfo]. total.
    - unfold goodreads. cbn [Rule.getDocInfo]. total.
    - unfold slack. cbn [Rule.getDocInfo]. total. }
  intros w. destruct (T w) as [d Hd]. exists d.
  pose proof (leavesPage_extractors _ _ Hr w) as F.
  destruct (Rule.getDocInfo rule w) as [w' r]. cbn [fst snd] in *.
  now subst.
Qed.

(* ================================================================== *)
(** * The pull request rules *)
(* ================================================================== *)

Lemma graphiteFigma_link w :
  exists title,
    Rule.getDocInfo graphiteFigma w =
    (w, Ok (linkAndTitle
              (lit "https://github.com/figma/figma/pull/"
               ++ nth 5 (splitOn 47 (pathname (location w))) undefinedText)
              (Some title))) /\
    startsWith (lit "[PR] ") title = true.
Proof.
  unfold graphiteFigma. cbn [Rule.getDocInfo]. rewrite bind_gets.
  cbv zeta. unfold bind, lift.
  rewrite findElementByClassPrefix_upper by reflexivity.
  unfold ret. eexists. split; [reflexivity|].
  match goal with
  | |- startsWith _ (if ?c then _ else _) = true => destruct c
  end; apply startsWith_app.
Qed.

Lemma not_in_closed (x : N) (l : list N) :
  forallb (fun c => negb (N.eqb c x)) l = true -> ~ In x l.
Proof.
  intros F H. rewrite forallb_forall in F. specialize (F x H).
  now rewrite N.eqb_refl in F.
Qed.

(** [graphiteFigma]: the link goes to the GitHub pull request whose number
    is the sixth segment of the path, so for a path
    [/github/pr/figma/figma/<number>] (with or without further segments) it
    is [https://github.com/figma/figma/pull/<number>]; the title starts
    with "[PR] ".  A path with fewer segments has no sixth one, and the
    link then ends in "undefined". *)
Theorem graphiteFigma_pull_request (w : Page) (number rest : str) :
  pathname (location w) = lit "/github/pr/figma/figma/" ++ number ++ rest ->
  ~ In 47%N number ->
  rest = [] \/ (exists r, rest = 47%N :: r) ->
  (exists title,
     Rule.getDocInfo graphiteFigma w =
     (w, Ok (linkAndTitle
               (lit "https://github.com/figma/figma/pull/" ++ number)
               (Some title))) /\
     startsWith (lit "[PR] ") title = true) /\
  (forall w',
     length (splitOn 47 (pathname (location w'))) <= 5 ->
     exists title,
       Rule.getDocInfo graphiteFigma w' =
       (w', Ok (linkAndTitle
                  (lit "https://github.com/figma/figma/pull/undefined")
                  (Some title)))).
Proof.
  intros E Hn Hr. split.
  - destruct (graphiteFigma_link w) as [title [G S]].
    exists title. split; [|exact S]. rewrite G, E. do 4 f_equal.
    change (lit "/github/pr/figma/figma/" ++ number ++ rest)
      with ([] ++ 47%N :: lit "github" ++ 47%N :: lit "pr" ++ 47%N
            :: lit "figma" ++ 47%N :: lit "figma" ++ 47%N
            :: (number ++ rest)).
    rewrite !splitOn_segment
      by (apply not_in_closed; reflexivity).
    cbn [nth].
    destruct Hr as [->|[r ->]].
    + rewrite app_nil_r, splitOn_one by exact Hn. reflexivity.
    + rewrite splitOn_segment by exact Hn. reflexivity.
  - intros w' L. destruct (graphiteFigma_link w') as [title [G _]].
    exists title. rewrite G. now rewrite nth_overflow by exact L.
Qed.

(** A match found by a search starts somewhere in the input. *)
Lemma searchFrom_sound pat (s : list N) : forall i m,
  searchFrom pat i s = Some m ->
  exists u v, s = u ++ v /\ matchAt pat (i + length u) v = Some (groups m, rest m).
Proof.
  induction s as [|c t IH]; intros i m; cbn [searchFrom].
  - destruct (matchAt pat i []) as [[caps r]|] eqn:M; [|discriminate].
    intros H. inversion H. exists [], []. cbn [length groups rest].
    now rewrite Nat.add_0_r.
  - destruct (matchAt pat i (c :: t)) as [[caps r]|] eqn:M.
    + intros H. inversion H. exists [], (c :: t). cbn [length groups rest app].
      now rewrite Nat.add_0_r.
    + intros H. destruct (IH _ _ H) as [u [v [-> K]]].
      exists (c :: u), v. cbn [length app].
      now replace (i + S (length u)) with (S i + length u) by lia.
Qed.

Lemma includes_prefix p (u v : list N) :
  includes p v = true -> includes p (u ++ v) = true.
Proof.
  intros H. apply includes_split in H. destruct H as [a [r ->]].
  rewrite app_assoc. apply includes_app.
Qed.

(** What a title that [parsePRString] accepts holds. *)
Lemma prPattern_sound s m :
  exec prPattern s = Some m ->
  includes (lit " by ") s = true /\
  includes (middleDot ++ lit "Pull Request #") s = true.
Proof.
  unfold exec. intros H. apply searchFrom_sound in H.
  destruct H as [u [v [-> M]]].
  unfold matchAt, prPattern in M. cbn [app run] in M.
  apply greedy_sound in M. destruct M as [a [b [-> [_ K]]]].
  cbn [run] in K. rewrite run_chars in K.
  destruct (startsWith (lit " by ") b) eqn:S1; [|discriminate].
  pose proof (startsWith_split _ _ S1) as E1.
  remember (skipn (length (lit " by ")) b) as b1 eqn:Hb1. clear Hb1.
  cbn [app run] in K.
  apply greedy_sound in K. destruct K as [a2 [b2 [-> [_ K]]]].
  cbn [run] in K. rewrite run_chars in K.
  destruct (startsWith middleDot b2) eqn:S2; [|discriminate].
  pose proof (startsWith_split _ _ S2) as E2.
  remember (skipn (length middleDot) b2) as b3 eqn:Hb3. clear Hb3.
  rewrite run_chars in K.
  destruct (startsWith (lit "Pull Request #") b3) eqn:S3; [|discriminate].
  pose proof (startsWith_split _ _ S3) as E3.
  remember (skipn (length (lit "Pull Request #")) b3) as b4 eqn:Hb4.
  clear Hb4 K. subst b b2 b3. split.
  - apply includes_prefix. apply includes_app.
  - apply includes_prefix.
    replace (a ++ lit " by " ++ a2 ++ middleDot ++ lit "Pull Request #" ++ b4)
      with ((a ++ lit " by " ++ a2) ++ (middleDot ++ lit "Pull Request #")
            ++ b4)
      by (now rewrite <- !app_assoc).
    apply includes_app.
Qed.

(** [FigmaGithub] on a page whose title is not that of a pull request: a
    title without " by ", or without " · Pull Request #", makes
    [parsePRString] throw "Invalid PR string", and the extractor throws with
    it, leaving the page as it is. *)
Theorem FigmaGithub_invalid_title (w : Page) :
  includes (lit " by ") (documentTitle w) = false \/
  includes (middleDot ++ lit "Pull Request #") (documentTitle w) = false ->
  parsePRString (documentTitle w) = Throw (lit "Invalid PR string") /\
  Rule.getDocInfo FigmaGithub w = (w, Throw (lit "Invalid PR string")).
Proof.
  intros H.
  assert (P : parsePRString (documentTitle w) = Throw (lit "Invalid PR string")).
  { unfold parsePRString.
    destruct (exec prPattern (documentTitle w)) as [m|] eqn:E; [|reflexivity].
    apply prPattern_sound in E. destruct E as [E1 E2].
    destruct H as [H|H]; congruence. }
  split; [exact P|].
  unfold FigmaGithub. cbn [Rule.getDocInfo]. rewrite bind_gets.
  unfold bind, lift. now rewrite P.
Qed.

(* ================================================================== *)
(** * The rules that need an element of the page *)
(* ================================================================== *)

Lemma findElement_result s w :
  findElement s w =
  (w, match documentQuerySelector s (root w) with
      | Some element => Ok element
      | None => Throw (lit "Element not found")
      end).
Proof.
  unfold findElement. rewrite bind_gets.
  now destruct (documentQuerySelector s (root w)).
Qed.

(** [dropboxPaper], [amazon] and [greenhouse] read elements of the page
    through [findElement]: each throws "Element not found" exactly when an
    element it asks for is missing, and otherwise returns.  The Amazon link
    is built from the [value] of [#ASIN] alone, whatever the page's address;
    the Greenhouse link is the address without a final "/edit". *)
Theorem element_rules (w : Page) :
  Rule.getDocInfo dropboxPaper w =
  (w, match documentQuerySelector (byClass (lit "hp-header-title-wrapper"))
              (root w) with
      | Some header =>
          Ok (linkAndTitle (href (location w))
                (Some (textContent header ++ lit " (Paper)")))
      | None => Throw (lit "Element not found")
      end) /\
  Rule.getDocInfo amazon w =
  (w, match documentQuerySelector (byId (lit "productTitle")) (root w),
            documentQuerySelector (byId (lit "ASIN")) (root w) with
      | Some productTitle, Some asin =>
          Ok (linkAndTitle
                (lit "https://www.amazon.com/dp/"
                 ++ match valueOf asin with
                    | Some v => v
                    | None => undefinedText
                    end)
                (Some (textContent productTitle)))
      | _, _ => Throw (lit "Element not found")
      end) /\
  Rule.getDocInfo greenhouse w =
  (w, match documentQuerySelector (sel (Some (lit "H3")) None [lit "name"] [])
              (root w) with
      | Some nameElement =>
          Ok (linkAndTitle
                (if endsWith (lit "/edit") (href (location w))
                 then firstn (length (href (location w)) - 5)
                        (href (location w))
                 else href (location w))
                (Some (cleanupContent (textContent nameElement)
                       ++ lit " (Greenhouse Scorecard)")))
      | None => Throw (lit "Element not found")
      end) /\
  (endsWith (lit "/edit") (href (location w)) = true ->
   firstn (length (href (location w)) - 5) (href (location w)) ++ lit "/edit"
   = href (location w)).
Proof.
  repeat split.
  - unfold dropboxPaper. cbn [Rule.getDocInfo]. unfold bind at 1.
    rewrite findElement_result.
    now destruct (documentQuerySelector _ (root w)).
  - unfold amazon. cbn [Rule.getDocInfo]. unfold bind at 1.
    rewrite findElement_result.
    destruct (documentQuerySelector (byId (lit "productTitle")) (root w));
      [|reflexivity].
    unfold bind at 1. rewrite findElement_result.
    now destruct (documentQuerySelector (byId (lit "ASIN")) (root w)).
  - unfold greenhouse. cbn [Rule.getDocInfo]. unfold bind at 1.
    rewrite findElement_result.
    now destruct (documentQuerySelector _ (root w)).
  - intros H. apply endsWith_split in H.
    change (length (lit "/edit")) with 5 in H. now rewrite <- H.
Qed.

(* ================================================================== *)
(** * The rules on example pages *)
(* ================================================================== *)

Lemma awsDocs_service_first_witness :
  snd (Rule.getDocInfo awsDocs Pages.awsPage)
  = Ok (linkAndTitle (lit "https://aws.amazon.com/s3/getting-started/")
          (Some (lit "AWS: Getting started - Amazon S3"))).
Proof.
  rewrite (proj1 (awsDocs_service_first Pages.awsPage
                    (lit "Getting started - Amazon S3") (lit "AWS")
                    eq_refl eq_refl ltac:(discriminate) eq_refl)).
  reflexivity.
Defined.

Lemma getTitle_youtube_witness :
  getTitle Pages.videoPage = lit "Tide pools (Shoreline Films)".
Proof.
  rewrite (proj1 (getTitle_youtube Pages.videoPage 84%N
                    (lit "ide   pools - Shoreline Films")
                    (lit "Tide pools") (lit "Shoreline Films")
                    eq_refl ltac:(discriminate) eq_refl)
             eq_refl ltac:(discriminate) eq_refl).
  reflexivity.
Defined.

Lemma getTitle_book_witness :
  getTitle Pages.bookPage = lit "Dune".
Proof.
  apply (proj1 (getTitle_book Pages.bookPage 68%N
                  (lit "une : Deluxe Edition") (lit "Dune ")
                  (lit " Deluxe Edition") eq_refl eq_refl eq_refl)).
  - reflexivity.
  - apply not_in_closed. reflexivity.
Defined.

Lemma docsAndDesignTools_last_separator_witness :
  snd (Rule.getDocInfo docsAndDesignTools Pages.docsPage)
  = Ok (linkAndTitle (lit "https://docs.google.com/document/d/1/edit")
          (Some (lit "Q3 plan - draft (Google Docs)"))).
Proof.
  rewrite (proj1 (docsAndDesignTools_last_separator Pages.docsPage
                    (lit "Q3 plan - draft") enDash (lit "Google Docs")
                    eq_refl (or_intror eq_refl) eq_refl eq_refl)).
  reflexivity.
Defined.

Lemma figmaDeploys_chain_id_witness :
  snd (Rule.getDocInfo figmaDeploys Pages.deployPage)
  = Ok (linkAndTitle
          (lit "https://deploysv2.figma.com/pipeline-chain/631490")
          (Some (lit "Release train #631490 (Figma Deploys)"))).
Proof.
  destruct (figmaDeploys_chain_id Pages.deployPage (lit "/pipeline-chain")
              (lit "631490") eq_refl
              (not_in_closed 47%N (lit "631490") eq_refl))
    as [title [E H]].
  rewrite E. cbn [snd]. do 3 f_equal.
  vm_compute in H. destruct H as [H _]. exact H.
Defined.

Lemma launchDarkly_flag_page_witness :
  snd (Rule.getDocInfo launchDarkly Pages.flagPage)
  = Ok (linkAndTitle
          (lit "https://app.launchdarkly.com/projects/default/flags/new-checkout/monitoring?env=production&env=staging&env=gov&env=development&env=devenv01&selected-env=production&activity=true")
          (Some (lit "new-checkout (LaunchDarkly)"))).
Proof.
  destruct (launchDarkly_flag_page Pages.flagPage (lit "new-checkout")
              (lit "/targeting") eq_refl
              (not_in_closed 47%N (lit "new-checkout") eq_refl)
              (or_intror (ex_intro _ (lit "targeting") eq_refl)))
    as [link [E [_ H]]].
  rewrite E. cbn [snd]. rewrite (H eq_refl eq_refl). reflexivity.
Defined.

Lemma graphiteFigma_pull_request_witness :
  option_map link
    (match snd (Rule.getDocInfo graphiteFigma Pages.graphitePage) with
     | Ok d => Some d
     | Throw _ => None
     end)
  = Some (lit "https://github.com/figma/figma/pull/529307").
Proof.
  destruct (proj1 (graphiteFigma_pull_request Pages.graphitePage
                     (lit "529307") (lit "/add-types") eq_refl
                     (not_in_closed 47%N (lit "529307") eq_refl)
                     (or_intror (ex_intro _ (lit "add-types") eq_refl))))
    as [title [E _]].
  rewrite E. reflexivity.
Defined.

Lemma FigmaGithub_invalid_title_witness :
  snd (Rule.getDocInfo FigmaGithub Pages.missingPullRequestPage)
  = Throw (lit "Invalid PR string").
Proof.
  rewrite (proj2 (FigmaGithub_invalid_title Pages.missingPullRequestPage
                    (or_introl eq_refl))).
  reflexivity.
Defined.

Lemma extractors_that_never_throw_witness :
  exists d, Rule.getDocInfo slack Examples.monitorPage
            = (Examples.monitorPage, Ok d).
Proof.
  apply (proj2 (extractors_that_never_throw (lit "slack") slack
                  ltac:(simpl; tauto))).
Defined.

(* ================================================================== *)
(** * Titles that end with the name of the product *)
(* ================================================================== *)

Section MaximalMunch.
Variable R : Type.
Variable f : char -> bool.
Variable k : nat -> str -> option R.

(** A greedy quantifier takes the whole run when the unit after it is not
    of the class and the rest of the pattern matches there. *)
Lemma greedy_stops (a b : list N) i r :
  forallb f a = true ->
  match b with [] => True | c :: _ => f c = false end ->
  k (i + length a) b = Some r ->
  greedy R f k 0 i (a ++ b) = Some r.
Proof.
  intros Fa Hb K. apply greedy_longest; auto.
  intros a' b' E L F'. exfalso.
  apply app_eq_app in E. destruct E as [l [[-> E]|[-> E]]].
  - rewrite length_app in L. lia.
  - destruct l as [|c l]; [rewrite app_nil_r in L; lia|].
    subst b. rewrite forallb_app in F'. apply andb_true_iff in F'.
    destruct F' as [_ F']. cbn [forallb app] in *.
    rewrite Hb in F'. discriminate.
Qed.

(** At least one repetition. *)
Lemma greedy_one c (t : list N) i :
  greedy R f k 1 i (c :: t) = if f c then greedy R f k 0 (S i) t else None.
Proof.
  cbn [greedy Nat.eqb pred]. destruct (f c); [|reflexivity].
  now destruct (greedy R f k 0 (S i) t).
Qed.
End MaximalMunch.

Lemma run_suffix_eos (suffix : list N) i (s : list N) opens caps :
  run (chars suffix ++ [Eos]) i s opens caps =
  if Str.eqb s suffix then Some (rev caps, []) else None.
Proof.
  rewrite run_chars.
  destruct (Str.eqb s suffix) eqn:Q.
  - apply Str_eqb_eq in Q. subst s.
    pose proof (startsWith_app suffix []) as H. rewrite app_nil_r in H.
    rewrite H. now rewrite skipn_all.
  - destruct (startsWith suffix s) eqn:E; [|reflexivity].
    pose proof (startsWith_split _ _ E) as S.
    destruct (skipn (length suffix) s) as [|x r] eqn:K; [|reflexivity].
    rewrite app_nil_r in S. subst s. now rewrite Str_eqb_refl in Q.
Qed.

Lemma Str_eqb_length (a b : list N) :
  length a <> length b -> Str.eqb a b = false.
Proof.
  intros H. destruct (Str.eqb a b) eqn:E; [|reflexivity].
  apply Str_eqb_eq in E. now subst.
Qed.

(** The pattern [^( .* )suffix$] on a title: it matches the one-line titles
    that end with the suffix, and captures what stands before it. *)
Lemma exec_suffixPattern (suffix content : list N) :
  forallb dot content = true ->
  exists m,
    exec ([Bos; Open; Rep dot 0 true; Close] ++ chars suffix ++ [Eos])
      (content ++ suffix) = Some m /\ groups m = [content].
Proof.
  intros D. cbn [app]. rewrite exec_Bos. cbn [run].
  erewrite (greedy_longest _ _ _ content suffix 0).
  2: exact D.
  2: { cbn [run]. rewrite run_suffix_eos, Str_eqb_refl.
       rewrite firstn_app_length. reflexivity. }
  2: { intros a' b' E L _. cbn [run]. rewrite run_suffix_eos.
       rewrite Str_eqb_length; [reflexivity|].
       apply (f_equal (@length N)) in E. rewrite !length_app in E.
       unfold char, str in *. lia. }
  eexists. split; reflexivity.
Qed.

Lemma exec_suffixPattern_sound (suffix s : list N) m :
  exec ([Bos; Open; Rep dot 0 true; Close] ++ chars suffix ++ [Eos]) s
  = Some m ->
  exists content, s = content ++ suffix /\ forallb dot content = true.
Proof.
  cbn [app]. rewrite exec_Bos. cbn [run].
  match goal with
  | |- context [greedy ?R' ?f' ?k' 0 0 s] =>
      destruct (greedy R' f' k' 0 0 s) as [[caps r]|] eqn:G; [|discriminate]
  end.
  intros _. apply greedy_sound in G. destruct G as [a [b [-> [Fa K]]]].
  cbn [run] in K. rewrite run_suffix_eos in K.
  destruct (Str.eqb b suffix) eqn:Q; [|discriminate].
  apply Str_eqb_eq in Q. subst b. now exists a.
Qed.

Lemma exec_suffixPattern_none (suffix s : list N) :
  endsWith suffix s = false ->
  exec ([Bos; Open; Rep dot 0 true; Close] ++ chars suffix ++ [Eos]) s = None.
Proof.
  intros H.
  destruct (exec _ s) as [m|] eqn:E; [|reflexivity].
  apply exec_suffixPattern_sound in E. destruct E as [c [-> _]].
  rewrite endsWith_app in H. discriminate.
Qed.

(* ================================================================== *)
(** * The Datadog notebook and general rules *)
(* ================================================================== *)

(** The Datadog rules put the time range after the title.
    [datadogGeneral] returns [document.title] followed by the time range.
    [datadogNotebook], on a one-line title "content | Datadog", returns
    the content, the time range, then " (Datadog Notebook)"; on a title
    that does not end with " | Datadog" it returns the title followed by
    the time range.  The time range is " (value)" for the non-empty value
    of the date range picker's input, and empty otherwise; neither rule
    throws, and the link is the page's address. *)
Theorem datadog_titles_carry_time_range (w : Page) :
  Rule.getDocInfo datadogGeneral w =
  (w, Ok (linkAndTitle (href (location w))
            (Some (documentTitle w ++ timeRangeOf w)))) /\
  (forall content,
     documentTitle w = content ++ lit " | Datadog" ->
     forallb dot content = true ->
     Rule.getDocInfo datadogNotebook w =
     (w, Ok (linkAndTitle (href (location w))
               (Some (content ++ timeRangeOf w
                      ++ lit " (Datadog Notebook)"))))) /\
  (endsWith (lit " | Datadog") (documentTitle w) = false ->
   Rule.getDocInfo datadogNotebook w =
   (w, Ok (linkAndTitle (href (location w))
             (Some (documentTitle w ++ timeRangeOf w))))) /\
  timeRangeOf w =
  match dateRangeValue w with
  | Some (c :: v) => lit " (" ++ (c :: v) ++ lit ")"
  | _ => []
  end.
Proof.
  split; [|split; [|split]].
  - unfold datadogGeneral. cbn [Rule.getDocInfo]. rewrite bind_gets.
    unfold bind. now rewrite getDatadogTimeRange_value.
  - intros content E D. unfold datadogNotebook. cbn [Rule.getDocInfo].
    rewrite bind_gets. unfold bind. rewrite getDatadogTimeRange_value, E.
    destruct (exec_suffixPattern (lit " | Datadog") content D) as [m [-> G]].
    now rewrite G.
  - intros H. unfold datadogNotebook. cbn [Rule.getDocInfo].
    rewrite bind_gets. unfold bind. rewrite getDatadogTimeRange_value.
    now rewrite (exec_suffixPattern_none (lit " | Datadog") _ H).
  - reflexivity.
Qed.

(* ================================================================== *)
(** * The Notion rule *)
(* ================================================================== *)

Lemma notion_result w :
  Rule.getDocInfo notion w =
  (w, Ok (linkAndTitle (href (location w))
            (Some (match exec [Bos; Chr 40; Rep isDigit 1 true; Chr 41;
                               Rep isWhiteSpace 0 true; Open; Rep dot 0 true;
                               Close; Eos] (documentTitle w) with
                   | Some notificationMatch =>
                       nth 0 (groups notificationMatch) []
                   | None => documentTitle w
                   end ++ lit " (Notion)")))).
Proof. reflexivity. Qed.

Lemma notion_tail (t : list N) i :
  forallb dot t = true ->
  run [Open; Rep dot 0 true; Close; Eos] i t [] [] = Some ([t], []).
Proof.
  intros D. cbn [run]. rewrite greedy_to_end by reflexivity.
  unfold char in *. rewrite D. cbn [andb Nat.leb run rev app length].
  now rewrite Nat.sub_0_r, firstn_all.
Qed.

(** [notion] strips the notification counter: on a title "(n) text",
    with a number in the parentheses, the title becomes "text (Notion)",
    the white space after the counter being dropped; a title that does not
    start with "(" only gets " (Notion)" appended.  The link is the page's
    address and the rule never throws. *)
Theorem notion_notification_counter (w : Page) (digits space text : str) :
  documentTitle w = lit "(" ++ digits ++ lit ")" ++ space ++ text ->
  digits <> [] ->
  forallb isDigit digits = true ->
  forallb isWhiteSpace space = true ->
  forallb dot text = true ->
  trimStart text = text ->
  Rule.getDocInfo notion w =
  (w, Ok (linkAndTitle (href (location w)) (Some (text ++ lit " (Notion)")))) /\
  (forall w',
     startsWith (lit "(") (documentTitle w') = false ->
     Rule.getDocInfo notion w' =
     (w', Ok (linkAndTitle (href (location w'))
                (Some (documentTitle w' ++ lit " (Notion)"))))).
Proof.
  intros E Hd Fd Fs Dt Ht. split.
  - rewrite notion_result, E. do 4 f_equal.
    rewrite exec_Bos.
    change (lit "(" ++ digits ++ lit ")" ++ space ++ text)
      with (40%N :: digits ++ 41%N :: space ++ text).
    cbn [run]. change (N.eqb 40 40) with true. cbv iota.
    destruct digits as [|d0 ds]; [contradiction|].
    cbn [forallb] in Fd. apply andb_true_iff in Fd. destruct Fd as [F0 Fd].
    cbn [app]. rewrite greedy_one, F0.
    erewrite (greedy_stops _ _ _ ds (41%N :: space ++ text)).
    2: exact Fd.
    2: reflexivity.
    2: { cbn [run]. change (N.eqb 41 41) with true. cbv iota.
         erewrite (greedy_stops _ _ _ space text).
         2: exact Fs.
         2: { destruct text as [|c t]; [exact I|].
              unfold trimStart in Ht. cbn [dropWhile] in Ht.
              destruct (isWhiteSpace c) eqn:W; [|reflexivity].
              exfalso. pose proof (dropWhile_length isWhiteSpace t) as L.
              apply (f_equal (@length N)) in Ht. cbn [length] in Ht.
              unfold char, str in *. lia. }
         2: exact (notion_tail text _ Dt).
         reflexivity. }
    reflexivity.
  - intros w' H. rewrite notion_result. do 4 f_equal.
    rewrite exec_Bos. cbn [run].
    destruct (documentTitle w') as [|x t]; [reflexivity|].
    cbn [startsWith] in H. change (lit "(") with [40%N] in H.
    cbn [startsWith] in H. rewrite andb_true_r in H.
    rewrite N.eqb_sym in H. now rewrite H.
Qed.

(* ================================================================== *)
(** * The Asana rule *)
(* ================================================================== *)

Lemma asana_result w :
  Rule.getDocInfo asana w =
  (w, Ok (linkAndTitle
            (withSearchParam (browser w) (href (location w)) (lit "focus")
               (lit "true"))
            (Some (match exec ([Bos; Open; Rep dot 0 true; Close]
                               ++ chars (lit " - Asana") ++ [Eos])
                           (documentTitle w) with
                   | Some m =>
                       match exec ([Bos; Chr 9679; Chr 32; Rep dot 1 true]
                                   ++ chars (lit " - ")
                                   ++ [Open; Rep dot 0 true; Close; Eos])
                               (nth 0 (groups m) []) with
                       | Some teamPrefixMatch =>
                           nth 0 (groups teamPrefixMatch) []
                       | None => nth 0 (groups m) []
                       end ++ lit " (Asana)"
                   | None => documentTitle w
                   end)))).
Proof.
  unfold asana. cbn [Rule.getDocInfo]. rewrite bind_gets.
  destruct (exec _ (documentTitle w)) as [m|]; reflexivity.
Qed.

(** The team prefix pattern [^● .+ - ( .* )$] captures what follows the
    last [" - "]. *)
Lemma teamPrefix_last (team task : list N) :
  forallb dot team = true -> forallb dot task = true -> team <> [] ->
  includes (lit " - ") (32%N :: task) = false ->
  exists m,
    exec ([Bos; Chr 9679; Chr 32; Rep dot 1 true] ++ chars (lit " - ")
          ++ [Open; Rep dot 0 true; Close; Eos])
      ([9679%N; 32%N] ++ team ++ lit " - " ++ task) = Some m /\
    groups m = [task].
Proof.
  intros Dm Dt Hm Hi. cbn [app]. rewrite exec_Bos.
  cbn [run]. change (N.eqb 9679 9679) with true.
  change (N.eqb 32 32) with true. cbv iota.
  destruct team as [|t0 ts]; [contradiction|].
  cbn [forallb] in Dm. apply andb_true_iff in Dm. destruct Dm as [D0 Ds].
  cbn [app]. rewrite greedy_one, D0.
  erewrite (greedy_longest _ _ _ ts (lit " - " ++ task)).
  2: exact Ds.
  2: { rewrite run_chars, startsWith_app.
       change (skipn (length (lit " - ")) (lit " - " ++ task)) with task.
       exact (notion_tail task _ Dt). }
  2: { intros a' b' E L _. rewrite run_chars.
       destruct (split_later _ _ _ _ _ E L) as [u [Hu Eu]].
       change (lit " - ") with [32%N; 45%N; 32%N] in *.
       assert (Z : startsWith [32%N; 45%N; 32%N] b' = false)
         by (apply (no_separator_after 45%N 45%N task u b'); auto;
             discriminate).
       rewrite Z. reflexivity. }
  eexists. split; reflexivity.
Qed.

Lemma teamPrefix_none (content : list N) :
  startsWith [9679%N; 32%N] content = false ->
  exec ([Bos; Chr 9679; Chr 32; Rep dot 1 true] ++ chars (lit " - ")
        ++ [Open; Rep dot 0 true; Close; Eos]) content = None.
Proof.
  intros H. cbn [app]. rewrite exec_Bos. cbn [run].
  destruct content as [|x [|y t]]; cbn [startsWith] in H.
  - reflexivity.
  - rewrite N.eqb_sym. destruct (N.eqb 9679 x); reflexivity.
  - rewrite (N.eqb_sym x), (N.eqb_sym y).
    destruct (N.eqb 9679 x); [|reflexivity].
    destruct (N.eqb 32 y); [discriminate|reflexivity].
Qed.

(** [asana] on a one-line title that ends with " - Asana": the suffix is
    turned into " (Asana)"; when what stands before it starts with "● "
    and a team name, the team prefix is dropped too, and the title is what
    follows the last [" - "] before the suffix.  A title that does not end
    with " - Asana" is returned as it is.  The link is the address with
    the search parameter [focus] set to [true]; the rule never throws. *)
Theorem asana_task_title (w : Page) (team task : str) :
  documentTitle w
  = [9679%N; 32%N] ++ team ++ lit " - " ++ task ++ lit " - Asana" ->
  forallb dot team = true ->
  forallb dot task = true ->
  team <> [] ->
  includes (lit " - ") (32%N :: task) = false ->
  Rule.getDocInfo asana w =
  (w, Ok (linkAndTitle
            (withSearchParam (browser w) (href (location w)) (lit "focus")
               (lit "true"))
            (Some (task ++ lit " (Asana)")))) /\
  (forall w' content,
     documentTitle w' = content ++ lit " - Asana" ->
     forallb dot content = true ->
     startsWith [9679%N; 32%N] content = false ->
     Rule.getDocInfo asana w' =
     (w', Ok (linkAndTitle
                (withSearchParam (browser w') (href (location w'))
                   (lit "focus") (lit "true"))
                (Some (content ++ lit " (Asana)"))))) /\
  (forall w',
     endsWith (lit " - Asana") (documentTitle w') = false ->
     Rule.getDocInfo asana w' =
     (w', Ok (linkAndTitle
                (withSearchParam (browser w') (href (location w'))
                   (lit "focus") (lit "true"))
                (Some (documentTitle w'))))).
Proof.
  intros E Dm Dt Hm Hi. split; [|split].
  - rewrite asana_result, E.
    replace ([9679%N; 32%N] ++ team ++ lit " - " ++ task ++ lit " - Asana")
      with (([9679%N; 32%N] ++ team ++ lit " - " ++ task) ++ lit " - Asana")
      by (now rewrite <- !app_assoc).
    destruct (exec_suffixPattern (lit " - Asana")
                ([9679%N; 32%N] ++ team ++ lit " - " ++ task))
      as [m [-> G]].
    { cbn [app forallb]. rewrite forallb_app. unfold char, str in *.
      rewrite Dm. cbn [andb]. rewrite forallb_app, Dt. reflexivity. }
    rewrite G. cbn [nth].
    destruct (teamPrefix_last team task Dm Dt Hm Hi) as [m' [-> G']].
    now rewrite G'.
  - intros w' content E' D' S'. rewrite asana_result, E'.
    destruct (exec_suffixPattern (lit " - Asana") content D') as [m [-> G]].
    rewrite G. cbn [nth]. now rewrite (teamPrefix_none content S').
  - intros w' H. rewrite asana_result.
    now rewrite (exec_suffixPattern_none (lit " - Asana") _ H).
Qed.

(* ================================================================== *)
(** * The log rule: the open log line first, the query second *)
(* ================================================================== *)

Lemma searchFrom_chars_includes (l s : list N) : forall i,
  match searchFrom (chars l) i s with Some _ => true | None => false end
  = includes l s.
Proof.
  induction s as [|c t IH]; intros i; cbn [searchFrom includes].
  - rewrite matchAt_chars. now destruct (startsWith l []).
  - rewrite matchAt_chars.
    destruct (startsWith l (c :: t)); [reflexivity|apply IH].
Qed.

Lemma test_chars (l s : list N) : Re.test (chars l) s = includes l s.
Proof. unfold Re.test, exec. apply searchFrom_chars_includes. Qed.

Lemma run_pair A (m : M A) w : m w = (fst (m w), snd (m w)).
Proof. now destruct (m w). Qed.

Lemma findFirstInWholeDFS_value (w : Page) (p : Node -> bool) (b : Node) :
  NoDup (nodeIds (root w)) -> body (root w) = Some b ->
  findFirstInWholeDFS (pureCondition p) w
  = (w, Ok (find p (after (nodeId b) (elementsOf (root w))))).
Proof.
  intros ND Hb. rewrite run_pair, leavesPage_findFirstInWholeDFS.
  f_equal. now apply findFirstInWholeDFS_pure.
Qed.

Lemma findNextElementDFS_value (w : Page) (b start : Node)
  (p : Node -> bool) :
  body (root w) = Some b ->
  findNextElementDFS start (pureCondition p) w
  = (w, Ok (nextElement w b start p)).
Proof. intros Hb. now rewrite findNextElementDFS_pure, Hb. Qed.

Lemma logMessage_search w b :
  NoDup (nodeIds (root w)) -> body (root w) = Some b ->
  findFirstInWholeDFS
    (createDirectTextCondition (chars (lit "Log Message"))) w
  = (w, Ok (logMessageElementOf w b)).
Proof.
  intros ND Hb.
  change (createDirectTextCondition (chars (lit "Log Message")))
    with (pureCondition hasLogMessage).
  now apply findFirstInWholeDFS_value.
Qed.

Lemma decodedQuery_fallback A (w : Page) (k : str -> A) (d : A) :
  bind decodedQuery
    (fun query => match query with
                  | Some decoded => ret (k decoded)
                  | None => ret d
                  end) w
  = (w, match searchParam (browser w) (search (location w)) (lit "query")
        with
        | Some (c :: s) =>
            match decodeURIComponent (browser w) (c :: s) with
            | Ok decoded => Ok (k decoded)
            | Throw e => Throw e
            end
        | _ => Ok d
        end).
Proof.
  unfold bind at 1, decodedQuery. rewrite bind_gets.
  destruct (searchParam _ _ _) as [[|c s]|]; try reflexivity.
  unfold bind, lift, ret. now destruct (decodeURIComponent _ _).
Qed.

(** [datadogLogs]: on a log page the title is the text of the first [code] element
    after the first element reading "Log Message" (searched after the
    body), whatever the address says; without such an element it is the
    decoded query parameter, and only without both the document title.
    A query that cannot be decoded makes the rule throw. *)
Theorem datadogLogs_priority (w : Page) (b : Node) :
  NoDup (nodeIds (root w)) ->
  body (root w) = Some b ->
  (forall e, hasLogMessage e
             = includes (lit "Log Message") (directText (childNodesOf e)))
  /\ Rule.getDocInfo datadogLogs w =
     (w,
      let suffix := timeRangeOf w ++ lit " (Logs)" in
      match codeElementOf w b with
      | Some code =>
          Ok (linkAndTitle (href (location w))
                (Some (trim (replaceAll ws_plus (lit " ") (textContent code))
                       ++ suffix)))
      | None =>
          match searchParam (browser w) (search (location w)) (lit "query")
          with
          | Some (c :: s) =>
              match decodeURIComponent (browser w) (c :: s) with
              | Ok decoded =>
                  Ok (linkAndTitle (href (location w))
                        (Some (decoded ++ suffix)))
              | Throw e => Throw e
              end
          | _ =>
              Ok (linkAndTitle (href (location w))
                    (Some (documentTitle w ++ suffix)))
          end
      end).
Proof.
  intros ND Hb. split.
  { intros e. apply test_chars. }
  unfold datadogLogs, codeElementOf. cbn [Rule.getDocInfo].
  rewrite bind_gets. unfold bind at 1. rewrite getDatadogTimeRange_value.
  unfold bind at 1. rewrite (logMessage_search w b ND Hb).
  unfold bind at 1.
  destruct (logMessageElementOf w b) as [e|].
  - change (fun e0 : Node => Ok (Str.eqb (tagOf e0) (lit "CODE")))
      with (pureCondition isCode).
    rewrite (findNextElementDFS_value w b e isCode Hb).
    destruct (nextElement w b e isCode) as [c|]; [reflexivity|].
    apply decodedQuery_fallback.
  - unfold ret at 1. apply decodedQuery_fallback.
Qed.

Lemma notion_notification_counter_witness :
  snd (Rule.getDocInfo notion Pages.notionPage)
  = Ok (linkAndTitle (lit "https://www.notion.so/Roadmap-1")
          (Some (lit "Roadmap (Notion)"))).
Proof.
  rewrite (proj1 (notion_notification_counter Pages.notionPage
                    (lit "3") (lit " ") (lit "Roadmap")
                    eq_refl ltac:(discriminate) eq_refl eq_refl eq_refl
                    eq_refl)).
  reflexivity.
Defined.

Lemma asana_task_title_witness :
  snd (Rule.getDocInfo asana Pages.asanaPage)
  = Ok (linkAndTitle (lit "https://app.asana.com/0/1/2?focus=true")
          (Some (lit "Fix login (Asana)"))).
Proof.
  rewrite (proj1 (asana_task_title Pages.asanaPage
                    (lit "Platform") (lit "Fix login")
                    eq_refl eq_refl eq_refl ltac:(discriminate) eq_refl)).
  reflexivity.
Defined.

Lemma datadogLogs_priority_witness :
  snd (Rule.getDocInfo datadogLogs Pages.openLogPage)
  = Ok (linkAndTitle
          (lit "https://app.datadoghq.com/logs?query=cpu%20%3E%2090%25")
          (Some (lit "disk full on /dev/sda1 (Logs)"))) /\
  snd (Rule.getDocInfo datadogLogs Examples.logSearchPage)
  = Throw (lit "URIError: URI malformed").
Proof.
  assert (ND : NoDup (nodeIds (root Pages.openLogPage))).
  { vm_compute. repeat constructor; simpl; intuition lia. }
  assert (ND' : NoDup (nodeIds (root Examples.logSearchPage))).
  { vm_compute. repeat constructor; simpl; intuition lia. }
  split.
  - rewrite (proj2 (datadogLogs_priority Pages.openLogPage _ ND eq_refl)).
    vm_compute. reflexivity.
  - rewrite (proj2 (datadogLogs_priority Examples.logSearchPage _ ND'
                      eq_refl)).
    vm_compute. reflexivity.
Defined.

(* ================================================================== *)
(** * Elements by class prefix *)
(* ================================================================== *)

Lemma find_filter A (m q : A -> bool) (l : list A) :
  find q (filter m l) = find (fun e => m e && q e) l.
Proof.
  induction l as [|x l IH]; [reflexivity|].
  cbn [filter find]. destruct (m x); cbn [find andb]; [|exact IH].
  destruct (q x); [reflexivity|exact IH].
Qed.

Lemma find_pointwise A (p q : A -> bool) (l : list A) :
  (forall x, p x = q x) -> find p l = find q l.
Proof.
  intros H. induction l as [|x l IH]; [reflexivity|].
  cbn [find]. now rewrite H, IH.
Qed.

(** The first part of a split string starts the string. *)
Lemma splitOn_head (sep : N) (s w : list N) (ws : list (list N)) :
  splitOn sep s = w :: ws -> exists b, s = w ++ b.
Proof.
  revert w ws. induction s as [|c s IH]; intros w ws; cbn [splitOn].
  - intros E. injection E as <- _. now exists [].
  - destruct (N.eqb c sep).
    + intros E. injection E as <- _. now exists (c :: s).
    + destruct (splitOn sep s) as [|v vs] eqn:E.
      * intros F. injection F as <- _. now exists s.
      * intros F. injection F as <- _.
        destruct (IH v vs eq_refl) as [b ->]. now exists b.
Qed.

(** Every part of a split string is a piece of it. *)
Lemma splitOn_piece (sep : N) (s t : list N) :
  In t (splitOn sep s) -> exists a b, s = a ++ t ++ b.
Proof.
  revert t. induction s as [|c s IH]; intros t; cbn [splitOn].
  - intros [<-|[]]. now exists [], [].
  - destruct (N.eqb c sep).
    + intros [<-|H].
      * now exists [], (c :: s).
      * destruct (IH _ H) as [a [b ->]]. now exists (c :: a), b.
    + destruct (splitOn sep s) as [|w ws] eqn:E.
      * intros [<-|[]]. exists [], s. reflexivity.
      * intros [<-|H].
        -- destruct (splitOn_head _ _ _ _ E) as [b ->]. now exists [], b.
        -- destruct (IH _ (or_intror H)) as [a [b ->]].
           now exists (c :: a), b.
Qed.

(** A class name that starts with the prefix puts the prefix in the
    attribute. *)
Lemma classPrefix_in_attribute (prefix : list N) (e : Node) :
  prefix <> [] ->
  existsb (startsWith prefix) (splitOn 32 (className e)) = true ->
  attrHolds e (Contains (lit "class") prefix) = true.
Proof.
  intros Hp H. apply existsb_exists in H. destruct H as [t [Hin Ht]].
  cbn [attrHolds]. unfold className in Hin.
  destruct (getAttribute (lit "class") e) as [x|].
  - destruct prefix as [|p0 p]; [contradiction|].
    destruct (splitOn_piece _ _ _ Hin) as [a [b ->]].
    destruct (startsWith_ex _ _ Ht) as [z ->].
    rewrite <- app_assoc. apply includes_app.
  - cbn [splitOn In] in Hin. destruct Hin as [<-|[]].
    destruct prefix; [contradiction|discriminate].
Qed.

Lemma find_pointwise_in A (p q : A -> bool) (l : list A) :
  (forall x, In x l -> p x = q x) -> find p l = find q l.
Proof.
  induction l as [|x l IH]; intros H; [reflexivity|].
  cbn [find]. rewrite (H x (or_introl eq_refl)), IH; [reflexivity|].
  intros y Hy. apply H. now right.
Qed.

(** The loop over the selected elements stops at the first one that is an
    SVG element or has a class name with the prefix. *)
Lemma firstByClassPrefix_filter (b : Browser) (prefix : list N)
  (m : Node -> bool) (l : list Node) :
  firstByClassPrefix b prefix (filter m l)
  = match find (fun e =>
                  m e && (classNameIsObject b e
                          || existsb (startsWith prefix)
                               (splitOn 32 (className e)))) l with
    | Some e =>
        if classNameIsObject b e then
          Throw (lit "TypeError: element.className.split is not a function")
        else Ok (Some e)
    | None => Ok None
    end.
Proof.
  induction l as [|x l IH]; [reflexivity|].
  cbn [filter find]. destruct (m x); cbn [andb]; [|exact IH].
  cbn [firstByClassPrefix].
  destruct (classNameIsObject b x) eqn:S; cbn [orb]; [now rewrite S|].
  destruct (existsb (startsWith prefix) (splitOn 32 (className x)));
    [now rewrite S|exact IH].
Qed.

(** [findElementByClassPrefix] with a non-empty prefix goes through the
    elements of the document of the given type, in tree order, and stops
    at the first one that is an SVG element whose [class] attribute
    contains the prefix, where it throws a [TypeError], or that has, among
    the parts of its [class] attribute separated by single spaces, one that
    starts with the prefix, which it returns.  In a document without SVG
    elements the result is the first element with such a class name, the
    attribute selector of the query excluding none.  With the empty prefix
    the result is null, the selector matching nothing. *)
Theorem findElementByClassPrefix_first (prefix : str) (tagName : option str)
  (w : Page) :
  prefix <> [] ->
  forallb isNameChar prefix = true ->
  findElementByClassPrefix prefix tagName w
  = match find (endsClassSearch (browser w) prefix tagName)
            (elementsOf (root w)) with
    | Some e =>
        if classNameIsObject (browser w) e then
          Throw (lit "TypeError: element.className.split is not a function")
        else Ok (Some e)
    | None => Ok None
    end
  /\ ((forall e, In e (elementsOf (root w)) ->
                 classNameIsObject (browser w) e = false) ->
      findElementByClassPrefix prefix tagName w
      = Ok (find (hasClassPrefix prefix tagName) (elementsOf (root w))))
  /\ findElementByClassPrefix [] tagName w = Ok None.
Proof.
  intros Hp _.
  assert (Main :
    findElementByClassPrefix prefix tagName w
    = match find (endsClassSearch (browser w) prefix tagName)
              (elementsOf (root w)) with
      | Some e =>
          if classNameIsObject (browser w) e then
            Throw (lit "TypeError: element.className.split is not a function")
          else Ok (Some e)
      | None => Ok None
      end).
  { unfold findElementByClassPrefix, documentQuerySelectorAll.
    rewrite firstByClassPrefix_filter.
    rewrite (find_pointwise _ _ (endsClassSearch (browser w) prefix tagName));
      [reflexivity|].
    intros e. unfold endsClassSearch.
    destruct (classNameIsObject (browser w) e); cbn [orb].
    - apply andb_true_r.
    - unfold hasClassPrefix, matches.
      cbn [selTag selId selClasses selAttrs sel forallb].
      destruct (existsb (startsWith prefix) (splitOn 32 (className e))) eqn:Q.
      + rewrite (classPrefix_in_attribute prefix e Hp Q). reflexivity.
      + now rewrite !andb_false_r. }
  split; [exact Main|split].
  - intros H. rewrite Main.
    rewrite (find_pointwise_in _ _ (hasClassPrefix prefix tagName)).
    + destruct (find (hasClassPrefix prefix tagName) (elementsOf (root w)))
        as [e|] eqn:F; [|reflexivity].
      apply find_some in F. now rewrite (H e (proj1 F)).
    + intros e He. unfold endsClassSearch. now rewrite (H e He).
  - unfold findElementByClassPrefix, documentQuerySelectorAll.
    rewrite firstByClassPrefix_filter.
    assert (G : forall l : list Node,
              find (fun e =>
                      matches (sel tagName None [] [Contains (lit "class") []]) e
                      && (classNameIsObject (browser w) e
                          || existsb (startsWith [])
                               (splitOn 32 (className e)))) l
              = None).
    { induction l as [|x l IH]; [reflexivity|]. cbn [find].
      unfold matches at 1. cbn [selAttrs sel forallb attrHolds].
      destruct (getAttribute (lit "class") x);
        rewrite ?andb_false_r; cbn [andb]; exact IH. }
    now rewrite G.
Qed.

(* ================================================================== *)
(** * The chat message rule: the message or the plain fallback *)
(* ================================================================== *)

Lemma test_Bos_chars (l s : list N) :
  Re.test ([Bos] ++ chars l) s = startsWith l s.
Proof.
  unfold Re.test. cbn [app]. rewrite exec_Bos.
  change (run (chars l) 0 s [] []) with (matchAt (chars l) 0 s).
  rewrite matchAt_chars. now destruct (startsWith l s).
Qed.

Lemma test_Bos_chars_Eos (l s : list N) :
  Re.test ([Bos] ++ chars l ++ [Eos]) s = Str.eqb s l.
Proof.
  unfold Re.test. cbn [app]. rewrite exec_Bos, run_suffix_eos.
  now destruct (Str.eqb s l).
Qed.

Lemma slackMessage_reference (w : Page) (b : Node) :
  NoDup (nodeIds (root w)) -> body (root w) = Some b ->
  referenceElementOf w b = None ->
  exists e, slackMessage w = (w, Throw e).
Proof.
  intros ND Hb Hr. unfold slackMessage, findFirstWithDirectTextMatch.
  unfold referenceElementOf in Hr.
  change (createDirectTextCondition ([Bos] ++ chars (lit "Saved for later")))
    with (pureCondition startsSavedForLater).
  change (createDirectTextCondition
            ([Bos] ++ chars (lit "Also sent to the channel") ++ [Eos]))
    with (pureCondition isAlsoSent).
  unfold bind at 1. rewrite (findFirstInWholeDFS_value w _ b ND Hb).
  destruct (find startsSavedForLater _); [discriminate|].
  unfold bind at 1. unfold bind at 1.
  rewrite (findFirstInWholeDFS_value w _ b ND Hb), Hr.
  unfold throw. eexists. reflexivity.
Qed.

Lemma slackMessage_outcome (w : Page) (b : Node) :
  NoDup (nodeIds (root w)) -> body (root w) = Some b ->
  exists out,
    slackMessage w = (w, out) /\
    match messageContentOf w b with
    | None => exists e, out = Throw e
    | Some messageContentDiv =>
        match timestampOf w messageContentDiv with
        | Some ts =>
            match formatTimestamp (browser w) ts with
            | Throw e => out = Throw e
            | Ok formattedDate =>
                exists d,
                  out = Ok d
                  /\ title d = Some (messageTextOf w messageContentDiv)
                  /\ text d = Some (messageTextOf w messageContentDiv)
                  /\ dateString d = Some (formattedDate ++ lit " ET")
            end
        | None =>
            exists d,
              out = Ok d
              /\ title d = Some (messageTextOf w messageContentDiv)
              /\ text d = Some (messageTextOf w messageContentDiv)
              /\ dateString d = Some []
        end
    end.
Proof.
  intros ND Hb. unfold messageContentOf.
  destruct (referenceElementOf w b) as [r|] eqn:Hr.
  2: { destruct (slackMessage_reference w b ND Hb Hr) as [e E].
       exists (Throw e). split; [exact E|now exists e]. }
  assert (Stage : forall K : Node -> M DocInfo,
            (savedForLater <-
               findFirstInWholeDFS (pureCondition startsSavedForLater) ;;
             referenceElement <-
               match savedForLater with
               | Some element => ret element
               | None =>
                   alsoSent <-
                     findFirstInWholeDFS (pureCondition isAlsoSent) ;;
                   match alsoSent with
                   | Some element => ret element
                   | None =>
                       throw (lit "Could not find 'Saved for later' span or 'Also sent to the channel' button")
                   end
               end ;;
             K referenceElement) w = K r w).
  { intros K. unfold referenceElementOf in Hr.
    unfold bind at 1.
    rewrite (findFirstInWholeDFS_value w _ b ND Hb).
    destruct (find startsSavedForLater _) as [r0|].
    - injection Hr as ->. reflexivity.
    - unfold bind at 1. unfold bind at 1.
      rewrite (findFirstInWholeDFS_value w _ b ND Hb), Hr. reflexivity. }
  unfold slackMessage, findFirstWithDirectTextMatch.
  change (createDirectTextCondition ([Bos] ++ chars (lit "Saved for later")))
    with (pureCondition startsSavedForLater).
  change (createDirectTextCondition
            ([Bos] ++ chars (lit "Also sent to the channel") ++ [Eos]))
    with (pureCondition isAlsoSent).
  change (fun element : Node =>
            Ok (Str.eqb (tagOf element) (lit "DIV")
                && (dataQaIs (lit "message_content") element
                    || dataQaIs (lit "message-text") element)))
    with (pureCondition isMessageContent).
  rewrite Stage. unfold bind at 1.
  rewrite (findNextElementDFS_value w b r isMessageContent Hb).
  destruct (nextElement w b r isMessageContent) as [div|].
  2: { eexists. split; [reflexivity|]. eexists. reflexivity. }
  unfold findInParentChain. rewrite bind_gets.
  unfold timestampOf, timestampLinkOf.
  destruct (findInParentChainFrom _ _ _
              (sel (Some (lit "A")) None [lit "c-timestamp"]
                 [Has (lit "data-ts")])) as [a|];
    [ unfold bind at 1, ret at 1
    | rewrite bind_gets;
      destruct (findInParentChainFrom _ _ _ _) as [a|] ].
  all: rewrite bind_gets.
  1,2: destruct (getAttribute (lit "data-ts") a) as [[|c s]|];
    [ | destruct (formatTimestamp (browser w) (c :: s)) as [date|e] eqn:F | ].
  all: unfold messageTextOf;
    destruct (querySelector
                (sel None None []
                   [Equals (lit "data-qa") (lit "message-text")]) div).
  all: eexists; (split; [unfold bind, lift, ret; rewrite ?F; reflexivity|]);
    try reflexivity; eexists; repeat split; reflexivity.
Qed.

(** In a document with a body and distinct nodes, the chat rule looks for
    the first element after the body whose own text starts with "Saved for
    later", or else the first whose own text is "Also sent to the channel",
    and then for the first message [div] after it.  Without the reference
    element or without the [div] the result is the plain record of the
    address and the document title followed by " (Slack)"; so it is when
    the message has a timestamp link with a [data-ts] that cannot be
    formatted as a date.  Otherwise the record's [title] and [text] are the
    message text, and its [dateString] is the formatted date followed by
    " ET", or empty without a time stamp. *)
Theorem slack_message_or_fallback (w : Page) (b : Node) :
  NoDup (nodeIds (root w)) ->
  body (root w) = Some b ->
  (forall e, startsSavedForLater e
             = startsWith (lit "Saved for later") (directText (childNodesOf e)))
  /\ (forall e, isAlsoSent e
                = Str.eqb (directText (childNodesOf e))
                    (lit "Also sent to the channel"))
  /\ match messageContentOf w b with
     | None => Rule.getDocInfo slack w = (w, Ok (slackFallback w))
     | Some messageContentDiv =>
         match timestampOf w messageContentDiv with
         | Some ts =>
             match formatTimestamp (browser w) ts with
             | Throw _ => Rule.getDocInfo slack w = (w, Ok (slackFallback w))
             | Ok formattedDate =>
                 exists d,
                   Rule.getDocInfo slack w = (w, Ok d)
                   /\ title d = Some (messageTextOf w messageContentDiv)
                   /\ text d = Some (messageTextOf w messageContentDiv)
                   /\ dateString d = Some (formattedDate ++ lit " ET")
             end
         | None =>
             exists d,
               Rule.getDocInfo slack w = (w, Ok d)
               /\ title d = Some (messageTextOf w messageContentDiv)
               /\ text d = Some (messageTextOf w messageContentDiv)
               /\ dateString d = Some []
         end
     end.
Proof.
  intros ND Hb. split; [|split].
  { intros e. apply test_Bos_chars. }
  { intros e. apply test_Bos_chars_Eos. }
  destruct (slackMessage_outcome w b ND Hb) as [out [E H]].
  unfold slack. cbn [Rule.getDocInfo]. unfold tryCatch. rewrite E.
  destruct (messageContentOf w b) as [div|].
  - destruct (timestampOf w div) as [ts|].
    + destruct (formatTimestamp (browser w) ts) as [date|e].
      * destruct H as [d [-> H]]. now exists d.
      * subst out. reflexivity.
    + destruct H as [d [-> H]]. now exists d.
  - destruct H as [e ->]. reflexivity.
Qed.

Lemma findElementByClassPrefix_first_witness :
  findElementByClassPrefix (lit "CodeDiff_") (Some (lit "DIV"))
    Pages.codeDiffPage
  = Ok (Some (Examples.el 6 "DIV"
                [("class", "panel CodeDiff_root__x1")%string] [])) /\
  findElementByClassPrefix (lit "CodeDiff_") None Pages.codeDiffIconPage
  = Throw (lit "TypeError: element.className.split is not a function") /\
  findElementByClassPrefix (lit "CodeDiff_") (Some (lit "DIV"))
    Pages.codeDiffIconPage
  = Ok (Some (Examples.el 5 "DIV"
                [("class", "panel CodeDiff_root__x1")%string] [])).
Proof.
  split; [|split].
  - rewrite (proj1 (findElementByClassPrefix_first (lit "CodeDiff_")
                      (Some (lit "DIV")) Pages.codeDiffPage
                      ltac:(discriminate) eq_refl)).
    reflexivity.
  - rewrite (proj1 (findElementByClassPrefix_first (lit "CodeDiff_")
                      None Pages.codeDiffIconPage
                      ltac:(discriminate) eq_refl)).
    reflexivity.
  - rewrite (proj1 (findElementByClassPrefix_first (lit "CodeDiff_")
                      (Some (lit "DIV")) Pages.codeDiffIconPage
                      ltac:(discriminate) eq_refl)).
    reflexivity.
Defined.

Lemma slack_message_or_fallback_witness :
  (exists d, snd (Rule.getDocInfo slack Pages.savedMessagePage) = Ok d
             /\ title d = Some (lit "ship it")
             /\ dateString d = Some []) /\
  (exists d, snd (Rule.getDocInfo slack Pages.datedMessagePage) = Ok d
             /\ title d = Some (lit "Hey team, this is an important message.")
             /\ text d = title d) /\
  snd (Rule.getDocInfo slack Pages.undatedMessagePage)
  = Ok (linkAndTitle (lit "https://app.slack.com/client/T1/later")
          (Some (lit "Later - Slack (Slack)"))) /\
  snd (Rule.getDocInfo slack Pages.channelPage)
  = Ok (linkAndTitle (lit "https://app.slack.com/client/T1/C2")
          (Some (lit "general - Slack (Slack)"))).
Proof.
  assert (ND1 : NoDup (nodeIds (root Pages.savedMessagePage))).
  { vm_compute. repeat constructor; simpl; intuition lia. }
  assert (ND2 : NoDup (nodeIds (root Pages.datedMessagePage))).
  { vm_compute. repeat constructor; simpl; intuition lia. }
  assert (ND3 : NoDup (nodeIds (root Pages.undatedMessagePage))).
  { vm_compute. repeat constructor; simpl; intuition lia. }
  assert (ND4 : NoDup (nodeIds (root Pages.channelPage))).
  { vm_compute. repeat constructor; simpl; intuition lia. }
  split; [|split; [|split]].
  - pose proof (proj2 (proj2 (slack_message_or_fallback
                                Pages.savedMessagePage _ ND1 eq_refl))) as H.
    destruct H as [d [E [T [_ D]]]]. exists d. rewrite E, T, D.
    repeat split; vm_compute; reflexivity.
  - pose proof (proj2 (proj2 (slack_message_or_fallback
                                Pages.datedMessagePage _ ND2 eq_refl))) as H.
    destruct H as [d [E [T [X _]]]]. exists d. rewrite E, T, X.
    repeat split; vm_compute; reflexivity.
  - pose proof (proj2 (proj2 (slack_message_or_fallback
                                Pages.undatedMessagePage _ ND3 eq_refl))) as H.
    rewrite H. reflexivity.
  - pose proof (proj2 (proj2 (slack_message_or_fallback
                                Pages.channelPage _ ND4 eq_refl))) as H.
    rewrite H. reflexivity.
Defined.

(* ================================================================== *)
(** * The clipboard content: escaping the title *)
(* ================================================================== *)

Lemma chr_unanchored (c : N) : unanchored [Chr c].
Proof. intros i j s. unfold matchAt. cbn [run]. now destruct s. Qed.

Lemma replaceAll_chr (c : N) (rep s : list N) :
  replaceAll [Chr c] rep s
  = flat_map (fun x => if N.eqb x c then rep else [x]) s.
Proof.
  induction s as [|x s IH]; [reflexivity|].
  cbn [flat_map]. destruct (N.eqb x c) eqn:E.
  - change (x :: s) with ([x] ++ s).
    rewrite (replaceAll_hit [Chr c] rep (chr_unanchored c) [x] s []).
    + now rewrite IH.
    + unfold matchAt. cbn [app run]. now rewrite E.
    + discriminate.
  - rewrite replaceAll_miss.
    + now rewrite IH.
    + apply chr_unanchored.
    + unfold matchAt. cbn [run]. now rewrite E.
Qed.

Lemma flat_map_flat_map A (f g : A -> list A) (s : list A) :
  flat_map g (flat_map f s) = flat_map (fun x => flat_map g (f x)) s.
Proof.
  induction s as [|x s IH]; [reflexivity|].
  cbn [flat_map]. now rewrite flat_map_app, IH.
Qed.

Lemma escapedTitle_flat_map (t : list N) :
  replaceAll [Chr 93] (lit "\]") (replaceAll [Chr 91] (lit "\[") t)
  = flat_map escapeBracket t.
Proof.
  rewrite !replaceAll_chr, flat_map_flat_map. apply flat_map_ext.
  intros x. unfold escapeBracket, isBracket.
  destruct (N.eqb x 91) eqn:E1.
  - apply N.eqb_eq in E1. subst x. reflexivity.
  - cbn [flat_map orb]. rewrite app_nil_r.
    destruct (N.eqb x 93) eqn:E2; [|reflexivity].
    apply N.eqb_eq in E2. subst x. reflexivity.
Qed.

Lemma escaped_head (t : list N) :
  match flat_map escapeBracket t with
  | [] => True
  | d :: _ => isBracket d = false
  end.
Proof.
  destruct t as [|c t]; [exact I|].
  cbn [flat_map]. unfold escapeBracket at 1.
  destruct (isBracket c) eqn:E; cbn [app]; [reflexivity|exact E].
Qed.

Lemma bracket_not_backslash (c : N) : isBracket c = true -> N.eqb c 92 = false.
Proof.
  unfold isBracket. intros H. apply orb_true_iff in H.
  destruct H as [H|H]; apply N.eqb_eq in H; now subst.
Qed.

Lemma unescapeBrackets_escaped (t : list N) :
  unescapeBrackets (flat_map escapeBracket t) = t.
Proof.
  induction t as [|c t IH]; [reflexivity|].
  cbn [flat_map]. pose proof (escaped_head t) as Hd.
  unfold escapeBracket at 1. destruct (isBracket c) eqn:E; cbn [app].
  - cbn [unescapeBrackets]. rewrite E. cbn [N.eqb Pos.eqb andb].
    change (unescapeBrackets (c :: flat_map escapeBracket t) = c :: t).
    cbn [unescapeBrackets].
    rewrite (bracket_not_backslash c E). cbn [andb].
    fold unescapeBrackets.
    destruct (flat_map escapeBracket t) as [|d r] eqn:F.
    + now rewrite <- IH.
    + fold (unescapeBrackets (d :: r)). now rewrite IH.
  - cbn [unescapeBrackets].
    destruct (flat_map escapeBracket t) as [|d r] eqn:F.
    + now rewrite <- IH.
    + rewrite Hd, andb_false_r. f_equal. exact IH.
Qed.

Lemma bracketsEscaped_escaped (t : list N) : forall e,
  bracketsEscaped e (flat_map escapeBracket t) = true.
Proof.
  induction t as [|c t IH]; intros e; [reflexivity|].
  cbn [flat_map]. unfold escapeBracket at 1.
  destruct (isBracket c) eqn:E; cbn [app bracketsEscaped].
  - rewrite E, IH. reflexivity.
  - rewrite E, IH. reflexivity.
Qed.

(** [copyToClipboard] on a record without [html] or without [text]: the
    plain text is the Markdown link "[escaped](link)", where [escaped] is
    the title with a backslash put before each square bracket and nothing
    else changed.  The escaping loses nothing: taking away the backslash
    that stands directly before a bracket gives the title back, so two
    titles never share an escaped form, and no bracket of [escaped] is
    without its backslash.  The HTML is a link with the title as it is. *)
Theorem clipboard_title_round_trip (d : DocInfo) (t : str) :
  title d = Some t ->
  truthy (orEmpty (html d)) && truthy (orEmpty (text d)) = false ->
  exists escaped,
    clipboardContent d
    = (lit "[" ++ escaped ++ lit "](" ++ link d ++ lit ")",
       lit "<a href=" ++ quote ++ link d ++ quote ++ lit ">" ++ t
       ++ lit "</a>")
    /\ escaped = flat_map escapeBracket t
    /\ unescapeBrackets escaped = t
    /\ bracketsEscaped false escaped = true.
Proof.
  intros Ht Hp. exists (flat_map escapeBracket t).
  split; [|split; [reflexivity|split]].
  - unfold clipboardContent. rewrite Ht. cbn [orEmpty].
    assert (E : match t with
                | c :: s =>
                    replaceAll [Chr 93] (lit "\]")
                      (replaceAll [Chr 91] (lit "\[") (c :: s))
                | [] => []
                end = flat_map escapeBracket t).
    { destruct t; [reflexivity|apply escapedTitle_flat_map]. }
    destruct (html d) as [[|h hs]|], (text d) as [[|x xs]|];
      try discriminate; now rewrite E.
  - apply unescapeBrackets_escaped.
  - apply bracketsEscaped_escaped.
Qed.

Lemma clipboard_title_round_trip_witness :
  fst (clipboardContent
         (linkAndTitle (lit "https://example.org/a")
            (Some (lit "[Triggered] disk [sda1]"))))
  = lit "[\[Triggered\] disk \[sda1\]](https://example.org/a)".
Proof.
  destruct (clipboard_title_round_trip
              (linkAndTitle (lit "https://example.org/a")
                 (Some (lit "[Triggered] disk [sda1]")))
              (lit "[Triggered] disk [sda1]") eq_refl eq_refl)
    as [escaped [E [F _]]].
  rewrite E, F. reflexivity.
Defined.

(* ================================================================== *)
(** * The walk up the parent chain *)
(* ================================================================== *)

Lemma pathTo_Element t i tg a v kids :
  pathTo t (Element i tg a v kids)
  = if i =? t then Some [Element i tg a v kids]
    else option_map (cons (Element i tg a v kids))
           (firstSome (pathTo t) kids).
Proof.
  cbn [pathTo nodeId]. destruct (i =? t); [reflexivity|].
  generalize (Element i tg a v kids) as n. intros n.
  induction kids as [|k kids IH]; [reflexivity|].
  cbn [firstSome]. destruct (pathTo t k); [reflexivity|exact IH].
Qed.

Lemma pathTo_Text t i d :
  pathTo t (Text i d) = if i =? t then Some [Text i d] else None.
Proof. reflexivity. Qed.

(** The nodes of a path belong to the tree. *)
Lemma pathTo_ids t n : forall p x,
  pathTo t n = Some p -> In x p -> In (nodeId x) (nodeIds n).
Proof.
  induction n as [i d|i tg a v kids IH] using Node_rect'; intros p x.
  - rewrite pathTo_Text. destruct (i =? t); [|discriminate].
    intros E. injection E as <-. intros [<-|[]]. now left.
  - rewrite pathTo_Element, nodeIds_Element. destruct (i =? t).
    + intros E. injection E as <-. intros [<-|[]]. now left.
    + intros E Hx.
      destruct (firstSome (pathTo t) kids) as [q|] eqn:F; [|discriminate].
      injection E as <-. destruct Hx as [<-|Hx]; [now left|].
      right. clear -IH F Hx. induction IH as [|k kids Hk _ IHkids];
        [discriminate|].
      cbn [firstSome] in F. cbn [flat_map]. apply in_or_app.
      destruct (pathTo t k) as [q'|] eqn:G.
      * injection F as ->. left. now apply (Hk q).
      * right. now apply IHkids.
Qed.

(** A path ends at a node with the identity asked for. *)
Lemma pathTo_target t n : forall p,
  pathTo t n = Some p -> exists q e, p = q ++ [e] /\ nodeId e = t.
Proof.
  induction n as [i d|i tg a v kids IH] using Node_rect'; intros p.
  - rewrite pathTo_Text. destruct (i =? t) eqn:E; [|discriminate].
    intros F. injection F as <-. exists [], (Text i d).
    split; [reflexivity|]. now apply Nat.eqb_eq.
  - rewrite pathTo_Element. destruct (i =? t) eqn:E.
    + intros F. injection F as <-. exists [], (Element i tg a v kids).
      split; [reflexivity|]. now apply Nat.eqb_eq.
    + destruct (firstSome (pathTo t) kids) as [q|] eqn:F; [|discriminate].
      intros G. injection G as <-.
      assert (H : exists q' e, q = q' ++ [e] /\ nodeId e = t).
      { clear -IH F. induction IH as [|k kids Hk _ IHkids]; [discriminate|].
        cbn [firstSome] in F. destruct (pathTo t k) as [q'|] eqn:G.
        - injection F as ->. now apply Hk.
        - now apply IHkids. }
      destruct H as [q' [e [-> He]]].
      now exists (Element i tg a v kids :: q'), e.
Qed.

Lemma pathTo_found t n p : pathTo t n = Some p -> In t (nodeIds n).
Proof.
  intros H. destruct (pathTo_target _ _ _ H) as [q [e [-> <-]]].
  apply (pathTo_ids _ _ _ e H). apply in_or_app. right. now left.
Qed.

(** A path starts at the node it is looked for in. *)
Lemma pathTo_head t n p : pathTo t n = Some p -> hd_error p = Some n.
Proof.
  destruct n as [i d|i tg a v kids].
  - rewrite pathTo_Text. destruct (i =? t); [|discriminate].
    intros E. now injection E as <-.
  - rewrite pathTo_Element. destruct (i =? t).
    + intros E. now injection E as <-.
    + destruct (firstSome (pathTo t) kids); [|discriminate].
      intros E. now injection E as <-.
Qed.

(** A path is not longer than the tree has elements, its last node apart. *)
Lemma pathTo_length t n : forall p,
  pathTo t n = Some p -> length p <= S (length (elementsOf n)).
Proof.
  induction n as [i d|i tg a v kids IH] using Node_rect'; intros p.
  - rewrite pathTo_Text. destruct (i =? t); [|discriminate].
    intros E. injection E as <-. cbn. lia.
  - rewrite pathTo_Element, elementsOf_Element. destruct (i =? t).
    + intros E. injection E as <-. cbn. lia.
    + destruct (firstSome (pathTo t) kids) as [q|] eqn:F; [|discriminate].
      intros E. injection E as <-. cbn [length].
      assert (H : length q <= S (length (flat_map elementsOf kids))).
      { clear -IH F. induction IH as [|k kids Hk _ IHkids]; [discriminate|].
        cbn [firstSome] in F. cbn [flat_map]. rewrite length_app.
        destruct (pathTo t k) as [q'|] eqn:G.
        - injection F as ->. specialize (Hk _ eq_refl). lia.
        - specialize (IHkids F). lia. }
      lia.
Qed.

(** In a tree of distinct nodes, the path to a node of a path is the start
    of that path. *)
Lemma pathTo_prefix n : forall t p1 x p2,
  NoDup (nodeIds n) ->
  pathTo t n = Some (p1 ++ x :: p2) ->
  pathTo (nodeId x) n = Some (p1 ++ [x]).
Proof.
  induction n as [i d|i tg a v kids IH] using Node_rect';
    intros t p1 x p2 ND.
  - rewrite pathTo_Text. destruct (i =? t); [|discriminate].
    intros E. injection E as E.
    destruct p1 as [|y p1].
    + cbn [app] in E. injection E as <- _. cbn [pathTo nodeId app].
      now rewrite Nat.eqb_refl.
    + destruct p1; discriminate.
  - rewrite pathTo_Element. destruct (i =? t) eqn:Et.
    + intros E. injection E as E. destruct p1 as [|y p1].
      * cbn [app] in E. injection E as <- _.
        rewrite pathTo_Element. cbn [nodeId app]. now rewrite Nat.eqb_refl.
      * destruct p1; discriminate.
    + destruct (firstSome (pathTo t) kids) as [q|] eqn:F; [|discriminate].
      intros E. injection E as E. destruct p1 as [|y p1].
      * cbn [app] in E. injection E as <- _.
        rewrite pathTo_Element. cbn [nodeId app]. now rewrite Nat.eqb_refl.
      * cbn [app] in E. injection E as <- ->.
        rewrite nodeIds_Element in ND. inversion ND as [|? ? Hi ND']. subst.
        rewrite pathTo_Element.
        assert (G : In (nodeId x) (flat_map nodeIds kids)
                    /\ firstSome (pathTo (nodeId x)) kids
                       = Some (p1 ++ [x])).
        { clear Hi ND Et. induction IH as [|k kids Hk _ IHkids];
            [discriminate|].
          cbn [firstSome flat_map] in *.
          destruct (pathTo t k) as [q'|] eqn:Q.
          - injection F as ->.
            assert (Hx : In (nodeId x) (nodeIds k)).
            { apply (pathTo_ids _ _ _ x Q). apply in_or_app. right. now left. }
            split; [apply in_or_app; now left|].
            now rewrite (Hk _ _ _ _ (NoDup_app_remove_r _ _ ND') Q).
          - destruct (IHkids F (NoDup_app_remove_l _ _ ND')) as [Hx G].
            split; [apply in_or_app; now right|].
            destruct (pathTo (nodeId x) k) as [q'|] eqn:Q'; [|exact G].
            exfalso. apply pathTo_found in Q'.
            exact (NoDup_app_disjoint _ _ _ _ ND' Q' Hx). }
        destruct G as [Hx G].
        destruct (i =? nodeId x) eqn:Ex.
        -- apply Nat.eqb_eq in Ex. subst i. contradiction.
        -- now rewrite G.
Qed.

(** Every node of the tree has a path. *)
Lemma pathTo_complete t n : In t (nodeIds n) -> pathTo t n <> None.
Proof.
  induction n as [i d|i tg a v kids IH] using Node_rect'.
  - intros [->|[]]. rewrite pathTo_Text, Nat.eqb_refl. discriminate.
  - rewrite nodeIds_Element, pathTo_Element. intros [->|H].
    + rewrite Nat.eqb_refl. discriminate.
    + destruct (i =? t); [discriminate|].
      assert (G : firstSome (pathTo t) kids <> None).
      { clear -IH H. induction IH as [|k kids Hk _ IHkids]; [destruct H|].
        cbn [flat_map firstSome] in *. apply in_app_or in H.
        destruct (pathTo t k) eqn:Q; [discriminate|].
        destruct H as [H|H]; [now apply Hk in H|now apply IHkids]. }
      destruct (firstSome (pathTo t) kids); [discriminate|contradiction].
Qed.

Lemma firstSome_none A B (f : A -> option B) (l : list A) :
  firstSome f l = None -> forall x, In x l -> f x = None.
Proof.
  induction l as [|y l IH]; intros H x; [intros []|].
  cbn [firstSome] in H. destruct (f y) eqn:E; [discriminate|].
  intros [<-|Hx]; [exact E|now apply IH].
Qed.

(** The walk from a node of a path visits the nodes of the path before it,
    nearest first. *)
Lemma findInParentChainFrom_path (w : Page) (sel : selector) :
  NoDup (nodeIds (root w)) ->
  forall p1 x p2 t fuel,
    pathTo t (root w) = Some (p1 ++ x :: p2) ->
    length p1 <= fuel ->
    findInParentChainFrom fuel w (Some x) sel = firstFound sel (x :: rev p1).
Proof.
  intros ND p1. induction p1 as [|y q IH] using rev_ind;
    intros x p2 t fuel H L.
  - pose proof (pathTo_prefix _ _ _ _ _ ND H) as P. cbn [app] in P.
    unfold firstFound. cbn [rev firstSome].
    destruct fuel as [|f]; cbn [findInParentChainFrom];
      destruct (querySelector sel x); try reflexivity.
    unfold parentElement, inclusiveAncestors. rewrite P. cbn [rev app tl hd_error].
    now destruct f.
  - pose proof (pathTo_prefix _ _ _ _ _ ND H) as P.
    rewrite length_app in L. cbn [length] in L.
    destruct fuel as [|f]; [lia|].
    unfold firstFound. rewrite rev_app_distr. cbn [rev app firstSome].
    cbn [findInParentChainFrom].
    destruct (querySelector sel x); [reflexivity|].
    unfold parentElement, inclusiveAncestors. rewrite P.
    rewrite !rev_app_distr. cbn [rev app tl hd_error].
    rewrite <- app_assoc in H. cbn [app] in H.
    rewrite (IH y (x :: p2) t f H) by lia. reflexivity.
Qed.

(** [findInParentChain] from a node of a document of distinct nodes: the
    result is the first match of the selector below the start element, or
    else below its parent, and so on up to the root element; the walk is
    never cut short.  It is null only when nothing below the root element
    matches, so the result may lie anywhere in the document, also outside
    the start element. *)
Theorem findInParentChain_nearest (w : Page) (startElement : Node)
  (sel : selector) :
  NoDup (nodeIds (root w)) ->
  hd_error (inclusiveAncestors (root w) startElement) = Some startElement ->
  findInParentChain startElement sel w
  = (w, Ok (firstFound sel (inclusiveAncestors (root w) startElement)))
  /\ (In (nodeId startElement) (nodeIds (root w)) ->
      firstFound sel (inclusiveAncestors (root w) startElement) = None ->
      querySelector sel (root w) = None).
Proof.
  intros ND Hs. split.
  - unfold findInParentChain, gets. f_equal. f_equal.
    unfold inclusiveAncestors in *.
    destruct (pathTo (nodeId startElement) (root w)) as [p|] eqn:P.
    + destruct (pathTo_target _ _ _ P) as [q [e [-> He]]].
      rewrite rev_app_distr in Hs. cbn [rev app hd_error] in Hs.
      injection Hs as ->. rewrite rev_app_distr. cbn [rev app].
      apply (findInParentChainFrom_path w sel ND q startElement []
               (nodeId startElement) _ P).
      pose proof (pathTo_length _ _ _ P) as L.
      rewrite length_app in L. cbn [length] in L. lia.
    + unfold firstFound. cbn [firstSome].
      destruct (length (elementsOf (root w))) as [|f];
        cbn [findInParentChainFrom];
        destruct (querySelector sel startElement); try reflexivity.
      unfold parentElement, inclusiveAncestors. rewrite P.
      cbn [tl hd_error]. now destruct f.
  - intros Hin H. unfold inclusiveAncestors in H.
    destruct (pathTo (nodeId startElement) (root w)) as [p|] eqn:P.
    + apply (firstSome_none _ _ _ _ H). apply in_rev. rewrite rev_involutive.
      pose proof (pathTo_head _ _ _ P) as Hh.
      destruct p as [|r p]; [discriminate|]. injection Hh as ->. now left.
    + now apply pathTo_complete in Hin.
Qed.

(* ================================================================== *)
(** * From the page to the clipboard *)
(* ================================================================== *)

Lemma clipboardContent_plain (d : DocInfo) :
  html d = None ->
  clipboardContent d = markdownLink (orEmpty (title d)) (link d).
Proof.
  intros H. unfold clipboardContent, markdownLink. rewrite H.
  destruct (title d) as [[|c s]|]; cbn [orEmpty flat_map app];
    try reflexivity.
  now rewrite escapedTitle_flat_map.
Qed.

Lemma firstWinner_sound (rs : list (str * Rule.t)) (w : Page) name d :
  firstWinner rs w = Some (name, d) ->
  exists rule, In (name, rule) rs
               /\ snd (Rule.isMatch rule w) = Ok true
               /\ snd (Rule.getDocInfo rule w) = Ok d.
Proof.
  induction rs as [|[n r] rest IH]; [discriminate|].
  cbn [firstWinner].
  destruct (snd (Rule.isMatch r w)) as [[|]|e] eqn:Em.
  - destruct (snd (Rule.getDocInfo r w)) as [d'|e] eqn:Ed.
    + intros E. injection E as -> ->. exists r. split; [now left|now split].
    + intros E. destruct (IH E) as [rule [Hin H]]. exists rule.
      split; [now right|exact H].
  - intros E. destruct (IH E) as [rule [Hin H]]. exists rule.
    split; [now right|exact H].
  - intros E. destruct (IH E) as [rule [Hin H]]. exists rule.
    split; [now right|exact H].
Qed.

Lemma slack_by_name rule : In (lit "slack", rule) rules -> rule = slack.
Proof.
  intros Hin. unfold rules in Hin. cbn [In] in Hin.
  repeat (destruct Hin as [Hin|Hin];
          [pose proof (f_equal fst Hin) as Hn;
           pose proof (f_equal snd Hin) as Hr; cbn [fst snd] in Hn, Hr;
           first [ now symmetry
                 | apply (f_equal (fun s => Str.eqb s (lit "slack"))) in Hn;
                   vm_compute in Hn; discriminate ]|]).
  destruct Hin.
Qed.

(** What a page outside the chat client yields has no [html]. *)
Lemma winner_plain (w : Page) name d :
  hostnameIncludes (lit "slack.com") w = false ->
  firstWinner rules w = Some (name, d) -> html d = None.
Proof.
  intros Hs E. destruct (firstWinner_sound _ _ _ _ E) as [rule [Hin [Hm Hd]]].
  destruct (Str.eqb name (lit "slack")) eqn:Q.
  - apply Str_eqb_eq in Q. subst name.
    apply slack_by_name in Hin. subst rule.
    unfold slack in Hm. cbn [Rule.isMatch] in Hm. unfold gets in Hm.
    cbn [snd] in Hm. rewrite Hs in Hm. discriminate.
  - assert (Hn : name <> lit "slack").
    { intros ->. rewrite Str_eqb_refl in Q. discriminate. }
    pose proof (other_rules_plain name rule Hin Hn w
                  (fst (Rule.getDocInfo rule w)) d) as P.
    destruct (Rule.getDocInfo rule w) as [w' r]. cbn [fst snd] in *.
    subst r. now destruct (P eq_refl).
Qed.

(** The main script always has something to copy: [getDocInfo] returns a
    record on every page, and for a record without [html] the strings
    prepared for the clipboard are the Markdown link "[title](link)", with
    a backslash before each square bracket of the title, and the HTML
    link.  On a page whose host name does not contain "slack.com" the
    record has no [html], so such a page is always copied as those two
    links. *)
Theorem plain_pages_copy_links (w : Page) :
  exists d,
    getDocInfo w = (w, Ok d)
    /\ preparedContent w = (w, Ok (clipboardContent d))
    /\ (html d = None ->
        clipboardContent d = markdownLink (orEmpty (title d)) (link d))
    /\ (hostnameIncludes (lit "slack.com") w = false -> html d = None).
Proof.
  pose proof (dispatch_firstWinner rules w (fun x H => H)) as E.
  fold getDocInfo in E.
  eexists. split; [exact E|]. split; [|split].
  - unfold preparedContent, bind. now rewrite E.
  - apply clipboardContent_plain.
  - intros Hs. destruct (firstWinner rules w) as [[name d]|] eqn:F.
    + exact (winner_plain w name d Hs F).
    + reflexivity.
Qed.

Lemma findInParentChain_nearest_witness :
  snd (findInParentChain
         (Examples.el 7 "DIV" [("data-qa", "message_content")%string]
            [Examples.txt 8 "hello"])
         (sel (Some (lit "A")) None [lit "c-timestamp"] [Has (lit "data-ts")])
         Pages.messageListPage)
  = Ok (Some (Examples.el 5 "A"
                [("class", "c-timestamp")%string;
                 ("data-ts", "1753899619.438709")%string;
                 ("href", "https://example.slack.com/archives/C2/p1")%string]
                [])).
Proof.
  assert (ND : NoDup (nodeIds (root Pages.messageListPage))).
  { vm_compute. repeat constructor; simpl; intuition lia. }
  rewrite (proj1 (findInParentChain_nearest Pages.messageListPage
                    (Examples.el 7 "DIV" [("data-qa", "message_content")%string]
                       [Examples.txt 8 "hello"])
                    (sel (Some (lit "A")) None [lit "c-timestamp"]
                       [Has (lit "data-ts")])
                    ND eq_refl)).
  vm_compute. reflexivity.
Defined.

(* ================================================================== *)
(** * The commit rule: the message up to the last separator *)
(* ================================================================== *)

Lemma commitPattern_last (message tail : list N) :
  forallb dot message = true ->
  includes middleDot (32%N :: tail) = false ->
  exists m, exec commitPattern (message ++ middleDot ++ tail) = Some m /\
            groups m = [message].
Proof.
  intros Dm Hi. rewrite exec_commitPattern.
  erewrite (greedy_longest _ _ _ message (middleDot ++ tail) 0).
  2: exact Dm.
  2: { rewrite commit_tail, startsWith_app.
       now rewrite firstn_app_length. }
  2: { intros a' b' E L _. rewrite commit_tail.
       destruct (split_later _ _ _ _ _ E L) as [u [Hu Eu]].
       unfold middleDot in *.
       assert (Z : startsWith [32%N; 183%N; 32%N] b' = false)
         by (apply (no_separator_after 183%N 183%N tail u b'); auto;
             discriminate).
       rewrite Z. reflexivity. }
  eexists. split; reflexivity.
Qed.

(** [githubCommit] on a title "message · tail", where the message is on
    one line and no further " · " starts after that separator: the title
    of the result is the message, so a title with several " · " is cut at
    the last one of its first line.  A title without " · " is returned as
    it is.  The link is the origin and the path of the address. *)
Theorem githubCommit_last_separator (w : Page) (message tail : str) :
  documentTitle w = message ++ middleDot ++ tail ->
  forallb dot message = true ->
  includes middleDot (32%N :: tail) = false ->
  Rule.getDocInfo githubCommit w
  = (w, Ok (linkAndTitle (origin (location w) ++ pathname (location w))
              (Some message)))
  /\ (forall w',
        includes middleDot (documentTitle w') = false ->
        Rule.getDocInfo githubCommit w'
        = (w', Ok (linkAndTitle
                     (origin (location w') ++ pathname (location w'))
                     (Some (documentTitle w'))))).
Proof.
  intros E Dm Hi. split.
  - rewrite githubCommit_result, E.
    destruct (commitPattern_last message tail Dm Hi) as [m [-> G]].
    now rewrite G.
  - intros w' H. rewrite githubCommit_result.
    now rewrite (commitPattern_none _ H).
Qed.

Lemma githubCommit_last_separator_witness :
  snd (Rule.getDocInfo githubCommit Pages.commitPage)
  = Ok (linkAndTitle (lit "https://github.com/figma/figma/commit/b95da06")
          (Some (lit "Fix parser" ++ middleDot ++ lit "round 2"))).
Proof.
  rewrite (proj1 (githubCommit_last_separator Pages.commitPage
                    (lit "Fix parser" ++ middleDot ++ lit "round 2")
                    (lit "figma/figma@b95da06") eq_refl eq_refl eq_refl)).
  reflexivity.
Defined.

(* ================================================================== *)
(** * C2: [getDocInfo] always returns a [DocInfo] *)
(* ================================================================== *)

Lemma firstWinner_none (rs : list (str * Rule.t)) (w : Page) :
  incl rs rules ->
  (forall name rule, In (name, rule) rs -> snd (tryRule rule w) = Ok None) ->
  firstWinner rs w = None.
Proof.
  induction rs as [|[name rule] rest IH]; intros Hin H; [reflexivity|].
  assert (Hr : In (name, rule) rules) by (apply Hin; now left).
  pose proof (H name rule (or_introl eq_refl)) as E.
  rewrite (tryRule_outcome name rule w Hr) in E. cbn [snd] in E.
  cbn [firstWinner].
  assert (IH' : firstWinner rest w = None).
  { apply IH.
    - intros x Hx. apply Hin. now right.
    - intros n r Hx. apply (H n r). now right. }
  destruct (snd (Rule.isMatch rule w)) as [[|]|e]; try exact IH'.
  destruct (snd (Rule.getDocInfo rule w)) as [d|e]; [discriminate|exact IH'].
Qed.

(** C2: [getDocInfo] returns a [DocInfo] on every page and never throws.
    Every turn of the loop catches what the rule's [isMatch] or
    [getDocInfo] throws, for any rule, so the loop over any rule list
    returns too.  When no rule of the list yields a result on the page
    (each one declines or throws), what [getDocInfo] returns is the generic
    fallback [{ link: getUrl(), title: getTitle() }]. *)
Theorem getDocInfo_always_returns (w : Page) :
  (exists d, getDocInfo w = (w, Ok d)) /\
  (forall (rule : Rule.t) (w0 : Page),
     exists w1 outcome, tryRule rule w0 = (w1, Ok outcome)) /\
  (forall (rs : list (str * Rule.t)) (w0 : Page),
     exists w1 d, dispatch rs w0 = (w1, Ok d)) /\
  ((forall name rule, In (name, rule) rules ->
                      snd (tryRule rule w) = Ok None) ->
   getDocInfo w = (w, Ok (linkAndTitle (getUrl w) (Some (getTitle w))))).
Proof.
  pose proof (dispatch_firstWinner rules w (fun x H => H)) as E.
  fold getDocInfo in E.
  split; [eexists; exact E|].
  split; [intros rule w0; apply tryRule_never_throws|].
  split; [intros rs w0; apply dispatch_total|].
  intros H. rewrite E.
  now rewrite (firstWinner_none rules w (fun x Hx => Hx) H).
Qed.

Lemma getDocInfo_always_returns_witness :
  getDocInfo Pages.bookPage
  = (Pages.bookPage,
     Ok (linkAndTitle (lit "https://books.example.org/b/1")
           (Some (lit "Dune")))).
Proof.
  rewrite (proj2 (proj2 (proj2 (getDocInfo_always_returns Pages.bookPage)))).
  - vm_compute. reflexivity.
  - intros name rule Hin. unfold rules in Hin. cbn [In] in Hin.
    repeat (destruct Hin as [Hin|Hin];
            [apply (f_equal snd) in Hin; cbn [snd] in Hin; subst rule;
             vm_compute; reflexivity|]).
    destruct Hin.
Defined.

(* ================================================================== *)
(** * C5: normalised text without an ampersand *)
(* ================================================================== *)

Lemma collapse_In b s x : In x (collapse b s) -> x = 32%N \/ In x s.
Proof.
  revert b. induction s as [|c t IH]; intros b; cbn [collapse]; [tauto|].
  destruct (isWhiteSpace c).
  - destruct b.
    + intros H. destruct (IH _ H); [now left|right; now right].
    + intros [<-|H]; [now left|].
      destruct (IH _ H); [now left|right; now right].
  - intros [<-|H]; [right; now left|].
    destruct (IH _ H); [now left|right; now right].
Qed.

(** In particular [cleanupContent] is idempotent on every input whose
    normalised text has no ampersand. *)
Lemma cleanupContent_idempotent_no_ampersand (s : str) :
  ~ In 38%N (cleanupContent s) ->
  cleanupContent (cleanupContent s) = cleanupContent s.
Proof.
  intros H. destruct s as [|c t]; [reflexivity|].
  remember (cleanupContent (c :: t)) as r eqn:Er.
  destruct r as [|c' t']; [reflexivity|].
  assert (U : forall x, In x (c' :: t') ->
                        x = 32%N \/ In x (textareaValue (c :: t))).
  { intros x Hx. rewrite Er in Hx. unfold cleanupContent in Hx.
    rewrite replaceAll_ws_plus in Hx. apply trim_In in Hx.
    now apply collapse_In in Hx. }
  destruct (textareaValue_units (c :: t)) as [N0 N13].
  assert (P : textareaValue (c' :: t') = c' :: t').
  { apply textareaValue_plain; [exact H| |]; intros Hx;
      destruct (U _ Hx) as [E|E]; try discriminate; tauto. }
  unfold cleanupContent at 1. rewrite P, Er.
  unfold cleanupContent. rewrite !replaceAll_ws_plus.
  apply normalise_idem.
Qed.
